(* ===== verification/_CoqProject ===== *)
-Q . S2P
Prelude.v
GoStrings.v
GoUtf8.v
GoTime.v
GoStrconv.v
GoJson.v
GoFloat.v
GoFormat.v
Rfc3339.v
Session.v
GoMarshal.v
SessionJson.v
GoCrypto.v
Netip.v
GoUrl.v
HttpClient.v
UserCode.v
Pkce.v
Fsm.v
Wire.v
FsmSpec.v
FsmTrace.v
Store.v
Redis.v
Http.v
ClientIP.v
ClientAuth.v
Detect.v
Webhook.v
RateLimit.v
Prog.v
Broker.v
Handlers.v
System.v
Justify.v
Safety.v
Progress.v
Sequential.v
Races.v
Scenario.v
Faithful.v
Shared.v
RedisBroker.v
RedisDemo.v
Client.v
WireTrip.v
Commands.v
EndToEnd.v
Pacing.v
Sshd.v
Oidc.v
Saml.v
Main.v
Startup.v
Deployment.v
DeployDemo.v
RedisDeploy.v
