(* ===== verification/Prelude.v ===== *)
(** * xdauth: a verification development

    xdauth is a broker for cross-device logins.  A client (a CLI, an ssh
    server, a PAM module) starts a session at the broker, shows its user a URL
    and a code, and polls; the user logs in at an identity provider in a
    browser, types the code, approves, and the client's next poll collects an
    artifact that names the user.  This library models the Go program under
    src/ and proves what makes it safe to act on an artifact.

    ** The files, bottom up

    - [Prelude] (this file): results, strings, tactics, hint databases.
    - Go's standard library, as far as the program uses it: [GoStrings] and
      [GoUtf8] (strings, bytes, UTF-8; the Unicode case tables are the class
      [UnicodeCase]), [GoTime] (time.Time as nanoseconds since the zero time,
      int64 durations with wrap-around, saturating Sub, float64 seconds),
      [GoStrconv] and [GoFloat] (decimal integers; float64 to its shortest
      decimal and back), [GoFormat] and [Rfc3339] (dates), [GoJson] (JSON
      documents, printed and scanned), [GoMarshal] (encoding/json on Go
      values: a struct is a table of fields from which both directions are
      derived, with one round-trip theorem for all), [GoCrypto] (SHA-256,
      base64url, hex, ConstantTimeCompare, crypto/rand as an entropy tape),
      [Netip] (net/netip), [GoUrl] (net/url), [HttpClient] and [Http] (the two
      sides of net/http).
    - [UserCode] (internal/broker/usercode.go), [Pkce] (pkce.go and the
      client's newPKCEPair), [Session] (the record of internal/store/store.go).
    - [Fsm]: the session state machine, internal/broker/session.go, function by
      function.  [FsmSpec] gives each operation its specification as rules and
      proves the two equivalent; [FsmTrace] proves the theorems about
      histories of one session.
    - [Store]: the interface of internal/store/store.go with its contract
      (classes [Store], [StoreLaws], [ReliableStore]) and its in-memory
      implementation, on a heap of session objects that share their
      identities, which discharges it.
    - [SessionJson] (the JSON text of a session) and [Redis]
      (internal/store/redis.go): a method of the Redis store is a script of
      commands and clock readings, over the class [RedisServer].
    - [Wire]: the JSON bodies of the API, bytes to structs and back.
    - [ClientIP], [ClientAuth], [Detect], [RateLimit]: the files of the same
      names in internal/broker; [Webhook] is the webhook of detect.go.  The
      token bucket of x/time/rate is the class [RateLimiter].
    - [Prog]: effectful code.  A handler is a program over events, one per
      access to shared state; between two events other handlers may run.
      [run] executes a program alone, [wp] is a weakest precondition under
      arbitrary interference.  The identity provider is the class
      [IdentityProvider] (internal/broker/idp.go).
    - [Broker] (broker.go, log.go, templates.go) and [Handlers] (handlers.go
      and the router): configuration, security events, middlewares, the five
      handlers, statement by statement.
    - [System]: any number of requests served concurrently; a schedule is a
      list of actions (arrival of a request, one event of one thread, a move
      of the clock, an eviction).  It also proves the program logic sound.
      [Justify] says what the existence of a session value proves about the
      past, [Safety] verifies every handler once and draws the theorems that
      hold in all schedules, over any store and provider that meet their
      contracts.
      [Progress]: every request is answered within fourteen turns of its own.
    - [Sequential]: requests served one at a time over a store that does not
      fail; the server then refines the state machine of [Fsm].  [Races]:
      what interleaved requests for one session, or refused writes, can do to
      single use, the limit on guesses and a denial.
    - [Scenario]: one complete login computed over HTTP, and the witnesses.
    - [RedisBroker]: the concurrent broker over Redis, one command at a time:
      a call of the store is no longer one event but its script, and other
      handlers' commands run in between.  [Faithful] says which sessions the
      JSON in Redis does not change and that the operations keep to them,
      [Shared] that every handler writes only such sessions; [RedisDemo] is
      the login of [Scenario] with interleaved commands.
    - [Client] (pkg/client/client.go), [WireTrip] (the two ends of the wire
      agree), [Commands] (cmd/xdauth-pam, xdauth-login, xdauth-pam-native and
      the ssh callback), [EndToEnd] (client and broker together), [Pacing]
      (the poll loop against the session's poll interval), [Sshd]
      (cmd/xdauth-sshd: configuration, handshake, channels).
    - [Oidc] (internal/oidc/oidc.go), [Saml] (internal/saml/saml.go): the two
      identity providers, as instances of the class of [Prog], over classes
      for oauth2, go-oidc, crewjam/saml and X.509.  [Main] and [Startup]
      (cmd/xdauth-broker/main.go): the parsers of the configuration, and the
      command from its environment to the server it listens with.
    - [Deployment]: the started command serving any schedule of requests over
      the in-memory store, [RedisDeploy] over Redis; [DeployDemo]: such a
      command started and run, the witnesses.

    ** What the theorems show

    - One session: its operations have exactly their specified outcomes
      (FsmSpec), follow the documented state diagram, keep the session
      invariant, compare at most five wrong codes, release at most one
      artifact and only after all four checks, and let the legitimate user
      through (FsmTrace).
    - The concurrent broker: in every schedule an artifact answers a poll with
      the right verifier for a session that was started through every gate,
      bound to the hinted identity and approved with code, CSRF token and
      binding secret in time; nothing panics; CSRF tokens and binding secrets
      only reach the browsers entitled to them; responses are hardened
      (Safety), and every request is answered (Progress).  The same safety
      holds over Redis, command by command (RedisBroker), for sessions whose
      texts are UTF-8, whose claims JSON does not change and whose times fall
      at zone offsets of whole minutes.  Served one at a time over a reliable
      store the server refines the state machine and is single use
      (Sequential).  Interleaved, or while the store refuses writes, single use
      and the guess limit are lost for any number of requests: [Get] and
      [Update] are separate calls, and a poll ignores a failed write (Races).
    - The client side: the bytes of both ends agree (WireTrip), the poll loop
      returns exactly the broker's final answer, the programs succeed only on
      "approved" (Client, Commands), a shell only opens after it (Sshd), and
      then the identity collected is the one asked for (EndToEnd).  The waits
      of the loop stay between the interval it starts with and, if that is
      larger, one and a half times the session's, and an obedient client is
      never slowed down (Pacing).
    - The deployed command: it serves only with a base URL, well-formed lists
      and a discovered provider (Startup), and every artifact it hands out names an
      identity that provider signed (Deployment, RedisDeploy, Oidc, Saml).
    - The parts: codes, PKCE, stores, session and event JSON, address
      resolution, allow list, bearer tokens, rate limits, alarms,
      configuration.

    ** Bounds and fuel

    Where recursion is not structural it runs on fuel.  The JSON scanner of
    [GoJson] is given twice the length of the text plus two, and
    [parse_fuel_enough] shows that more changes nothing; beyond ten thousand
    levels it refuses, as Go does.  The chunks of [GoUtf8] take one step per
    byte ([chunks_fuel_enough]).  The IPv6 parser of [Netip] has nine groups,
    one more than an address can hold, and the block loop of SHA-256 one step
    per block of the padded message.  The search for the shortest decimal of a
    float64 tries up to seventeen digits; [float_printable] decides for a given
    number whether what was found reads back.  Handlers are finite trees, so
    [run] is total; [System.run_is_schedule] turns it into a schedule, and
    [Progress] bounds the turns a request needs.  The poll loop, the
    discovery loop and the accept loop recurse over the sequence of outcomes
    of their waits; [None] stands for a poll loop still waiting.

    ** What is not modelled

    The rendering of the HTML templates (the data they are given is kept) and
    chi's path matching (it yields the [endpoint]); signals and the graceful
    shutdown of the commands; the C glue of the PAM module (its outcomes are
    arguments); log output of the commands.  [RedisDeploy] covers the OIDC
    provider only: a SAML attribute with several values is a []string that
    reads back from JSON as a []any, so such an identity is not stored exactly
    ([session_json_roundtrip] says how it changes).  The clock does not move
    within one event. *)

From Stdlib Require Export Ascii.
From stdpp Require Export base gmap strings list fin_maps numbers.

(** Hint and rewrite databases of the development. *)
Create HintDb xdauth.
Create Rewrite HintDb xdauth_rw.

Declare Scope xdauth_scope.
Delimit Scope xdauth_scope with xd.
Open Scope string_scope.
Open Scope Z_scope.

(** ** Results: Go's [(T, error)] pairs *)
Inductive result (A E : Type) :=
  | Ok (a : A)
  | Err (e : E).
Arguments Ok {A E} a.
Arguments Err {A E} e.

#[export] Instance result_eq_dec {A E} `{EqDecision A, EqDecision E} : EqDecision (result A E).
Proof. solve_decision. Defined.

Definition is_ok {A E} (r : result A E) : bool :=
  match r with Ok _ => true | Err _ => false end.

(** ** Tactics *)

(** Case analysis on every [match] of the goal, discharging the
    contradictory branches. *)
Ltac split_cases :=
  repeat (case_match; simplify_eq/=; try done).

(** The same for a hypothesis produced by unfolding an operation. *)
Ltac split_cases_in H :=
  repeat match type of H with
  | context [match ?x with _ => _ end] =>
      let E := fresh "E" in destruct x eqn:E; simplify_eq/=; try done
  end.

(** Turn the boolean comparisons of the code into propositions. *)
Ltac reflect_bool :=
  repeat match goal with
  | H : (_ && _)%bool = true |- _ => apply andb_true_iff in H; destruct H
  | H : (_ || _)%bool = false |- _ => apply orb_false_iff in H; destruct H
  | H : negb _ = true |- _ => apply negb_true_iff in H
  | H : negb _ = false |- _ => apply negb_false_iff in H
  | H : (_ =? _)%Z = true |- _ => apply Z.eqb_eq in H
  | H : (_ =? _)%Z = false |- _ => apply Z.eqb_neq in H
  | H : (_ <? _)%Z = true |- _ => apply Z.ltb_lt in H
  | H : (_ <? _)%Z = false |- _ => apply Z.ltb_ge in H
  | H : (_ <=? _)%Z = true |- _ => apply Z.leb_le in H
  | H : (_ <=? _)%Z = false |- _ => apply Z.leb_gt in H
  | H : bool_decide _ = true |- _ => apply bool_decide_eq_true in H
  | H : bool_decide _ = false |- _ => apply bool_decide_eq_false in H
  end.

(** Linear arithmetic with division and modulo by constants. *)
Ltac divlia := Z.to_euclidean_division_equations; lia.

(** ** Strings: Go strings are byte sequences, so is [string] *)
Definition seqb (a b : string) : bool := bool_decide (a = b).

Lemma seqb_true (a b : string) : seqb a b = true ↔ a = b.
Proof. apply bool_decide_eq_true. Qed.

Lemma seqb_false (a b : string) : seqb a b = false ↔ a ≠ b.
Proof. apply bool_decide_eq_false. Qed.

Lemma seqb_refl (a : string) : seqb a a = true.
Proof. by apply seqb_true. Qed.

#[export] Hint Rewrite seqb_refl : xdauth_rw.

(** Go's [s == ""]. *)
Definition is_empty (s : string) : bool :=
  match s with "" => true | _ => false end.

Lemma is_empty_true s : is_empty s = true ↔ s = "".
Proof. by destruct s. Qed.

Lemma is_empty_false s : is_empty s = false ↔ s ≠ "".
Proof. by destruct s. Qed.

Definition byte_of (c : ascii) : Z := Z.of_N (N_of_ascii c).
Definition ascii_of (z : Z) : ascii := ascii_of_N (Z.to_N z).

Lemma byte_of_range c : 0 ≤ byte_of c < 256.
Proof.
  unfold byte_of. pose proof (N_ascii_bounded c). lia.
Qed.

Lemma ascii_of_byte_of c : ascii_of (byte_of c) = c.
Proof. unfold ascii_of, byte_of. by rewrite N2Z.id, ascii_N_embedding. Qed.

Lemma byte_of_ascii_of z : 0 ≤ z < 256 → byte_of (ascii_of z) = z.
Proof.
  intros. unfold ascii_of, byte_of. rewrite N_ascii_embedding; lia.
Qed.

#[global] Instance byte_of_inj : Inj (=) (=) byte_of.
Proof.
  intros a b H. by rewrite <-(ascii_of_byte_of a), H, ascii_of_byte_of.
Qed.

(** Bytes of a string and back. *)
Fixpoint bytes_of (s : string) : list Z :=
  match s with
  | "" => []
  | String c s' => byte_of c :: bytes_of s'
  end.

Fixpoint string_of_bytes (l : list Z) : string :=
  match l with
  | [] => ""
  | b :: l' => String (ascii_of b) (string_of_bytes l')
  end.

Fixpoint string_all (P : ascii → bool) (s : string) : bool :=
  match s with
  | "" => true
  | String c s' => P c && string_all P s'
  end.

Fixpoint string_map (f : ascii → ascii) (s : string) : string :=
  match s with
  | "" => ""
  | String c s' => String (f c) (string_map f s')
  end.

Definition slen (s : string) : Z := Z.of_nat (String.length s).

Lemma string_of_bytes_of s : string_of_bytes (bytes_of s) = s.
Proof. induction s; simpl; [done|]. by rewrite ascii_of_byte_of, IHs. Qed.

Lemma bytes_of_length s : length (bytes_of s) = String.length s.
Proof. induction s; simpl; congruence. Qed.

Lemma string_of_bytes_length l : String.length (string_of_bytes l) = length l.
Proof. induction l; simpl; congruence. Qed.

Lemma bytes_of_string_of l :
  Forall (λ b, 0 ≤ b < 256) l → bytes_of (string_of_bytes l) = l.
Proof.
  induction 1; simpl; [done|]. by rewrite byte_of_ascii_of, IHForall.
Qed.

Lemma bytes_of_range s : Forall (λ b, 0 ≤ b < 256) (bytes_of s).
Proof. induction s; simpl; constructor; auto using byte_of_range. Qed.

#[global] Instance bytes_of_inj : Inj (=) (=) bytes_of.
Proof.
  intros a b H. by rewrite <-(string_of_bytes_of a), H, string_of_bytes_of.
Qed.

Lemma string_app_cons c a b : String c a +:+ b = String c (a +:+ b).
Proof. reflexivity. Qed.

Lemma string_app_nil_l b : "" +:+ b = b.
Proof. reflexivity. Qed.

#[export] Hint Rewrite string_app_cons string_app_nil_l : xdauth_rw.

Lemma string_all_app P a b :
  string_all P (a +:+ b) = string_all P a && string_all P b.
Proof. induction a; simpl; [done|]. by rewrite IHa, andb_assoc. Qed.

Lemma string_app_length a b :
  String.length (a +:+ b) = (String.length a + String.length b)%nat.
Proof. induction a as [|c a IH]; simpl; [done|]. by rewrite <-IH. Qed.

Lemma string_map_length f s : String.length (string_map f s) = String.length s.
Proof. induction s; simpl; congruence. Qed.

Lemma string_all_impl (P Q : ascii → bool) s :
  (∀ c, P c = true → Q c = true) → string_all P s = true → string_all Q s = true.
Proof.
  intros HPQ. induction s; simpl; [done|]. rewrite !andb_true_iff. naive_solver.
Qed.

(** Decide a statement about every byte by computing it on all 256. *)
Definition all_ascii : list ascii := ascii_of_nat <$> seq 0 256.

Lemma forall_ascii (P : ascii → bool) :
  forallb P all_ascii = true → ∀ c, P c = true.
Proof.
  intros H c. rewrite forallb_forall in H. apply H. apply list_elem_of_In.
  unfold all_ascii. apply list_elem_of_fmap. exists (nat_of_ascii c).
  rewrite ascii_nat_embedding. split; [done|].
  pose proof (nat_ascii_bounded c). apply elem_of_seq. lia.
Qed.

(** The same for an initial segment of the integers. *)
Lemma forall_seqZ (P : Z → bool) n :
  forallb P (seqZ 0 n) = true → ∀ i, 0 ≤ i < n → P i = true.
Proof.
  intros H i Hi. rewrite forallb_forall in H. apply H, list_elem_of_In, elem_of_seqZ. lia.
Qed.

(** A table lookup is injective on the indices it was checked on. *)
Definition inj_upto (f : Z → ascii) (n : Z) : bool :=
  forallb (λ i, forallb (λ j, implb (Ascii.eqb (f i) (f j)) (i =? j)) (seqZ 0 n)) (seqZ 0 n).

Lemma inj_upto_spec f n :
  inj_upto f n = true → ∀ i j, 0 ≤ i < n → 0 ≤ j < n → f i = f j → i = j.
Proof.
  intros H i j Hi Hj Hf. pose proof (forall_seqZ _ _ H i Hi) as H1.
  pose proof (forall_seqZ _ _ H1 j Hj) as H2.
  cbv beta in H2. rewrite Hf, Ascii.eqb_refl in H2. by apply Z.eqb_eq.
Qed.
