(* ===== verification/GoStrings.v ===== *)
(** Go's [strings], [unicode] and [unicode/utf8] functions the program
    calls, on byte strings.  Case mapping of a rune above 127 is a table of
    the Go release ([unicode.CaseRanges]): it is the parameter
    [UnicodeCase]; everything else (UTF-8 decoding with Go's acceptance
    ranges, the ASCII fast paths, the white-space class) is defined here. *)

From S2P Require Import Prelude.

(** [unicode.ToLower] and [unicode.ToUpper] on runes above [unicode.MaxASCII]. *)
Class UnicodeCase := {
  uni_lower : Z → Z;
  uni_upper : Z → Z;
}.

Definition RuneSelf : Z := 128.
Definition RuneError : Z := 65533.

(** ** unicode/utf8 *)

(** Length and range of the second byte of a sequence, by first byte
    ([utf8.first] and [utf8.acceptRanges]). *)
Definition utf8_first (b : Z) : option (nat * Z * Z) :=
  if (194 <=? b) && (b <=? 223) then Some (2%nat, 128, 191)
  else if b =? 224 then Some (3%nat, 160, 191)
  else if b =? 237 then Some (3%nat, 128, 159)
  else if (225 <=? b) && (b <=? 239) then Some (3%nat, 128, 191)
  else if b =? 240 then Some (4%nat, 144, 191)
  else if (241 <=? b) && (b <=? 243) then Some (4%nat, 128, 191)
  else if b =? 244 then Some (4%nat, 128, 143)
  else None.

Definition in_range (lo hi : Z) (c : ascii) : bool :=
  (lo <=? byte_of c) && (byte_of c <=? hi).

(** The runes a [for range] loop over the string yields: an invalid byte
    is [RuneError] of width one. *)
Fixpoint runes (s : string) : list Z :=
  match s with
  | "" => []
  | String c s1 =>
      let b := byte_of c in
      if b <? RuneSelf then b :: runes s1 else
      match utf8_first b with
      | None => RuneError :: runes s1
      | Some (n, lo, hi) =>
          match s1 with
          | "" => RuneError :: runes s1
          | String c1 s2 =>
              if negb (in_range lo hi c1) then RuneError :: runes s1 else
              match n with
              | 2%nat => (b - 192) * 64 + (byte_of c1 - 128) :: runes s2
              | _ =>
                  match s2 with
                  | "" => RuneError :: runes s1
                  | String c2 s3 =>
                      if negb (in_range 128 191 c2) then RuneError :: runes s1 else
                      match n with
                      | 3%nat =>
                          (b - 224) * 4096 + (byte_of c1 - 128) * 64
                            + (byte_of c2 - 128) :: runes s3
                      | _ =>
                          match s3 with
                          | "" => RuneError :: runes s1
                          | String c3 s4 =>
                              if negb (in_range 128 191 c3) then RuneError :: runes s1
                              else (b - 240) * 262144 + (byte_of c1 - 128) * 4096
                                     + (byte_of c2 - 128) * 64 + (byte_of c3 - 128)
                                   :: runes s4
                          end
                      end
                  end
              end
          end
      end
  end.

(** [utf8.AppendRune]: surrogates and out-of-range values encode as [RuneError]. *)
Definition encode_rune (r0 : Z) : string :=
  let r := if (r0 <? 0) || (1114111 <? r0) || ((55296 <=? r0) && (r0 <=? 57343))
           then RuneError else r0 in
  string_of_bytes
    (if r <? 128 then [r]
     else if r <? 2048 then [192 + r / 64; 128 + r mod 64]
     else if r <? 65536 then [224 + r / 4096; 128 + (r / 64) mod 64; 128 + r mod 64]
     else [240 + r / 262144; 128 + (r / 4096) mod 64; 128 + (r / 64) mod 64; 128 + r mod 64]).

(** [strings.Map] with a mapping that is total on runes (a negative result
    drops the rune). *)
Definition strings_Map (f : Z → Z) (s : string) : string :=
  String.concat "" ((λ r, if f r <? 0 then "" else encode_rune (f r)) <$> runes s).

(** ** Case mapping *)
Definition is_ascii_string (s : string) : bool :=
  string_all (λ c, byte_of c <? RuneSelf) s.

Definition lower_byte (c : ascii) : ascii :=
  if in_range 65 90 c then ascii_of (byte_of c + 32) else c.
Definition upper_byte (c : ascii) : ascii :=
  if in_range 97 122 c then ascii_of (byte_of c - 32) else c.

Definition unicode_ToLower `{UnicodeCase} (r : Z) : Z :=
  if r <? RuneSelf then (if (65 <=? r) && (r <=? 90) then r + 32 else r) else uni_lower r.
Definition unicode_ToUpper `{UnicodeCase} (r : Z) : Z :=
  if r <? RuneSelf then (if (97 <=? r) && (r <=? 122) then r - 32 else r) else uni_upper r.

(** [strings.ToLower] / [strings.ToUpper]: bytewise on ASCII strings, else [Map]. *)
Definition ToLower `{UnicodeCase} (s : string) : string :=
  if is_ascii_string s then string_map lower_byte s else strings_Map unicode_ToLower s.
Definition ToUpper `{UnicodeCase} (s : string) : string :=
  if is_ascii_string s then string_map upper_byte s else strings_Map unicode_ToUpper s.

(** ** White space: [unicode.IsSpace] *)
Definition asciiSpace (c : ascii) : bool :=
  in_range 9 13 c || (byte_of c =? 32).

(** Second and third bytes of the three-byte white-space runes U+1680,
    U+2000..U+200A, U+2028, U+2029, U+202F, U+205F and U+3000. *)
Definition space3 (b0 b1 b2 : Z) : bool :=
  ((b0 =? 225) && (b1 =? 154) && (b2 =? 128)) ||
  ((b0 =? 226) && (b1 =? 128) &&
     (((128 <=? b2) && (b2 <=? 138)) || (b2 =? 168) || (b2 =? 169) || (b2 =? 175))) ||
  ((b0 =? 226) && (b1 =? 129) && (b2 =? 159)) ||
  ((b0 =? 227) && (b1 =? 128) && (b2 =? 128)).
Definition space2 (b0 b1 : Z) : bool := (b0 =? 194) && ((b1 =? 133) || (b1 =? 160)).

(** [strings.TrimLeftFunc(s, unicode.IsSpace)]. *)
Fixpoint trim_left_space (s : string) : string :=
  match s with
  | "" => ""
  | String c s1 =>
      if asciiSpace c then trim_left_space s1 else
      match s1 with
      | String c1 s2 =>
          if space2 (byte_of c) (byte_of c1) then trim_left_space s2 else
          match s2 with
          | String c2 s3 =>
              if space3 (byte_of c) (byte_of c1) (byte_of c2) then trim_left_space s3 else s
          | "" => s
          end
      | "" => s
      end
  end.

(** The same from the end, on the reversed byte string. *)
Fixpoint trim_left_space_rev (s : string) : string :=
  match s with
  | "" => ""
  | String c s1 =>
      if asciiSpace c then trim_left_space_rev s1 else
      match s1 with
      | String c1 s2 =>
          if space2 (byte_of c1) (byte_of c) then trim_left_space_rev s2 else
          match s2 with
          | String c2 s3 =>
              if space3 (byte_of c2) (byte_of c1) (byte_of c) then trim_left_space_rev s3 else s
          | "" => s
          end
      | "" => s
      end
  end.

Definition string_rev (s : string) : string := string_of_bytes (reverse (bytes_of s)).

Definition TrimSpace (s : string) : string :=
  string_rev (trim_left_space_rev (string_rev (trim_left_space s))).

(** ** Prefixes, separators and replacement (one-byte separators) *)
Fixpoint HasPrefix (s p : string) : bool :=
  match p, s with
  | "", _ => true
  | String a p', String b s' => Ascii.eqb a b && HasPrefix s' p'
  | String _ _, "" => false
  end.

Fixpoint string_drop (n : nat) (s : string) : string :=
  match n, s with
  | O, _ => s
  | S n', String _ s' => string_drop n' s'
  | S _, "" => ""
  end.

Fixpoint string_take (n : nat) (s : string) : string :=
  match n, s with
  | S n', String c s' => String c (string_take n' s')
  | _, _ => ""
  end.

Definition TrimPrefix (s p : string) : string :=
  if HasPrefix s p then string_drop (String.length p) s else s.

(** [strings.ReplaceAll(s, old, "")] for a one-byte [old]. *)
Fixpoint ReplaceAll_empty (s : string) (old : ascii) : string :=
  match s with
  | "" => ""
  | String c s' =>
      if Ascii.eqb c old then ReplaceAll_empty s' old else String c (ReplaceAll_empty s' old)
  end.

(** [strings.Split(s, sep)] for a one-byte [sep]: never the empty list. *)
Fixpoint Split (s : string) (sep : ascii) : list string :=
  match s with
  | "" => [""]
  | String c s' =>
      if Ascii.eqb c sep then "" :: Split s' sep
      else match Split s' sep with
           | w :: ws => String c w :: ws
           | [] => [String c ""]
           end
  end.

(** Position of the first / last occurrence of a byte. *)
Fixpoint IndexByte (s : string) (c : ascii) : option nat :=
  match s with
  | "" => None
  | String d s' => if Ascii.eqb d c then Some O else S <$> IndexByte s' c
  end.

Fixpoint LastIndexByte (s : string) (c : ascii) : option nat :=
  match s with
  | "" => None
  | String d s' =>
      match LastIndexByte s' c with
      | Some n => Some (S n)
      | None => if Ascii.eqb d c then Some O else None
      end
  end.

(** [strings.TrimRight(s, cutset)] for a one-byte cutset. *)
Fixpoint TrimRight (s : string) (c : ascii) : string :=
  match s with
  | "" => ""
  | String d s' =>
      match TrimRight s' c with
      | "" => if Ascii.eqb d c then "" else String d ""
      | t => String d t
      end
  end.

(** ** Lemmas *)

Lemma ReplaceAll_empty_app a b c :
  ReplaceAll_empty (a +:+ b) c = ReplaceAll_empty a c +:+ ReplaceAll_empty b c.
Proof.
  induction a as [|d a IH]; simpl; [done|]. case_match; [done|]. simpl. by rewrite IH.
Qed.

(** No occurrence of the removed byte is left. *)
Lemma ReplaceAll_empty_none s c :
  string_all (λ d, negb (Ascii.eqb d c)) (ReplaceAll_empty s c) = true.
Proof.
  induction s as [|d s IH]; simpl; [done|]. case_match eqn:E; simpl; [done|].
  by rewrite E.
Qed.

(** A string without the byte is unchanged. *)
Lemma ReplaceAll_empty_id s c :
  string_all (λ d, negb (Ascii.eqb d c)) s = true → ReplaceAll_empty s c = s.
Proof.
  induction s as [|d s IH]; simpl; [done|].
  rewrite andb_true_iff, negb_true_iff. intros [-> ?]. by rewrite IH.
Qed.

Lemma string_map_all (P Q : ascii → bool) f s :
  (∀ c, P c = true → Q (f c) = true) →
  string_all P s = true → string_all Q (string_map f s) = true.
Proof.
  intros HPQ. induction s as [|c s IH]; simpl; [done|].
  rewrite !andb_true_iff. naive_solver.
Qed.

Lemma string_map_id f s :
  string_all (λ c, Ascii.eqb (f c) c) s = true → string_map f s = s.
Proof.
  induction s as [|c s IH]; simpl; [done|].
  rewrite andb_true_iff, Ascii.eqb_eq. intros [-> ?]. by rewrite IH.
Qed.

Lemma string_rev_length s : String.length (string_rev s) = String.length s.
Proof.
  unfold string_rev.
  by rewrite string_of_bytes_length, length_reverse, bytes_of_length.
Qed.

Lemma string_rev_involutive s : string_rev (string_rev s) = s.
Proof.
  unfold string_rev. rewrite bytes_of_string_of.
  - by rewrite reverse_involutive, string_of_bytes_of.
  - apply Forall_reverse, bytes_of_range.
Qed.

Lemma bytes_of_rev s : bytes_of (string_rev s) = reverse (bytes_of s).
Proof.
  unfold string_rev. apply bytes_of_string_of, Forall_reverse, bytes_of_range.
Qed.

(** A first byte that starts no white-space rune stops the trim. *)
Definition no_space_start (c : ascii) : bool :=
  negb (asciiSpace c) && (byte_of c <? 128).

Lemma no_space_start_spec c c1 c2 :
  no_space_start c = true →
  asciiSpace c = false ∧ space2 (byte_of c) (byte_of c1) = false
  ∧ space3 (byte_of c) (byte_of c1) (byte_of c2) = false.
Proof.
  unfold no_space_start, space2, space3. rewrite andb_true_iff, negb_true_iff.
  intros [-> H%Z.ltb_lt]. repeat split.
  - by replace (byte_of c =? 194) with false by (symmetry; apply Z.eqb_neq; lia).
  - repeat match goal with |- context [byte_of c =? ?k] =>
      replace (byte_of c =? k) with false by (symmetry; apply Z.eqb_neq; lia) end.
    done.
Qed.

Lemma trim_left_space_stop c s :
  no_space_start c = true → trim_left_space (String c s) = String c s.
Proof.
  intros H. simpl. destruct s as [|c1 [|c2 s]].
  - by destruct (no_space_start_spec c c c H) as (-> & _).
  - by destruct (no_space_start_spec c c1 c1 H) as (-> & -> & _).
  - by destruct (no_space_start_spec c c1 c2 H) as (-> & -> & ->).
Qed.

(** Same from the end: white-space runes end in a byte [>= 128] or in an
    ASCII space. *)
Lemma trim_left_space_rev_stop c s :
  no_space_start c = true → trim_left_space_rev (String c s) = String c s.
Proof.
  unfold no_space_start. rewrite andb_true_iff, negb_true_iff, Z.ltb_lt.
  intros [Hs H]. simpl. rewrite Hs.
  assert (Hf : ∀ k, 128 ≤ k → (byte_of c =? k) = false)
    by (intros; apply Z.eqb_neq; lia).
  assert (Hl : ∀ k, 128 ≤ k → (k <=? byte_of c) = false)
    by (intros; apply Z.leb_gt; lia).
  destruct s as [|c1 [|c2 s]]; [done|..]; unfold space2, space3;
    rewrite !Hf, ?Hl by lia; rewrite !andb_false_r; done.
Qed.

(** [TrimSpace] leaves a string alone whose bytes are non-space ASCII. *)
Lemma TrimSpace_id s : string_all no_space_start s = true → TrimSpace s = s.
Proof.
  intros H. unfold TrimSpace.
  assert (Hl : trim_left_space s = s).
  { destruct s as [|c s]; [done|]. apply trim_left_space_stop.
    simpl in H. by apply andb_true_iff in H as [? _]. }
  rewrite Hl.
  assert (Hr : string_all no_space_start (string_rev s) = true).
  { clear Hl. unfold string_rev.
    assert (Hall : Forall (λ b, no_space_start (ascii_of b) = true) (bytes_of s)).
    { clear -H. induction s as [|c s IH]; simpl in *; [constructor|].
      apply andb_true_iff in H as [? ?]. constructor; auto. by rewrite ascii_of_byte_of. }
    apply Forall_reverse in Hall. induction Hall; simpl; [done|].
    by rewrite H0, IHHall. }
  destruct (string_rev s) as [|c t] eqn:E.
  - rewrite <-(string_rev_involutive s), E. done.
  - rewrite trim_left_space_rev_stop.
    + by rewrite <-E, string_rev_involutive.
    + simpl in Hr. by apply andb_true_iff in Hr as [? _].
Qed.

(** On ASCII strings the case functions do not depend on the tables. *)
Lemma ToUpper_ascii `{UnicodeCase} s :
  is_ascii_string s = true → ToUpper s = string_map upper_byte s.
Proof. unfold ToUpper. by intros ->. Qed.

Lemma ToLower_ascii `{UnicodeCase} s :
  is_ascii_string s = true → ToLower s = string_map lower_byte s.
Proof. unfold ToLower. by intros ->. Qed.

Lemma Split_nonempty s c : Split s c ≠ [].
Proof. destruct s as [|d s]; simpl; [done|]. repeat case_match; done. Qed.

Lemma HasPrefix_app p s : HasPrefix (p +:+ s) p = true.
Proof.
  induction p as [|c p IH]; simpl; [by destruct s|]. by rewrite Ascii.eqb_refl, IH.
Qed.

Lemma TrimPrefix_app p s : TrimPrefix (p +:+ s) p = s.
Proof.
  unfold TrimPrefix. rewrite HasPrefix_app. by induction p.
Qed.

Lemma HasPrefix_inv s p : HasPrefix s p = true → s = p +:+ TrimPrefix s p.
Proof.
  unfold TrimPrefix. intros H. rewrite H. revert s H.
  induction p as [|c p IH]; intros s; [by destruct s|].
  destruct s as [|d s]; simpl; [done|].
  rewrite andb_true_iff. intros [->%Ascii.eqb_eq Hp]. by rewrite (IH s Hp) at 1.
Qed.
