(* ===== verification/GoUtf8.v ===== *)
(** UTF-8 text as a sequence of chunks: the runes of a string with the bytes
    each was decoded from.  [to_valid] is the coercion [encoding/json]
    applies to text: every invalid byte becomes U+FFFD. *)

From S2P Require Import Prelude GoStrings.

(** [utf8.DecodeRuneInString]: the first rune and the bytes it covers. *)
Definition first_chunk (s : string) : Z * string :=
  match s with
  | "" => (RuneError, "")
  | String c s1 =>
      let bad := (RuneError, String c "") in
      let b := byte_of c in
      if b <? RuneSelf then (b, String c "") else
      match utf8_first b, s1 with
      | Some (n, lo, hi), String c1 s2 =>
          if negb (in_range lo hi c1) then bad else
          match n, s2 with
          | 2%nat, _ => ((b - 192) * 64 + (byte_of c1 - 128), String c (String c1 ""))
          | _, "" => bad
          | _, String c2 s3 =>
              if negb (in_range 128 191 c2) then bad else
              match n, s3 with
              | 3%nat, _ => ((b - 224) * 4096 + (byte_of c1 - 128) * 64 + (byte_of c2 - 128),
                             String c (String c1 (String c2 "")))
              | _, "" => bad
              | _, String c3 _ =>
                  if negb (in_range 128 191 c3) then bad else
                  ((b - 240) * 262144 + (byte_of c1 - 128) * 4096
                     + (byte_of c2 - 128) * 64 + (byte_of c3 - 128),
                   String c (String c1 (String c2 (String c3 ""))))
              end
          end
      | _, _ => bad
      end
  end.

Fixpoint chunks_fuel (n : nat) (s : string) : list (Z * string) :=
  match n, s with
  | S n', String _ _ =>
      let ch := first_chunk s in
      ch :: chunks_fuel n' (string_drop (String.length ch.2) s)
  | _, _ => []
  end.

(** One step per byte is enough: a chunk is never empty. *)
Definition chunks (s : string) : list (Z * string) := chunks_fuel (String.length s) s.

(** An ASCII byte or a well-formed sequence, as opposed to an invalid byte. *)
Definition valid_chunk (ch : Z * string) : bool :=
  (ch.1 <? RuneSelf) || (1 <? String.length ch.2)%nat.

(** [utf8.ValidString]. *)
Definition ValidString (s : string) : bool := forallb valid_chunk (chunks s).

Definition to_valid (s : string) : string := String.concat "" (encode_rune <$> runes s).

(** ** Lemmas *)
Lemma string_app_assoc a b c : a +:+ (b +:+ c) = (a +:+ b) +:+ c.
Proof. induction a as [|x a IH]; [done|]. rewrite !string_app_cons. by f_equal. Qed.

Lemma string_app_nil_r a : a +:+ "" = a.
Proof. induction a as [|x a IH]; [done|]. rewrite string_app_cons. by f_equal. Qed.

Lemma concat_empty_cons x l : String.concat "" (x :: l) = x +:+ String.concat "" l.
Proof. destruct l; simpl; [by rewrite string_app_nil_r|done]. Qed.

Lemma string_drop_app a b : string_drop (String.length a) (a +:+ b) = b.
Proof. by induction a. Qed.

Lemma string_drop_prefix s a b : s = a +:+ b → string_drop (String.length a) s = b.
Proof. intros ->. apply string_drop_app. Qed.

(** The five shapes of a first chunk. *)
Inductive chunk_spec : string → Z * string → Prop :=
  | chunk_ascii c s : byte_of c < 128 → chunk_spec (String c s) (byte_of c, String c "")
  | chunk_bad c s : 128 ≤ byte_of c → chunk_spec (String c s) (RuneError, String c "")
  | chunk_2 c c1 s lo hi : utf8_first (byte_of c) = Some (2%nat, lo, hi) →
      in_range lo hi c1 = true →
      chunk_spec (String c (String c1 s))
        ((byte_of c - 192) * 64 + (byte_of c1 - 128), String c (String c1 ""))
  | chunk_3 c c1 c2 s lo hi : utf8_first (byte_of c) = Some (3%nat, lo, hi) →
      in_range lo hi c1 = true → in_range 128 191 c2 = true →
      chunk_spec (String c (String c1 (String c2 s)))
        ((byte_of c - 224) * 4096 + (byte_of c1 - 128) * 64 + (byte_of c2 - 128),
         String c (String c1 (String c2 "")))
  | chunk_4 c c1 c2 c3 s lo hi : utf8_first (byte_of c) = Some (4%nat, lo, hi) →
      in_range lo hi c1 = true → in_range 128 191 c2 = true → in_range 128 191 c3 = true →
      chunk_spec (String c (String c1 (String c2 (String c3 s))))
        ((byte_of c - 240) * 262144 + (byte_of c1 - 128) * 4096 + (byte_of c2 - 128) * 64
           + (byte_of c3 - 128), String c (String c1 (String c2 (String c3 "")))).

(** First bytes of sequences: at least 194, and of length 2, 3 or 4. *)
Lemma utf8_first_bounds b n lo hi : utf8_first b = Some (n, lo, hi) →
  128 ≤ lo ∧ hi ≤ 191 ∧
  (n = 2%nat ∧ 194 ≤ b ≤ 223 ∨
   n = 3%nat ∧ 224 ≤ b ≤ 239 ∧ (b = 224 → lo = 160) ∧ (b = 237 → hi = 159) ∨
   n = 4%nat ∧ 240 ≤ b ≤ 244 ∧ (b = 240 → lo = 144) ∧ (b = 244 → hi = 143)).
Proof.
  unfold utf8_first. intros H. repeat case_match; simplify_eq; reflect_bool; lia.
Qed.

Lemma first_chunk_spec c s : chunk_spec (String c s) (first_chunk (String c s)).
Proof.
  cbn [first_chunk]. unfold RuneSelf. destruct (byte_of c <? 128) eqn:Eb; reflect_bool;
    [by constructor|].
  assert (Hbad : ∀ t, chunk_spec (String c t) (RuneError, String c "")) by (by constructor).
  destruct (utf8_first (byte_of c)) as [[[n lo] hi]|] eqn:Ef; [|done].
  destruct s as [|c1 s]; [done|].
  destruct (in_range lo hi c1) eqn:E1; [|done]. cbn [negb].
  pose proof (utf8_first_bounds _ _ _ _ Ef) as (_ & _ & [(-> & _)|[(-> & _)|(-> & _)]]);
    [by econstructor| |]; destruct s as [|c2 s]; try done;
    (destruct (in_range 128 191 c2) eqn:E2; [|done]); cbn [negb]; [by econstructor|].
  destruct s as [|c3 s]; [done|]. destruct (in_range 128 191 c3) eqn:E3; [|done].
  by econstructor.
Qed.

(** A chunk is a prefix of the string it was taken from. *)
Lemma first_chunk_prefix s : s ≠ "" →
  ∃ rest, s = (first_chunk s).2 +:+ rest ∧ (first_chunk s).2 ≠ "".
Proof.
  destruct s as [|c s1]; [done|]. intros _.
  destruct (first_chunk_spec c s1); by eexists.
Qed.

Lemma chunks_fuel_enough n m s : (String.length s ≤ n)%nat → (String.length s ≤ m)%nat →
  chunks_fuel n s = chunks_fuel m s.
Proof.
  revert m s. induction n as [|n IH]; intros [|m] [|c s] Hn Hm; simpl in Hn, Hm; try done; try lia.
  cbn [chunks_fuel]. destruct (first_chunk_prefix (String c s)) as (rest & Heq & Hne); [done|].
  set (ch := first_chunk (String c s)) in *. f_equal.
  rewrite Heq, string_drop_app. apply (f_equal String.length) in Heq.
  rewrite string_app_length in Heq. simpl in Heq.
  destruct ch.2; [done|]. simpl in Heq. apply IH; lia.
Qed.

(** The string is its first chunk and the rest. *)
Lemma chunks_step s : s ≠ "" → ∃ rest, s = (first_chunk s).2 +:+ rest ∧
  (String.length rest < String.length s)%nat ∧ chunks s = first_chunk s :: chunks rest.
Proof.
  intros Hs. destruct (first_chunk_prefix s Hs) as (rest & Heq & Hne).
  pose proof (f_equal String.length Heq) as Hl. rewrite string_app_length in Hl.
  destruct (first_chunk s).2 as [|x b] eqn:Eb; [done|]. simpl in Hl.
  exists rest. split; [done|]. split; [lia|].
  unfold chunks. destruct s as [|c s]; [done|]. cbn [String.length chunks_fuel].
  rewrite Eb. f_equal. rewrite Heq at 1. rewrite <-Eb, Eb, string_drop_app.
  simpl in Hl. apply chunks_fuel_enough; simpl; lia.
Qed.

Lemma chunks_ind (P : string → Prop) :
  P "" → (∀ s rest, s ≠ "" → s = (first_chunk s).2 +:+ rest →
    chunks s = first_chunk s :: chunks rest → P rest → P s) → ∀ s, P s.
Proof.
  intros H0 HS s. remember (String.length s) as n eqn:Hn. revert s Hn.
  induction n as [n IH] using (well_founded_induction Nat.lt_wf_0). intros s ->.
  destruct (decide (s = "")) as [->|Hs]; [done|].
  destruct (chunks_step s Hs) as (rest & Heq & Hl & Hc). eapply HS; eauto.
Qed.

(** [runes] is the first component of [chunks]. *)
Lemma runes_step s : s ≠ "" →
  runes s = (first_chunk s).1 :: runes (string_drop (String.length (first_chunk s).2) s).
Proof.
  destruct s as [|c s]; [done|]. intros _. cbn [runes first_chunk].
  destruct (byte_of c <? RuneSelf); [done|].
  destruct (utf8_first (byte_of c)) as [[[n lo] hi]|]; [|done].
  destruct s as [|c1 s]; [done|]. destruct (in_range lo hi c1); [|done]. cbn [negb].
  destruct n as [|[|[|[|n]]]]; try done; (destruct s as [|c2 s]; [done|]);
    (destruct (in_range 128 191 c2); [|done]); cbn [negb]; try done;
    (destruct s as [|c3 s]; [done|]); by destruct (in_range 128 191 c3).
Qed.

Lemma runes_chunks s : runes s = (chunks s).*1.
Proof.
  induction s as [|s rest Hs Heq Hc IH] using chunks_ind; [done|].
  rewrite runes_step, Hc, (string_drop_prefix _ _ _ Heq) by done. csimpl. by rewrite IH.
Qed.

Lemma concat_chunks s : String.concat "" (chunks s).*2 = s.
Proof.
  induction s as [|s rest Hs Heq Hc IH] using chunks_ind; [done|].
  rewrite Hc, fmap_cons, concat_empty_cons, IH. by symmetry.
Qed.

(** A valid chunk is recognised whatever follows. *)
Lemma first_chunk_app s rest : valid_chunk (first_chunk s) = true →
  first_chunk ((first_chunk s).2 +:+ rest) = first_chunk s.
Proof.
  destruct s as [|x t]; [done|].
  destruct (first_chunk_spec x t) as [c s Hb|c s Hb|c c1 s lo hi Hf H1
    |c c1 c2 s lo hi Hf H1 H2|c c1 c2 c3 s lo hi Hf H1 H2 H3]; intros Hv.
  2: { by unfold valid_chunk in Hv. }
  1: { simpl. unfold RuneSelf. by rewrite (proj2 (Z.ltb_lt _ _) Hb). }
  all: pose proof (utf8_first_bounds _ _ _ _ Hf) as (_ & _ & Hb);
    cbn [snd fst]; rewrite !string_app_cons; cbn [first_chunk];
    rewrite Hf, H1, ?H2, ?H3; cbn [negb];
    by rewrite (proj2 (Z.ltb_ge _ _)) by (unfold RuneSelf; lia).
Qed.

(** Dropping a valid first chunk. *)
Lemma chunks_app s rest : valid_chunk (first_chunk s) = true → s ≠ "" →
  chunks ((first_chunk s).2 +:+ rest) = first_chunk s :: chunks rest.
Proof.
  intros Hv Hs. destruct (first_chunk_prefix s Hs) as (t & _ & Hne).
  assert (Ha : (first_chunk s).2 +:+ rest ≠ "") by (by destruct (first_chunk s).2).
  destruct (chunks_step _ Ha) as (r & Heq & _ & ->). rewrite first_chunk_app in * by done.
  f_equal. apply (f_equal (string_drop (String.length (first_chunk s).2))) in Heq.
  rewrite !string_drop_app in Heq. by rewrite Heq.
Qed.

(** Decoding inverts encoding, on every rune there is. *)
Definition is_rune (r : Z) : Prop := 0 ≤ r ≤ 1114111 ∧ ¬ (55296 ≤ r ≤ 57343).

Lemma in_range_of lo hi z : lo ≤ z ≤ hi → 0 ≤ z < 256 → in_range lo hi (ascii_of z) = true.
Proof. intros. unfold in_range. rewrite byte_of_ascii_of by lia. lia. Qed.

Lemma utf8_first_2 b : 194 ≤ b ≤ 223 → utf8_first b = Some (2%nat, 128, 191).
Proof. intros. unfold utf8_first. by replace ((194 <=? b) && (b <=? 223)) with true by lia. Qed.

Lemma utf8_first_3 b : 224 ≤ b ≤ 239 →
  utf8_first b = Some (3%nat, if b =? 224 then 160 else 128, if b =? 237 then 159 else 191).
Proof.
  intros. unfold utf8_first. replace ((194 <=? b) && (b <=? 223)) with false by lia.
  destruct (b =? 224) eqn:E1; reflect_bool; [by subst|].
  destruct (b =? 237) eqn:E2; [done|]. by replace ((225 <=? b) && (b <=? 239)) with true by lia.
Qed.

Lemma utf8_first_4 b : 240 ≤ b ≤ 244 →
  utf8_first b = Some (4%nat, if b =? 240 then 144 else 128, if b =? 244 then 143 else 191).
Proof.
  intros. assert (b = 240 ∨ b = 241 ∨ b = 242 ∨ b = 243 ∨ b = 244) as Hb by lia.
  by destruct Hb as [->|[->|[->|[->| ->]]]].
Qed.

Lemma first_chunk_encode r rest : is_rune r →
  first_chunk (encode_rune r +:+ rest) = (r, encode_rune r).
Proof.
  unfold is_rune. intros [Hr Hs]. unfold encode_rune.
  replace ((r <? 0) || (1114111 <? r) || (55296 <=? r) && (r <=? 57343)) with false by lia.
  cbv zeta. destruct (r <? 128) eqn:E1; reflect_bool.
  { cbn [string_of_bytes]. rewrite !string_app_cons, string_app_nil_l. cbn [first_chunk].
    rewrite byte_of_ascii_of by lia. unfold RuneSelf. by rewrite (proj2 (Z.ltb_lt _ _) E1). }
  destruct (r <? 2048) eqn:E2; reflect_bool; [|destruct (r <? 65536) eqn:E3; reflect_bool];
    cbn [string_of_bytes]; rewrite !string_app_cons, string_app_nil_l; cbn [first_chunk];
    rewrite !byte_of_ascii_of by divlia;
    rewrite (proj2 (Z.ltb_ge _ _)) by (unfold RuneSelf; divlia).
  - rewrite utf8_first_2 by divlia. rewrite in_range_of by divlia. cbn [negb]. f_equal. divlia.
  - rewrite utf8_first_3 by divlia. rewrite in_range_of; cycle 1.
    { destruct (_ =? 224) eqn:E4; destruct (_ =? 237) eqn:E5; reflect_bool; divlia. }
    { divlia. }
    rewrite in_range_of by divlia. cbn [negb]. f_equal. divlia.
  - rewrite utf8_first_4 by divlia. rewrite in_range_of; cycle 1.
    { destruct (_ =? 240) eqn:E4; destruct (_ =? 244) eqn:E5; reflect_bool; divlia. }
    { divlia. }
    rewrite !in_range_of by divlia. cbn [negb]. f_equal. divlia.
Qed.

(** Every decoded rune is one, and a valid chunk is its encoding. *)
Lemma encode_rune_eq r l s : is_rune r →
  string_of_bytes
    (if r <? 128 then [r]
     else if r <? 2048 then [192 + r / 64; 128 + r mod 64]
     else if r <? 65536 then [224 + r / 4096; 128 + (r / 64) mod 64; 128 + r mod 64]
     else [240 + r / 262144; 128 + (r / 4096) mod 64; 128 + (r / 64) mod 64; 128 + r mod 64])
  = string_of_bytes l → string_of_bytes l = s → encode_rune r = s.
Proof.
  unfold is_rune, encode_rune. intros [? ?] He <-.
  by replace ((r <? 0) || (1114111 <? r) || (55296 <=? r) && (r <=? 57343)) with false by lia.
Qed.

Lemma in_range_true lo hi c : in_range lo hi c = true → lo ≤ byte_of c ≤ hi.
Proof. unfold in_range. lia. Qed.

Lemma chunk_rune s : s ≠ "" → is_rune (first_chunk s).1 ∧
  (valid_chunk (first_chunk s) = true → encode_rune (first_chunk s).1 = (first_chunk s).2).
Proof.
  destruct s as [|x t]; [done|]. intros _.
  destruct (first_chunk_spec x t) as [c s Hb|c s Hb|c c1 s lo hi Hf H1
    |c c1 c2 s lo hi Hf H1 H2|c c1 c2 c3 s lo hi Hf H1 H2 H3]; cbn [fst snd].
  - pose proof (byte_of_range c). assert (Hr : is_rune (byte_of c)) by (unfold is_rune; lia).
    split; [done|]. intros _. apply (encode_rune_eq _ [byte_of c]); [done| |].
    + by rewrite (proj2 (Z.ltb_lt _ _) Hb).
    + simpl. by rewrite ascii_of_byte_of.
  - split; [unfold is_rune, RuneError; lia|done].
  - pose proof (utf8_first_bounds _ _ _ _ Hf). apply in_range_true in H1.
    set (r := _ + _). assert (Hr : 128 ≤ r < 2048) by (unfold r; lia).
    assert (is_rune r) by (unfold is_rune; lia). split; [done|]. intros _.
    apply (encode_rune_eq _ [byte_of c; byte_of c1]); [done| |simpl; by rewrite !ascii_of_byte_of].
    replace (r <? 128) with false by lia. replace (r <? 2048) with true by lia.
    do 2 f_equal; [unfold r; divlia|]. f_equal. unfold r; divlia.
  - pose proof (utf8_first_bounds _ _ _ _ Hf). apply in_range_true in H1, H2.
    set (r := _ + _). assert (Hr : 2048 ≤ r < 65536 ∧ ¬ (55296 ≤ r ≤ 57343)) by (unfold r; lia).
    assert (is_rune r) by (unfold is_rune; lia). split; [done|]. intros _.
    apply (encode_rune_eq _ [byte_of c; byte_of c1; byte_of c2]);
      [done| |simpl; by rewrite !ascii_of_byte_of].
    replace (r <? 128) with false by lia. replace (r <? 2048) with false by lia.
    replace (r <? 65536) with true by lia.
    do 2 f_equal; [unfold r; divlia|]. f_equal; [unfold r; divlia|]. f_equal. unfold r; divlia.
  - pose proof (utf8_first_bounds _ _ _ _ Hf). apply in_range_true in H1, H2, H3.
    set (r := _ + _). assert (Hr : 65536 ≤ r ≤ 1114111) by (unfold r; lia).
    assert (is_rune r) by (unfold is_rune; lia). split; [done|]. intros _.
    apply (encode_rune_eq _ [byte_of c; byte_of c1; byte_of c2; byte_of c3]);
      [done| |simpl; by rewrite !ascii_of_byte_of].
    replace (r <? 128) with false by lia. replace (r <? 2048) with false by lia.
    replace (r <? 65536) with false by lia.
    do 2 f_equal; [unfold r; divlia|]. f_equal; [unfold r; divlia|].
    f_equal; [unfold r; divlia|]. f_equal. unfold r; divlia.
Qed.

(** ** Coercion to valid text *)
Lemma to_valid_step s rest : s ≠ "" → chunks s = first_chunk s :: chunks rest →
  to_valid s = encode_rune (first_chunk s).1 +:+ to_valid rest.
Proof.
  intros Hs Hc. unfold to_valid. rewrite !runes_chunks, Hc. rewrite !fmap_cons.
  by rewrite concat_empty_cons.
Qed.

Lemma to_valid_id s : ValidString s = true → to_valid s = s.
Proof.
  unfold ValidString. induction s as [|s rest Hs Heq Hc IH] using chunks_ind; [done|].
  rewrite Hc. cbn [forallb]. rewrite andb_true_iff. intros [Hv Hr].
  rewrite (to_valid_step _ _ Hs Hc), IH by done.
  by rewrite (proj2 (chunk_rune s Hs) Hv), <-Heq.
Qed.

Lemma chunks_encode r rest : is_rune r →
  chunks (encode_rune r +:+ rest) = (r, encode_rune r) :: chunks rest.
Proof.
  intros Hr. pose proof (first_chunk_encode r rest Hr) as Hf.
  assert (Hne : encode_rune r +:+ rest ≠ "").
  { intros E. rewrite E in Hf. simpl in Hf. by simplify_eq. }
  destruct (chunks_step _ Hne) as (t & Heq & _ & ->). rewrite Hf in *. f_equal.
  apply (f_equal (string_drop (String.length (encode_rune r)))) in Heq.
  cbn [snd] in Heq. rewrite !string_drop_app in Heq. by rewrite Heq.
Qed.

Lemma valid_encode r : is_rune r → valid_chunk (r, encode_rune r) = true.
Proof.
  unfold is_rune. intros [? ?]. unfold valid_chunk, encode_rune. cbn [fst snd].
  replace ((r <? 0) || (1114111 <? r) || (55296 <=? r) && (r <=? 57343)) with false by lia.
  cbv zeta. rewrite string_of_bytes_length. unfold RuneSelf.
  destruct (r <? 128); [done|]. by repeat case_match.
Qed.

(** The coercion always yields valid text, so it is idempotent. *)
Lemma to_valid_valid s : ValidString (to_valid s) = true.
Proof.
  unfold ValidString. induction s as [|s rest Hs Heq Hc IH] using chunks_ind; [done|].
  rewrite (to_valid_step _ _ Hs Hc), chunks_encode by (by apply chunk_rune).
  cbn [forallb]. by rewrite IH, valid_encode by (by apply chunk_rune).
Qed.

Lemma ValidString_to_valid s : ValidString s = true ↔ to_valid s = s.
Proof. split; [apply to_valid_id|]. intros <-. apply to_valid_valid. Qed.

(** ASCII text is valid. *)
Lemma ascii_valid s : is_ascii_string s = true → ValidString s = true.
Proof.
  unfold ValidString. induction s as [|s rest Hs Heq Hc IH] using chunks_ind; [done|].
  intros Ha. rewrite Hc. cbn [forallb]. rewrite Heq in Ha.
  unfold is_ascii_string in *. rewrite string_all_app in Ha.
  apply andb_true_iff in Ha as [Ha Hr]. rewrite (IH Hr), andb_true_r.
  destruct s as [|c s]; [done|]. cbn [first_chunk] in *.
  destruct (byte_of c <? RuneSelf) eqn:E; [unfold valid_chunk; simpl; by rewrite E|].
  exfalso. pose proof (first_chunk_prefix (String c s) Hs) as (t & Ht & Hn).
  cbn [first_chunk] in Ht, Hn. rewrite E in Ht, Hn. destruct (_ : Z * string).2 as [|d b]; [done|].
  injection Ht as <- _. simpl in Ha. by rewrite E in Ha.
Qed.
