(* ===== verification/GoTime.v ===== *)
(** Go's [time.Time] and [time.Duration].  A [Time] is a count of
    nanoseconds since the zero [Time] (so [IsZero] is [= 0]); a [Duration]
    is an [int64] count of nanoseconds, whose arithmetic wraps, except for
    [Time.Sub], which saturates.  [Duration.Seconds] is a [float64], computed
    here with the kernel-independent binary64 operations of [SpecFloat]. *)

From Corelib Require Import SpecFloat.
From S2P Require Import Prelude.

Definition Time := Z.
Definition Duration := Z.

Definition min_int64 : Z := -9223372036854775808.
Definition max_int64 : Z := 9223372036854775807.
Definition is_int64 (z : Z) : Prop := min_int64 ≤ z ≤ max_int64.

(** Two's complement wrap-around of [int64] arithmetic. *)
Definition wrap64 (z : Z) : Z :=
  (z + 9223372036854775808) mod 18446744073709551616 - 9223372036854775808.

Definition Nanosecond : Duration := 1.
Definition Millisecond : Duration := 1000000.
Definition Second : Duration := 1000000000.
Definition Minute : Duration := 60 * Second.

(** [a * b] and [a + b] on durations. *)
Definition Duration_mul (a b : Duration) : Duration := wrap64 (a * b).
Definition Duration_add (a b : Duration) : Duration := wrap64 (a + b).

Definition IsZero (t : Time) : bool := t =? 0.
Definition After (t u : Time) : bool := u <? t.
Definition Add (t : Time) (d : Duration) : Time := t + d.

(** [t.Sub(u)] saturates at the ends of [int64]. *)
Definition Sub (t u : Time) : Duration :=
  let d := t - u in
  if d <? min_int64 then min_int64 else if max_int64 <? d then max_int64 else d.

(** ** [Duration.Seconds] and [int(float64)] *)
Definition float64 := spec_float.
Definition float64_of_Z (z : Z) : float64 := binary_normalize 53 1024 z 0 false.
Definition float64_add : float64 → float64 → float64 := SFadd 53 1024.
Definition float64_div : float64 → float64 → float64 := SFdiv 53 1024.

(** Truncation towards zero; every value the program converts is in range. *)
Definition int_of_float64 (f : float64) : Z :=
  match f with
  | S754_finite s m e =>
      let v := if 0 <=? e then Z.pos m * 2 ^ e else Z.pos m / 2 ^ (- e) in
      if s then - v else v
  | _ => 0
  end.

Definition Seconds (d : Duration) : float64 :=
  float64_add (float64_of_Z (Z.quot d Second))
              (float64_div (float64_of_Z (Z.rem d Second)) (float64_of_Z Second)).

(** [int(d.Seconds())]. *)
Definition int_Seconds (d : Duration) : Z := int_of_float64 (Seconds d).

Example int_Seconds_ttl : int_Seconds (5 * Minute) = 300.
Proof. vm_compute. reflexivity. Qed.
Example int_Seconds_frac : int_Seconds 2999999999 = 2.
Proof. vm_compute. reflexivity. Qed.

(** ** Lemmas *)
Lemma wrap64_id z : is_int64 z → wrap64 z = z.
Proof.
  unfold is_int64, min_int64, max_int64, wrap64. intros.
  rewrite Z.mod_small; lia.
Qed.

Lemma wrap64_range z : is_int64 (wrap64 z).
Proof.
  unfold is_int64, min_int64, max_int64, wrap64.
  pose proof (Z.mod_pos_bound (z + 9223372036854775808) 18446744073709551616). lia.
Qed.

Lemma Sub_exact t u : is_int64 (t - u) → Sub t u = t - u.
Proof.
  unfold is_int64, Sub, min_int64, max_int64. intros.
  case_match; reflect_bool; [lia|]. case_match; reflect_bool; lia.
Qed.

Lemma Sub_range t u : is_int64 (Sub t u).
Proof.
  unfold is_int64, Sub, min_int64, max_int64.
  case_match; reflect_bool; [lia|]. case_match; reflect_bool; lia.
Qed.

(** Saturation does not change the outcome of a comparison with an [int64]
    other than the least one. *)
Lemma Sub_lt t u d : min_int64 < d ≤ max_int64 → (Sub t u <? d) = (t - u <? d).
Proof.
  unfold Sub, min_int64, max_int64. intros.
  case_match; reflect_bool; [|case_match; reflect_bool];
    apply eq_true_iff_eq; rewrite !Z.ltb_lt; lia.
Qed.

Lemma After_Add_false t d : 0 ≤ d → After t (Add t d) = false.
Proof. unfold After, Add. intros. apply Z.ltb_ge. lia. Qed.
