(* ===== verification/GoStrconv.v ===== *)
(** Go's [strconv] on integers: [FormatInt], [Atoi] and the fixed-width
    decimal fields of the [time] package. *)

From stdpp Require Import pretty.
From S2P Require Import Prelude GoTime.

(** ** Decimal digits *)
Definition is_digit (c : ascii) : bool := (48 <=? byte_of c) && (byte_of c <=? 57).

Fixpoint atoi_digits (s : string) (acc : Z) : option Z :=
  match s with
  | "" => Some acc
  | String c s' =>
      let b := byte_of c in
      if (48 <=? b) && (b <=? 57) then atoi_digits s' (acc * 10 + (b - 48)) else None
  end.

(** [strconv.Atoi]: an optional sign and decimal digits, within [int64]. *)
Definition Atoi (s : string) : option Z :=
  let '(neg, digits) := match s with
    | String "-" d => (true, d)
    | String "+" d => (false, d)
    | _ => (false, s)
    end in
  if is_empty digits then None else
  match atoi_digits digits 0 with
  | None => None
  | Some n =>
      let v := if (neg : bool) then - n else n in
      if (min_int64 <=? v) && (v <=? max_int64) then Some v else None
  end.

(** [strconv.FormatInt(z, 10)]. *)
Definition FormatInt (z : Z) : string :=
  if z <? 0 then String "-" (pretty (Z.to_N (- z))) else pretty (Z.to_N z).

(** Decimal digits of [z], at least [w] of them. *)
Fixpoint pad_digits (w : nat) (z : Z) : string :=
  match w with
  | O => ""
  | S w' => pad_digits w' (z / 10) +:+ String (ascii_of (48 + z mod 10)) ""
  end.

(** ** Lemmas *)
Lemma atoi_digits_app a b acc :
  atoi_digits (a +:+ b) acc = atoi_digits a acc ≫= atoi_digits b.
Proof.
  revert acc. induction a as [|c a IH]; intros acc; simpl; [done|]. by case_match.
Qed.

Lemma digit_range z : 0 ≤ z mod 10 < 10.
Proof. apply Z.mod_pos_bound. lia. Qed.

Lemma is_digit_of z : is_digit (ascii_of (48 + z mod 10)) = true.
Proof.
  pose proof (digit_range z). unfold is_digit. rewrite byte_of_ascii_of by lia. lia.
Qed.

Lemma atoi_digits_digit z acc :
  atoi_digits (String (ascii_of (48 + z mod 10)) "") acc = Some (acc * 10 + z mod 10).
Proof.
  pose proof (is_digit_of z) as H. pose proof (digit_range z). unfold is_digit in H.
  cbn [atoi_digits]. cbv zeta. rewrite H. rewrite byte_of_ascii_of by lia. do 2 f_equal. lia.
Qed.

(** A fixed-width field reads back as the number it was written from. *)
Lemma atoi_pad_digits w z : 0 ≤ z < 10 ^ Z.of_nat w →
  atoi_digits (pad_digits w z) 0 = Some z.
Proof.
  revert z. induction w as [|w IH]; intros z Hz; cbn [pad_digits].
  - simpl in *. f_equal. lia.
  - rewrite Nat2Z.inj_succ, Z.pow_succ_r in Hz by lia.
    rewrite atoi_digits_app, IH; cycle 1.
    { split; [apply Z.div_pos; lia|apply Z.div_lt_upper_bound; lia]. }
    cbn [mbind option_bind]. rewrite atoi_digits_digit. f_equal.
    pose proof (Z.div_mod z 10). lia.
Qed.

Lemma pad_digits_length w z : String.length (pad_digits w z) = w.
Proof.
  revert z. induction w as [|w IH]; intros z; cbn [pad_digits]; [done|].
  rewrite string_app_length, IH. simpl. lia.
Qed.

Lemma pad_digits_all w z : string_all is_digit (pad_digits w z) = true.
Proof.
  revert z. induction w as [|w IH]; intros z; cbn [pad_digits]; [done|].
  rewrite string_all_app, IH. cbn [string_all]. by rewrite is_digit_of.
Qed.

Lemma pretty_char_of n : (n < 10)%N → pretty_N_char n = ascii_of (48 + Z.of_N n).
Proof.
  intros Hn. assert (∃ k, n = N.of_nat k ∧ (k < 10)%nat) as (k & -> & Hk)
    by (exists (N.to_nat n); lia).
  do 10 (destruct k as [|k]; [reflexivity|]). lia.
Qed.

Lemma pretty_char_mod n : pretty_N_char (n mod 10) = ascii_of (48 + Z.of_N n mod 10).
Proof. rewrite pretty_char_of by (by apply N.mod_lt). by rewrite N2Z.inj_mod. Qed.

Lemma atoi_digits_cons z s acc :
  atoi_digits (String (ascii_of (48 + z mod 10)) s) acc = atoi_digits s (acc * 10 + z mod 10).
Proof.
  change (String ?c s) with (String c "" +:+ s). by rewrite atoi_digits_app, atoi_digits_digit.
Qed.

Lemma atoi_pretty_go n s : atoi_digits (pretty_N_go n s) 0 = atoi_digits s (Z.of_N n).
Proof.
  revert s. induction n as [n IH] using (well_founded_induction N.lt_wf_0). intros s.
  destruct (decide (n = 0)%N) as [->|Hn]; [by rewrite pretty_N_go_0|].
  rewrite pretty_N_go_step by lia. rewrite IH by (apply N.div_lt; lia).
  rewrite pretty_char_mod, atoi_digits_cons. f_equal.
  rewrite N2Z.inj_div. pose proof (Z.div_mod (Z.of_N n) 10). lia.
Qed.

Lemma pretty_go_all n s :
  string_all is_digit s = true → string_all is_digit (pretty_N_go n s) = true.
Proof.
  revert s. induction n as [n IH] using (well_founded_induction N.lt_wf_0). intros s Hs.
  destruct (decide (n = 0)%N) as [->|Hn]; [by rewrite pretty_N_go_0|].
  rewrite pretty_N_go_step by lia. apply IH; [apply N.div_lt; lia|].
  cbn [string_all]. by rewrite pretty_char_mod, is_digit_of, Hs.
Qed.

(** The digits of a number: not empty, and no leading zero but of zero. *)
Lemma pretty_go_head n s : (0 < n)%N →
  ∃ d s', 0 < d < 10 ∧ pretty_N_go n s = String (ascii_of (48 + d)) s'.
Proof.
  revert s. induction n as [n IH] using (well_founded_induction N.lt_wf_0). intros s Hn.
  rewrite pretty_N_go_step by lia. destruct (decide (n / 10 = 0)%N) as [E|Hd].
  - rewrite E, pretty_N_go_0, pretty_char_mod.
    assert (Hq : Z.of_N n / 10 = 0) by (change 10 with (Z.of_N 10); by rewrite <-N2Z.inj_div, E).
    exists (Z.of_N n mod 10), s. split; [|done].
    pose proof (Z.div_mod (Z.of_N n) 10). pose proof (digit_range (Z.of_N n)). lia.
  - apply IH; [apply N.div_lt; lia|by apply N.neq_0_lt_0].
Qed.

Lemma atoi_pretty n : atoi_digits (pretty n) 0 = Some (Z.of_N n).
Proof.
  unfold pretty, pretty_N. case_decide; [by subst|]. by rewrite atoi_pretty_go.
Qed.

Lemma pretty_all (n : N) : string_all is_digit (pretty n) = true.
Proof.
  unfold pretty, pretty_N. case_decide; [by subst|]. by apply pretty_go_all.
Qed.

Lemma pretty_head (n : N) : pretty n = "0" ∨
  ∃ d s, 0 < d < 10 ∧ pretty n = String (ascii_of (48 + d)) s.
Proof.
  unfold pretty, pretty_N. case_decide; [by left|right]. apply pretty_go_head. lia.
Qed.

Lemma Atoi_digits s : s ≠ "" → string_all is_digit s = true →
  Atoi s = match atoi_digits s 0 with
           | Some v => if (min_int64 <=? v) && (v <=? max_int64) then Some v else None
           | None => None
           end.
Proof.
  intros Hne Hall. unfold Atoi. destruct s as [|c s]; [done|].
  cbn [string_all] in Hall. apply andb_true_iff in Hall as [Hc _].
  assert (Hm : match String c s with
    | String "-" d => (true, d) | String "+" d => (false, d) | _ => (false, String c s) end
    = (false, String c s)); [|by rewrite Hm].
  revert Hc. by destruct c as [[] [] [] [] [] [] [] []].
Qed.

Lemma pretty_not_empty (n : N) : pretty n ≠ "".
Proof. by destruct (pretty_head n) as [-> |(? & ? & _ & ->)]. Qed.

(** Every [int64] survives printing and parsing. *)
Lemma Atoi_FormatInt z : is_int64 z → Atoi (FormatInt z) = Some z.
Proof.
  unfold is_int64. intros Hz.
  unfold FormatInt. destruct (z <? 0) eqn:E; reflect_bool;
    assert (Hb : (min_int64 <=? z) && (z <=? max_int64) = true) by lia.
  - unfold Atoi. rewrite (proj2 (is_empty_false _) (pretty_not_empty _)), atoi_pretty.
    rewrite Z2N.id by lia. rewrite Z.opp_involutive. by rewrite Hb.
  - rewrite Atoi_digits, atoi_pretty, Z2N.id by (lia || apply pretty_all || apply pretty_not_empty).
    by rewrite Hb.
Qed.
