(* ===== verification/GoJson.v ===== *)
(** [encoding/json] on documents: the syntax tree of a JSON text, its compact
    printing, Go's scanner, and the quoting of strings.  The tree keeps the
    text of numbers and of strings as it stands between the quotes, as Go's
    decoder does; [quote] and [unquote] convert that text. *)

From S2P Require Import Prelude GoStrings GoUtf8 GoStrconv.

Local Open Scope list_scope.

Inductive json :=
  | JNull
  | JBool (b : bool)
  | JNum (lit : string)
  | JStr (raw : string)
  | JArr (l : list json)
  | JObj (l : list (string * json)).   (* keys as in [JStr] *)

Definition dquote : ascii := "034".
Definition backslash : ascii := "092".

(** ** Quoting: [appendString] with [escapeHTML] *)
Definition hex_digit (i : Z) : ascii := ascii_of (if i <? 10 then 48 + i else 87 + i).

Definition quote_chunk (ch : Z * string) : string :=
  let (r, bs) := ch in
  if r <? RuneSelf then
    if (r =? 34) || (r =? 92) then String backslash bs
    else if r =? 8 then "\b"
    else if r =? 12 then "\f"
    else if r =? 10 then "\n"
    else if r =? 13 then "\r"
    else if r =? 9 then "\t"
    else if (r <? 32) || (r =? 60) || (r =? 62) || (r =? 38)
    then "\u00" +:+ String (hex_digit (r / 16)) (String (hex_digit (r mod 16)) "")
    else bs
  else if negb (valid_chunk ch) then "\ufffd"
  else if (r =? 8232) || (r =? 8233) then "\u202" +:+ String (hex_digit (r mod 16)) ""
  else bs.

(** The text between the quotes. *)
Definition quote (s : string) : string := String.concat "" (quote_chunk <$> chunks s).

(** ** Unquoting: [unquoteBytes] *)
Definition hex_value (r : Z) : option Z :=
  if (48 <=? r) && (r <=? 57) then Some (r - 48)
  else if (97 <=? r) && (r <=? 102) then Some (r - 87)
  else if (65 <=? r) && (r <=? 70) then Some (r - 55)
  else None.

(** [getu4] after the two runes of the escape. *)
Definition hex4 (a b c d : Z) : option Z :=
  match hex_value a, hex_value b, hex_value c, hex_value d with
  | Some w, Some x, Some y, Some z => Some (((w * 16 + x) * 16 + y) * 16 + z)
  | _, _, _, _ => None
  end.

Definition getu4 (rs : list Z) : option Z :=
  match rs with
  | x :: y :: a :: b :: c :: d :: _ => if (x =? 92) && (y =? 117) then hex4 a b c d else None
  | _ => None
  end.

(** [utf16.DecodeRune]. *)
Definition utf16_DecodeRune (r1 r2 : Z) : Z :=
  if (55296 <=? r1) && (r1 <? 56320) && (56320 <=? r2) && (r2 <? 57344)
  then (r1 - 55296) * 1024 + (r2 - 56320) + 65536 else RuneError.

Definition escape_rune (e : Z) : option Z :=
  if (e =? 34) || (e =? 92) || (e =? 47) || (e =? 39) then Some e
  else if e =? 98 then Some 8
  else if e =? 102 then Some 12
  else if e =? 110 then Some 10
  else if e =? 114 then Some 13
  else if e =? 116 then Some 9
  else None.

Definition emit (r : Z) (o : option string) : option string := (λ s, encode_rune r +:+ s) <$> o.

Fixpoint unq (rs : list Z) : option string :=
  match rs with
  | [] => Some ""
  | r :: rs1 =>
      if r =? 92 then
        match rs1 with
        | [] => None
        | e :: rs2 =>
            if e =? 117 then
              match rs2 with
              | a :: b :: c :: d :: rs3 =>
                  match hex4 a b c d with
                  | None => None
                  | Some rr =>
                      if negb ((55296 <=? rr) && (rr <? 57344)) then emit rr (unq rs3) else
                      let dec := utf16_DecodeRune rr (default (-1) (getu4 rs3)) in
                      if dec =? RuneError then emit RuneError (unq rs3) else
                      match rs3 with
                      | _ :: _ :: _ :: _ :: _ :: _ :: rs4 => emit dec (unq rs4)
                      | _ => None
                      end
                  end
              | _ => None
              end
            else match escape_rune e with Some x => emit x (unq rs2) | None => None end
        end
      else if (r =? 34) || (r <? 32) then None
      else emit r (unq rs1)
  end.

Definition unquote (raw : string) : option string := unq (runes raw).

(** ** Printing: [json.Marshal] of the tree *)
Definition in_quotes (raw : string) : string := String dquote (raw +:+ String dquote "").

Fixpoint print (j : json) : string :=
  match j with
  | JNull => "null"
  | JBool b => if b then "true" else "false"
  | JNum lit => lit
  | JStr raw => in_quotes raw
  | JArr l => "[" +:+ String.concat "," (map print l) +:+ "]"
  | JObj l => "{" +:+ String.concat ","
      (map (λ kv, in_quotes kv.1 +:+ ":" +:+ print kv.2) l) +:+ "}"
  end.

(** ** Scanning *)
Definition json_space (c : ascii) : bool :=
  (byte_of c =? 32) || (byte_of c =? 9) || (byte_of c =? 13) || (byte_of c =? 10).

Fixpoint skip_ws (s : string) : string :=
  match s with
  | String c s' => if json_space c then skip_ws s' else s
  | "" => ""
  end.

Definition is_hex (c : ascii) : bool :=
  match hex_value (byte_of c) with Some _ => true | None => false end.

(** The single-character escapes of the scanner. *)
Definition scan_escape (e : ascii) : bool :=
  let b := byte_of e in
  (b =? 98) || (b =? 102) || (b =? 110) || (b =? 114) || (b =? 116) || (b =? 92)
    || (b =? 47) || (b =? 34).

Definition prepend (p : string) (o : option (string * string)) : option (string * string) :=
  (λ '(raw, rest), (p +:+ raw, rest)) <$> o.

(** A string literal after its opening quote: the raw text and the rest. *)
Fixpoint scan_string (s : string) : option (string * string) :=
  match s with
  | "" => None
  | String c s1 =>
      if Ascii.eqb c dquote then Some ("", s1)
      else if Ascii.eqb c backslash then
        match s1 with
        | "" => None
        | String e s2 =>
            if scan_escape e then prepend (String c (String e "")) (scan_string s2)
            else if Ascii.eqb e "u" then
              match s2 with
              | String w (String x (String y (String z s3))) =>
                  if is_hex w && is_hex x && is_hex y && is_hex z
                  then prepend (String c (String e (String w (String x (String y (String z ""))))))
                         (scan_string s3)
                  else None
              | _ => None
              end
            else None
        end
      else if byte_of c <? 32 then None
      else prepend (String c "") (scan_string s1)
  end.

Fixpoint span_digits (s : string) : string * string :=
  match s with
  | String c s' =>
      if is_digit c then let (ds, r) := span_digits s' in (String c ds, r) else ("", s)
  | "" => ("", "")
  end.

Definition scan_frac (s : string) : option (string * string) :=
  match s with
  | String "." s1 =>
      let (ds, r) := span_digits s1 in if is_empty ds then None else Some (String "." ds, r)
  | _ => Some ("", s)
  end.

(** An exponent after its letter. *)
Definition scan_exp_digits (s : string) : option (string * string) :=
  let (ds, r) := span_digits s in if is_empty ds then None else Some (ds, r).

Definition scan_exp (s : string) : option (string * string) :=
  match s with
  | String c s1 =>
      if Ascii.eqb c "e" || Ascii.eqb c "E" then
        match s1 with
        | String d s2 =>
            if Ascii.eqb d "+" || Ascii.eqb d "-"
            then prepend (String c (String d "")) (scan_exp_digits s2)
            else prepend (String c "") (scan_exp_digits s1)
        | "" => None
        end
      else Some ("", s)
  | "" => Some ("", "")
  end.

Definition scan_int (s : string) : option (string * string) :=
  match s with
  | String c s1 =>
      if Ascii.eqb c "0" then Some ("0", s1)
      else if is_digit c then Some (span_digits s) else None
  | "" => None
  end.

Definition scan_unsigned (s : string) : option (string * string) :=
  '(i, r1) ← scan_int s; '(f, r2) ← scan_frac r1; '(e, r3) ← scan_exp r2;
  Some (i +:+ f +:+ e, r3).

Definition scan_number (s : string) : option (string * string) :=
  match s with
  | String "-" s1 => prepend "-" (scan_unsigned s1)
  | _ => scan_unsigned s
  end.

(** Literals and numbers. *)
Definition scan_scalar (s : string) : option (json * string) :=
  if HasPrefix s "true" then Some (JBool true, string_drop 4 s)
  else if HasPrefix s "false" then Some (JBool false, string_drop 5 s)
  else if HasPrefix s "null" then Some (JNull, string_drop 4 s)
  else (λ '(lit, r), (JNum lit, r)) <$> scan_number s.

(** The text after [c], if that is the next token. *)
Definition after (c : ascii) (s : string) : option string :=
  match skip_ws s with
  | String d r => if Ascii.eqb d c then Some r else None
  | "" => None
  end.

Fixpoint parse_value (fuel : nat) (s : string) {struct fuel} : option (json * string) :=
  match fuel with
  | O => None
  | S f =>
      match skip_ws s with
      | "" => None
      | String c s1 =>
          if Ascii.eqb c dquote then (λ '(raw, r), (JStr raw, r)) <$> scan_string s1
          else if Ascii.eqb c "[" then
            match after "]" s1 with
            | Some r => Some (JArr [], r)
            | None => (λ '(l, r), (JArr l, r)) <$> parse_elems f s1
            end
          else if Ascii.eqb c "{" then
            match after "}" s1 with
            | Some r => Some (JObj [], r)
            | None => (λ '(l, r), (JObj l, r)) <$> parse_members f s1
            end
          else scan_scalar (String c s1)
      end
  end
with parse_elems (fuel : nat) (s : string) {struct fuel} : option (list json * string) :=
  match fuel with
  | O => None
  | S f =>
      '(v, r) ← parse_value f s;
      match after "," r with
      | Some r1 => (λ '(l, r'), (v :: l, r')) <$> parse_elems f r1
      | None => r1 ← after "]" r; Some ([v], r1)
      end
  end
with parse_members (fuel : nat) (s : string) {struct fuel}
    : option (list (string * json) * string) :=
  match fuel with
  | O => None
  | S f =>
      s1 ← after dquote s; '(k, r) ← scan_string s1; r1 ← after ":" r;
      '(v, r2) ← parse_value f r1;
      match after "," r2 with
      | Some r3 => (λ '(l, r'), ((k, v) :: l, r')) <$> parse_members f r3
      | None => r3 ← after "}" r2; Some ([(k, v)], r3)
      end
  end.

(** Nesting of a document; Go's scanner gives up beyond 10000 levels. *)
Fixpoint depth (j : json) : nat :=
  match j with
  | JArr l => S (foldr max O (map depth l))
  | JObj l => S (foldr max O (map (λ kv, depth kv.2) l))
  | _ => O
  end.
Definition maxNestingDepth : Z := 10000.

Definition parse_fuel (s : string) : nat := 2 * String.length s + 2.

(** The first value of a stream ([Decoder.Decode]) and what follows it. *)
Definition decode_first (s : string) : option (json * string) :=
  match parse_value (parse_fuel s) s with
  | Some (j, r) => if maxNestingDepth <? Z.of_nat (depth j) then None else Some (j, r)
  | None => None
  end.

(** A whole document ([json.Unmarshal]): only white space may follow. *)
Definition parse (s : string) : option json :=
  match decode_first s with
  | Some (j, r) => if is_empty (skip_ws r) then Some j else None
  | None => None
  end.

Example parse_ex : parse " [1, -2.5e+3 ,{}]
" = Some (JArr [JNum "1"; JNum "-2.5e+3"; JObj []]).
Proof. vm_compute. reflexivity. Qed.
Example parse_leading_zero : parse "01" = None.
Proof. vm_compute. reflexivity. Qed.
Example parse_trailing_comma : parse "[1,]" = None.
Proof. vm_compute. reflexivity. Qed.
Example quote_ex : quote "a<b&\c" = "a\u003cb\u0026\\c".
Proof. vm_compute. reflexivity. Qed.
Example unquote_pair : unquote "\ud83d\ude00" = Some (encode_rune 128512).
Proof. vm_compute. reflexivity. Qed.
Example unquote_lone : unquote "\ud83dx" = Some (encode_rune 65533 +:+ "x").
Proof. vm_compute. reflexivity. Qed.

(** ** Quoting and unquoting *)
Lemma quote_step s rest : chunks s = first_chunk s :: chunks rest →
  quote s = quote_chunk (first_chunk s) +:+ quote rest.
Proof. intros Hc. unfold quote. by rewrite Hc, fmap_cons, concat_empty_cons. Qed.

(** The three ways a chunk is printed: an ASCII byte, an escape of a rune
    that is not ASCII, the bytes of a sequence. *)
Lemma quote_chunk_cases s : s ≠ "" →
  (∃ c, byte_of c < 128 ∧ first_chunk s = (byte_of c, String c "")) ∨
  (quote_chunk (first_chunk s) = "\ufffd" ∧ (first_chunk s).1 = RuneError) ∨
  (quote_chunk (first_chunk s) = "\u2028" ∧ (first_chunk s).1 = 8232) ∨
  (quote_chunk (first_chunk s) = "\u2029" ∧ (first_chunk s).1 = 8233) ∨
  (quote_chunk (first_chunk s) = (first_chunk s).2 ∧ 128 ≤ (first_chunk s).1 ∧
   valid_chunk (first_chunk s) = true).
Proof.
  destruct s as [|c t]; [done|]. intros _.
  destruct (byte_of c <? 128) eqn:E.
  { left. exists c. split; [lia|]. cbn [first_chunk]. unfold RuneSelf. by rewrite E. }
  right. assert (Hr : 128 ≤ (first_chunk (String c t)).1).
  { reflect_bool. pose proof (first_chunk_spec c t) as Hsp. revert Hsp.
    generalize (first_chunk (String c t)). intros ch Hsp. inversion Hsp as [| |? c1 ? lo hi Hf H1
      |? c1 c2 ? lo hi Hf H1 H2|? c1 c2 c3 ? lo hi Hf H1 H2 H3]; subst; cbn [fst]; try lia;
      [unfold RuneError; lia|..]; pose proof (utf8_first_bounds _ _ _ _ Hf);
      apply in_range_true in H1; try apply in_range_true in H2; try apply in_range_true in H3; lia. }
  unfold quote_chunk. destruct (first_chunk (String c t)) as [r bs] eqn:Ec.
  cbn [fst snd] in *. unfold RuneSelf. rewrite (proj2 (Z.ltb_ge _ _) Hr).
  destruct (valid_chunk (r, bs)) eqn:Ev; cbn [negb].
  - destruct ((r =? 8232) || (r =? 8233)) eqn:E2; [|by do 3 right].
    apply orb_true_iff in E2 as [->%Z.eqb_eq| ->%Z.eqb_eq]; [by right; left|by do 2 right; left].
  - left. split; [done|].
    pose proof (first_chunk_spec c t) as Hs. rewrite Ec in Hs.
    by inversion Hs; subst; try done; try lia; revert Ev; unfold valid_chunk; simpl; rewrite orb_true_r.
Qed.

Ltac ascii_cases c := destruct c as [[] [] [] [] [] [] [] []].

Lemma unq_ascii c rest : byte_of c < 128 →
  unq (runes (quote_chunk (byte_of c, String c "") +:+ rest)) = emit (byte_of c) (unq (runes rest)).
Proof.
  intros Hc. ascii_cases c; try reflexivity;
    (exfalso; revert Hc; vm_compute; congruence).
Qed.

Lemma unq_rune r rs : 128 ≤ r → unq (r :: rs) = emit r (unq rs).
Proof.
  intros. cbn [unq]. replace (r =? 92) with false by lia.
  by replace ((r =? 34) || (r <? 32)) with false by lia.
Qed.

(** What was quoted reads back, up to the coercion of invalid bytes. *)
Lemma unquote_quote s : unquote (quote s) = Some (to_valid s).
Proof.
  unfold unquote. induction s as [|s rest Hs Heq Hc IH] using chunks_ind; [done|].
  rewrite (quote_step _ _ Hc), (to_valid_step _ _ Hs Hc).
  assert (He : ∀ r, unq (runes (quote_chunk (first_chunk s) +:+ quote rest))
      = emit r (unq (runes (quote rest))) → r = (first_chunk s).1 →
    unq (runes (quote_chunk (first_chunk s) +:+ quote rest))
      = Some (encode_rune (first_chunk s).1 +:+ to_valid rest)).
  { intros r -> ->. by rewrite IH. }
  destruct (quote_chunk_cases s Hs) as [(c & Hb & E)|[[E1 E2]|[[E1 E2]|[[E1 E2]|(E1 & E2 & E3)]]]].
  - rewrite E in *. by eapply He; [apply unq_ascii|].
  - apply (He RuneError); [by rewrite E1|done].
  - apply (He 8232); [by rewrite E1|done].
  - apply (He 8233); [by rewrite E1|done].
  - apply (He (first_chunk s).1); [|done]. rewrite E1, !runes_chunks.
    rewrite (chunks_app s (quote rest)) by done. rewrite fmap_cons. by apply unq_rune.
Qed.

Lemma prepend_prepend p q o : prepend p (prepend q o) = prepend (p +:+ q) o.
Proof. destruct o as [[a b]|]; simpl; [|done]. by rewrite string_app_assoc. Qed.

Lemma scan_high c s : 128 ≤ byte_of c → scan_string (String c s) = prepend (String c "") (scan_string s).
Proof.
  intros. cbn [scan_string].
  destruct (Ascii.eqb_spec c dquote) as [->|]; [done|].
  destruct (Ascii.eqb_spec c backslash) as [->|]; [done|].
  by replace (byte_of c <? 32) with false by lia.
Qed.

Lemma scan_ascii c rest : byte_of c < 128 →
  scan_string (quote_chunk (byte_of c, String c "") +:+ rest)
  = prepend (quote_chunk (byte_of c, String c "")) (scan_string rest).
Proof.
  intros Hc. ascii_cases c; try reflexivity;
    (exfalso; revert Hc; vm_compute; congruence).
Qed.

(** The bytes of a sequence are all above 127. *)
Lemma scan_sequence s rest : s ≠ "" → 128 ≤ (first_chunk s).1 → valid_chunk (first_chunk s) = true →
  scan_string ((first_chunk s).2 +:+ rest) = prepend (first_chunk s).2 (scan_string rest).
Proof.
  destruct s as [|x t]; [done|]. intros _.
  destruct (first_chunk_spec x t) as [c s Hb|c s Hb|c c1 s lo hi Hf H1
    |c c1 c2 s lo hi Hf H1 H2|c c1 c2 c3 s lo hi Hf H1 H2 H3]; cbn [fst snd]; intros Hr Hv.
  - lia.
  - done.
  - pose proof (utf8_first_bounds _ _ _ _ Hf). apply in_range_true in H1.
    rewrite !string_app_cons, string_app_nil_l, !scan_high by lia. by rewrite !prepend_prepend.
  - pose proof (utf8_first_bounds _ _ _ _ Hf). apply in_range_true in H1, H2.
    rewrite !string_app_cons, string_app_nil_l, !scan_high by lia. by rewrite !prepend_prepend.
  - pose proof (utf8_first_bounds _ _ _ _ Hf). apply in_range_true in H1, H2, H3.
    rewrite !string_app_cons, string_app_nil_l, !scan_high by lia. by rewrite !prepend_prepend.
Qed.

(** A raw text is well formed when the scanner reads it up to the quote. *)
Definition wf_raw (raw : string) : Prop :=
  ∀ rest, scan_string (raw +:+ String dquote rest) = Some (raw, rest).

Lemma quote_wf s : wf_raw (quote s).
Proof.
  intros tail. induction s as [|s rest Hs Heq Hc IH] using chunks_ind; [done|].
  rewrite (quote_step _ _ Hc), <-string_app_assoc.
  assert (He : scan_string (quote_chunk (first_chunk s) +:+ (quote rest +:+ String dquote tail))
      = prepend (quote_chunk (first_chunk s)) (scan_string (quote rest +:+ String dquote tail))).
  { destruct (quote_chunk_cases s Hs) as [(c & Hb & E)|[[E1 _]|[[E1 _]|[[E1 _]|(E1 & E2 & E3)]]]].
    - rewrite E. by apply scan_ascii.
    - rewrite E1. reflexivity.
    - rewrite E1. reflexivity.
    - rewrite E1. reflexivity.
    - rewrite E1. by apply scan_sequence. }
  by rewrite He, IH.
Qed.

(** ** Numbers *)

(** What may follow a number for it to end there. *)
Definition delim (rest : string) : Prop :=
  match rest with
  | "" => True
  | String c _ => is_digit c = false ∧ c ≠ "."%char ∧ c ≠ "e"%char ∧ c ≠ "E"%char
  end.

Definition ends (r rest : string) : Prop := r = "" → delim rest.

Lemma span_digits_app a ds r rest : span_digits a = (ds, r) → ends r rest →
  span_digits (a +:+ rest) = (ds, r +:+ rest).
Proof.
  revert ds r. induction a as [|c a IH]; intros ds r; cbn [span_digits]; rewrite ?string_app_cons.
  - intros [= <- <-] He. rewrite !string_app_nil_l. specialize (He eq_refl).
    destruct rest as [|d t]; [done|]. cbn [span_digits]. by destruct He as [-> _].
  - cbn [span_digits]. destruct (is_digit c); [|by intros [= <- <-]].
    destruct (span_digits a) as [ds' r'] eqn:E. intros [= <- <-] He. by rewrite (IH _ _ eq_refl He).
Qed.

Lemma scan_frac_app a f r rest : scan_frac a = Some (f, r) → ends r rest →
  scan_frac (a +:+ rest) = Some (f, r +:+ rest).
Proof.
  destruct a as [|c a].
  - intros [= <- <-] He. rewrite !string_app_nil_l. specialize (He eq_refl).
    destruct rest as [|d t]; [done|]. destruct He as (_ & Hd & _). clear -Hd.
    destruct d as [[] [] [] [] [] [] [] []]; done.
  - rewrite string_app_cons. destruct (decide (c = "."%char)) as [->|Hc].
    + cbn [scan_frac]. destruct (span_digits a) as [ds r'] eqn:E. destruct (is_empty ds) eqn:Ee; [done|].
      intros [= <- <-] He. by rewrite (span_digits_app _ _ _ _ E He), Ee.
    + intros H _. assert (Hn : ∀ t, scan_frac (String c t) = Some ("", String c t))
        by (clear -Hc; intros t; ascii_cases c; done).
      rewrite Hn in *. by simplify_eq.
Qed.

Lemma scan_exp_digits_app a ds r rest : scan_exp_digits a = Some (ds, r) → ends r rest →
  scan_exp_digits (a +:+ rest) = Some (ds, r +:+ rest).
Proof.
  unfold scan_exp_digits. destruct (span_digits a) as [ds' r'] eqn:E.
  destruct (is_empty ds') eqn:Ee; [done|]. intros [= <- <-] He.
  by rewrite (span_digits_app _ _ _ _ E He), Ee.
Qed.

Lemma scan_exp_app a e r rest : scan_exp a = Some (e, r) → ends r rest →
  scan_exp (a +:+ rest) = Some (e, r +:+ rest).
Proof.
  destruct a as [|c a].
  - intros [= <- <-] He. rewrite !string_app_nil_l. specialize (He eq_refl).
    destruct rest as [|d t]; [done|]. destruct He as (_ & _ & H1 & H2). cbn [scan_exp].
    by rewrite (proj2 (Ascii.eqb_neq _ _) H1), (proj2 (Ascii.eqb_neq _ _) H2).
  - rewrite string_app_cons. cbn [scan_exp].
    destruct (Ascii.eqb c "e" || Ascii.eqb c "E"); [|by intros [= <- <-]].
    destruct a as [|d a]; [done|]. rewrite string_app_cons.
    destruct (Ascii.eqb d "+" || Ascii.eqb d "-");
      [destruct (scan_exp_digits a) as [[ds r']|] eqn:E
      |destruct (scan_exp_digits (String d a)) as [[ds r']|] eqn:E]; try done;
      intros [= <- <-] He; pose proof (scan_exp_digits_app _ _ _ _ E He) as Hx;
      rewrite ?string_app_cons in Hx; by rewrite Hx.
Qed.

Lemma scan_int_app a i r rest : scan_int a = Some (i, r) → ends r rest →
  scan_int (a +:+ rest) = Some (i, r +:+ rest).
Proof.
  destruct a as [|c a]; [done|]. rewrite string_app_cons. cbn [scan_int].
  destruct (Ascii.eqb c "0"); [by intros [= <- <-]|].
  destruct (is_digit c) eqn:E; [|done]. intros [= H] He.
  pose proof (span_digits_app (String c a) i r rest H He) as Hx.
  rewrite string_app_cons in Hx. by rewrite Hx.
Qed.

(** Scanners consume from the left, so "ends" passes from the last one back. *)
Lemma scan_unsigned_app a l r rest : scan_unsigned a = Some (l, r) → ends r rest →
  scan_unsigned (a +:+ rest) = Some (l, r +:+ rest).
Proof.
  unfold scan_unsigned. intros H He.
  destruct (scan_int a) as [[i r1]|] eqn:E1; [|done]. cbn [mbind option_bind] in H.
  destruct (scan_frac r1) as [[f r2]|] eqn:E2; [|done]. cbn [mbind option_bind] in H.
  destruct (scan_exp r2) as [[e r3]|] eqn:E3; [|done]. cbn [mbind option_bind] in H.
  injection H as <- <-.
  assert (He2 : ends r2 rest) by (intros ->; apply He; by simplify_eq/=).
  assert (He1 : ends r1 rest) by (intros ->; apply He2; by simplify_eq/=).
  rewrite (scan_int_app _ _ _ _ E1 He1). cbn [mbind option_bind].
  rewrite (scan_frac_app _ _ _ _ E2 He2). cbn [mbind option_bind].
  by rewrite (scan_exp_app _ _ _ _ E3 He).
Qed.

Lemma scan_number_minus s : scan_number (String "-" s) = prepend "-" (scan_unsigned s).
Proof. reflexivity. Qed.

Lemma scan_number_other c s : c ≠ "-"%char → scan_number (String c s) = scan_unsigned (String c s).
Proof. intros Hc. ascii_cases c; done. Qed.

Lemma scan_number_app a l r rest : scan_number a = Some (l, r) → ends r rest →
  scan_number (a +:+ rest) = Some (l, r +:+ rest).
Proof.
  destruct a as [|c a]; [done|]. rewrite string_app_cons.
  destruct (decide (c = "-"%char)) as [->|Hc].
  - rewrite !scan_number_minus. destruct (scan_unsigned a) as [[l' r']|] eqn:E; [|done].
    intros [= <- <-] He. by rewrite (scan_unsigned_app _ _ _ _ E He).
  - rewrite !scan_number_other by done. intros H He.
    pose proof (scan_unsigned_app _ _ _ _ H He) as Hx. by rewrite string_app_cons in Hx.
Qed.

(** The literals of [FormatInt] are numbers. *)
Definition wf_lit (lit : string) : Prop := scan_number lit = Some (lit, "").

Lemma span_digits_all s : string_all is_digit s = true → span_digits s = (s, "").
Proof.
  induction s as [|c s IH]; cbn [string_all span_digits]; [done|].
  intros [-> Hs]%andb_true_iff. by rewrite IH.
Qed.

Lemma digit_not_zero d : 0 < d < 10 → Ascii.eqb (ascii_of (48 + d)) "0" = false.
Proof.
  intros. apply Ascii.eqb_neq. intros E. apply (f_equal byte_of) in E.
  rewrite byte_of_ascii_of in E by lia. change (byte_of "0") with 48 in E. lia.
Qed.

Lemma scan_unsigned_pretty n : scan_unsigned (pretty.pretty (n : N)) = Some (pretty.pretty n, "").
Proof.
  assert (Hi : scan_int (pretty.pretty n) = Some (pretty.pretty n, "")).
  { pose proof (pretty_all n) as Ha.
    destruct (pretty_head n) as [E|(d & s & Hd & E)]; rewrite E in *; [done|].
    cbn [scan_int]. rewrite digit_not_zero by done. cbn [string_all] in Ha.
    pose proof Ha as Ha2. apply andb_true_iff in Ha2 as [-> _]. by rewrite span_digits_all. }
  unfold scan_unsigned. rewrite Hi. cbn [mbind option_bind]. cbn. by rewrite !string_app_nil_r.
Qed.

Lemma FormatInt_lit z : wf_lit (FormatInt z).
Proof.
  unfold wf_lit, FormatInt. destruct (z <? 0).
  - rewrite scan_number_minus, scan_unsigned_pretty. done.
  - pose proof (scan_unsigned_pretty (Z.to_N z)) as H.
    destruct (pretty_head (Z.to_N z)) as [E|(d & s & Hd & E)]; rewrite E in *; [done|].
    rewrite scan_number_other; [done|]. intros Ec. apply (f_equal byte_of) in Ec.
    rewrite byte_of_ascii_of in Ec by lia. change (byte_of "-") with 45 in Ec. lia.
Qed.

(** ** Printing and parsing documents *)
Section json_ind.
Variable P : json → Prop.
Hypothesis HNull : P JNull.
Hypothesis HBool : ∀ b, P (JBool b).
Hypothesis HNum : ∀ lit, P (JNum lit).
Hypothesis HStr : ∀ raw, P (JStr raw).
Hypothesis HArr : ∀ l, Forall P l → P (JArr l).
Hypothesis HObj : ∀ l, Forall (λ kv, P kv.2) l → P (JObj l).

Lemma json_nested_ind : ∀ j, P j.
Proof.
  fix F 1. intros [|b|lit|raw|l|l]; [exact HNull|apply HBool|apply HNum|apply HStr| |].
  - apply HArr. induction l as [|x l IH]; constructor; [apply F|apply IH].
  - apply HObj. induction l as [|x l IH]; constructor; [apply F|apply IH].
Qed.
End json_ind.

(** Documents whose texts the scanner accepts. *)
Fixpoint wf_json (j : json) : Prop :=
  match j with
  | JNum lit => wf_lit lit
  | JStr raw => wf_raw raw
  | JArr l => foldr and True (map wf_json l)
  | JObj l => foldr and True (map (λ kv, wf_raw kv.1 ∧ wf_json kv.2) l)
  | _ => True
  end.

(** Calls the parser makes on a printed document. *)
Definition sum_fuel (l : list nat) : nat := foldr (λ a n, S (a + n)) O l.
Fixpoint json_fuel (j : json) : nat :=
  match j with
  | JArr l => S (sum_fuel (map json_fuel l))
  | JObj l => S (sum_fuel (map (λ kv, json_fuel kv.2) l))
  | _ => 1%nat
  end.

(** The first character of a printed value. *)
Definition value_start (c : ascii) : Prop :=
  json_space c = false ∧ c ≠ "]"%char ∧ c ≠ "}"%char ∧ c ≠ ","%char.

Lemma wf_lit_start lit : wf_lit lit →
  ∃ c t, lit = String c t ∧ (c = "-"%char ∨ is_digit c = true).
Proof.
  destruct lit as [|c t]; [done|]. unfold wf_lit. intros H. exists c, t. split; [done|].
  destruct (decide (c = "-"%char)) as [->|Hc]; [by left|right].
  rewrite scan_number_other in H by done. unfold scan_unsigned in H. cbn [scan_int] in H.
  destruct (Ascii.eqb_spec c "0") as [->|]; [done|]. by destruct (is_digit c).
Qed.

Lemma lit_start_value c : c = "-"%char ∨ is_digit c = true → value_start c.
Proof. by intros [->|H]; [|revert H; ascii_cases c; vm_compute]. Qed.

Lemma print_start j : wf_json j → ∃ c t, print j = String c t ∧ value_start c.
Proof.
  destruct j as [|[]|lit|raw|l|l]; intros Hw; try (by eexists _, _).
  destruct (wf_lit_start lit Hw) as (c & t & -> & Hc). exists c, t.
  split; [done|]. by apply lit_start_value.
Qed.

Lemma skip_ws_start c s : json_space c = false → skip_ws (String c s) = String c s.
Proof. intros H. cbn [skip_ws]. by rewrite H. Qed.

Lemma scan_scalar_lit lit rest : wf_lit lit → delim rest →
  scan_scalar (lit +:+ rest) = Some (JNum lit, rest).
Proof.
  intros Hw Hd. unfold scan_scalar.
  assert (Hh : ∀ p d, p = String d (string_drop 1 p) → value_start d → d ≠ "-"%char →
    is_digit d = false → HasPrefix (lit +:+ rest) p = false).
  { intros p d -> _ Hne Hnd. destruct (wf_lit_start lit Hw) as (c & t & -> & Hc).
    rewrite string_app_cons. cbn [HasPrefix]. destruct (Ascii.eqb_spec d c) as [->|]; [|done].
    destruct Hc; congruence. }
  rewrite (Hh "true" "t"%char), (Hh "false" "f"%char), (Hh "null" "n"%char) by done.
  by rewrite (scan_number_app _ _ _ _ Hw (λ _, Hd)).
Qed.

Lemma concat_map_cons {A} (f : A → string) x y l :
  String.concat "," (map f (x :: y :: l)) = f x +:+ "," +:+ String.concat "," (map f (y :: l)).
Proof. reflexivity. Qed.

Lemma after_eq c s : json_space c = false → after c (String c s) = Some s.
Proof. intros H. unfold after. by rewrite skip_ws_start, Ascii.eqb_refl. Qed.

Lemma after_ne c d s : json_space c = false → c ≠ d → after d (String c s) = None.
Proof. intros H Hne. unfold after. by rewrite skip_ws_start, (proj2 (Ascii.eqb_neq _ _) Hne). Qed.

Definition roundtrips (j : json) : Prop := wf_json j → ∀ fuel rest,
  (json_fuel j ≤ fuel)%nat → delim rest → parse_value fuel (print j +:+ rest) = Some (j, rest).

Lemma parse_elems_print l : l ≠ [] → Forall roundtrips l → foldr and True (map wf_json l) →
  ∀ fuel rest, (sum_fuel (map json_fuel l) ≤ fuel)%nat →
  parse_elems fuel (String.concat "," (map print l) +:+ "]" +:+ rest) = Some (l, rest).
Proof.
  induction l as [|j l IH]; [done|]. intros _ [Hj Hl]%list.Forall_cons [Hw Hws] fuel rest Hf.
  cbn [map sum_fuel foldr] in Hf. destruct fuel as [|fuel]; [lia|]. cbn [parse_elems].
  destruct l as [|k l].
  - cbn [map String.concat]. by rewrite Hj by (done || simpl in Hf; lia).
  - rewrite concat_map_cons, <-!string_app_assoc, Hj by (done || lia).
    cbn [mbind option_bind]. rewrite string_app_cons, string_app_nil_l, after_eq by done.
    rewrite IH; [done|done|done|done|]. unfold sum_fuel. lia.
Qed.

Lemma parse_members_print l : l ≠ [] → Forall (λ kv, roundtrips kv.2) l →
  foldr and True (map (λ kv, wf_raw kv.1 ∧ wf_json kv.2) l) →
  ∀ fuel rest, (sum_fuel (map (λ kv, json_fuel kv.2) l) ≤ fuel)%nat →
  parse_members fuel (String.concat "," (map (λ kv, in_quotes kv.1 +:+ ":" +:+ print kv.2) l)
    +:+ "}" +:+ rest) = Some (l, rest).
Proof.
  assert (Hkey : ∀ k v rest, (in_quotes k +:+ ":" +:+ v) +:+ rest
    = String dquote (k +:+ String dquote (String ":" (v +:+ rest)))).
  { intros. unfold in_quotes. rewrite !string_app_cons, <-!string_app_assoc. done. }
  induction l as [|[k j] l IH]; [done|].
  intros _ [Hj Hl]%list.Forall_cons [[Hk Hw] Hws] fuel rest Hf. cbn [fst snd] in *.
  cbn [map sum_fuel foldr snd] in Hf. destruct fuel as [|fuel]; [lia|]. cbn [parse_members].
  destruct l as [|[k2 j2] l];
    [cbn [map String.concat fst snd]|rewrite concat_map_cons, <-string_app_assoc; cbn [fst snd]];
    rewrite Hkey, after_eq by done; cbn [mbind option_bind]; rewrite Hk;
    cbn [mbind option_bind]; rewrite after_eq by done; cbn [mbind option_bind].
  - by rewrite Hj by (done || simpl in Hf; lia).
  - rewrite <-string_app_assoc, Hj by (done || lia). cbn [mbind option_bind].
    rewrite string_app_cons, string_app_nil_l, after_eq by done.
    rewrite IH; [done|done|done|done|]. unfold sum_fuel. lia.
Qed.

Lemma scan_scalar_word w j rest :
  (w, j) ∈ [("true", JBool true); ("false", JBool false); ("null", JNull)] →
  scan_scalar (w +:+ rest) = Some (j, rest).
Proof.
  intros H. repeat (apply elem_of_cons in H as [H|H]); [..|by apply elem_of_nil in H];
    injection H as -> ->; unfold scan_scalar; rewrite HasPrefix_app; reflexivity.
Qed.

(** An opened container that is not closed at once. *)
Lemma print_elems_start l rest : l ≠ [] → foldr and True (map wf_json l) →
  ∃ c t, String.concat "," (map print l) +:+ rest = String c t ∧ value_start c.
Proof.
  destruct l as [|j [|k l]]; [done|..]; intros _ [Hw _];
    destruct (print_start j Hw) as (c & t & E & Hc); exists c; eexists;
    (split; [|exact Hc]); [cbn [map String.concat]|rewrite concat_map_cons]; by rewrite E.
Qed.

(** The parser reads back what was printed, whatever delimiter follows. *)
Lemma parse_value_print j : roundtrips j.
Proof.
  induction j as [|b|lit|raw|l IH|l IH] using json_nested_ind;
    intros Hw [|fuel] rest Hf Hd; cbn [json_fuel] in Hf; try lia.
  - apply (scan_scalar_word "null"). set_solver.
  - destruct b; [apply (scan_scalar_word "true")|apply (scan_scalar_word "false")]; set_solver.
  - destruct (wf_lit_start lit Hw) as (c & t & E & Hc).
    pose proof (scan_scalar_lit lit rest Hw Hd) as Hs.
    pose proof (lit_start_value c Hc) as (Hsp & _ & _). cbn [parse_value print].
    rewrite E, string_app_cons in *. rewrite skip_ws_start by done.
    by rewrite !(proj2 (Ascii.eqb_neq _ _)) by (intros ->; destruct Hc; discriminate).
  - cbn [parse_value print]. unfold in_quotes. rewrite string_app_cons, <-string_app_assoc.
    rewrite skip_ws_start, Ascii.eqb_refl by done.
    change (String dquote "" +:+ rest) with (String dquote rest). by rewrite Hw.
  - destruct l as [|j l]; [done|]. pose proof (parse_elems_print (j :: l)) as Hp.
    destruct (print_elems_start (j :: l) ("]" +:+ rest)) as (c & t & E & Hc & Hc1 & _); [done..|].
    cbn [parse_value print]. rewrite <-!string_app_assoc.
    change ("[" +:+ ?s) with (String "[" s). rewrite skip_ws_start by done. cbn [Ascii.eqb].
    specialize (Hp ltac:(done) IH Hw fuel rest ltac:(lia)).
    rewrite E in *. rewrite after_ne by done. by rewrite Hp.
  - destruct l as [|[k j] l]; [done|]. pose proof (parse_members_print ((k, j) :: l)) as Hp.
    assert (∃ t, String.concat "," (map (λ kv, in_quotes kv.1 +:+ ":" +:+ print kv.2) ((k, j) :: l))
      +:+ "}" +:+ rest = String dquote t) as (t & E).
    { destruct l; [cbn [map String.concat]|rewrite concat_map_cons]; by eexists. }
    cbn [parse_value print]. rewrite <-!string_app_assoc.
    change ("{" +:+ ?s) with (String "{" s). rewrite skip_ws_start by done. cbn [Ascii.eqb].
    specialize (Hp ltac:(done) IH Hw fuel rest ltac:(lia)).
    rewrite E in *. rewrite after_ne by done. by rewrite Hp.
Qed.

Lemma sum_fuel_le {A} (f g : A → nat) l :
  Forall (λ x, f x ≤ g x)%nat l → (sum_fuel (map f l) ≤ sum_fuel (map g l))%nat.
Proof. induction 1; simpl; lia. Qed.

Lemma concat_length {A} (f : A → string) l : l ≠ [] →
  S (String.length (String.concat "," (map f l))) = sum_fuel (map (λ x, String.length (f x)) l).
Proof.
  induction l as [|x [|y l] IH]; [done| |]; intros _.
  - cbn [map String.concat sum_fuel foldr]. lia.
  - rewrite concat_map_cons, !string_app_length. cbn [map sum_fuel foldr] in *.
    rewrite <-IH by done. simpl. lia.
Qed.

Lemma Forall_mp {A} (P Q : A → Prop) l :
  Forall (λ x, P x → Q x) l → foldr and True (map P l) → Forall Q l.
Proof. induction 1; simpl; [by constructor|]. intros [? ?]. constructor; auto. Qed.

(** A document needs at most one call per character. *)
Lemma print_fuel j : wf_json j → (json_fuel j ≤ String.length (print j))%nat.
Proof.
  induction j as [|b|lit|raw|l IH|l IH] using json_nested_ind; intros Hw; cbn [json_fuel print].
  - simpl. lia.
  - destruct b; simpl; lia.
  - destruct (wf_lit_start lit Hw) as (c & t & -> & _). simpl. lia.
  - unfold in_quotes. simpl. lia.
  - rewrite !string_app_length. simpl (String.length "["). simpl (String.length "]").
    destruct l as [|j l]; [simpl; lia|].
    pose proof (sum_fuel_le _ _ _ (Forall_mp _ _ _ IH Hw)) as Hs.
    rewrite <-concat_length in Hs by done. lia.
  - rewrite !string_app_length. simpl (String.length "{"). simpl (String.length "}").
    destruct l as [|kv l]; [simpl; lia|].
    assert (Hs : Forall (λ kv, wf_raw kv.1 ∧ wf_json kv.2 →
      json_fuel kv.2 ≤ String.length (in_quotes kv.1 +:+ ":" +:+ print kv.2))%nat (kv :: l)).
    { eapply list.Forall_impl; [exact IH|]. intros [k v] Hv [_ Hw2]. cbn [fst snd] in *.
      rewrite !string_app_length. specialize (Hv Hw2). lia. }
    pose proof (sum_fuel_le _ _ _ (Forall_mp _ _ _ Hs Hw)) as Hl.
    rewrite <-concat_length in Hl by done. lia.
Qed.

Lemma decode_first_print j rest : wf_json j → Z.of_nat (depth j) ≤ maxNestingDepth → delim rest →
  decode_first (print j +:+ rest) = Some (j, rest).
Proof.
  intros Hw Hd Hr. unfold decode_first. rewrite parse_value_print; [|done| |done].
  - by rewrite (proj2 (Z.ltb_ge _ _) Hd).
  - pose proof (print_fuel j Hw). unfold parse_fuel. rewrite string_app_length. lia.
Qed.

Lemma parse_print j : wf_json j → Z.of_nat (depth j) ≤ maxNestingDepth → parse (print j) = Some j.
Proof.
  intros Hw Hd. unfold parse. rewrite <-(string_app_nil_r (print j)).
  by rewrite decode_first_print by done.
Qed.

(** ** The fuel is enough for every text *)
Lemma skip_ws_length s : (String.length (skip_ws s) ≤ String.length s)%nat.
Proof. induction s as [|c s IH]; simpl; [lia|]. case_match; simpl; lia. Qed.

Lemma prepend_Some p o raw r : prepend p o = Some (raw, r) → ∃ raw', o = Some (raw', r).
Proof. destruct o as [[a b]|]; [|done]. intros [= <- <-]. by exists a. Qed.

Lemma scan_string_length s raw r : scan_string s = Some (raw, r) →
  (String.length r < String.length s)%nat.
Proof.
  remember (String.length s) as n eqn:Hn. revert s raw r Hn.
  induction n as [n IH] using (well_founded_induction Nat.lt_wf_0).
  intros s raw r -> H. destruct s as [|c s]; [done|]. cbn [scan_string] in H. cbn [String.length].
  destruct (Ascii.eqb c dquote); [simplify_eq; lia|].
  destruct (Ascii.eqb c backslash).
  2: { destruct (byte_of c <? 32); [done|]. apply prepend_Some in H as (raw' & H).
       pose proof (IH (String.length s) ltac:(simpl; lia) s _ _ eq_refl H); lia. }
  destruct s as [|e s]; [done|]. cbn [String.length] in *. destruct (scan_escape e).
  { apply prepend_Some in H as (raw' & H). pose proof (IH (String.length s) ltac:(simpl; lia) s _ _ eq_refl H); lia. }
  destruct (Ascii.eqb e "u"); [|done].
  destruct s as [|w [|x [|y [|z s]]]]; try done. cbn [String.length] in *.
  destruct (is_hex w && is_hex x && is_hex y && is_hex z); [|done].
  apply prepend_Some in H as (raw' & H).
  pose proof (IH (String.length s) ltac:(simpl; lia) s _ _ eq_refl H); lia.
Qed.

Lemma span_digits_length s : (String.length (span_digits s).2 ≤ String.length s)%nat.
Proof.
  induction s as [|c s IH]; cbn [span_digits]; [done|]. destruct (is_digit c); [|done].
  destruct (span_digits s). simpl in *. lia.
Qed.

Lemma scan_number_length s l r : scan_number s = Some (l, r) →
  (String.length r < String.length s)%nat.
Proof.
  assert (Hx : ∀ s l r, scan_exp_digits s = Some (l, r) → (String.length r ≤ String.length s)%nat).
  { intros t l' r' H. unfold scan_exp_digits in H. pose proof (span_digits_length t) as Hl.
    destruct (span_digits t). cbn [snd] in Hl. destruct (is_empty _); by simplify_eq. }
  assert (Hi : ∀ s l r, scan_int s = Some (l, r) → (String.length r < String.length s)%nat).
  { intros [|c t] l' r' H; [done|]. cbn [scan_int String.length] in *.
    destruct (Ascii.eqb c "0"); [simplify_eq; lia|]. cbn [span_digits] in H.
    destruct (is_digit c); [|done]. pose proof (span_digits_length t) as Hl.
    destruct (span_digits t). simplify_eq/=. lia. }
  assert (Hf : ∀ s l r, scan_frac s = Some (l, r) → (String.length r ≤ String.length s)%nat).
  { intros [|c t] l' r' H; [by simplify_eq/=|].
    destruct (decide (c = "."%char)) as [->|Hc].
    - cbn [scan_frac] in H. pose proof (span_digits_length t) as Hl.
      destruct (span_digits t). cbn [snd] in Hl. destruct (is_empty _); simplify_eq/=. lia.
    - assert (scan_frac (String c t) = Some ("", String c t)) by (clear -Hc; by ascii_cases c).
      simplify_eq/=. lia. }
  assert (He : ∀ s l r, scan_exp s = Some (l, r) → (String.length r ≤ String.length s)%nat).
  { intros [|c t] l' r' H; [by simplify_eq/=|]. cbn [scan_exp] in H.
    destruct (Ascii.eqb c "e" || Ascii.eqb c "E"); [|simplify_eq/=; lia].
    destruct t as [|d t]; [done|].
    destruct (Ascii.eqb d "+" || Ascii.eqb d "-"); apply prepend_Some in H as (? & H);
      apply Hx in H; simpl in *; lia. }
  assert (Hu : ∀ s l r, scan_unsigned s = Some (l, r) → (String.length r < String.length s)%nat).
  { intros t l' r' H. unfold scan_unsigned in H.
    destruct (scan_int t) as [[i r1]|] eqn:E1; [|done]. cbn [mbind option_bind] in H.
    destruct (scan_frac r1) as [[f r2]|] eqn:E2; [|done]. cbn [mbind option_bind] in H.
    destruct (scan_exp r2) as [[e r3]|] eqn:E3; [|done]. cbn [mbind option_bind] in H.
    simplify_eq. apply Hi in E1. apply Hf in E2. apply He in E3. lia. }
  destruct s as [|c s]; [done|]. destruct (decide (c = "-"%char)) as [->|Hc].
  - rewrite scan_number_minus. intros (? & H)%prepend_Some. apply Hu in H. simpl. lia.
  - rewrite scan_number_other by done. apply Hu.
Qed.

Lemma fmap_pair_Some {A B C} (g : A → B) (o : option (A * C)) b r :
  (λ '(a, r), (g a, r)) <$> o = Some (b, r) → ∃ a, o = Some (a, r).
Proof. destruct o as [[a c]|]; [|done]. intros [= <- <-]. by exists a. Qed.

Lemma scan_scalar_length s v r : scan_scalar s = Some (v, r) → (String.length r < String.length s)%nat.
Proof.
  unfold scan_scalar. intros H.
  assert (Hp : ∀ p, HasPrefix s p = true → p ≠ "" →
    (String.length (string_drop (String.length p) s) < String.length s)%nat).
  { intros p Hpre Hne. rewrite (HasPrefix_inv _ _ Hpre), string_drop_app, string_app_length.
    destruct p; [done|simpl; lia]. }
  destruct (HasPrefix s "true") eqn:E1; [by simplify_eq; apply (Hp "true")|].
  destruct (HasPrefix s "false") eqn:E2; [by simplify_eq; apply (Hp "false")|].
  destruct (HasPrefix s "null") eqn:E3; [by simplify_eq; apply (Hp "null")|].
  apply fmap_pair_Some in H as (lit & H). by eapply scan_number_length.
Qed.

Lemma after_length c s r : after c s = Some r → (String.length r < String.length s)%nat.
Proof.
  unfold after. pose proof (skip_ws_length s) as Hl. destruct (skip_ws s) as [|d t]; [done|].
  destruct (Ascii.eqb d c); [|done]. intros [= ->]. simpl in Hl. lia.
Qed.

(** Every parser consumes at least one character. *)
Lemma parse_progress f :
  (∀ s v r, parse_value f s = Some (v, r) → (String.length r < String.length s)%nat) ∧
  (∀ s l r, parse_elems f s = Some (l, r) → (String.length r < String.length s)%nat) ∧
  (∀ s l r, parse_members f s = Some (l, r) → (String.length r < String.length s)%nat).
Proof.
  induction f as [|f (IHv & IHe & IHm)]; [done|].
  split_and!; intros s v r H; cbn [parse_value parse_elems parse_members] in H.
  - destruct (skip_ws s) as [|c s1] eqn:Es; [done|].
    pose proof (skip_ws_length s) as Hl. rewrite Es in Hl.
    destruct (Ascii.eqb c dquote).
    { apply fmap_pair_Some in H as (raw & H). apply scan_string_length in H. simpl in Hl. lia. }
    destruct (Ascii.eqb c "["); [|destruct (Ascii.eqb c "{")].
    3: { apply scan_scalar_length in H. lia. }
    1: destruct (after "]" s1) as [r1|] eqn:E; [|apply fmap_pair_Some in H as (l & H%IHe)].
    3: destruct (after "}" s1) as [r1|] eqn:E; [|apply fmap_pair_Some in H as (l & H%IHm)].
    all: try apply after_length in E; simplify_eq/=; simpl in Hl; lia.
  - destruct (parse_value f s) as [[v1 r1]|] eqn:E1; [|done]. cbn [mbind option_bind] in H.
    apply IHv in E1. destruct (after "," r1) as [r2|] eqn:E2.
    + apply fmap_pair_Some in H as (l & H%IHe). apply after_length in E2. lia.
    + destruct (after "]" r1) as [r3|] eqn:E3; [|done]. apply after_length in E3.
      simplify_eq/=. lia.
  - destruct (after dquote s) as [s1|] eqn:E1; [|done]. cbn [mbind option_bind] in H.
    destruct (scan_string s1) as [[k r1]|] eqn:E2; [|done]. cbn [mbind option_bind] in H.
    destruct (after ":" r1) as [r2|] eqn:E3; [|done]. cbn [mbind option_bind] in H.
    destruct (parse_value f r2) as [[v1 r3]|] eqn:E4; [|done]. cbn [mbind option_bind] in H.
    apply after_length in E1, E3. apply scan_string_length in E2. apply IHv in E4.
    destruct (after "," r3) as [r4|] eqn:E5.
    + apply fmap_pair_Some in H as (l & H%IHm). apply after_length in E5. lia.
    + destruct (after "}" r3) as [r5|] eqn:E6; [|done]. apply after_length in E6.
      simplify_eq/=. lia.
Qed.

(** Beyond [2 n + 2] calls the fuel makes no difference on [n] characters. *)
Lemma parse_fuel_irrelevant n : ∀ s, (String.length s ≤ n)%nat →
  (∀ f f', (2 * n + 2 ≤ f → 2 * n + 2 ≤ f' → parse_value f s = parse_value f' s)%nat) ∧
  (∀ f f', (2 * n + 3 ≤ f → 2 * n + 3 ≤ f' → parse_elems f s = parse_elems f' s)%nat) ∧
  (∀ f f', (2 * n + 3 ≤ f → 2 * n + 3 ≤ f' → parse_members f s = parse_members f' s)%nat).
Proof.
  induction n as [n IH] using (well_founded_induction Nat.lt_wf_0). intros s Hn.
  assert (Hv : ∀ f f', (2 * n + 2 ≤ f → 2 * n + 2 ≤ f' → parse_value f s = parse_value f' s)%nat).
  { intros [|f] [|f'] Hf Hf'; [lia..|]. cbn [parse_value].
    destruct (skip_ws s) as [|c s1] eqn:Es; [done|].
    pose proof (skip_ws_length s) as Hl. rewrite Es in Hl. simpl in Hl.
    destruct (IH (n - 1)%nat ltac:(lia) s1 ltac:(lia)) as (_ & He & Hm).
    by rewrite (He f f'), (Hm f f') by lia. }
  split; [exact Hv|]. split; intros [|f] [|f'] Hf Hf'; try lia; cbn [parse_elems parse_members].
  - rewrite (Hv f f') by lia. destruct (parse_value f' s) as [[v r]|] eqn:E; [|done].
    apply parse_progress in E. cbn [mbind option_bind].
    destruct (after "," r) as [r1|] eqn:E1; [|done]. apply after_length in E1.
    destruct (IH (n - 1)%nat ltac:(lia) r1 ltac:(lia)) as (_ & He & _). by rewrite (He f f') by lia.
  - destruct (after dquote s) as [s1|] eqn:E1; [|done]. cbn [mbind option_bind].
    destruct (scan_string s1) as [[k r1]|] eqn:E2; [|done]. cbn [mbind option_bind].
    destruct (after ":" r1) as [r2|] eqn:E3; [|done]. cbn [mbind option_bind].
    apply after_length in E1, E3. apply scan_string_length in E2.
    destruct (IH (n - 1)%nat ltac:(lia) r2 ltac:(lia)) as (Hv2 & _).
    rewrite (Hv2 f f') by lia. destruct (parse_value f' r2) as [[v r3]|] eqn:E4; [|done].
    cbn [mbind option_bind]. apply parse_progress in E4.
    destruct (after "," r3) as [r4|] eqn:E5; [|done]. apply after_length in E5.
    destruct (IH (n - 1)%nat ltac:(lia) r4 ltac:(lia)) as (_ & _ & Hm). by rewrite (Hm f f') by lia.
Qed.

Lemma parse_fuel_enough s fuel : (parse_fuel s ≤ fuel)%nat →
  parse_value fuel s = parse_value (parse_fuel s) s.
Proof.
  unfold parse_fuel. intros Hf.
  apply (proj1 (parse_fuel_irrelevant (String.length s) s ltac:(lia))); lia.
Qed.
