(* ===== verification/GoFloat.v ===== *)
(** [strconv] on [float64], as [encoding/json] uses it: [ParseFloat] rounds
    the decimal to the nearest binary64, ties to even; [FormatFloat] with
    precision -1 writes the fewest digits that read back as the same number,
    searched for here instead of computed by Go's Ryu tables. *)

From Corelib Require Import SpecFloat.
From S2P Require Import Prelude GoTime GoStrings GoStrconv GoJson.

(** ** ParseFloat of a JSON number *)

(** Exponent digits; Go stops accumulating at 10000. *)
Fixpoint exp_digits (s : string) (acc : Z) : Z :=
  match s with
  | String c s' => exp_digits s' (if acc <? 10000 then acc * 10 + (byte_of c - 48) else acc)
  | "" => acc
  end.

Definition exp_value (e : string) : Z :=
  match e with
  | String _ (String "-" ds) => - exp_digits ds 0
  | String _ (String "+" ds) => exp_digits ds 0
  | String _ ds => exp_digits ds 0
  | "" => 0
  end.

(** Sign, digits and power of ten of a literal. *)
Definition decimal_of (lit : string) : option (bool * Z * Z) :=
  let '(neg, s) := match lit with String "-" t => (true, t) | _ => (false, lit) end in
  '(i, r1) ← scan_int s; '(f, r2) ← scan_frac r1; '(e, r3) ← scan_exp r2;
  let frac := TrimPrefix f "." in
  d ← atoi_digits (i +:+ frac) 0;
  Some (neg, d, exp_value e - slen frac).

(** The binary64 nearest to [d * 10 ^ k], [d > 0]: below one the quotient is
    taken to 64 bits with a sticky bit before it is rounded. *)
Definition round_decimal (neg : bool) (d k : Z) : float64 :=
  let sgn m := if neg then - m else m in
  if 0 <=? k then binary_normalize 53 1024 (sgn (d * 10 ^ k)) 0 neg else
  let den := 10 ^ (- k) in
  let sh := Z.max 0 (64 + Z.log2 den - Z.log2 d) in
  let q := (d * 2 ^ sh) / den in
  let sticky := if (d * 2 ^ sh) mod den =? 0 then 0 else 1 in
  binary_normalize 53 1024 (sgn (2 * q + sticky)) (- sh - 1) neg.

(** [None]: the value is out of range. *)
Definition ParseFloat (lit : string) : option float64 :=
  '(neg, d, k) ← decimal_of lit;
  if d =? 0 then Some (S754_zero neg) else
  match round_decimal neg d k with
  | S754_infinity _ | S754_nan => None
  | f => Some f
  end.

(** ** FormatFloat *)
Definition ndigits (z : Z) : Z := slen (FormatInt z).

(** [floor (log10 (n / d))]. *)
Definition exp10 (n d : Z) : Z :=
  if d <=? n then ndigits (n / d) - 1 else
  let k := ndigits (d / n) - 1 in if d <=? n * 10 ^ k then - k else - (k + 1).

Definition same_float (f g : float64) : bool :=
  match f, g with
  | S754_finite s m e, S754_finite s' m' e' => Bool.eqb s s' && Pos.eqb m m' && (e =? e')
  | S754_zero s, S754_zero s' => Bool.eqb s s'
  | _, _ => false
  end.

(** Among the [n]-digit decimals on either side of [num / den], the nearest
    one that reads back as [f], with its power of ten. *)
Definition try_digits (f : float64) (num den x : Z) (n : Z) : option (Z * Z) :=
  let p := n - 1 - x in
  let a := if 0 <=? p then num * 10 ^ p else num in
  let b := if 0 <=? p then den else den * 10 ^ (- p) in
  let d := a / b in let r := a mod b in
  let ok c := same_float (round_decimal false c (- p)) f in
  match ok d, ok (d + 1) with
  | true, true =>
      let up := (b <? 2 * r) || ((2 * r =? b) && Z.odd d) in
      Some (if up then d + 1 else d, - p)
  | true, false => Some (d, - p)
  | false, true => Some (d + 1, - p)
  | false, false => None
  end.

Fixpoint shortest (f : float64) (num den x : Z) (fuel : nat) (n : Z) : option (Z * Z) :=
  match fuel with
  | O => None
  | S fuel' =>
      match try_digits f num den x n with
      | Some r => Some r
      | None => shortest f num den x fuel' (n + 1)
      end
  end.

Fixpoint zeros (n : nat) : string :=
  match n with O => "" | S n' => String "0" (zeros n') end.

(** Digits [ds] with the decimal point after position [dp]. *)
Definition format_f (ds : string) (dp : Z) : string :=
  let n := slen ds in
  if dp <=? 0 then "0." +:+ zeros (Z.to_nat (- dp)) +:+ ds
  else if n <=? dp then ds +:+ zeros (Z.to_nat (dp - n))
  else string_take (Z.to_nat dp) ds +:+ "." +:+ string_drop (Z.to_nat dp) ds.

(** Go's two-digit exponents below ten lose their zero in [encoding/json]. *)
Definition format_e (ds : string) (dp : Z) : string :=
  let x := dp - 1 in
  string_take 1 ds +:+ (if 1 <? slen ds then "." +:+ string_drop 1 ds else "")
    +:+ (if x <? 0 then "e-" else "e+") +:+ FormatInt (Z.abs x).

(** [floatEncoder]; [None] is an unsupported value (NaN or an infinity). *)
Definition FormatFloat (f : float64) : option string :=
  match f with
  | S754_zero s => Some (if s then "-0" else "0")
  | S754_finite s m e =>
      let num := if 0 <=? e then Z.pos m * 2 ^ e else Z.pos m in
      let den := if 0 <=? e then 1 else 2 ^ (- e) in
      let abs := S754_finite false m e in
      let x := exp10 num den in
      '(c, k) ← shortest abs num den x 17 1;
      let ds := TrimRight (FormatInt c) "0" in
      let dp := ndigits c + k in
      let small := SFltb abs (round_decimal false 1 (-6)) in
      let text := if (small : bool) || (21 <=? x) then format_e ds dp else format_f ds dp in
      Some (if s then String "-" text else text)
  | _ => None
  end.

(** The text is a JSON number that reads back as the same number.  Seventeen
    digits are known to be enough for every finite binary64; the predicate
    decides it for a given one. *)
Definition float_printable (f : float64) : bool :=
  match FormatFloat f with
  | Some lit =>
      match scan_number lit, ParseFloat lit with
      | Some (l, ""), Some g => same_float f g && seqb l lit
      | _, _ => false
      end
  | None => false
  end.

Definition float_text (d k : Z) : option string := FormatFloat (round_decimal false d k).

Example float_tenth : float_text 1 (-1) = Some "0.1".
Proof. vm_compute. reflexivity. Qed.
Example float_int : float_text 1785312000 0 = Some "1785312000".
Proof. vm_compute. reflexivity. Qed.
Example float_e21 : (float_text 1 21, float_text 123 18) = (Some "1e+21", Some "123000000000000000000").
Proof. vm_compute. reflexivity. Qed.
Example float_small : (float_text 15 (-8), float_text 1 (-6)) = (Some "1.5e-7", Some "0.000001").
Proof. vm_compute. reflexivity. Qed.
Example float_third :
  FormatFloat (float64_div (float64_of_Z 1) (float64_of_Z 3)) = Some "0.3333333333333333".
Proof. vm_compute. reflexivity. Qed.
Example float_max : FormatFloat (S754_finite false 9007199254740991 971) = Some "1.7976931348623157e+308".
Proof. vm_compute. reflexivity. Qed.
Example float_min : FormatFloat (S754_finite true 1 (-1074)) = Some "-5e-324".
Proof. vm_compute. reflexivity. Qed.
Example float_range : ParseFloat "1e400" = None.
Proof. vm_compute. reflexivity. Qed.

(** ** Lemmas *)
Lemma same_float_eq f g : same_float f g = true → f = g.
Proof.
  destruct f as [s|s| |s m e], g as [s'|s'| |s' m' e']; try done; cbn [same_float].
  - by intros ->%Bool.eqb_prop.
  - intros [[->%Bool.eqb_prop ->%Pos.eqb_eq]%andb_true_iff ->%Z.eqb_eq]%andb_true_iff. done.
Qed.

Lemma float_printable_spec f : float_printable f = true →
  ∃ lit, FormatFloat f = Some lit ∧ wf_lit lit ∧ ParseFloat lit = Some f.
Proof.
  unfold float_printable, wf_lit. destruct (FormatFloat f) as [lit|]; [|done].
  destruct (scan_number lit) as [[l [|? ?]]|] eqn:El; try done.
  destruct (ParseFloat lit) as [g|] eqn:Ep; [|done].
  intros [<-%same_float_eq ->%seqb_true]%andb_true_iff. by exists lit.
Qed.
