(* ===== verification/GoFormat.v ===== *)
(** [Time.Format(time.RFC1123)]: the civil date of a [Time] in a location.
    The zone database is an argument: the class [Location] gives the zone
    abbreviation and the offset in seconds in force at an instant. *)

From S2P Require Import Prelude GoTime GoStrconv.

Class Location := { zone_at : Time → string * Z }.

Definition UTC : Location := {| zone_at := λ _, ("UTC", 0) |}.

Definition leap (y : Z) : bool :=
  (y mod 4 =? 0) && (negb (y mod 100 =? 0) || (y mod 400 =? 0)).

Definition month_days (y : Z) : list (string * Z) :=
  [("Jan", 31); ("Feb", if leap y then 29 else 28); ("Mar", 31); ("Apr", 30); ("May", 31);
   ("Jun", 30); ("Jul", 31); ("Aug", 31); ("Sep", 30); ("Oct", 31); ("Nov", 30); ("Dec", 31)].

Fixpoint month_of (ms : list (string * Z)) (yday : Z) : string * Z :=
  match ms with
  | [] => ("Dec", yday + 1)
  | (m, n) :: ms' => if yday <? n then (m, yday + 1) else month_of ms' (yday - n)
  end.

(** Year and day of the year (from 0) of a day count since 1 January of year 1. *)
Definition year_yday (days : Z) : Z * Z :=
  let n400 := days / 146097 in let d := days mod 146097 in
  let n100 := Z.min 3 (d / 36524) in let d := d - 36524 * n100 in
  let n4 := d / 1461 in let d := d mod 1461 in
  let n1 := Z.min 3 (d / 365) in
  (1 + 400 * n400 + 100 * n100 + 4 * n4 + n1, d - 365 * n1).

(** Year, month and day. *)
Definition civil (days : Z) : Z * string * Z :=
  let '(year, yday) := year_yday days in
  let '(m, day) := month_of (month_days year) yday in
  (year, m, day).

Definition weekday (days : Z) : string :=
  nth (Z.to_nat (days mod 7)) ["Mon"; "Tue"; "Wed"; "Thu"; "Fri"; "Sat"; "Sun"] "".

(** "Mon, 02 Jan 2006 15:04:05 MST". *)
Definition Format_RFC1123 `{Location} (t : Time) : string :=
  let '(abbrev, offset) := zone_at t in
  let secs := t / Second + offset in
  let days := secs / 86400 in
  let s := secs mod 86400 in
  let '(year, m, day) := civil days in
  weekday days +:+ ", " +:+ pad_digits 2 day +:+ " " +:+ m +:+ " " +:+ pad_digits 4 year +:+ " "
    +:+ pad_digits 2 (s / 3600) +:+ ":" +:+ pad_digits 2 (s mod 3600 / 60) +:+ ":"
    +:+ pad_digits 2 (s mod 60) +:+ " " +:+ abbrev.

(** The zero [Time], and the layout's own reference date in UTC. *)
Example Format_zero : @Format_RFC1123 UTC 0 = "Mon, 01 Jan 0001 00:00:00 UTC".
Proof. vm_compute. reflexivity. Qed.
Example Format_reference :
  @Format_RFC1123 UTC (63271811045 * Second + 999) = "Mon, 02 Jan 2006 15:04:05 UTC".
Proof. vm_compute. reflexivity. Qed.
