(* ===== verification/Rfc3339.v ===== *)
(** [time.Time] as text: [MarshalJSON] and [UnmarshalJSON] write and read
    RFC 3339 with nanoseconds.  The location a [time.Time] carries is the
    class [Location] of [GoFormat]: any function of the instant.  Only Go's
    fast parser is modelled; what its lenient fallback alone would accept is
    an error here. *)

From S2P Require Import Prelude GoStrings GoUtf8 GoTime GoStrconv GoJson GoFormat.

(** ** Dates *)

(** Month (from 1) and day of a day of the year. *)
Fixpoint month_num (ms : list (string * Z)) (i yday : Z) : Z * Z :=
  match ms with
  | [] => (i, yday + 1)
  | (_, n) :: ms' => if yday <? n then (i, yday + 1) else month_num ms' (i + 1) (yday - n)
  end.

Definition days_before_year (y : Z) : Z :=
  let k := y - 1 in 365 * k + k / 4 - k / 100 + k / 400.

Definition daysIn (m y : Z) : Z := (nth (Z.to_nat (m - 1)) (month_days y) ("", 0)).2.

Definition days_before_month (m y : Z) : Z :=
  foldr Z.add 0 (snd <$> take (Z.to_nat (m - 1)) (month_days y)).

(** [time.Date] in UTC, for fields within their ranges. *)
Definition Date (year month day hour min sec nsec : Z) : Time :=
  let days := days_before_year year + days_before_month month year + (day - 1) in
  (days * 86400 + hour * 3600 + min * 60 + sec) * Second + nsec.

(** [Time.AddDate(years, 0, 0)]: the same wall clock in another year, the
    offset looked up as [time.Date] does. *)
Definition AddDate_years `{Location} (t : Time) (years : Z) : Time :=
  let secs := t / Second + (zone_at t).2 in
  let '(year, yday) := year_yday (secs / 86400) in
  let '(month, day) := month_num (month_days year) 1 yday in
  let s := secs mod 86400 in
  let wall := Date (year + years) month day (s / 3600) (s mod 3600 / 60) (s mod 60) (t mod Second) in
  let offset := (zone_at wall).2 in
  if offset =? 0 then wall else wall - (zone_at (wall - offset * Second)).2 * Second.

(** ** Writing: [appendStrictRFC3339] *)
Definition frac_text (nanos : Z) : string :=
  if nanos =? 0 then "" else "." +:+ TrimRight (pad_digits 9 nanos) "0".

Definition zone_text (offset : Z) : string :=
  if offset =? 0 then "Z" else
  let z := Z.quot offset 60 in
  (if z <? 0 then "-" else "+") +:+ pad_digits 2 (Z.abs z / 60) +:+ ":" +:+ pad_digits 2 (Z.abs z mod 60).

Definition date_text (year month day secs : Z) : string :=
  pad_digits 4 year +:+ "-" +:+ pad_digits 2 month +:+ "-" +:+ pad_digits 2 day +:+ "T"
    +:+ pad_digits 2 (secs / 3600) +:+ ":" +:+ pad_digits 2 (secs mod 3600 / 60) +:+ ":"
    +:+ pad_digits 2 (secs mod 60).

(** [None]: the year or the zone hour is out of range. *)
Definition Format_RFC3339 `{Location} (t : Time) : option string :=
  let offset := (zone_at t).2 in
  let secs := t / Second + offset in
  let days := secs / 86400 in
  let '(year, yday) := year_yday days in
  let '(month, day) := month_num (month_days year) 1 yday in
  if (0 <=? year) && (year <=? 9999) && (Z.abs (Z.quot offset 60) / 60 <? 24)
  then Some (date_text year month day (secs mod 86400) +:+ frac_text (t mod Second)
               +:+ zone_text offset)
  else None.

(** ** Reading: [parseRFC3339] *)
Definition read_uint (n : nat) (lo hi : Z) (s : string) : option (Z * string) :=
  let d := string_take n s in
  if negb (Nat.eqb (String.length d) n) then None else
  v ← atoi_digits d 0;
  if (lo <=? v) && (v <=? hi) then Some (v, string_drop n s) else None.

Definition expect (c : ascii) (s : string) : option string :=
  match s with
  | String d s' => if Ascii.eqb d c then Some s' else None
  | "" => None
  end.

(** [parseNanoseconds]: at most nine digits count. *)
Definition read_frac (s : string) : Z * string :=
  match s with
  | String "." s1 =>
      let (ds, r) := span_digits s1 in
      if is_empty ds then (0, s) else
      let ds := string_take 9 ds in
      (default 0 (atoi_digits ds 0) * 10 ^ (9 - slen ds), r)
  | _ => (0, s)
  end.

(** Seconds east of UTC. *)
Definition read_zone (s : string) : option Z :=
  match s with
  | "Z" => Some 0
  | String c s1 =>
      if negb (Ascii.eqb c "-" || Ascii.eqb c "+") then None else
      '(hr, s2) ← read_uint 2 0 23 s1; s3 ← expect ":" s2;
      '(mm, s4) ← read_uint 2 0 59 s3;
      if negb (is_empty s4) then None else
      let off := (hr * 60 + mm) * 60 in Some (if Ascii.eqb c "-" then - off else off)
  | "" => None
  end.

Definition Parse_RFC3339 (s : string) : option Time :=
  '(year, s) ← read_uint 4 0 9999 s; s ← expect "-" s;
  '(month, s) ← read_uint 2 1 12 s; s ← expect "-" s;
  '(day, s) ← read_uint 2 1 (daysIn month year) s; s ← expect "T" s;
  '(hour, s) ← read_uint 2 0 23 s; s ← expect ":" s;
  '(min, s) ← read_uint 2 0 59 s; s ← expect ":" s;
  '(sec, s) ← read_uint 2 0 59 s;
  let (nsec, s) := read_frac s in
  off ← read_zone s;
  Some (Date year month day hour min sec nsec - off * Second).

Definition offset_zone (off : Z) : Location := {| zone_at := λ _, ("", off) |}.

(** 29 February 2024 plus ten years is 1 March 2034. *)
Example AddDate_leap : @AddDate_years UTC (Date 2024 2 29 1 2 3 4) 10 = Date 2034 3 1 1 2 3 4.
Proof. vm_compute. reflexivity. Qed.
Example rfc3339_zero : @Format_RFC3339 UTC 0 = Some "0001-01-01T00:00:00Z".
Proof. vm_compute. reflexivity. Qed.
Example rfc3339_zone : @Format_RFC3339 (offset_zone (-25200)) (63271811045 * Second + 120000000)
  = Some "2006-01-02T08:04:05.12-07:00".
Proof. vm_compute. reflexivity. Qed.
Example rfc3339_read : Parse_RFC3339 "2006-01-02T08:04:05.120-07:00"
  = Some (63271811045 * Second + 120000000).
Proof. vm_compute. reflexivity. Qed.
Example rfc3339_no_day : Parse_RFC3339 "2025-02-29T00:00:00Z" = None.
Proof. vm_compute. reflexivity. Qed.
Example rfc3339_leap : Parse_RFC3339 "2024-02-29T00:00:00Z" ≠ None.
Proof. vm_compute. discriminate. Qed.

(** ** Calendar lemmas *)
Lemma year_yday_inv days year yday : year_yday days = (year, yday) →
  days_before_year year + yday = days ∧ 0 ≤ yday ∧
  yday < (if leap year then 366 else 365).
Proof.
  unfold year_yday, days_before_year. intros [= <- <-].
  set (a := days / 146097). set (d := days mod 146097).
  assert (Hd : 0 ≤ d < 146097) by (apply Z.mod_pos_bound; lia).
  assert (Hdays : days = 146097 * a + d) by (apply Z.div_mod; lia). clearbody a d. subst days.
  set (b := Z.min 3 (d / 36524)). assert (Hb : 0 ≤ b ≤ 3 ∧ 36524 * b ≤ d ∧
    (b < 3 → d < 36524 * (b + 1))) by (unfold b; divlia). clearbody b.
  set (e := d - 36524 * b). assert (He : 0 ≤ e ≤ 36524 ∧ (b < 3 → e < 36524)) by (unfold e; lia).
  set (c := e / 1461). set (f := e mod 1461).
  assert (Hf : 0 ≤ f < 1461) by (apply Z.mod_pos_bound; lia).
  assert (Hcf : e = 1461 * c + f) by (apply Z.div_mod; lia). clearbody c f.
  set (g := Z.min 3 (f / 365)). assert (Hg : 0 ≤ g ≤ 3 ∧ 365 * g ≤ f ∧
    (g < 3 → f < 365 * (g + 1))) by (unfold g; divlia). clearbody g.
  assert (Hc : 0 ≤ c ≤ 24) by lia.
  set (k := 400 * a + 100 * b + 4 * c + g).
  replace (1 + 400 * a + 100 * b + 4 * c + g - 1) with k by (unfold k; lia).
  assert (Hk4 : k / 4 = 100 * a + 25 * b + c) by (unfold k; divlia).
  assert (Hk100 : k / 100 = 4 * a + b) by (unfold k; divlia).
  assert (Hk400 : k / 400 = a) by (unfold k; divlia).
  rewrite Hk4, Hk100, Hk400. split; [unfold k, e in *; lia|]. split; [lia|].
  unfold leap. replace (1 + 400 * a + 100 * b + 4 * c + g) with (1 + k) by (unfold k; lia).
  destruct (decide (f = 1460)) as [Hl|Hl]; [|case_match; lia].
  assert (g = 3) by lia.
  assert (H4 : (1 + k) mod 4 = 0) by (unfold k; divlia). rewrite H4. simpl (0 =? 0).
  destruct (decide (c = 24)) as [->|Hc24].
  - assert (b = 3) by lia. assert (H400 : (1 + k) mod 400 = 0) by (unfold k; divlia).
    rewrite H400. rewrite orb_true_r. simpl. lia.
  - assert (H100 : (1 + k) mod 100 ≠ 0) by (unfold k; divlia).
    rewrite (proj2 (Z.eqb_neq _ _) H100). simpl. lia.
Qed.

(** The month table, checked on every day of both kinds of year. *)
Definition month_lens (leap : bool) : list (string * Z) :=
  [("Jan", 31); ("Feb", if leap then 29 else 28); ("Mar", 31); ("Apr", 30); ("May", 31);
   ("Jun", 30); ("Jul", 31); ("Aug", 31); ("Sep", 30); ("Oct", 31); ("Nov", 30); ("Dec", 31)].

Definition month_ok (leap : bool) (yday : Z) : bool :=
  let '(m, d) := month_num (month_lens leap) 1 yday in
  (1 <=? m) && (m <=? 12) && (1 <=? d)
    && (d <=? (nth (Z.to_nat (m - 1)) (month_lens leap) ("", 0)).2)
    && (foldr Z.add 0 (snd <$> take (Z.to_nat (m - 1)) (month_lens leap)) + (d - 1) =? yday).

Lemma month_num_inv y yday m d : month_num (month_days y) 1 yday = (m, d) →
  0 ≤ yday < (if leap y then 366 else 365) →
  1 ≤ m ≤ 12 ∧ 1 ≤ d ≤ daysIn m y ∧ days_before_month m y + (d - 1) = yday.
Proof.
  intros E Hy. change (month_days y) with (month_lens (leap y)) in E.
  unfold daysIn, days_before_month. change (month_days y) with (month_lens (leap y)).
  assert (H : month_ok (leap y) yday = true).
  { destruct (leap y); [apply (forall_seqZ (month_ok true) 366)
                       |apply (forall_seqZ (month_ok false) 365)]; try exact Hy;
      vm_compute; reflexivity. }
  unfold month_ok in H. rewrite E in H. reflect_bool. lia.
Qed.

Lemma daysIn_le m y : 1 ≤ m ≤ 12 → daysIn m y ≤ 31.
Proof.
  intros. unfold daysIn. assert (∃ k, m = Z.of_nat (S k) ∧ (k < 12)%nat) as (k & -> & Hk)
    by (exists (Z.to_nat (m - 1)); lia).
  replace (Z.to_nat (Z.of_nat (S k) - 1)) with k by lia.
  do 12 (destruct k as [|k]; [simpl; try case_match; lia|]). lia.
Qed.

(** ** Reading back *)
Lemma string_take_app a b : string_take (String.length a) (a +:+ b) = a.
Proof. induction a as [|c a IH]; [by destruct b|]. simpl. by rewrite IH. Qed.

Lemma read_uint_pad n lo hi z rest : 0 ≤ z < 10 ^ Z.of_nat n → lo ≤ z ≤ hi →
  read_uint n lo hi (pad_digits n z +:+ rest) = Some (z, rest).
Proof.
  intros Hz Hr. unfold read_uint.
  pose proof (string_take_app (pad_digits n z) rest) as Ht.
  pose proof (string_drop_app (pad_digits n z) rest) as Hd.
  rewrite pad_digits_length in Ht, Hd. rewrite Ht, Hd, pad_digits_length, Nat.eqb_refl.
  cbn [negb]. rewrite atoi_pad_digits by done. cbn [mbind option_bind].
  by replace ((lo <=? z) && (z <=? hi)) with true by lia.
Qed.

Lemma expect_eq c s : expect c (String c s) = Some s.
Proof. unfold expect. by rewrite Ascii.eqb_refl. Qed.

(** Trailing zeros carry no value. *)
Lemma TrimRight_zeros s v : atoi_digits s 0 = Some v → ∃ w,
  atoi_digits (TrimRight s "0") 0 = Some w ∧ (String.length (TrimRight s "0") ≤ String.length s)%nat ∧
  v = w * 10 ^ (slen s - slen (TrimRight s "0")).
Proof.
  assert (Hz : ∀ s acc v, atoi_digits s acc = Some v → TrimRight s "0" = "" →
    v = acc * 10 ^ slen s).
  { induction s0 as [|c s0 IH]; intros acc v0; [intros [= <-] _; unfold slen; simpl; lia|].
    cbn [TrimRight atoi_digits]. destruct (TrimRight s0 "0") eqn:E; [|done].
    destruct (Ascii.eqb_spec c "0") as [->|]; [|done].
    change (byte_of "0") with 48. cbn [andb Z.leb Z.compare]. simpl (_ <=? _). intros H _.
    specialize (IH _ _ H eq_refl) as ->. unfold slen. cbn [String.length].
    rewrite Nat2Z.inj_succ, Z.pow_succ_r by lia. lia. }
  assert (Hg : ∀ s acc v, atoi_digits s acc = Some v → ∃ w,
    atoi_digits (TrimRight s "0") acc = Some w ∧
    (String.length (TrimRight s "0") ≤ String.length s)%nat ∧
    v = w * 10 ^ (slen s - slen (TrimRight s "0"))).
  { induction s0 as [|c s0 IH]; intros acc v0 H.
    - simpl in *. exists acc. simplify_eq. split; [done|]. split; [lia|]. unfold slen; simpl; lia.
    - pose proof H as H'. cbn [atoi_digits] in H.
      destruct ((48 <=? byte_of c) && (byte_of c <=? 57)) eqn:Ec; [|done].
      destruct (decide (TrimRight (String c s0) "0" = "")) as [E|E].
      + rewrite E. exists acc. split; [done|]. split; [simpl; lia|].
        rewrite (Hz _ _ _ H' E). unfold slen. simpl String.length. do 2 f_equal; lia.
      + assert (Hc : TrimRight (String c s0) "0" = String c (TrimRight s0 "0")).
        { cbn [TrimRight] in *. destruct (TrimRight s0 "0"); [|done].
          by destruct (Ascii.eqb c "0"). }
        destruct (IH _ _ H) as (w & Hw & Hl & ->). rewrite Hc. exists w.
        cbn [atoi_digits]. rewrite Ec. split; [done|]. split; [simpl; lia|].
        unfold slen. cbn [String.length]. do 2 f_equal. lia. }
  apply Hg.
Qed.

Lemma TrimRight_all P s c : string_all P s = true → string_all P (TrimRight s c) = true.
Proof.
  induction s as [|d s IH]; [done|]. cbn [string_all TrimRight]. intros [Hd Hs]%andb_true_iff.
  specialize (IH Hs). destruct (TrimRight s c) as [|e t].
  - destruct (Ascii.eqb d c); [done|]. cbn. by rewrite Hd.
  - cbn [string_all] in *. by rewrite Hd.
Qed.

Lemma string_take_all n s : (String.length s ≤ n)%nat → string_take n s = s.
Proof.
  revert n. induction s as [|c s IH]; intros [|n] Hn; simpl in *; try done; [lia|].
  by rewrite IH by lia.
Qed.

(** The fraction, when what follows is not a digit. *)
Lemma read_frac_text nanos rest : 0 ≤ nanos < Second → delim rest →
  read_frac (frac_text nanos +:+ rest) = (nanos, rest).
Proof.
  unfold Second. intros Hn Hr. unfold frac_text. destruct (nanos =? 0) eqn:E; reflect_bool.
  - subst. rewrite string_app_nil_l. destruct rest as [|c t]; [done|].
    destruct Hr as (_ & Hc & _). clear -Hc. by ascii_cases c.
  - rewrite !string_app_cons, string_app_nil_l. cbn [read_frac].
    set (ds := TrimRight (pad_digits 9 nanos) "0").
    destruct (TrimRight_zeros (pad_digits 9 nanos) nanos) as (w & Hw & Hl & Hv).
    { apply atoi_pad_digits. simpl. lia. }
    fold ds in Hw, Hl, Hv. unfold slen in Hv. rewrite pad_digits_length in Hl, Hv.
    assert (Hall : string_all is_digit ds = true) by apply TrimRight_all, pad_digits_all.
    rewrite (span_digits_app ds ds "" rest (span_digits_all ds Hall) (λ _, Hr)).
    rewrite string_app_nil_l.
    destruct (is_empty ds) eqn:Ee.
    { apply is_empty_true in Ee. rewrite Ee in Hw, Hv. simpl in Hw. by simplify_eq. }
    rewrite string_take_all by lia. rewrite Hw. cbn [default]. f_equal. unfold slen. by symmetry.
Qed.

(** Offsets whose text is exact: whole minutes, less than a day. *)
Definition good_offset (off : Z) : Prop := off mod 60 = 0 ∧ -86400 < off < 86400.

Lemma zone_delim off : delim (zone_text off).
Proof.
  unfold zone_text. destruct (off =? 0); [by split_and!|]. cbv zeta.
  by destruct (_ <? 0); split_and!.
Qed.

Lemma read_zone_text off : good_offset off → read_zone (zone_text off) = Some off.
Proof.
  unfold good_offset. intros [Hm Hr]. unfold zone_text.
  destruct (off =? 0) eqn:E; reflect_bool; [by subst|]. cbv zeta.
  set (z := Z.quot off 60). assert (Hz : off = 60 * z) by (unfold z; divlia).
  assert (Ha : 0 ≤ Z.abs z < 1440) by lia.
  assert (Hread : ∀ c, c = "-"%char ∨ c = "+"%char →
    read_zone (String c (pad_digits 2 (Z.abs z / 60) +:+ ":" +:+ pad_digits 2 (Z.abs z mod 60)))
    = Some (if Ascii.eqb c "-" then - (Z.abs z * 60) else Z.abs z * 60)).
  { intros c Hc.
    assert (Hs : ∀ s, read_zone (String c s) = '(hr, s2) ← read_uint 2 0 23 s; s3 ← expect ":" s2;
      '(mm, s4) ← read_uint 2 0 59 s3;
      if negb (is_empty s4) then None else
      let o := (hr * 60 + mm) * 60 in Some (if Ascii.eqb c "-" then - o else o))
      by (by destruct Hc as [->| ->]).
    rewrite Hs, read_uint_pad by (simpl; divlia). cbn [mbind option_bind].
    rewrite string_app_cons, expect_eq, string_app_nil_l. cbn [mbind option_bind].
    rewrite <-(string_app_nil_r (pad_digits 2 (Z.abs z mod 60))).
    rewrite read_uint_pad by (simpl; divlia). cbn [mbind option_bind is_empty negb].
    replace (Z.abs z / 60 * 60 + Z.abs z mod 60) with (Z.abs z) by divlia. done. }
  destruct (z <? 0) eqn:Ez; reflect_bool; rewrite string_app_cons, string_app_nil_l, Hread by auto;
    simpl; f_equal; lia.
Qed.

(** Every instant survives being written and read. *)
Lemma Parse_Format_RFC3339 `{Location} t txt : good_offset (zone_at t).2 →
  Format_RFC3339 t = Some txt → Parse_RFC3339 txt = Some t.
Proof.
  intros Hoff. unfold Format_RFC3339. cbv zeta.
  set (off := (zone_at t).2) in *. set (secs := t / Second + off).
  destruct (year_yday (secs / 86400)) as [year yday] eqn:Ey.
  destruct (month_num (month_days year) 1 yday) as [month day] eqn:Em.
  destruct ((0 <=? year) && (year <=? 9999) && (Z.abs (Z.quot off 60) / 60 <? 24)) eqn:Eb; [|done].
  intros [= <-]. reflect_bool.
  destruct (year_yday_inv _ _ _ Ey) as (Hdays & Hy).
  destruct (month_num_inv _ _ _ _ Em Hy) as (Hm & Hd & Hmd).
  pose proof (daysIn_le month year Hm).
  assert (Hs : 0 ≤ secs mod 86400 < 86400) by (apply Z.mod_pos_bound; lia).
  set (sod := secs mod 86400) in *.
  unfold date_text, Parse_RFC3339. rewrite <-!string_app_assoc.
  rewrite read_uint_pad by (simpl; lia). cbn [mbind option_bind].
  rewrite string_app_cons, expect_eq, string_app_nil_l. cbn [mbind option_bind].
  rewrite read_uint_pad by (simpl; lia). cbn [mbind option_bind].
  rewrite string_app_cons, expect_eq, string_app_nil_l. cbn [mbind option_bind].
  rewrite read_uint_pad by (simpl; lia). cbn [mbind option_bind].
  rewrite string_app_cons, expect_eq, string_app_nil_l. cbn [mbind option_bind].
  rewrite read_uint_pad by (simpl; divlia). cbn [mbind option_bind].
  rewrite string_app_cons, expect_eq, string_app_nil_l. cbn [mbind option_bind].
  rewrite read_uint_pad by (simpl; divlia). cbn [mbind option_bind].
  rewrite string_app_cons, expect_eq, string_app_nil_l. cbn [mbind option_bind].
  rewrite read_uint_pad by (simpl; divlia). cbn [mbind option_bind].
  rewrite read_frac_text; [|unfold Second; apply Z.mod_pos_bound; lia|apply zone_delim].
  rewrite read_zone_text by done. cbn [mbind option_bind]. f_equal. unfold Date.
  replace (days_before_year year + days_before_month month year + (day - 1)) with (secs / 86400) by lia.
  assert (Hsod : sod / 3600 * 3600 + sod mod 3600 / 60 * 60 + sod mod 60 = sod) by divlia.
  replace ((secs / 86400 * 86400 + sod / 3600 * 3600 + sod mod 3600 / 60 * 60 + sod mod 60))
    with secs by (pose proof (Z.div_mod secs 86400); unfold sod in *; lia).
  unfold secs. pose proof (Z.div_mod t Second ltac:(done)). lia.
Qed.
