(* ===== verification/Session.v ===== *)
(** The session model of [internal/store/store.go]: [State], [Identity],
    [Session], the dynamic values ([any]) an identity's claims hold, and
    one setter per field the program assigns. *)

From S2P Require Import Prelude GoTime.

(** Position of a session in the state machine. *)
Inductive State :=
  | StatePending
  | StateAwaitingApproval
  | StateApproved
  | StateDenied
  | StateExpired.

#[export] Instance State_eq_dec : EqDecision State.
Proof. solve_decision. Defined.

(** The string constants of the Go type. *)
Definition State_string (st : State) : string :=
  match st with
  | StatePending => "pending"
  | StateAwaitingApproval => "awaiting_approval"
  | StateApproved => "approved"
  | StateDenied => "denied"
  | StateExpired => "expired"
  end.

#[export] Instance State_string_inj : Inj (=) (=) State_string.
Proof. by intros [] []. Qed.

(** Values of Go's [any] the program stores in claims: what [encoding/json]
    decodes into an interface, plus the [[]string] of a multi-valued SAML
    attribute. *)
Inductive any :=
  | AnyNil
  | AnyBool (b : bool)
  | AnyFloat64 (f : float64)
  | AnyString (s : string)
  | AnySlice (l : list any)
  | AnyStrings (l : list string)
  | AnyMap (m : list (string * any)).

Definition claims := gmap string any.

Record Identity := mkIdentity {
  Subject : string;
  Value : string;
  Claims : claims;
}.

(** [Session] as its pointers read: Go's [Identity] field is a [*Identity].
    The program assigns that pointer but never writes through it, so a handler's
    session is this value; the sharing of the pointer between the copies a store
    makes is modelled where it arises, on the heap of [Store.Memory]. *)
Record Session := mkSession {
  ID : string;
  LoginHint : string;
  CodeChallenge : string;
  ClientKind : string;
  ClientHost : string;
  ClientIP : string;
  VerifiedClient : string;
  Interval : Duration;
  CreatedAt : Time;
  ExpiresAt : Time;
  UserCode : string;
  Protocol : string;
  IdPState : string;
  IdPNonce : string;
  IdPPKCEVerifier : string;
  SAMLRequestID : string;
  SIdentity : option Identity;      (* Go: Identity *Identity *)
  IdentityAt : Time;
  ApproveAttempts : Z;
  CSRFToken : string;
  ApprovalBindingHash : string;
  LastPollAt : Time;
  SState : State;                   (* Go: State State *)
  Consumed : bool;
}.

(** ** Assignments [s.F = v] *)
Definition set_State (v : State) (s : Session) : Session :=
  mkSession (ID s) (LoginHint s) (CodeChallenge s) (ClientKind s) (ClientHost s) (ClientIP
    s) (VerifiedClient s) (Interval s) (CreatedAt s) (ExpiresAt s) (UserCode s) (Protocol s)
    (IdPState s) (IdPNonce s) (IdPPKCEVerifier s) (SAMLRequestID s) (SIdentity s)
    (IdentityAt s) (ApproveAttempts s) (CSRFToken s) (ApprovalBindingHash s) (LastPollAt s)
    v (Consumed s).

Definition set_Identity (i : Identity) (at_ : Time) (s : Session) : Session :=
  mkSession (ID s) (LoginHint s) (CodeChallenge s) (ClientKind s) (ClientHost s) (ClientIP
    s) (VerifiedClient s) (Interval s) (CreatedAt s) (ExpiresAt s) (UserCode s) (Protocol s)
    (IdPState s) (IdPNonce s) (IdPPKCEVerifier s) (SAMLRequestID s) (Some i) at_
    (ApproveAttempts s) (CSRFToken s) (ApprovalBindingHash s) (LastPollAt s) (SState s)
    (Consumed s).

Definition set_CSRFToken (v : string) (s : Session) : Session :=
  mkSession (ID s) (LoginHint s) (CodeChallenge s) (ClientKind s) (ClientHost s) (ClientIP
    s) (VerifiedClient s) (Interval s) (CreatedAt s) (ExpiresAt s) (UserCode s) (Protocol s)
    (IdPState s) (IdPNonce s) (IdPPKCEVerifier s) (SAMLRequestID s) (SIdentity s)
    (IdentityAt s) (ApproveAttempts s) v (ApprovalBindingHash s) (LastPollAt s) (SState s)
    (Consumed s).

Definition set_ApprovalBindingHash (v : string) (s : Session) : Session :=
  mkSession (ID s) (LoginHint s) (CodeChallenge s) (ClientKind s) (ClientHost s) (ClientIP
    s) (VerifiedClient s) (Interval s) (CreatedAt s) (ExpiresAt s) (UserCode s) (Protocol s)
    (IdPState s) (IdPNonce s) (IdPPKCEVerifier s) (SAMLRequestID s) (SIdentity s)
    (IdentityAt s) (ApproveAttempts s) (CSRFToken s) v (LastPollAt s) (SState s) (Consumed
    s).

Definition set_ApproveAttempts (v : Z) (s : Session) : Session :=
  mkSession (ID s) (LoginHint s) (CodeChallenge s) (ClientKind s) (ClientHost s) (ClientIP
    s) (VerifiedClient s) (Interval s) (CreatedAt s) (ExpiresAt s) (UserCode s) (Protocol s)
    (IdPState s) (IdPNonce s) (IdPPKCEVerifier s) (SAMLRequestID s) (SIdentity s)
    (IdentityAt s) v (CSRFToken s) (ApprovalBindingHash s) (LastPollAt s) (SState s)
    (Consumed s).

Definition set_LastPollAt (v : Time) (s : Session) : Session :=
  mkSession (ID s) (LoginHint s) (CodeChallenge s) (ClientKind s) (ClientHost s) (ClientIP
    s) (VerifiedClient s) (Interval s) (CreatedAt s) (ExpiresAt s) (UserCode s) (Protocol s)
    (IdPState s) (IdPNonce s) (IdPPKCEVerifier s) (SAMLRequestID s) (SIdentity s)
    (IdentityAt s) (ApproveAttempts s) (CSRFToken s) (ApprovalBindingHash s) v (SState s)
    (Consumed s).

Definition set_Consumed (v : bool) (s : Session) : Session :=
  mkSession (ID s) (LoginHint s) (CodeChallenge s) (ClientKind s) (ClientHost s) (ClientIP
    s) (VerifiedClient s) (Interval s) (CreatedAt s) (ExpiresAt s) (UserCode s) (Protocol s)
    (IdPState s) (IdPNonce s) (IdPPKCEVerifier s) (SAMLRequestID s) (SIdentity s)
    (IdentityAt s) (ApproveAttempts s) (CSRFToken s) (ApprovalBindingHash s) (LastPollAt s)
    (SState s) v.

Definition set_IdPOIDC (st nonce verifier : string) (s : Session) : Session :=
  mkSession (ID s) (LoginHint s) (CodeChallenge s) (ClientKind s) (ClientHost s) (ClientIP
    s) (VerifiedClient s) (Interval s) (CreatedAt s) (ExpiresAt s) (UserCode s) (Protocol s)
    st nonce verifier (SAMLRequestID s) (SIdentity s) (IdentityAt s) (ApproveAttempts s)
    (CSRFToken s) (ApprovalBindingHash s) (LastPollAt s) (SState s) (Consumed s).

Definition set_SAMLRequestID (v : string) (s : Session) : Session :=
  mkSession (ID s) (LoginHint s) (CodeChallenge s) (ClientKind s) (ClientHost s) (ClientIP
    s) (VerifiedClient s) (Interval s) (CreatedAt s) (ExpiresAt s) (UserCode s) (Protocol s)
    (IdPState s) (IdPNonce s) (IdPPKCEVerifier s) v (SIdentity s) (IdentityAt s)
    (ApproveAttempts s) (CSRFToken s) (ApprovalBindingHash s) (LastPollAt s) (SState s)
    (Consumed s).

Definition set_Protocol (v : string) (s : Session) : Session :=
  mkSession (ID s) (LoginHint s) (CodeChallenge s) (ClientKind s) (ClientHost s) (ClientIP
    s) (VerifiedClient s) (Interval s) (CreatedAt s) (ExpiresAt s) (UserCode s) v (IdPState
    s) (IdPNonce s) (IdPPKCEVerifier s) (SAMLRequestID s) (SIdentity s) (IdentityAt s)
    (ApproveAttempts s) (CSRFToken s) (ApprovalBindingHash s) (LastPollAt s) (SState s)
    (Consumed s).

(** ** The fields an identity provider may assign in [BeginLogin] *)

(** [s'] differs from [s] at most in the correlation fields of the IdP leg. *)
Definition same_but_idp (s s' : Session) : Prop :=
  s' = set_Protocol (Protocol s') (set_SAMLRequestID (SAMLRequestID s')
         (set_IdPOIDC (IdPState s') (IdPNonce s') (IdPPKCEVerifier s') s)).

Lemma same_but_idp_refl s : same_but_idp s s.
Proof. by destruct s. Qed.

(** The fields [newSession] fixes and nothing later assigns. *)
Definition origin (s : Session) :=
  (ID s, LoginHint s, CodeChallenge s, ClientKind s, ClientHost s, ClientIP s,
   VerifiedClient s, Interval s, CreatedAt s, ExpiresAt s, UserCode s).

