(* ===== verification/GoMarshal.v ===== *)
(** [encoding/json] on Go values.  A type's encoding is the class [GoJson]:
    [marshal] to a document ([None]: an error), [unmarshal] of a document into
    an existing value.  [GoJsonLaws] says what survives: [norm a] is what [a]
    reads back as, provided [printable a].  A struct is a list of [field]s,
    from which both directions are derived. *)

From S2P Require Import Prelude GoStrings GoUtf8 GoTime GoStrconv GoJson GoFloat GoFormat.
From S2P Require Import Rfc3339 Session.

Local Open Scope list_scope.

Class GoJson (A : Type) := {
  marshal : A → option json;
  unmarshal : json → A → option A;
}.

Class GoJsonLaws (A : Type) `{GoJson A} := {
  norm : A → A;
  printable : A → Prop;
  fresh : A → Prop;                 (* values [unmarshal] is applied to *)
  nesting : A → nat;
  marshal_wf : ∀ a j, printable a → marshal a = Some j → wf_json j;
  marshal_depth : ∀ a j, marshal a = Some j → (depth j ≤ nesting a)%nat;
  unmarshal_marshal : ∀ a j old, printable a → fresh old → marshal a = Some j →
    unmarshal j old = Some (norm a);
}.

(** All results, or none. *)
Definition traverse {A B} (f : A → option B) : list A → option (list B) :=
  fix go l :=
    match l with
    | [] => Some []
    | x :: l' =>
        match f x, go l' with
        | Some y, Some ys => Some (y :: ys)
        | _, _ => None
        end
    end.

(** ** Basic types; [null] leaves them alone *)
Definition string_json : GoJson string := {|
  marshal := λ s, Some (JStr (quote s));
  unmarshal := λ j old,
    match j with JStr raw => unquote raw | JNull => Some old | _ => None end;
|}.

Definition int_json : GoJson Z := {|
  marshal := λ z, Some (JNum (FormatInt z));
  unmarshal := λ j old,
    match j with JNum lit => Atoi lit | JNull => Some old | _ => None end;
|}.

Definition bool_json : GoJson bool := {|
  marshal := λ b, Some (JBool b);
  unmarshal := λ j old,
    match j with JBool b => Some b | JNull => Some old | _ => None end;
|}.

(** The text of a time the program writes: a zero [Time] is in UTC, every
    other one is a clock reading, or a sum with one, in the zone of the process.
    (One decoded from the text of another zone keeps that offset in Go; the
    instant, which is all the program reads, is the same.) *)
Definition time_text `{Location} (t : Time) : option string :=
  if IsZero t then @Format_RFC3339 UTC t else Format_RFC3339 t.

(** [Time.MarshalJSON] and [Time.UnmarshalJSON], which does not unescape. *)
Definition time_json `{Location} : GoJson Time := {|
  marshal := λ t, JStr <$> time_text t;
  unmarshal := λ j old,
    match j with JStr raw => Parse_RFC3339 raw | JNull => Some old | _ => None end;
|}.

(** A nil pointer is [null]; anything else is read into the pointee, or into
    a new zero value. *)
Definition pointer_json {A} (zero : A) (c : GoJson A) : GoJson (option A) := {|
  marshal := λ o, match o with Some a => marshal a | None => Some JNull end;
  unmarshal := λ j old,
    match j with JNull => Some None | _ => Some <$> unmarshal j (default zero old) end;
|}.

(** ** Maps: members sorted by key, the last of equal keys wins *)
Fixpoint insert_member {A} (k : string) (v : A) (l : list (string * A)) : list (string * A) :=
  match l with
  | [] => [(k, v)]
  | (k', v') :: l' =>
      match String.compare k k' with
      | Lt => (k, v) :: l
      | Eq => (k, v) :: l'
      | Gt => (k', v') :: insert_member k v l'
      end
  end.

Definition sort_members {A} (l : list (string * A)) : list (string * A) :=
  foldl (λ acc kv, insert_member kv.1 kv.2 acc) [] l.

(** ** Interface values *)
Fixpoint marshal_any (v : any) : option json :=
  match v with
  | AnyNil => Some JNull
  | AnyBool b => Some (JBool b)
  | AnyFloat64 f => JNum <$> FormatFloat f
  | AnyString s => Some (JStr (quote s))
  | AnySlice l => JArr <$> traverse marshal_any l
  | AnyStrings l => Some (JArr (map (λ s, JStr (quote s)) l))
  | AnyMap m =>
      match traverse (λ kv, match marshal_any kv.2 with Some j => Some (kv.1, j) | None => None end) m with
      | Some l => Some (JObj (map (λ kv, (quote kv.1, kv.2)) (sort_members l)))
      | None => None
      end
  end.

Fixpoint any_of_json (j : json) : option any :=
  match j with
  | JNull => Some AnyNil
  | JBool b => Some (AnyBool b)
  | JNum lit => AnyFloat64 <$> ParseFloat lit
  | JStr raw => AnyString <$> unquote raw
  | JArr l => AnySlice <$> traverse any_of_json l
  | JObj l =>
      match traverse (λ kv, match unquote kv.1, any_of_json kv.2 with
                            | Some k, Some v => Some (k, v)
                            | _, _ => None
                            end) l with
      | Some m => Some (AnyMap (sort_members m))
      | None => None
      end
  end.

(** What an interface value reads back as: slices become [[]any], texts valid. *)
Fixpoint norm_any (v : any) : any :=
  match v with
  | AnyString s => AnyString (to_valid s)
  | AnySlice l => AnySlice (map norm_any l)
  | AnyStrings l => AnySlice (map (λ s, AnyString (to_valid s)) l)
  | AnyMap m => AnyMap (sort_members (map (λ kv, (to_valid kv.1, kv.2))
                  (sort_members (map (λ kv, (kv.1, norm_any kv.2)) m))))
  | _ => v
  end.

Fixpoint any_printable (v : any) : bool :=
  match v with
  | AnyFloat64 f => float_printable f
  | AnySlice l => forallb any_printable l
  | AnyMap m => forallb (λ kv, any_printable kv.2) m
  | _ => true
  end.

Definition any_json : GoJson any := {|
  marshal := marshal_any;
  unmarshal := λ j _, any_of_json j;
|}.

(** [map[string]any]: a map literal is extended by the members read. *)
Definition sorted_members {A} (m : gmap string A) : list (string * A) := sort_members (map_to_list m).

Definition claims_json : GoJson claims := {|
  marshal := λ m,
    match traverse (λ kv, match marshal_any kv.2 with Some j => Some (kv.1, j) | None => None end)
            (sorted_members m) with
    | Some l => Some (JObj (map (λ kv, (quote kv.1, kv.2)) l))
    | None => None
    end;
  unmarshal := λ j old,
    match j with
    | JNull => Some old
    | JObj l =>
        match traverse (λ kv, match unquote kv.1, any_of_json kv.2 with
                              | Some k, Some v => Some (k, v)
                              | _, _ => None
                              end) l with
        | Some m => Some (foldl (λ acc kv, <[kv.1 := kv.2]> acc) old m)
        | None => None
        end
    | _ => None
    end;
|}.

(** ** Structs *)
Record field (S : Type) := mkField {
  f_name : string;
  f_type : Type;
  f_json : GoJson f_type;
  f_laws : GoJsonLaws f_type;
  f_omit : f_type → bool;            (* [omitempty] and empty *)
  f_get : S → f_type;
  f_set : f_type → S → S;
}.
Arguments mkField {S} f_name {f_type f_json} f_laws f_omit f_get f_set.
Arguments f_name {S} _.
Arguments f_type {S} _.
Arguments f_json {S} _.
Arguments f_laws {S} _.
Arguments f_omit {S} _ _.
Arguments f_get {S} _ _.
Arguments f_set {S} _ _ _.
#[export] Existing Instance f_json.
#[export] Existing Instance f_laws.

(** ASCII case folding of a key, with the two non-ASCII runes Go folds onto
    ASCII letters: U+017F (long s) and U+212A (Kelvin sign). *)
Fixpoint fold_name (s : string) : string :=
  match s with
  | "" => ""
  | String c s1 =>
      let b := byte_of c in
      match s1 with
      | String c1 s2 =>
          if (b =? 197) && (byte_of c1 =? 191) then String "S" (fold_name s2) else
          match s2 with
          | String c2 s3 =>
              if (b =? 226) && (byte_of c1 =? 132) && (byte_of c2 =? 170)
              then String "K" (fold_name s3)
              else String (if (97 <=? b) && (b <=? 122) then ascii_of (b - 32) else c) (fold_name s1)
          | "" => String (if (97 <=? b) && (b <=? 122) then ascii_of (b - 32) else c) (fold_name s1)
          end
      | "" => String (if (97 <=? b) && (b <=? 122) then ascii_of (b - 32) else c) ""
      end
  end.

Definition marshal_field {S} (s : S) (f : field S) : option (option (string * json)) :=
  if f_omit f (f_get f s) then Some None else
  match marshal (f_get f s) with
  | Some j => Some (Some (quote (f_name f), j))
  | None => None
  end.

Definition marshal_struct {S} (fs : list (field S)) (s : S) : option json :=
  match traverse (marshal_field s) fs with
  | Some l => Some (JObj (omap id l))
  | None => None
  end.

(** The field a key names, up to case. *)
Fixpoint find_field {S} (key : string) (fs : list (field S)) : option (field S) :=
  match fs with
  | [] => None
  | f :: fs' => if seqb (fold_name key) (fold_name (f_name f)) then Some f else find_field key fs'
  end.

Definition unmarshal_member {S} (fs : list (field S)) (kv : string * json) (s : S) : option S :=
  match unquote kv.1 with
  | None => None
  | Some key =>
      match find_field key fs with
      | None => Some s
      | Some f => (λ a, f_set f a s) <$> unmarshal kv.2 (f_get f s)
      end
  end.

Fixpoint unmarshal_members {S} (fs : list (field S)) (l : list (string * json)) (s : S) : option S :=
  match l with
  | [] => Some s
  | kv :: l' => unmarshal_member fs kv s ≫= unmarshal_members fs l'
  end.

(** A type mismatch is reported after the rest was read; the value is then
    not used, so the members after it do not matter. *)
Definition unmarshal_struct {S} (fs : list (field S)) (j : json) (s : S) : option S :=
  match j with
  | JNull => Some s
  | JObj l => unmarshal_members fs l s
  | _ => None
  end.

Definition struct_json {S} (fs : list (field S)) : GoJson S := {|
  marshal := marshal_struct fs;
  unmarshal := unmarshal_struct fs;
|}.

(** ** Texts *)
Definition Marshal {A} (c : GoJson A) (a : A) : option string := print <$> marshal a.
Definition Unmarshal {A} (c : GoJson A) (text : string) (old : A) : option A :=
  j ← parse text; unmarshal j old.
(** [json.NewDecoder(r).Decode(&v)]. *)
Definition Decode {A} (c : GoJson A) (text : string) (old : A) : option A :=
  '(j, _) ← decode_first text; unmarshal j old.

(** ** Laws *)

Lemma traverse_Some {A B} (f : A → option B) l ys :
  traverse f l = Some ys ↔ Forall2 (λ x y, f x = Some y) l ys.
Proof.
  revert ys. induction l as [|x l IH]; intros ys; cbn [traverse].
  - split; [intros [= <-]; constructor|]. by intros ->%Forall2_nil_inv_l.
  - fold (traverse f). split.
    + destruct (f x) as [y|] eqn:E; [|done]. destruct (traverse f l) as [ys'|]; [|done].
      intros [= <-]. constructor; [done|]. by apply IH.
    + intros (y & ys' & Hy & Hl & ->)%Forall2_cons_inv_l. rewrite Hy.
      apply IH in Hl. by rewrite Hl.
Qed.

Lemma traverse_is_Some {A B} (f : A → option B) l :
  is_Some (traverse f l) ↔ Forall (λ x, is_Some (f x)) l.
Proof.
  split.
  - intros [ys Hl%traverse_Some]. induction Hl; constructor; eauto.
  - induction 1 as [|x l [y Hy] Hl [ys Hys]]; [by eexists|]. exists (y :: ys).
    apply traverse_Some. constructor; [done|by apply traverse_Some].
Qed.

Program Definition string_laws : @GoJsonLaws string string_json := {|
  norm := to_valid; printable := λ _, True; fresh := λ _, True; nesting := λ _, O;
|}.
Next Obligation. intros s j _ [= <-]. apply quote_wf. Qed.
Next Obligation. by intros s j [= <-]. Qed.
Next Obligation. intros s j old _ _ [= <-]. apply unquote_quote. Qed.

Program Definition int_laws : @GoJsonLaws Z int_json := {|
  norm := id; printable := is_int64; fresh := λ _, True; nesting := λ _, O;
|}.
Next Obligation. intros z j _ [= <-]. apply FormatInt_lit. Qed.
Next Obligation. by intros s j [= <-]. Qed.
Next Obligation. intros z j old Hz _ [= <-]. by apply Atoi_FormatInt. Qed.

Program Definition bool_laws : @GoJsonLaws bool bool_json := {|
  norm := id; printable := λ _, True; fresh := λ _, True; nesting := λ _, O;
|}.
Next Obligation. by intros b j _ [= <-]. Qed.
Next Obligation. by intros s j [= <-]. Qed.
Next Obligation. by intros b j old _ _ [= <-]. Qed.

(** Printable ASCII without quotes is its own quotation. *)
Definition plain (c : ascii) : bool :=
  (32 <=? byte_of c) && (byte_of c <? 128) && negb (byte_of c =? 34) && negb (byte_of c =? 92).

Lemma plain_wf s : string_all plain s = true → wf_raw s.
Proof.
  intros H rest. induction s as [|c s IH]; [done|]. cbn [string_all] in H.
  apply andb_true_iff in H as [Hc Hs]. rewrite string_app_cons.
  assert (Hp : ∀ t, scan_string (String c t) = prepend (String c "") (scan_string t))
    by (intros t; revert Hc; ascii_cases c; done).
  by rewrite Hp, IH.
Qed.

Lemma digits_plain s : string_all is_digit s = true → string_all plain s = true.
Proof. apply string_all_impl. intros c. by ascii_cases c. Qed.

Lemma Format_RFC3339_plain `{Location} t txt :
  Format_RFC3339 t = Some txt → string_all plain txt = true.
Proof.
  unfold Format_RFC3339. repeat case_match; try done. intros [= <-].
  assert (Hd : ∀ w z, string_all plain (pad_digits w z) = true)
    by (intros; apply digits_plain, pad_digits_all).
  unfold date_text, frac_text, zone_text. cbv zeta.
  rewrite !string_all_app, !Hd. cbn [andb].
  assert (Hz : string_all plain (TrimRight (pad_digits 9 (t mod Second)) "0") = true)
    by apply TrimRight_all, digits_plain, pad_digits_all.
  destruct (t mod Second =? 0), ((zone_at t).2 =? 0), (Z.quot (zone_at t).2 60 <? 0);
    rewrite ?string_all_app, ?Hz, ?Hd; reflexivity.
Qed.

Lemma time_text_plain `{Location} t txt : time_text t = Some txt → string_all plain txt = true.
Proof. unfold time_text. destruct (IsZero t); apply Format_RFC3339_plain. Qed.

(** The zero time, and the times at which the offset of the zone is whole
    minutes (and less than a day). *)
Definition time_printable `{Location} (t : Time) : Prop := t = 0 ∨ good_offset (zone_at t).2.

Lemma Parse_time_text `{Location} t txt : time_printable t →
  time_text t = Some txt → Parse_RFC3339 txt = Some t.
Proof.
  unfold time_text, IsZero. intros Ht. destruct (t =? 0) eqn:E; reflect_bool.
  - apply (@Parse_Format_RFC3339 UTC). by split.
  - apply Parse_Format_RFC3339. by destruct Ht.
Qed.

Program Definition time_laws `{Location} : @GoJsonLaws Time time_json := {|
  norm := id; printable := time_printable; fresh := λ _, True; nesting := λ _, O;
|}.
Next Obligation.
  intros loc t j _ (txt & E & ->)%fmap_Some. by eapply plain_wf, time_text_plain.
Qed.
Next Obligation. by intros loc t j (txt & E & ->)%fmap_Some. Qed.
Next Obligation.
  intros loc t j old Ht _ (txt & E & ->)%fmap_Some. by apply Parse_time_text.
Qed.

Section pointer.
Context {A : Type} (zero : A) {c : GoJson A} {L : GoJsonLaws A}.
Hypothesis not_null : ∀ a : A, marshal a ≠ Some JNull.
Hypothesis fresh_zero : fresh zero.

Program Definition pointer_laws : @GoJsonLaws (option A) (pointer_json zero c) := {|
  norm := fmap norm;
  printable := λ o, ∀ a, o = Some a → printable a;
  fresh := λ o, o = None;
  nesting := λ o, match o with Some a => nesting a | None => O end;
|}.
Next Obligation.
  intros [a|] j Hp Hm; [|by injection Hm as <-]. by eapply (marshal_wf a), Hm; auto.
Qed.
Next Obligation. intros [a|] j Hm; [|by injection Hm as <-]. by apply marshal_depth. Qed.
Next Obligation.
  intros [a|] j old Hp -> Hm; [|by injection Hm as <-]. cbn in Hm. pose proof (not_null a) as Hn.
  pose proof (unmarshal_marshal a j zero (Hp a eq_refl) fresh_zero Hm) as Hu.
  destruct j; [congruence|..]; cbn [unmarshal pointer_json default]; by rewrite Hu.
Qed.
End pointer.

(** *** Sorted members *)
Lemma elem_of_insert_member {A} (x : string * A) k v l :
  x ∈ insert_member k v l → x = (k, v) ∨ x ∈ l.
Proof.
  induction l as [|[k' v'] l IH]; cbn [insert_member]; [set_solver|].
  destruct (String.compare k k'); set_solver.
Qed.

Lemma elem_of_sort_members {A} (x : string * A) l : x ∈ sort_members l → x ∈ l.
Proof.
  unfold sort_members. assert (∀ acc, x ∈ foldl (λ acc kv, insert_member kv.1 kv.2 acc) acc l →
    x ∈ acc ∨ x ∈ l) as H; [|by intros [H1%elem_of_nil|H1]%H].
  induction l as [|[k v] l IH]; intros acc; cbn [foldl]; [by left|].
  intros [H|H]%IH; [|set_solver]. apply elem_of_insert_member in H. set_solver.
Qed.

Section sort_related.
Context {A B : Type} (P : A → B → Prop).
Definition key_related (x : string * A) (y : string * B) : Prop := x.1 = y.1 ∧ P x.2 y.2.

Lemma insert_member_related k a b l m : P a b → Forall2 key_related l m →
  Forall2 key_related (insert_member k a l) (insert_member k b m).
Proof.
  intros Hab. induction 1 as [|[k1 a1] [k2 b1] l m [Hk Hx] Hl IH]; cbn [insert_member].
  - by repeat constructor.
  - cbn [fst snd] in *. subst k2. by destruct (String.compare k k1); repeat constructor.
Qed.

Lemma sort_members_related l m : Forall2 key_related l m →
  Forall2 key_related (sort_members l) (sort_members m).
Proof.
  unfold sort_members. assert (∀ acc acc', Forall2 key_related acc acc' → Forall2 key_related l m →
    Forall2 key_related (foldl (λ acc kv, insert_member kv.1 kv.2 acc) acc l)
                        (foldl (λ acc kv, insert_member kv.1 kv.2 acc) acc' m)) as H.
  { intros acc acc' Ha Hl. revert acc acc' Ha.
    induction Hl as [|[k1 a1] [k2 b1] l m [Hk Hx] Hl IH]; intros acc acc' Ha; [done|].
    cbn [foldl fst snd] in *. subst k2. by apply IH, insert_member_related. }
  intros. apply H; [constructor|done].
Qed.
End sort_related.

(** *** Interface values *)
Section any_ind.
Variable P : any → Prop.
Hypothesis HNil : P AnyNil.
Hypothesis HBool : ∀ b, P (AnyBool b).
Hypothesis HFloat : ∀ f, P (AnyFloat64 f).
Hypothesis HString : ∀ s, P (AnyString s).
Hypothesis HSlice : ∀ l, Forall P l → P (AnySlice l).
Hypothesis HStrings : ∀ l, P (AnyStrings l).
Hypothesis HMap : ∀ m, Forall (λ kv, P kv.2) m → P (AnyMap m).

Lemma any_nested_ind : ∀ v, P v.
Proof.
  fix F 1. intros [|b|f|s|l|l|m];
    [exact HNil|apply HBool|apply HFloat|apply HString| |apply HStrings|].
  - apply HSlice. induction l as [|x l IH]; constructor; [apply F|apply IH].
  - apply HMap. induction m as [|x m IH]; constructor; [apply F|apply IH].
Qed.
End any_ind.

(** The members of a map, each encoded. *)
Definition marshal_members (m : list (string * any)) : option (list (string * json)) :=
  traverse (λ kv, match marshal_any kv.2 with Some j => Some (kv.1, j) | None => None end) m.

Definition unmarshal_values (l : list (string * json)) : option (list (string * any)) :=
  traverse (λ kv, match unquote kv.1, any_of_json kv.2 with
                  | Some k, Some v => Some (k, v)
                  | _, _ => None
                  end) l.

Definition encodes (v : any) (j : json) : Prop := marshal_any v = Some j.
Definition decodes (v : any) (j : json) : Prop := any_of_json j = Some v.

Lemma marshal_members_Some m l : marshal_members m = Some l ↔ Forall2 (key_related encodes) m l.
Proof.
  unfold marshal_members. rewrite traverse_Some. split; intros H;
    (eapply list.Forall2_impl; [exact H|]); intros [k v] [k' j]; unfold key_related, encodes; cbn [fst snd].
  - destruct (marshal_any v); [|done]. by intros [= <- <-].
  - by intros [-> ->].
Qed.

(** Reading back members whose values read back. *)
Lemma unmarshal_values_quoted vs l : Forall2 (key_related decodes) vs l →
  unmarshal_values (map (λ kv, (quote kv.1, kv.2)) l) = Some (map (λ kv, (to_valid kv.1, kv.2)) vs).
Proof.
  intros H. apply traverse_Some. induction H as [|[k v] [k' j] vs l [Hk Hv] Hl IH];
    cbn [map]; constructor; [|exact IH].
  cbn [fst snd] in *. subst k'. unfold decodes in Hv. by rewrite unquote_quote, Hv.
Qed.

Lemma map_norm_related (m : list (string * any)) l :
  Forall2 (key_related encodes) m l →
  Forall (λ kv, ∀ j, marshal_any kv.2 = Some j → any_of_json j = Some (norm_any kv.2)) m →
  Forall2 (key_related decodes) (map (λ kv, (kv.1, norm_any kv.2)) m) l.
Proof.
  induction 1 as [|[k v] [k' j] m l [Hk Hv] Hl IH]; [by constructor|].
  intros [Hj Hm]%list.Forall_cons. constructor; [|by apply IH]. split; [done|]. by apply Hj.
Qed.

Lemma any_roundtrip v j : any_printable v = true → marshal_any v = Some j →
  any_of_json j = Some (norm_any v).
Proof.
  revert j. induction v as [|b|f|s|l IH|l|m IH] using any_nested_ind; intros j Hp Hm;
    cbn [marshal_any any_printable] in *.
  - by injection Hm as <-.
  - by injection Hm as <-.
  - apply fmap_Some in Hm as (lit & Hf & ->).
    destruct (float_printable_spec f Hp) as (lit' & Hf' & _ & Hparse). cbn [any_of_json norm_any].
    replace lit with lit' by congruence. by rewrite Hparse.
  - injection Hm as <-. cbn [any_of_json]. by rewrite unquote_quote.
  - apply fmap_Some in Hm as (js & Ht & ->). cbn [any_of_json norm_any].
    assert (traverse any_of_json js = Some (map norm_any l)) as ->; [|done].
    apply traverse_Some. apply traverse_Some in Ht. revert IH Hp.
    induction Ht as [|x y l js Hx Hl IHl]; cbn [forallb map]; [by constructor|].
    intros [Hj Hr]%list.Forall_cons [Hp1 Hp2]%andb_true_iff. constructor; auto.
  - injection Hm as <-. cbn [any_of_json norm_any].
    assert (traverse any_of_json (map (λ s, JStr (quote s)) l)
      = Some (map (λ s, AnyString (to_valid s)) l)) as ->; [|done].
    apply traverse_Some. induction l; cbn [map]; constructor; [|done].
    cbn [any_of_json]. by rewrite unquote_quote.
  - fold (marshal_members m) in Hm. destruct (marshal_members m) as [l|] eqn:El; [|done].
    injection Hm as <-. cbn [any_of_json norm_any]. apply marshal_members_Some in El.
    fold (unmarshal_values (map (λ kv, (quote kv.1, kv.2)) (sort_members l))).
    erewrite unmarshal_values_quoted; [done|]. apply sort_members_related, map_norm_related; [done|].
    rewrite forallb_forall in Hp. rewrite list.Forall_forall in *. intros kv Hkv j.
    apply IH; [done|]. by apply Hp, list_elem_of_In.
Qed.

Lemma any_wf v j : any_printable v = true → marshal_any v = Some j → wf_json j.
Proof.
  revert j. induction v as [|b|f|s|l IH|l|m IH] using any_nested_ind; intros j Hp Hm;
    cbn [marshal_any any_printable] in *.
  - by injection Hm as <-.
  - by injection Hm as <-.
  - apply fmap_Some in Hm as (lit & Hf & ->).
    destruct (float_printable_spec f Hp) as (lit' & Hf' & Hw & _). cbn [wf_json]. congruence.
  - injection Hm as <-. apply quote_wf.
  - apply fmap_Some in Hm as (js & Ht & ->). cbn [wf_json]. apply traverse_Some in Ht.
    revert IH Hp. induction Ht as [|x y l js Hx Hl IHl]; cbn [forallb map foldr]; [done|].
    intros [Hj Hr]%list.Forall_cons [Hp1 Hp2]%andb_true_iff. auto.
  - injection Hm as <-. cbn [wf_json]. induction l; cbn [map foldr]; [done|].
    split; [apply quote_wf|done].
  - fold (marshal_members m) in Hm. destruct (marshal_members m) as [l|] eqn:El; [|done].
    injection Hm as <-. cbn [wf_json]. apply marshal_members_Some in El.
    assert (Hl : Forall (λ kv, wf_json kv.2) l).
    { revert IH Hp. clear -El. induction El as [|[k v] [k' j] m l [Hk Hv] Hl IHl];
        cbn [forallb]; [by constructor|].
      intros [Hj Hr]%list.Forall_cons [Hp1 Hp2]%andb_true_iff. constructor; [|by apply IHl].
      by eapply Hj. }
    assert (Hs : Forall (λ kv, wf_json kv.2) (sort_members l)).
    { rewrite list.Forall_forall in *. intros kv Hkv. by apply Hl, elem_of_sort_members. }
    clear -Hs. induction Hs; cbn [map foldr]; [done|]. split; [|done]. split; [apply quote_wf|done].
Qed.

(** Nesting of what a value is encoded to. *)
Fixpoint any_nesting (v : any) : nat :=
  match v with
  | AnySlice l => S (foldr max O (map any_nesting l))
  | AnyStrings _ => 1
  | AnyMap m => S (foldr max O (map (λ kv, any_nesting kv.2) m))
  | _ => O
  end.

Lemma max_le {A} (f : A → nat) l n :
  (foldr max O (map f l) ≤ n)%nat ↔ Forall (λ x, f x ≤ n)%nat l.
Proof.
  induction l as [|x l IH]; cbn [map foldr]; [split; [constructor|lia]|].
  rewrite list.Forall_cons, <-IH. lia.
Qed.

Lemma members_depth m l : Forall2 (key_related encodes) m l →
  Forall (λ kv, ∀ j, marshal_any kv.2 = Some j → (depth j ≤ any_nesting kv.2)%nat) m →
  Forall (λ kv, depth kv.2 ≤ foldr max O (map (λ kv, any_nesting kv.2) m))%nat l.
Proof.
  intros Hl Hm. assert (Hb : Forall (λ kv, any_nesting kv.2 ≤
    foldr max O (map (λ kv, any_nesting kv.2) m))%nat m) by (by apply max_le).
  revert Hm Hb. generalize (foldr max O (map (λ kv, any_nesting kv.2) m)) as n. intros n.
  induction Hl as [|[k v] [k' j] m l [Hk Hv] Hl IHl]; [by constructor|].
  intros [Hj Hr]%list.Forall_cons [Hn Hs]%list.Forall_cons. constructor; [|by apply IHl].
  cbn [snd] in *. specialize (Hj _ Hv). lia.
Qed.

Lemma any_depth v j : marshal_any v = Some j → (depth j ≤ any_nesting v)%nat.
Proof.
  revert j. induction v as [|b|f|s|l IH|l|m IH] using any_nested_ind; intros j Hm;
    cbn [marshal_any any_nesting] in *.
  - by injection Hm as <-.
  - by injection Hm as <-.
  - by apply fmap_Some in Hm as (lit & Hf & ->).
  - by injection Hm as <-.
  - apply fmap_Some in Hm as (js & Ht & ->). cbn [depth]. apply le_n_S. apply traverse_Some in Ht.
    revert IH. induction Ht as [|x y l js Hx Hl IHl]; cbn [map foldr]; [done|].
    intros [Hj Hr]%list.Forall_cons. specialize (Hj _ Hx). specialize (IHl Hr). lia.
  - injection Hm as <-. cbn [depth]. apply le_n_S. rewrite map_map. apply max_le.
    apply list.Forall_forall. done.
  - fold (marshal_members m) in Hm. destruct (marshal_members m) as [l|] eqn:El; [|done].
    injection Hm as <-. cbn [depth]. apply le_n_S. apply marshal_members_Some in El.
    rewrite map_map. cbn [snd]. apply max_le.
    pose proof (members_depth m l El IH) as Hd. rewrite list.Forall_forall in *.
    intros kv Hkv. by apply Hd, elem_of_sort_members.
Qed.

Program Definition any_laws : @GoJsonLaws any any_json := {|
  norm := norm_any; printable := λ v, any_printable v = true; fresh := λ _, True;
  nesting := any_nesting;
|}.
Next Obligation. intros v j. apply any_wf. Qed.
Next Obligation. intros v j. apply any_depth. Qed.
Next Obligation. intros v j old Hp _. by apply any_roundtrip. Qed.

(** *** Claims *)
Definition to_map {A} (l : list (string * A)) (m : gmap string A) : gmap string A :=
  foldl (λ acc kv, <[kv.1 := kv.2]> acc) m l.

Definition norm_claims (m : claims) : claims :=
  to_map (map (λ kv, (to_valid kv.1, norm_any kv.2)) (sorted_members m)) ∅.

Definition claims_printable (m : claims) : Prop :=
  ∀ k v, m !! k = Some v → any_printable v = true.

Lemma sorted_members_Forall (P : any → Prop) (m : claims) :
  (∀ k v, m !! k = Some v → P v) → Forall (λ kv, P kv.2) (sorted_members m).
Proof.
  intros H. apply list.Forall_forall. intros [k v] Hkv%elem_of_sort_members.
  by apply elem_of_map_to_list, H in Hkv.
Qed.

Program Definition claims_laws : @GoJsonLaws claims claims_json := {|
  norm := norm_claims; printable := claims_printable; fresh := λ m, m = ∅;
  nesting := λ m, S (foldr max O (map (λ kv, any_nesting kv.2) (sorted_members m)));
|}.
Next Obligation.
  intros m j Hp Hm. cbn in Hm. fold (marshal_members (sorted_members m)) in Hm.
  destruct (marshal_members (sorted_members m)) as [l|] eqn:El; [|done]. injection Hm as <-.
  apply marshal_members_Some in El. pose proof (sorted_members_Forall _ _ Hp) as Ha. cbn [wf_json].
  revert Ha. induction El as [|[k v] [k' j] vs l [Hk Hv] Hl IH]; cbn [map foldr]; [done|].
  intros [H1 H2]%list.Forall_cons. split; [|by apply IH]. split; [apply quote_wf|by eapply any_wf].
Qed.
Next Obligation.
  intros m j Hm. cbn in Hm. fold (marshal_members (sorted_members m)) in Hm.
  destruct (marshal_members (sorted_members m)) as [l|] eqn:El; [|done]. injection Hm as <-.
  apply marshal_members_Some in El. cbn [depth]. apply le_n_S. rewrite map_map. cbn [snd].
  apply max_le, (members_depth _ _ El). apply list.Forall_forall. intros kv _. apply any_depth.
Qed.
Next Obligation.
  intros m j old Hp -> Hm. cbn in Hm. fold (marshal_members (sorted_members m)) in Hm.
  destruct (marshal_members (sorted_members m)) as [l|] eqn:El; [|done]. injection Hm as <-.
  apply marshal_members_Some in El. cbn [unmarshal claims_json].
  fold (unmarshal_values (map (λ kv, (quote kv.1, kv.2)) l)).
  erewrite unmarshal_values_quoted; cycle 1.
  { apply map_norm_related; [exact El|]. pose proof (sorted_members_Forall _ _ Hp) as Ha.
    eapply list.Forall_impl; [exact Ha|]. intros kv Hkv j. by apply any_roundtrip. }
  rewrite map_map. done.
Qed.

(** Sorting the members of a map and reading them back is the identity. *)
Lemma to_map_lookup_ne {A} (l : list (string * A)) m k :
  k ∉ l.*1 → to_map l m !! k = m !! k.
Proof.
  unfold to_map. revert m. induction l as [|[k' v] l IH]; intros m; csimpl; [done|].
  rewrite not_elem_of_cons. intros [Hne Hk]. by rewrite IH, lookup_insert_ne by done.
Qed.

Lemma to_map_lookup {A} (l : list (string * A)) m k v :
  NoDup l.*1 → (k, v) ∈ l → to_map l m !! k = Some v.
Proof.
  unfold to_map. revert m. induction l as [|[k' v'] l IH]; intros m; csimpl.
  - by intros _ ?%elem_of_nil.
  - intros [Hk Hl]%list.NoDup_cons [H|H]%elem_of_cons.
    + simplify_eq. fold (to_map l (<[k':=v']> m)). rewrite to_map_lookup_ne by done.
      apply lookup_insert_eq.
    + by apply IH.
Qed.

Lemma insert_member_perm {A} k (v : A) l : k ∉ l.*1 → insert_member k v l ≡ₚ (k, v) :: l.
Proof.
  induction l as [|[k' v'] l IH]; csimpl; [done|]. rewrite not_elem_of_cons. intros [Hne Hk].
  destruct (String.compare k k') eqn:E; [|done|by rewrite IH; [constructor|]].
  apply String.compare_eq_iff in E. congruence.
Qed.

Lemma sort_members_perm {A} (l : list (string * A)) : NoDup l.*1 → sort_members l ≡ₚ l.
Proof.
  unfold sort_members. intros Hl.
  assert (H : ∀ acc, NoDup (acc ++ l).*1 →
    foldl (λ acc kv, insert_member kv.1 kv.2 acc) acc l ≡ₚ l ++ acc); [|by rewrite H, app_nil_r].
  clear Hl. induction l as [|[k v] l IH]; intros acc Hn; csimpl; [done|].
  assert (Hk : k ∉ acc.*1).
  { rewrite fmap_app, list.NoDup_app in Hn. destruct Hn as (_ & Hn & _).
    intros Hin. apply (Hn k Hin). csimpl. by left. }
  pose proof (insert_member_perm k v acc Hk) as Hp. rewrite IH.
  - rewrite Hp. by rewrite Permutation_middle.
  - rewrite Hp. revert Hn. rewrite !fmap_app. csimpl. by rewrite <-Permutation_middle.
Qed.

Lemma to_map_sorted {A} (m : gmap string A) : to_map (sorted_members m) ∅ = m.
Proof.
  assert (Hp : sorted_members m ≡ₚ map_to_list m)
    by apply sort_members_perm, NoDup_fst_map_to_list.
  assert (Hn : NoDup (sorted_members m).*1) by (rewrite Hp; apply NoDup_fst_map_to_list).
  apply map_eq. intros k. destruct (m !! k) as [v|] eqn:E.
  - apply to_map_lookup; [done|]. rewrite Hp. by apply elem_of_map_to_list.
  - rewrite to_map_lookup_ne; [by apply lookup_empty|]. rewrite Hp.
    intros ([k' v] & -> & H)%list_elem_of_fmap. apply elem_of_map_to_list in H. naive_solver.
Qed.

(** Claims with valid names and values that survive come back unchanged. *)
Lemma norm_claims_id (m : claims) :
  (∀ k v, m !! k = Some v → to_valid k = k ∧ norm_any v = v) → norm_claims m = m.
Proof.
  intros H. unfold norm_claims. transitivity (to_map (sorted_members m) ∅); [|apply to_map_sorted]. f_equal.
  assert (Hf : Forall (λ kv, (to_valid kv.1, norm_any kv.2) = kv) (sorted_members m)).
  { apply list.Forall_forall. intros [k v] Hkv%elem_of_sort_members.
    apply elem_of_map_to_list, H in Hkv as [Hk Hv]. cbn [fst snd]. by rewrite Hk, Hv. }
  induction Hf as [|kv l Hk Hl IH]; cbn [map]; [done|]. by rewrite Hk, IH.
Qed.

(** *** Structs *)
Section struct.
Context {S : Type}.
Implicit Types (fs : list (field S)) (s old : S).

(** What reading back one field does. *)
Definition read_field (f : field S) s old : S :=
  if f_omit f (f_get f s) then old else f_set f (norm (f_get f s)) old.

Definition read_fields fs s old : S := foldl (λ o f, read_field f s o) old fs.

(** Every field is read into a fresh value. *)
Fixpoint fresh_fields fs s old : Prop :=
  match fs with
  | [] => True
  | f :: fs' => fresh (f_get f old) ∧ fresh_fields fs' s (read_field f s old)
  end.

(** The names are plain text that selects its own field. *)
Definition names_ok (all fs : list (field S)) : Prop :=
  Forall (λ f, to_valid (f_name f) = f_name f ∧ find_field (f_name f) all = Some f) fs.

Definition fields_printable fs s : Prop :=
  foldr and True (map (λ f, f_omit f (f_get f s) = false → printable (f_get f s)) fs).

Lemma unmarshal_fields all fs s old l : names_ok all fs → fields_printable fs s →
  fresh_fields fs s old → traverse (marshal_field s) fs = Some l →
  unmarshal_members all (omap id l) old = Some (read_fields fs s old).
Proof.
  revert old l. induction fs as [|f fs IH]; intros old l Hn Hp Hf Hm; cbn [traverse] in Hm.
  { by injection Hm as <-. }
  fold (traverse (marshal_field s)) in Hm.
  apply list.Forall_cons in Hn as [[Hv Hfind] Hn]. destruct Hp as [Hp1 Hp2], Hf as [Hf1 Hf2].
  unfold marshal_field at 1 in Hm. unfold read_field in Hf2.
  destruct (f_omit f (f_get f s)) eqn:Eo.
  - destruct (traverse (marshal_field s) fs) as [l'|] eqn:El; [|done]. injection Hm as <-. csimpl.
    unfold read_fields. cbn [foldl]. unfold read_field at 2. rewrite Eo. by apply IH.
  - destruct (marshal (f_get f s)) as [j|] eqn:Ej; [|done].
    destruct (traverse (marshal_field s) fs) as [l'|] eqn:El; [|done]. injection Hm as <-. csimpl.
    unfold unmarshal_member. cbn [fst snd]. rewrite unquote_quote, Hv, Hfind.
    rewrite (unmarshal_marshal _ _ _ (Hp1 eq_refl) Hf1 Ej). cbn.
    unfold read_fields. cbn [foldl]. unfold read_field at 2. rewrite Eo. by apply IH.
Qed.

Context (zero : S) (fs : list (field S)).
Hypothesis names : names_ok fs fs.
Hypothesis fresh_zero : ∀ s, fresh_fields fs s zero.

Program Definition struct_laws : @GoJsonLaws S (struct_json fs) := {|
  norm := λ s, read_fields fs s zero;
  printable := fields_printable fs;
  fresh := λ old, old = zero;
  nesting := λ s, Datatypes.S (foldr max O (map (λ f, nesting (f_get f s)) fs));
|}.
Next Obligation.
  intros s j Hp Hm. cbn in Hm. unfold marshal_struct in Hm.
  destruct (traverse (marshal_field s) fs) as [l|] eqn:El; [|done]. injection Hm as <-.
  cbn [wf_json]. revert l El Hp. clear. induction fs as [|f fs' IH]; intros l El Hp;
    cbn [traverse] in El; [by injection El as <-|].
  fold (traverse (marshal_field s)) in El. destruct Hp as [Hp1 Hp2].
  unfold marshal_field at 1 in El. destruct (f_omit f (f_get f s)) eqn:Eo.
  - destruct (traverse (marshal_field s) fs') as [l'|]; [|done]. injection El as <-. csimpl. by apply IH.
  - destruct (marshal (f_get f s)) as [j|] eqn:Ej; [|done].
    destruct (traverse (marshal_field s) fs') as [l'|]; [|done]. injection El as <-. csimpl.
    split; [|by apply IH]. split; [apply quote_wf|]. by apply (marshal_wf (f_get f s)); [apply Hp1|].
Qed.
Next Obligation.
  intros s j Hm. cbn in Hm. unfold marshal_struct in Hm.
  destruct (traverse (marshal_field s) fs) as [l|] eqn:El; [|done]. injection Hm as <-.
  cbn [depth]. apply le_n_S. revert l El. clear. induction fs as [|f fs' IH]; intros l El;
    cbn [traverse] in El; [by injection El as <-|].
  fold (traverse (marshal_field s)) in El. cbn [map foldr].
  unfold marshal_field at 1 in El. destruct (f_omit f (f_get f s)) eqn:Eo.
  - destruct (traverse (marshal_field s) fs') as [l'|]; [|done]. injection El as <-. csimpl.
    specialize (IH _ eq_refl). lia.
  - destruct (marshal (f_get f s)) as [j|] eqn:Ej; [|done].
    destruct (traverse (marshal_field s) fs') as [l'|]; [|done]. injection El as <-. csimpl.
    specialize (IH _ eq_refl). apply marshal_depth in Ej. cbn [map foldr snd]. lia.
Qed.
Next Obligation.
  intros s j old Hp -> Hm. cbn in Hm. unfold marshal_struct in Hm.
  destruct (traverse (marshal_field s) fs) as [l|] eqn:El; [|done]. injection Hm as <-.
  by apply unmarshal_fields.
Qed.
End struct.

(** *** One struct read into another *)
Section reads.
Context {S T : Type} (all : list (field T)) (s : S).

(** The members [s] is written as turn [o] into [o']. *)
Inductive reads : list (field S) → T → T → Prop :=
  | reads_nil o : reads [] o o
  | reads_omitted f fs o o' : f_omit f (f_get f s) = true → reads fs o o' → reads (f :: fs) o o'
  | reads_field f g v fs o o' : f_omit f (f_get f s) = false → to_valid (f_name f) = f_name f →
      find_field (f_name f) all = Some g →
      (∀ j, marshal (f_get f s) = Some j → unmarshal j (f_get g o) = Some v) →
      reads fs (f_set g v o) o' → reads (f :: fs) o o'.

Lemma reads_members fs o o' l : reads fs o o' → traverse (marshal_field s) fs = Some l →
  unmarshal_members all (omap id l) o = Some o'.
Proof.
  intros Hr. revert l. induction Hr as [o|f fs o o' Ho Hr IH|f g v fs o o' Ho Hv Hg Hu Hr IH];
    intros l Hm; cbn [traverse] in Hm; [by injection Hm as <-|..];
    fold (traverse (marshal_field s)) in Hm; unfold marshal_field at 1 in Hm; rewrite Ho in Hm.
  - destruct (traverse (marshal_field s) fs) as [l'|]; [|done]. injection Hm as <-. csimpl. by apply IH.
  - destruct (marshal (f_get f s)) as [j|] eqn:Ej; [|done].
    destruct (traverse (marshal_field s) fs) as [l'|]; [|done]. injection Hm as <-. csimpl.
    unfold unmarshal_member. cbn [fst snd]. rewrite unquote_quote, Hv, Hg, (Hu j eq_refl). cbn.
    by apply IH.
Qed.

(** Through the text: what follows it, if anything, is a delimiter. *)
Lemma Decode_reads fs (L : @GoJsonLaws S (struct_json fs)) o o' text rest :
  @printable S _ L s → Z.of_nat (@nesting S _ L s) ≤ maxNestingDepth → delim rest → reads fs o o' →
  Marshal (struct_json fs) s = Some text → Decode (struct_json all) (text +:+ rest) o = Some o'.
Proof.
  intros Hp Hn Hd Hr (j & Hj & ->)%fmap_Some. unfold Decode.
  rewrite decode_first_print; [|by eapply (@marshal_wf S _ L)| |done].
  2:{ apply (@marshal_depth S _ L) in Hj. lia. }
  cbn. cbn in Hj. unfold marshal_struct in Hj.
  destruct (traverse (marshal_field s) fs) as [l|] eqn:El; [|done]. injection Hj as <-. cbn.
  by apply (reads_members fs o o').
Qed.
End reads.

(** *** Texts *)
Lemma Unmarshal_Marshal {A} (c : GoJson A) (L : GoJsonLaws A) a text old :
  printable a → fresh old → Z.of_nat (nesting a) ≤ maxNestingDepth →
  Marshal c a = Some text → Unmarshal c text old = Some (norm a).
Proof.
  intros Hp Hf Hn (j & Hj & ->)%fmap_Some. unfold Unmarshal.
  rewrite parse_print; [by apply unmarshal_marshal|by eapply marshal_wf|].
  apply marshal_depth in Hj. lia.
Qed.

Lemma Decode_Marshal {A} (c : GoJson A) (L : GoJsonLaws A) a text old rest :
  printable a → fresh old → Z.of_nat (nesting a) ≤ maxNestingDepth → delim rest →
  Marshal c a = Some text → Decode c (text +:+ rest) old = Some (norm a).
Proof.
  intros Hp Hf Hn Hr (j & Hj & ->)%fmap_Some. unfold Decode.
  rewrite decode_first_print; [by apply unmarshal_marshal|by eapply marshal_wf| |done].
  apply marshal_depth in Hj. lia.
Qed.
