(* ===== verification/SessionJson.v ===== *)
(** The JSON of a session, as [internal/store/redis.go] stores it: the struct
    [Session] of [internal/store/store.go] field by field, in its order and
    under its Go names. *)

From S2P Require Import Prelude GoStrings GoUtf8 GoTime GoJson GoFormat Rfc3339 Session GoMarshal.

Local Open Scope list_scope.

(** ** Identity *)
Definition zero_identity : Identity := mkIdentity "" "" ∅.

Definition never {A} (_ : A) : bool := false.

Definition identity_fields : list (field Identity) :=
  [mkField "Subject" string_laws never Subject (λ v i, mkIdentity v (Value i) (Claims i));
   mkField "Value" string_laws never Value (λ v i, mkIdentity (Subject i) v (Claims i));
   mkField "Claims" claims_laws never Claims (λ v i, mkIdentity (Subject i) (Value i) v)].

Lemma identity_names : names_ok identity_fields identity_fields.
Proof. repeat constructor. Qed.

Lemma identity_fresh i : fresh_fields identity_fields i zero_identity.
Proof. repeat constructor. Qed.

Definition identity_laws : @GoJsonLaws Identity (struct_json identity_fields) :=
  struct_laws zero_identity identity_fields identity_names identity_fresh.

Lemma identity_not_null (i : Identity) :
  @marshal Identity (struct_json identity_fields) i ≠ Some JNull.
Proof. cbn. unfold marshal_struct. by case_match. Qed.

Definition identity_pointer_laws :
    @GoJsonLaws (option Identity) (pointer_json zero_identity (struct_json identity_fields)) :=
  @pointer_laws Identity zero_identity (struct_json identity_fields) identity_laws
    identity_not_null eq_refl.

(** ** State: a string type; only its constants are modelled *)
Definition State_of_string (s : string) : option State :=
  if seqb s "pending" then Some StatePending
  else if seqb s "awaiting_approval" then Some StateAwaitingApproval
  else if seqb s "approved" then Some StateApproved
  else if seqb s "denied" then Some StateDenied
  else if seqb s "expired" then Some StateExpired
  else None.

Definition state_json : GoJson State := {|
  marshal := λ st, Some (JStr (quote (State_string st)));
  unmarshal := λ j old,
    match j with JStr raw => unquote raw ≫= State_of_string | JNull => Some old | _ => None end;
|}.

Program Definition state_laws : @GoJsonLaws State state_json := {|
  norm := id; printable := λ _, True; fresh := λ _, True; nesting := λ _, O;
|}.
Next Obligation. intros s j _ [= <-]. apply quote_wf. Qed.
Next Obligation. by intros s j [= <-]. Qed.
Next Obligation. intros s j old _ _ [= <-]. by destruct s. Qed.

(** ** Session *)

(** The zero [Session]; its [State] is a placeholder, see [decode_session]. *)
Definition zero_session : Session :=
  mkSession "" "" "" "" "" "" "" 0 0 0 "" "" "" "" "" "" None 0 0 "" "" 0 StatePending false.

(** Field updates by position. *)
Definition with_ID (z : string) (y : Session) : Session :=
  match y with mkSession _ b c d e f g h i j k l m n o p q r s t u v w x =>
    mkSession z b c d e f g h i j k l m n o p q r s t u v w x end.
Definition with_LoginHint (z : string) (y : Session) : Session :=
  match y with mkSession a _ c d e f g h i j k l m n o p q r s t u v w x =>
    mkSession a z c d e f g h i j k l m n o p q r s t u v w x end.
Definition with_CodeChallenge (z : string) (y : Session) : Session :=
  match y with mkSession a b _ d e f g h i j k l m n o p q r s t u v w x =>
    mkSession a b z d e f g h i j k l m n o p q r s t u v w x end.
Definition with_ClientKind (z : string) (y : Session) : Session :=
  match y with mkSession a b c _ e f g h i j k l m n o p q r s t u v w x =>
    mkSession a b c z e f g h i j k l m n o p q r s t u v w x end.
Definition with_ClientHost (z : string) (y : Session) : Session :=
  match y with mkSession a b c d _ f g h i j k l m n o p q r s t u v w x =>
    mkSession a b c d z f g h i j k l m n o p q r s t u v w x end.
Definition with_ClientIP (z : string) (y : Session) : Session :=
  match y with mkSession a b c d e _ g h i j k l m n o p q r s t u v w x =>
    mkSession a b c d e z g h i j k l m n o p q r s t u v w x end.
Definition with_VerifiedClient (z : string) (y : Session) : Session :=
  match y with mkSession a b c d e f _ h i j k l m n o p q r s t u v w x =>
    mkSession a b c d e f z h i j k l m n o p q r s t u v w x end.
Definition with_Interval (z : Duration) (y : Session) : Session :=
  match y with mkSession a b c d e f g _ i j k l m n o p q r s t u v w x =>
    mkSession a b c d e f g z i j k l m n o p q r s t u v w x end.
Definition with_CreatedAt (z : Time) (y : Session) : Session :=
  match y with mkSession a b c d e f g h _ j k l m n o p q r s t u v w x =>
    mkSession a b c d e f g h z j k l m n o p q r s t u v w x end.
Definition with_ExpiresAt (z : Time) (y : Session) : Session :=
  match y with mkSession a b c d e f g h i _ k l m n o p q r s t u v w x =>
    mkSession a b c d e f g h i z k l m n o p q r s t u v w x end.
Definition with_UserCode (z : string) (y : Session) : Session :=
  match y with mkSession a b c d e f g h i j _ l m n o p q r s t u v w x =>
    mkSession a b c d e f g h i j z l m n o p q r s t u v w x end.
Definition with_Protocol (z : string) (y : Session) : Session :=
  match y with mkSession a b c d e f g h i j k _ m n o p q r s t u v w x =>
    mkSession a b c d e f g h i j k z m n o p q r s t u v w x end.
Definition with_IdPState (z : string) (y : Session) : Session :=
  match y with mkSession a b c d e f g h i j k l _ n o p q r s t u v w x =>
    mkSession a b c d e f g h i j k l z n o p q r s t u v w x end.
Definition with_IdPNonce (z : string) (y : Session) : Session :=
  match y with mkSession a b c d e f g h i j k l m _ o p q r s t u v w x =>
    mkSession a b c d e f g h i j k l m z o p q r s t u v w x end.
Definition with_IdPPKCEVerifier (z : string) (y : Session) : Session :=
  match y with mkSession a b c d e f g h i j k l m n _ p q r s t u v w x =>
    mkSession a b c d e f g h i j k l m n z p q r s t u v w x end.
Definition with_SAMLRequestID (z : string) (y : Session) : Session :=
  match y with mkSession a b c d e f g h i j k l m n o _ q r s t u v w x =>
    mkSession a b c d e f g h i j k l m n o z q r s t u v w x end.
Definition with_Identity (z : option Identity) (y : Session) : Session :=
  match y with mkSession a b c d e f g h i j k l m n o p _ r s t u v w x =>
    mkSession a b c d e f g h i j k l m n o p z r s t u v w x end.
Definition with_IdentityAt (z : Time) (y : Session) : Session :=
  match y with mkSession a b c d e f g h i j k l m n o p q _ s t u v w x =>
    mkSession a b c d e f g h i j k l m n o p q z s t u v w x end.
Definition with_ApproveAttempts (z : Z) (y : Session) : Session :=
  match y with mkSession a b c d e f g h i j k l m n o p q r _ t u v w x =>
    mkSession a b c d e f g h i j k l m n o p q r z t u v w x end.
Definition with_CSRFToken (z : string) (y : Session) : Session :=
  match y with mkSession a b c d e f g h i j k l m n o p q r s _ u v w x =>
    mkSession a b c d e f g h i j k l m n o p q r s z u v w x end.
Definition with_ApprovalBindingHash (z : string) (y : Session) : Session :=
  match y with mkSession a b c d e f g h i j k l m n o p q r s t _ v w x =>
    mkSession a b c d e f g h i j k l m n o p q r s t z v w x end.
Definition with_LastPollAt (z : Time) (y : Session) : Session :=
  match y with mkSession a b c d e f g h i j k l m n o p q r s t u _ w x =>
    mkSession a b c d e f g h i j k l m n o p q r s t u z w x end.
Definition with_State (z : State) (y : Session) : Session :=
  match y with mkSession a b c d e f g h i j k l m n o p q r s t u v _ x =>
    mkSession a b c d e f g h i j k l m n o p q r s t u v z x end.
Definition with_Consumed (z : bool) (y : Session) : Session :=
  match y with mkSession a b c d e f g h i j k l m n o p q r s t u v w _ =>
    mkSession a b c d e f g h i j k l m n o p q r s t u v w z end.

Section session_json.
Context `{loc : Location}.

Definition session_fields : list (field Session) :=
  [mkField "ID" string_laws never ID with_ID;
   mkField "LoginHint" string_laws never LoginHint with_LoginHint;
   mkField "CodeChallenge" string_laws never CodeChallenge with_CodeChallenge;
   mkField "ClientKind" string_laws never ClientKind with_ClientKind;
   mkField "ClientHost" string_laws never ClientHost with_ClientHost;
   mkField "ClientIP" string_laws never ClientIP with_ClientIP;
   mkField "VerifiedClient" string_laws never VerifiedClient with_VerifiedClient;
   mkField "Interval" int_laws never Interval with_Interval;
   mkField "CreatedAt" time_laws never CreatedAt with_CreatedAt;
   mkField "ExpiresAt" time_laws never ExpiresAt with_ExpiresAt;
   mkField "UserCode" string_laws never UserCode with_UserCode;
   mkField "Protocol" string_laws never Protocol with_Protocol;
   mkField "IdPState" string_laws never IdPState with_IdPState;
   mkField "IdPNonce" string_laws never IdPNonce with_IdPNonce;
   mkField "IdPPKCEVerifier" string_laws never IdPPKCEVerifier with_IdPPKCEVerifier;
   mkField "SAMLRequestID" string_laws never SAMLRequestID with_SAMLRequestID;
   mkField "Identity" identity_pointer_laws never SIdentity with_Identity;
   mkField "IdentityAt" time_laws never IdentityAt with_IdentityAt;
   mkField "ApproveAttempts" int_laws never ApproveAttempts with_ApproveAttempts;
   mkField "CSRFToken" string_laws never CSRFToken with_CSRFToken;
   mkField "ApprovalBindingHash" string_laws never ApprovalBindingHash with_ApprovalBindingHash;
   mkField "LastPollAt" time_laws never LastPollAt with_LastPollAt;
   mkField "State" state_laws never SState with_State;
   mkField "Consumed" bool_laws never Consumed with_Consumed].

Definition session_json : GoJson Session := struct_json session_fields.

Lemma session_names : names_ok session_fields session_fields.
Proof. repeat (constructor; [split; reflexivity|]). constructor. Qed.

Lemma session_fresh s : fresh_fields session_fields s zero_session.
Proof. by repeat split. Qed.

Definition session_laws : @GoJsonLaws Session session_json :=
  struct_laws zero_session session_fields session_names session_fresh.

(** [json.Marshal(sess)]. *)
Definition encode_session (s : Session) : option string := Marshal session_json s.

(** A document has to say which state the session is in: the zero [State] is
    the empty string, which is none of the constants. *)
Definition names_State (kv : string * json) : bool :=
  match unquote kv.1, kv.2 with
  | Some k, JStr _ => seqb (fold_name k) (fold_name "State")
  | _, _ => false
  end.
Definition mentions_State (j : json) : bool :=
  match j with JObj l => existsb names_State l | _ => false end.

(** [json.Unmarshal(raw, &sess)] into a new session. *)
Definition decode_session (text : string) : option Session :=
  j ← parse text;
  if mentions_State j then unmarshal_struct session_fields j zero_session else None.

(** *** What a session reads back as *)
Definition norm_identity (i : Identity) : Identity :=
  mkIdentity (to_valid (Subject i)) (to_valid (Value i)) (norm_claims (Claims i)).

Definition norm_session (s : Session) : Session :=
  mkSession (to_valid (ID s)) (to_valid (LoginHint s)) (to_valid (CodeChallenge s)) (to_valid (ClientKind
    s)) (to_valid (ClientHost s)) (to_valid (ClientIP s)) (to_valid (VerifiedClient s))
    (Interval s) (CreatedAt s) (ExpiresAt s) (to_valid (UserCode s)) (to_valid (Protocol s))
    (to_valid (IdPState s)) (to_valid (IdPNonce s)) (to_valid (IdPPKCEVerifier s)) (to_valid
    (SAMLRequestID s)) (norm_identity <$> SIdentity s) (IdentityAt s) (ApproveAttempts s)
    (to_valid (CSRFToken s)) (to_valid (ApprovalBindingHash s)) (LastPollAt s) (SState s)
    (Consumed s).

Lemma read_session s : read_fields session_fields s zero_session = norm_session s.
Proof. by destruct s. Qed.

(** What the encoding needs: integers of their width, zone offsets of whole
    minutes, claims whose numbers have a text, and no nesting beyond what the
    decoder accepts. *)
Record session_printable (s : Session) : Prop := {
  sp_Interval : is_int64 (Interval s);
  sp_Attempts : is_int64 (ApproveAttempts s);
  sp_CreatedAt : time_printable (CreatedAt s);
  sp_ExpiresAt : time_printable (ExpiresAt s);
  sp_IdentityAt : time_printable (IdentityAt s);
  sp_LastPollAt : time_printable (LastPollAt s);
  sp_Claims : ∀ i, SIdentity s = Some i → claims_printable (Claims i);
  sp_nesting : Z.of_nat (@nesting _ _ session_laws s) ≤ maxNestingDepth;
}.

Lemma session_fields_printable s : session_printable s → fields_printable session_fields s.
Proof.
  intros []. unfold fields_printable. cbn [map foldr session_fields].
  split_and!; try intros _; try done. intros i Hi. cbn.
  split_and!; try intros _; try done. by apply sp_Claims0.
Qed.

(** The claims come back as they were. *)
Definition exact_claims (m : claims) : Prop :=
  ∀ k v, m !! k = Some v → ValidString k = true ∧ norm_any v = v.

(** Every text of the session is valid UTF-8 and its claims come back exactly. *)
Definition exact_session (s : Session) : Prop :=
  Forall (λ t, ValidString t = true)
    [ID s; LoginHint s; CodeChallenge s; ClientKind s; ClientHost s; ClientIP s; VerifiedClient s;
     UserCode s; Protocol s; IdPState s; IdPNonce s; IdPPKCEVerifier s; SAMLRequestID s;
     CSRFToken s; ApprovalBindingHash s] ∧
  ∀ i, SIdentity s = Some i →
    ValidString (Subject i) = true ∧ ValidString (Value i) = true ∧ exact_claims (Claims i).

Lemma norm_session_exact s : exact_session s → norm_session s = s.
Proof.
  intros [Hf Hi]. unfold norm_session.
  repeat match goal with H : Forall _ (_ :: _) |- _ =>
    apply list.Forall_cons in H; let H1 := fresh in destruct H as [H1 H]; apply to_valid_id in H1 end.
  assert (Hid : norm_identity <$> SIdentity s = SIdentity s).
  { destruct (SIdentity s) as [[sub val cl]|] eqn:E; [|done].
    destruct (Hi _ eq_refl) as (Hs1 & Hs2 & Hs3). cbn in Hs1, Hs2, Hs3 |- *. f_equal.
    unfold norm_identity. cbn [Subject Value Claims]. f_equal; [by apply to_valid_id..|].
    apply norm_claims_id. intros k v Hk. destruct (Hs3 k v Hk). split; [by apply to_valid_id|done]. }
  rewrite Hid. repeat match goal with H : to_valid _ = _ |- _ => rewrite H; clear H end.
  by destruct s.
Qed.

Lemma existsb_omap_State s l : traverse (marshal_field s) session_fields = Some l →
  existsb names_State (omap id l) = true.
Proof.
  intros H. apply existsb_exists. exists (quote "State", JStr (quote (State_string (SState s)))).
  split; [|reflexivity]. apply list_elem_of_In, list_elem_of_omap.
  eexists (Some _). split; [|done]. apply traverse_Some in H.
  assert (Hl : session_fields !! 22%nat = Some (mkField "State" state_laws never SState with_State))
    by reflexivity.
  destruct (Forall2_lookup_l _ _ _ _ _ H Hl) as (y & Hy & Hm). cbn in Hm. injection Hm as <-.
  by eapply list_elem_of_lookup_2.
Qed.

Lemma session_json_decode s text : session_printable s → encode_session s = Some text →
  decode_session text = Some (norm_session s).
Proof.
  intros Hp (j & Hj & ->)%fmap_Some. unfold decode_session. rewrite parse_print; cycle 1.
  { by eapply (@marshal_wf _ _ session_laws); [apply session_fields_printable|]. }
  { pose proof (@marshal_depth _ _ session_laws s j Hj). pose proof (sp_nesting s Hp). lia. }
  pose proof (@unmarshal_marshal _ _ session_laws s j zero_session
    (session_fields_printable s Hp) eq_refl Hj) as Hu.
  cbn [norm session_laws struct_laws unmarshal session_json struct_json] in Hu.
  rewrite read_session in Hu. cbn [mbind option_bind].
  cbn in Hj. unfold marshal_struct in Hj.
  destruct (traverse (marshal_field s) session_fields) as [l|] eqn:El; [|done].
  injection Hj as <-. unfold mentions_State. by rewrite (existsb_omap_State s l El).
Qed.

(** C27: a stored session reads back as it was written: every field,
    its state and its times to the nanosecond, whatever the zone of the
    process, with invalid UTF-8 replaced and multi-valued claims as generic
    slices; exactly as it was, if its texts are valid and its claims generic. *)
Theorem session_json_roundtrip s text :
  session_printable s → encode_session s = Some text →
  decode_session text = Some (norm_session s) ∧
  (exact_session s → decode_session text = Some s).
Proof.
  intros Hp He. pose proof (session_json_decode s text Hp He) as Hd. split; [exact Hd|].
  intros Hx. by rewrite Hd, norm_session_exact.
Qed.

End session_json.
