(* ===== verification/GoCrypto.v ===== *)
(** The pieces of [crypto/subtle], [crypto/sha256], [encoding/hex],
    [encoding/base64] (RawURLEncoding) and [crypto/rand] the program uses,
    on byte strings.  Entropy is an explicit tape: [rand.Read] takes the
    bytes it fills from the tape and fails when the tape is exhausted. *)

From S2P Require Import Prelude.

(** ** crypto/subtle *)

(** Accumulate the differing bits of two byte lists of equal length. *)
Fixpoint ct_diff (x y : list Z) (v : Z) : Z :=
  match x, y with
  | a :: x', b :: y' => ct_diff x' y' (Z.lor v (Z.lxor a b))
  | _, _ => v
  end.

(** [subtle.ConstantTimeCompare]: 1 when equal, 0 otherwise. *)
Definition ConstantTimeCompare (x y : string) : Z :=
  if negb (Nat.eqb (String.length x) (String.length y)) then 0
  else if ct_diff (bytes_of x) (bytes_of y) 0 =? 0 then 1 else 0.

(** ** encoding/hex *)
Definition hextable : string := "0123456789abcdef".
Definition table_at (t : string) (i : Z) : ascii :=
  default "000"%char (String.get (Z.to_nat i) t).

Fixpoint hex_EncodeToString (s : string) : string :=
  match s with
  | "" => ""
  | String c s' =>
      String (table_at hextable (byte_of c / 16))
        (String (table_at hextable (byte_of c mod 16)) (hex_EncodeToString s'))
  end.

(** ** encoding/base64, RawURLEncoding (no padding) *)
Definition encodeURL : string :=
  "ABCDEFGHIJKLMNOPQRSTUVWXYZabcdefghijklmnopqrstuvwxyz0123456789-_".
Definition b64 (i : Z) : ascii := table_at encodeURL i.

Fixpoint RawURL_EncodeToString (s : string) : string :=
  match s with
  | "" => ""
  | String c0 "" =>
      let a := byte_of c0 in
      String (b64 (a / 4)) (String (b64 ((a mod 4) * 16)) "")
  | String c0 (String c1 "") =>
      let a := byte_of c0 in let b := byte_of c1 in
      String (b64 (a / 4)) (String (b64 ((a mod 4) * 16 + b / 16))
        (String (b64 ((b mod 16) * 4)) ""))
  | String c0 (String c1 (String c2 s')) =>
      let a := byte_of c0 in let b := byte_of c1 in let c := byte_of c2 in
      String (b64 (a / 4)) (String (b64 ((a mod 4) * 16 + b / 16))
        (String (b64 ((b mod 16) * 4 + c / 64)) (String (b64 (c mod 64))
          (RawURL_EncodeToString s'))))
  end.

(** ** crypto/rand: [rand.Read] of [n] bytes from a tape *)
Definition entropy := string.

Fixpoint take_bytes (n : nat) (t : entropy) : option (string * entropy) :=
  match n, t with
  | O, _ => Some ("", t)
  | S n', String c t' =>
      match take_bytes n' t' with
      | Some (s, t'') => Some (String c s, t'')
      | None => None
      end
  | S _, "" => None
  end.

(** On failure the tape is left as it was. *)
Definition rand_Read (n : nat) (t : entropy) : option string * entropy :=
  match take_bytes n t with
  | Some (s, t') => (Some s, t')
  | None => (None, t)
  end.

(** ** crypto/sha256 (FIPS 180-4) *)
Module Sha256.

Definition w32 (x : Z) : Z := Z.land x 4294967295.
Definition add32 (x y : Z) : Z := w32 (x + y).
Definition rotr (n x : Z) : Z := Z.lor (Z.shiftr x n) (w32 (Z.shiftl x (32 - n))).
Definition not32 (x : Z) : Z := Z.lxor x 4294967295.
Definition Ch x y z := Z.lxor (Z.land x y) (Z.land (not32 x) z).
Definition Maj x y z := Z.lxor (Z.lxor (Z.land x y) (Z.land x z)) (Z.land y z).
Definition S0 x := Z.lxor (Z.lxor (rotr 2 x) (rotr 13 x)) (rotr 22 x).
Definition S1 x := Z.lxor (Z.lxor (rotr 6 x) (rotr 11 x)) (rotr 25 x).
Definition s0 x := Z.lxor (Z.lxor (rotr 7 x) (rotr 18 x)) (Z.shiftr x 3).
Definition s1 x := Z.lxor (Z.lxor (rotr 17 x) (rotr 19 x)) (Z.shiftr x 10).

Definition K : list Z :=
 [1116352408;1899447441;3049323471;3921009573;961987163;1508970993;2453635748;2870763221;
  3624381080;310598401;607225278;1426881987;1925078388;2162078206;2614888103;3248222580;
  3835390401;4022224774;264347078;604807628;770255983;1249150122;1555081692;1996064986;
  2554220882;2821834349;2952996808;3210313671;3336571891;3584528711;113926993;338241895;
  666307205;773529912;1294757372;1396182291;1695183700;1986661051;2177026350;2456956037;
  2730485921;2820302411;3259730800;3345764771;3516065817;3600352804;4094571909;275423344;
  430227734;506948616;659060556;883997877;958139571;1322822218;1537002063;1747873779;
  1955562222;2024104815;2227730452;2361852424;2428436474;2756734187;3204031479;3329325298].

Definition H0 : list Z :=
 [1779033703;3144134277;1013904242;2773480762;1359893119;2600822924;528734635;1541459225].

(** Message schedule: [ws] holds the words so far, newest first. *)
Fixpoint extend (n : nat) (ws : list Z) : list Z :=
  match n with
  | O => ws
  | S n' =>
      let at' i := nth i ws 0 in
      extend n' (add32 (add32 (s1 (at' 1%nat)) (at' 6%nat))
                       (add32 (s0 (at' 14%nat)) (at' 15%nat)) :: ws)
  end.

Definition round (st : list Z) (kw : Z * Z) : list Z :=
  match st with
  | [a; b; c; d; e; f; g; h] =>
      let t1 := add32 (add32 (add32 h (S1 e)) (Ch e f g)) (add32 kw.1 kw.2) in
      let t2 := add32 (S0 a) (Maj a b c) in
      [add32 t1 t2; a; b; c; add32 d t1; e; f; g]
  | _ => st
  end.

Definition block (st ws : list Z) : list Z :=
  zip_with add32 st (foldl round st (zip K (reverse (extend 48 (reverse ws))))).

Fixpoint words (bs : list Z) : list Z :=
  match bs with
  | a :: b :: c :: d :: r => (((a * 256 + b) * 256 + c) * 256 + d) :: words r
  | _ => []
  end.

Definition be_bytes (n : nat) (x : Z) : list Z :=
  (λ i, (x / 2 ^ (8 * Z.of_nat i)) mod 256) <$> reverse (seq 0 n).

Definition pad (bs : list Z) : list Z :=
  let n := Z.of_nat (length bs) in
  bs ++ 128 :: replicate (Z.to_nat ((55 - n) mod 64)) 0 ++ be_bytes 8 (8 * n).

Fixpoint blocks (fuel : nat) (st ws : list Z) : list Z :=
  match fuel, ws with
  | S k, _ :: _ => blocks k (block st (take 16 ws)) (drop 16 ws)
  | _, _ => st
  end.

Definition digest (bs : list Z) : list Z :=
  let ws := words (pad bs) in blocks (length ws) H0 ws ≫= be_bytes 4.

End Sha256.

(** [sha256.Sum256]. *)
Definition Sum256 (s : string) : string :=
  string_of_bytes (Sha256.digest (bytes_of s)).

Example Sum256_abc : hex_EncodeToString (Sum256 "abc") =
  "ba7816bf8f01cfea414140de5dae2223b00361a396177a9cb410ff61f20015ad".
Proof. vm_compute. reflexivity. Qed.
Example Sum256_empty : hex_EncodeToString (Sum256 "") =
  "e3b0c44298fc1c149afbf4c8996fb92427ae41e4649b934ca495991b7852b855".
Proof. vm_compute. reflexivity. Qed.
Example Sum256_two_blocks :
  hex_EncodeToString (Sum256 "abcdbcdecdefdefgefghfghighijhijkijkljklmklmnlmnomnopnopq") =
  "248d6a61d20638b8e5c026930c3e6039a33ce45964ff2167f6ecedd419db06c1".
Proof. vm_compute. reflexivity. Qed.
Example RawURL_ex : RawURL_EncodeToString "xdauth?>" = "eGRhdXRoPz4".
Proof. vm_compute. reflexivity. Qed.

(** ** Lemmas *)

(** Once a bit of the accumulator is set it stays set. *)
Lemma ct_diff_zero x y v : ct_diff x y v = 0 → v = 0.
Proof.
  revert y v. induction x as [|a x IH]; intros [|b y] v; simpl; try done.
  intros H%IH. by apply Z.lor_eq_0_iff in H as [? _].
Qed.

Lemma ct_diff_spec x y :
  length x = length y → (ct_diff x y 0 = 0 ↔ x = y).
Proof.
  revert y. induction x as [|a x IH]; intros [|b y] Hl; simplify_eq/=; [done|].
  rewrite Z.lor_0_l. split.
  - intros H. pose proof (ct_diff_zero _ _ _ H) as Hab. rewrite Hab in H.
    apply Z.lxor_eq in Hab. subst. f_equal. by apply IH.
  - intros [= -> ->]. rewrite Z.lxor_nilpotent. by apply IH.
Qed.

(** The constant-time comparison decides equality of byte strings. *)
Lemma ConstantTimeCompare_spec x y : ConstantTimeCompare x y = if seqb x y then 1 else 0.
Proof.
  unfold ConstantTimeCompare, seqb.
  destruct (Nat.eqb_spec (String.length x) (String.length y)) as [Hl|Hl]; simpl.
  - rewrite <-!bytes_of_length in Hl. pose proof (ct_diff_spec _ _ Hl) as Hs.
    case_bool_decide as Hxy; [subst; by rewrite (proj2 Hs)|].
    destruct (Z.eqb_spec (ct_diff (bytes_of x) (bytes_of y) 0) 0); [|done].
    exfalso. apply Hxy, (inj bytes_of), Hs; done.
  - by rewrite bool_decide_eq_false_2 by congruence.
Qed.

Lemma ConstantTimeCompare_1 x y : (ConstantTimeCompare x y =? 1) = seqb x y.
Proof. rewrite ConstantTimeCompare_spec. by destruct (seqb x y). Qed.

(** *** hex *)
Lemma hex_length s : String.length (hex_EncodeToString s) = (2 * String.length s)%nat.
Proof. induction s; simpl; lia. Qed.

Lemma table_at_inj_hex i j :
  0 ≤ i < 16 → 0 ≤ j < 16 → table_at hextable i = table_at hextable j → i = j.
Proof. apply (inj_upto_spec (table_at hextable)). vm_compute. reflexivity. Qed.

#[global] Instance hex_inj : Inj (=) (=) hex_EncodeToString.
Proof.
  intros a. induction a as [|c a IH]; intros [|d b]; simpl; try done.
  pose proof (byte_of_range c). pose proof (byte_of_range d).
  intros [= H1 H2 H3]. apply table_at_inj_hex in H1; [|divlia..].
  apply table_at_inj_hex in H2; [|divlia..]. rewrite (IH _ H3).
  f_equal. apply (inj byte_of). divlia.
Qed.

(** *** base64 *)
Lemma b64_inj i j : 0 ≤ i < 64 → 0 ≤ j < 64 → b64 i = b64 j → i = j.
Proof. apply (inj_upto_spec b64). vm_compute. reflexivity. Qed.

Lemma string_ind3 (P : string → Prop) :
  P "" → (∀ a, P (String a "")) → (∀ a b, P (String a (String b ""))) →
  (∀ a b c s, P s → P (String a (String b (String c s)))) → ∀ s, P s.
Proof.
  intros H0 H1 H2 H3.
  fix IH 1. intros [|a [|b [|c s]]];
    [exact H0|exact (H1 _)|exact (H2 _ _)|apply H3, IH].
Qed.

Ltac b64_eqs :=
  repeat match goal with
  | H : b64 _ = b64 _ |- _ => apply b64_inj in H; [|divlia..]
  end.

#[global] Instance RawURL_inj : Inj (=) (=) RawURL_EncodeToString.
Proof.
  intros s. induction s as [| a | a b | a b c s IH] using string_ind3;
    intros [|d [|e [|f t]]]; simpl; try done;
    intros [=];
    repeat match goal with c : ascii |- _ => 
      lazymatch goal with H : 0 ≤ byte_of c < 256 |- _ => fail | _ => pose proof (byte_of_range c) end end;
    b64_eqs; try done.
  - f_equal. apply (inj byte_of). divlia.
  - assert (a = d) as -> by (apply (inj byte_of); divlia).
    assert (b = e) as -> by (apply (inj byte_of); divlia). done.
  - assert (a = d) as -> by (apply (inj byte_of); divlia).
    assert (b = e) as -> by (apply (inj byte_of); divlia).
    assert (c = f) as -> by (apply (inj byte_of); divlia).
    by erewrite IH.
Qed.

Lemma RawURL_empty s : RawURL_EncodeToString s = "" ↔ s = "".
Proof. by destruct s as [|? [|? [|? ?]]]. Qed.

(** Length of an encoding: [ceil (4n / 3)]. *)
Lemma RawURL_length s :
  String.length (RawURL_EncodeToString s) = Nat.div (4 * String.length s + 2) 3.
Proof.
  induction s as [| a | a b | a b c s IH] using string_ind3; try done.
  simpl String.length. rewrite IH.
  replace (4 * S (S (S (String.length s))) + 2)%nat
    with ((4 * String.length s + 2) + 4 * 3)%nat by lia.
  rewrite Nat.div_add by done. lia.
Qed.

(** Both encodings are ASCII. *)
Lemma table_at_all (P : ascii → bool) t i :
  P "000"%char = true → string_all P t = true → P (table_at t i) = true.
Proof.
  intros H0. unfold table_at. generalize (Z.to_nat i) as n.
  induction t as [|c t IH]; intros [|n]; cbn [string_all String.get default]; try done;
    intros [Hc Ht]%andb_true_iff; [done|by apply IH].
Qed.

Lemma RawURL_ascii s : string_all (λ c, byte_of c <? 128) (RawURL_EncodeToString s) = true.
Proof.
  assert (Hb : ∀ i, (byte_of (b64 i) <? 128) = true) by (intros i; by apply (table_at_all (λ c, byte_of c <? 128))).
  induction s as [| a | a b | a b c s IH] using string_ind3; cbn [RawURL_EncodeToString string_all];
    rewrite ?Hb; done.
Qed.

Lemma hex_ascii s : string_all (λ c, byte_of c <? 128) (hex_EncodeToString s) = true.
Proof.
  assert (Hb : ∀ i, (byte_of (table_at hextable i) <? 128) = true)
    by (intros i; by apply (table_at_all (λ c, byte_of c <? 128))).
  induction s as [|c s IH]; cbn [hex_EncodeToString string_all]; rewrite ?Hb; done.
Qed.

(** *** entropy *)
Lemma take_bytes_spec n t s t' : take_bytes n t = Some (s, t') →
  String.length s = n ∧ t = s +:+ t'.
Proof.
  revert t s t'. induction n as [|n IH]; intros t s t' H; simpl in H.
  - by destruct t; simplify_eq.
  - destruct t as [|c t]; [done|]. destruct (take_bytes n t) as [[u t1]|] eqn:E; [|done].
    simplify_eq/=. apply IH in E as [<- ->]. done.
Qed.

Lemma rand_Read_Some n t s t' : rand_Read n t = (Some s, t') → String.length s = n.
Proof.
  unfold rand_Read. destruct (take_bytes n t) as [[? ?]|] eqn:E; [|done].
  intros [= -> ->]. by apply take_bytes_spec in E as [? _].
Qed.

(** *** sha256 *)
Lemma round_length st kw : length st = 8%nat → length (Sha256.round st kw) = 8%nat.
Proof. by destruct st as [|? [|? [|? [|? [|? [|? [|? [|? [|? ?]]]]]]]]]. Qed.

Lemma block_length st ws : length st = 8%nat → length (Sha256.block st ws) = 8%nat.
Proof.
  intros H. unfold Sha256.block. rewrite length_zip_with, H.
  assert (∀ l st0, length st0 = 8%nat → length (foldl Sha256.round st0 l) = 8%nat) as ->; [|done|done].
  clear. induction l; simpl; auto using round_length.
Qed.

Lemma blocks_length k st ws : length st = 8%nat → length (Sha256.blocks k st ws) = 8%nat.
Proof.
  revert st ws. induction k as [|k IH]; intros st ws H; simpl; [done|].
  destruct ws; auto using block_length.
Qed.

(** A digest is 32 bytes. *)
Lemma Sum256_length s : String.length (Sum256 s) = 32%nat.
Proof.
  unfold Sum256, Sha256.digest. rewrite string_of_bytes_length.
  pose proof (blocks_length (length (Sha256.words (Sha256.pad (bytes_of s))))
    Sha256.H0 (Sha256.words (Sha256.pad (bytes_of s))) eq_refl) as H.
  revert H. generalize (Sha256.blocks (length (Sha256.words (Sha256.pad (bytes_of s))))
    Sha256.H0 (Sha256.words (Sha256.pad (bytes_of s)))).
  intros l H. by destruct l as [|? [|? [|? [|? [|? [|? [|? [|? [|? ?]]]]]]]]].
Qed.

(** Two different strings with the same digest. *)
Definition sha256_collision (a b : string) : Prop := a ≠ b ∧ Sum256 a = Sum256 b.

#[global] Arguments Sum256 : simpl never.
#[global] Opaque Sum256.
