(* ===== verification/Netip.v ===== *)
(** [net/netip] address and prefix parsing, [Prefix.Contains], and
    [net.SplitHostPort], as the program uses them. *)

From S2P Require Import Prelude GoStrings.

Inductive Addr :=
  | Addr4 (v : Z)
  | Addr6 (v : Z) (zone : string).

Record Prefix := mkPrefix { pfx_addr : Addr; pfx_bits : Z }.

#[export] Instance Addr_eq_dec : EqDecision Addr.
Proof. solve_decision. Defined.

Definition digit_val (c : ascii) : option Z :=
  if in_range 48 57 c then Some (byte_of c - 48) else None.

Definition hex_val (c : ascii) : option Z :=
  if in_range 48 57 c then Some (byte_of c - 48)
  else if in_range 97 102 c then Some (byte_of c - 97 + 10)
  else if in_range 65 70 c then Some (byte_of c - 65 + 10)
  else None.

(** [parseIPv4Fields]: [val], [pos] and [digLen] are the loop variables,
    [acc] the fields so far as one number. *)
Fixpoint ipv4_fields (s : string) (val pos digLen acc : Z) : option Z :=
  match s with
  | "" => if pos <? 3 then None else Some (acc * 256 + val)
  | String c s' =>
      match digit_val c with
      | Some d =>
          if (digLen =? 1) && (val =? 0) then None else
          let val := val * 10 + d in
          if 255 <? val then None else ipv4_fields s' val pos (digLen + 1) acc
      | None =>
          if Ascii.eqb c "." then
            if (digLen =? 0) || is_empty s' then None
            else if pos =? 3 then None
            else ipv4_fields s' 0 (pos + 1) 0 (acc * 256 + val)
          else None
      end
  end.

Definition parseIPv4 (s : string) : option Z := ipv4_fields s 0 0 0 0.

(** The hexadecimal field at the start of [s]: value, digits read and rest;
    a fifth digit is an error. *)
Fixpoint hex_field (s : string) (acc off : Z) : option (Z * Z * string) :=
  match s with
  | "" => Some (acc, off, "")
  | String c s' =>
      match hex_val c with
      | Some d => if 3 <? off then None else hex_field s' (acc * 16 + d) (off + 1)
      | None => Some (acc, off, s)
      end
  end.

(** The main loop of [parseIPv6]: groups read (oldest first), position of the
    ellipsis, and the unread rest; at most eight groups are read. *)
Fixpoint ipv6_loop (fuel : nat) (s : string) (groups : list Z) (ellipsis : option nat)
    : option (list Z * option nat * string) :=
  match fuel with
  | O => Some (groups, ellipsis, s)
  | S k =>
      match hex_field s 0 0 with
      | None => None
      | Some (acc, off, rest) =>
          if off =? 0 then None else
          match rest with
          | "" => Some (groups ++ [acc], ellipsis, "")
          | String c rest' =>
              if Ascii.eqb c "." then
                if bool_decide (ellipsis = None) && negb (Nat.eqb (length groups) 6) then None
                else if Nat.ltb 6 (length groups) then None
                else match parseIPv4 s with
                     | None => None
                     | Some v => Some (groups ++ [v / 65536; v mod 65536], ellipsis, "")
                     end
              else if negb (Ascii.eqb c ":") then None
              else match rest' with
              | "" => None
              | String c1 rest1 =>
                  let groups := groups ++ [acc] in
                  if Ascii.eqb c1 ":" then
                    match ellipsis with
                    | Some _ => None
                    | None =>
                        if is_empty rest1 then Some (groups, Some (length groups), "")
                        else ipv6_loop k rest1 groups (Some (length groups))
                    end
                  else ipv6_loop k rest' groups ellipsis
              end
          end
      end
  end%list.

Definition groups_val (g : list Z) : Z := foldl (λ a x, a * 65536 + x) 0 g.

(** Require the whole string, and expand the ellipsis to fill eight groups. *)
Definition ipv6_finish (r : option (list Z * option nat * string)) : option Z :=
  match r with
  | Some (groups, ellipsis, "") =>
      if Nat.ltb (length groups) 8 then
        match ellipsis with
        | None => None
        | Some e => Some (groups_val (take e groups
                        ++ replicate (8 - length groups) 0 ++ drop e groups)%list)
        end
      else match ellipsis with None => Some (groups_val groups) | Some _ => None end
  | _ => None
  end.

Definition parseIPv6 (s0 : string) : option Addr :=
  let szone := match IndexByte s0 "%" with
    | None => Some (s0, "")
    | Some i => let z := string_drop (S i) s0 in
                if is_empty z then None else Some (string_take i s0, z)
    end in
  match szone with
  | None => None
  | Some (s, zone) =>
      let v := match s with
        | String ":" (String ":" "") => Some 0
        | String ":" (String ":" s') => ipv6_finish (ipv6_loop 8 s' [] (Some 0%nat))
        | _ => ipv6_finish (ipv6_loop 8 s [] None)
        end in
      (λ v, Addr6 v zone) <$> v
  end.

(** [netip.ParseAddr]: the first [.], [:] or [%] decides the family. *)
Fixpoint parse_by (s whole : string) : option Addr :=
  match s with
  | "" => None
  | String c s' =>
      if Ascii.eqb c "." then Addr4 <$> parseIPv4 whole
      else if Ascii.eqb c ":" then parseIPv6 whole
      else if Ascii.eqb c "%" then None
      else parse_by s' whole
  end.

Definition ParseAddr (s : string) : option Addr := parse_by s s.

(** [Prefix.Contains]: families must agree and zones are never contained. *)
Definition Contains (p : Prefix) (a : Addr) : bool :=
  if pfx_bits p <? 0 then false else
  match pfx_addr p, a with
  | Addr4 q, Addr4 v => Z.shiftr (Z.lxor v q) (32 - pfx_bits p) =? 0
  | Addr6 q _, Addr6 v zone =>
      is_empty zone && (Z.shiftr (Z.lxor v q) (128 - pfx_bits p) =? 0)
  | _, _ => false
  end.

(** [strconv.Atoi] on a non-empty string of digits (no sign: [ParsePrefix]
    refuses one), saturating far above any prefix length. *)
Fixpoint digits_val (s : string) (acc : Z) : option Z :=
  match s with
  | "" => Some acc
  | String c s' => match digit_val c with
      | Some d => digits_val s' (Z.min (acc * 10 + d) 1000000) | None => None end
  end.

(** [netip.ParsePrefix]. *)
Definition ParsePrefix (s : string) : option Prefix :=
  match LastIndexByte s "/" with
  | None => None
  | Some i =>
      match ParseAddr (string_take i s) with
      | None => None
      | Some ip =>
          if (match ip with Addr6 _ z => negb (is_empty z) | _ => false end) then None else
          let bitsStr := string_drop (S i) s in
          match bitsStr with
          | "" => None
          | String c rest =>
              if negb (is_empty rest) && negb (in_range 49 57 c) then None else
              match digits_val bitsStr 0 with
              | None => None
              | Some bits =>
                  let maxBits := match ip with Addr4 _ => 32 | Addr6 _ _ => 128 end in
                  if maxBits <? bits then None else Some (mkPrefix ip bits)
              end
          end
      end
  end.

(** [net.SplitHostPort]: the host part, [None] on error. *)
Definition SplitHostPort_host (hp : string) : option string :=
  match LastIndexByte hp ":" with
  | None => None
  | Some i =>
      let has c s := match IndexByte s c with Some _ => true | None => false end in
      match hp with
      | String "[" _ =>
          match IndexByte hp "]" with
          | None => None
          | Some e =>
              if negb (Nat.eqb (S e) i) then None
              else if has "["%char (string_drop 1 hp) || has "]"%char (string_drop (S e) hp)
              then None
              else Some (string_drop 1 (string_take e hp))
          end
      | _ =>
          let host := string_take i hp in
          if has ":"%char host || has "["%char hp || has "]"%char hp then None else Some host
      end
  end.

Example parse_v4 : ParseAddr "10.1.2.3" = Some (Addr4 167838211). Proof. reflexivity. Qed.
Example parse_v4_bad : ParseAddr "10.01.2.3" = None. Proof. reflexivity. Qed.
Example parse_v6 : ParseAddr "2001:db8::1" = Some (Addr6 42540766411282592856903984951653826561 "").
Proof. reflexivity. Qed.
Example parse_v6_zone : ParseAddr "fe80::1%eth0" = Some (Addr6 338288524927261089654018896841347694593 "eth0").
Proof. reflexivity. Qed.
Example parse_mapped : ParseAddr "::ffff:10.1.2.3" = Some (Addr6 281470849581571 ""). Proof. reflexivity. Qed.
Example split1 : SplitHostPort_host "[::1]:443" = Some "::1". Proof. reflexivity. Qed.
Example split2 : SplitHostPort_host "10.0.0.1:80" = Some "10.0.0.1". Proof. reflexivity. Qed.
Example split3 : SplitHostPort_host "::1" = None. Proof. reflexivity. Qed.
Example prefix1 : ParsePrefix "10.0.0.0/8" = Some (mkPrefix (Addr4 167772160) 8). Proof. reflexivity. Qed.
Example prefix2 : ParsePrefix "10.0.0.0/08" = None. Proof. reflexivity. Qed.
