(* ===== verification/HttpClient.v ===== *)
(** The client side of [net/http]: building a request and what it is
    answered.  The transport is an argument of the code that sends. *)

From S2P Require Import Prelude GoStrings GoTime GoUrl.

Local Open Scope list_scope.

(** [http.Client], as far as the code sets it. *)
Record httpClient := mkHttpClient { Timeout : Duration }.

(** [http.NewRequestWithContext] with a valid method and a body: the address
    has to parse, and an empty port is removed from its host. *)
Record httpRequest := mkHttpRequest {
  hr_Method : string;
  hr_URL : URL;
  hr_Header : list (string * string);
  hr_Body : string;
}.

Definition hasPort (host : string) : bool :=
  match LastIndexByte host ":", LastIndexByte host "]" with
  | Some i, Some j => Nat.ltb j i
  | Some _, None => true
  | None, _ => false
  end.

Definition removeEmptyPort (host : string) : string :=
  match LastIndexByte host ":" with
  | Some i => if hasPort host && Nat.eqb (S i) (String.length host) then string_take i host else host
  | None => host
  end.

Definition without_empty_port (u : URL) : URL :=
  mkURL (u_Scheme u) (u_Opaque u) (u_User u) (removeEmptyPort (u_Host u)) (u_Path u) (u_RawPath u)
    (u_OmitHost u) (u_ForceQuery u) (u_RawQuery u) (u_Fragment u) (u_RawFragment u).

Definition NewRequest (method url body : string) : option httpRequest :=
  u ← Parse url;
  Some (mkHttpRequest method (without_empty_port u) [] body).

(** [req.Header.Set("Content-Type", "application/json")] on a new request. *)
Definition with_json (req : httpRequest) : httpRequest :=
  mkHttpRequest (hr_Method req) (hr_URL req) (hr_Header req ++ [("Content-Type", "application/json")])
    (hr_Body req).

(** What [Do] yields: an error, or a status code and the body. *)
Inductive answer :=
  | TransportError
  | Answer (status : Z) (body : string).
