(* ===== verification/UserCode.v ===== *)
(** The user code of check 2 (number matching): [internal/broker/usercode.go].
    [GenerateUserCode] draws eight bytes from the entropy tape;
    [normalizeUserCode] and [codesEqual] are the comparison the approval
    uses. *)

From S2P Require Import Prelude GoStrings GoUtf8 GoCrypto.

Definition userCodeAlphabet : string := "ABCDEFGHJKLMNPQRSTUVWXYZ23456789".

(** [userCodeAlphabet[int(b)%len(userCodeAlphabet)]]. *)
Definition code_char (b : ascii) : ascii :=
  table_at userCodeAlphabet (byte_of b mod slen userCodeAlphabet).

Definition GenerateUserCode (t : entropy) : result string string * entropy :=
  match rand_Read 8 t with
  | (None, t') => (Err "generate user code: short read", t')
  | (Some raw, t') =>
      let idx := string_map code_char raw in
      (Ok (string_take 4 idx +:+ "-" +:+ string_drop 4 idx), t')
  end.

Definition normalizeUserCode `{UnicodeCase} (s : string) : string :=
  let s := ToUpper (TrimSpace s) in
  let s := ReplaceAll_empty s "-" in
  let s := ReplaceAll_empty s " " in
  s.

Definition codesEqual `{UnicodeCase} (submitted expected : string) : bool :=
  let a := normalizeUserCode submitted in
  let b := normalizeUserCode expected in
  if negb (Nat.eqb (String.length a) (String.length b)) then false
  else ConstantTimeCompare a b =? 1.

(** ** Shape of a generated code *)

Definition in_alphabet (c : ascii) : bool :=
  negb (string_all (λ d, negb (Ascii.eqb c d)) userCodeAlphabet).

(** [XXXX-XXXX] over the alphabet. *)
Definition well_formed_code (s : string) : Prop :=
  ∃ a b, s = a +:+ "-" +:+ b ∧ String.length a = 4%nat ∧ String.length b = 4%nat
    ∧ string_all in_alphabet a = true ∧ string_all in_alphabet b = true.

Lemma code_char_alphabet b : in_alphabet (code_char b) = true.
Proof. revert b. apply forall_ascii. vm_compute. reflexivity. Qed.

Lemma string_take_drop n s : string_take n s +:+ string_drop n s = s.
Proof.
  revert s. induction n as [|n IH]; intros [|c s]; simpl; try done.
  by rewrite string_app_cons, IH.
Qed.

Lemma string_take_length n s :
  (n ≤ String.length s)%nat → String.length (string_take n s) = n.
Proof.
  revert s. induction n as [|n IH]; intros [|c s] H; simpl in *; try lia.
  rewrite IH; lia.
Qed.

Lemma string_drop_length n s :
  String.length (string_drop n s) = (String.length s - n)%nat.
Proof. revert s. induction n as [|n IH]; intros [|c s]; simpl; auto. Qed.

Lemma code_map_wf raw : String.length raw = 8%nat →
  well_formed_code (string_take 4 (string_map code_char raw) +:+ "-"
                    +:+ string_drop 4 (string_map code_char raw)).
Proof.
  intros H. set (idx := string_map code_char raw).
  assert (Hl : String.length idx = 8%nat) by (unfold idx; by rewrite string_map_length).
  assert (Ha : string_all in_alphabet idx = true).
  { apply (string_map_all (λ _, true)); [auto using code_char_alphabet|].
    clear. induction raw; simpl; auto. }
  exists (string_take 4 idx), (string_drop 4 idx).
  rewrite <-(string_take_drop 4 idx), string_all_app, andb_true_iff in Ha.
  rewrite string_take_length, string_drop_length, Hl by lia. naive_solver.
Qed.

(** ** Normalisation of codes *)

Lemma in_alphabet_facts c : in_alphabet c = true →
  no_space_start c = true ∧ Ascii.eqb (upper_byte c) c = true
  ∧ Ascii.eqb c "-" = false ∧ Ascii.eqb c " " = false.
Proof.
  intros Hc.
  assert (H : implb (in_alphabet c) (no_space_start c && Ascii.eqb (upper_byte c) c
    && negb (Ascii.eqb c "-") && negb (Ascii.eqb c " ")) = true).
  { clear Hc. revert c. apply forall_ascii. vm_compute. reflexivity. }
  rewrite Hc in H. simpl in H. rewrite !andb_true_iff, !negb_true_iff in H. naive_solver.
Qed.

Lemma no_space_start_ascii c : no_space_start c = true → (byte_of c <? RuneSelf) = true.
Proof. unfold no_space_start, RuneSelf. by rewrite andb_true_iff; intros [_ ?]. Qed.

(** Removing dashes and spaces leaves alphabet strings alone. *)
Lemma remove_alphabet s : string_all in_alphabet s = true →
  ReplaceAll_empty s "-" = s ∧ ReplaceAll_empty s " " = s.
Proof.
  intros Hs. split; apply ReplaceAll_empty_id; (eapply string_all_impl; [|exact Hs]);
    intros c Hc; apply in_alphabet_facts in Hc as (_ & _ & H1 & H2); by rewrite ?H1, ?H2.
Qed.

(** What [normalizeUserCode] computes on a string of non-space ASCII. *)
Lemma normalize_ascii `{UnicodeCase} s : string_all no_space_start s = true →
  normalizeUserCode s =
    ReplaceAll_empty (ReplaceAll_empty (string_map upper_byte s) "-") " ".
Proof.
  intros Hs. unfold normalizeUserCode. rewrite TrimSpace_id by done.
  rewrite ToUpper_ascii; [done|].
  eapply string_all_impl; [|exact Hs]. apply no_space_start_ascii.
Qed.

Lemma string_map_app f a b : string_map f (a +:+ b) = string_map f a +:+ string_map f b.
Proof. induction a as [|c a IH]; simpl; [done|]. by rewrite IH. Qed.

(** A generated code normalises to its eight letters. *)
Lemma normalize_code `{UnicodeCase} a b :
  string_all in_alphabet a = true → string_all in_alphabet b = true →
  normalizeUserCode (a +:+ "-" +:+ b) = a +:+ b.
Proof.
  intros Ha Hb.
  assert (Hsp : ∀ s, string_all in_alphabet s = true → string_all no_space_start s = true).
  { intros s. apply string_all_impl. intros c Hc. by apply in_alphabet_facts in Hc as [? _]. }
  assert (Hup : ∀ s, string_all in_alphabet s = true → string_map upper_byte s = s).
  { intros s Hs. apply string_map_id. eapply string_all_impl; [|exact Hs].
    intros c Hc. by apply in_alphabet_facts in Hc as (_ & ? & _). }
  rewrite normalize_ascii by (rewrite !string_all_app, (Hsp a Ha), (Hsp b Hb); reflexivity).
  rewrite !string_map_app, (Hup a Ha), (Hup b Hb).
  change (string_map upper_byte "-") with "-".
  rewrite !ReplaceAll_empty_app. destruct (remove_alphabet a Ha) as [-> ->], (remove_alphabet b Hb) as [-> ->].
  done.
Qed.

Lemma codesEqual_seqb `{UnicodeCase} a b :
  codesEqual a b = seqb (normalizeUserCode a) (normalizeUserCode b).
Proof.
  unfold codesEqual. rewrite ConstantTimeCompare_1.
  destruct (Nat.eqb_spec (String.length (normalizeUserCode a))
                         (String.length (normalizeUserCode b))); simpl; [done|].
  symmetry. apply seqb_false. congruence.
Qed.

Lemma string_app_inj_l a b c d : String.length a = String.length b →
  a +:+ c = b +:+ d → a = b ∧ c = d.
Proof.
  revert b. induction a as [|x a IH]; intros [|y b] Hl He; try done.
  rewrite !string_app_cons in He. injection He as -> He.
  apply IH in He as [-> ->]; [done|]. by injection Hl.
Qed.

Lemma codesEqual_refl `{UnicodeCase} c : codesEqual c c = true.
Proof. rewrite codesEqual_seqb. apply seqb_refl. Qed.

Lemma GenerateUserCode_wf t c t' :
  GenerateUserCode t = (Ok c, t') → well_formed_code c.
Proof.
  unfold GenerateUserCode. destruct (rand_Read 8 t) as [[raw|] t0] eqn:E; [|done].
  intros [= <- _]. apply code_map_wf. eauto using rand_Read_Some.
Qed.

Lemma well_formed_ascii s : well_formed_code s → is_ascii_string s = true.
Proof.
  intros (a & b & -> & _ & _ & Ha & Hb). unfold is_ascii_string. rewrite !string_all_app.
  assert (Hi : ∀ s, string_all in_alphabet s = true → string_all (λ c, byte_of c <? RuneSelf) s = true).
  { intros x. apply string_all_impl.
    assert (H : ∀ c, implb (in_alphabet c) (byte_of c <? RuneSelf) = true)
      by (apply forall_ascii; vm_compute; reflexivity).
    intros c Hc. specialize (H c). by rewrite Hc in H. }
  by rewrite (Hi a Ha), (Hi b Hb).
Qed.

(** ** Retypings

    What may be typed for a code: its letters in order, each as any rune whose
    upper case it is, with dashes and spaces anywhere. *)
Section Retyping.
Context `{UnicodeCase}.

(** Runes the comparison does not see. *)
Definition unseen (r : Z) : Prop :=
  let u := unicode_ToUpper r in u = 45 ∨ u = 32 ∨ u < 0.

Inductive retyping : list Z → list Z → Prop :=
  | retyping_nil : retyping [] []
  | retyping_unseen r rs w : unseen r → retyping rs w → retyping (r :: rs) w
  | retyping_letter r rs w : retyping rs w → retyping (r :: rs) (unicode_ToUpper r :: w).

Definition strip (s : string) : string := ReplaceAll_empty (ReplaceAll_empty s "-") " ".

Lemma strip_app a b : strip (a +:+ b) = strip a +:+ strip b.
Proof. unfold strip. by rewrite !ReplaceAll_empty_app. Qed.

(** What one rune of the submission becomes. *)
Definition piece (r : Z) : string :=
  let u := unicode_ToUpper r in if u <? 0 then "" else encode_rune u.

Lemma runes_ascii s : is_ascii_string s = true → runes s = bytes_of s.
Proof.
  unfold is_ascii_string. induction s as [|c s IH]; cbn [string_all]; [done|].
  intros [Hc Hs]%andb_true_iff. cbn [runes bytes_of]. rewrite Hc. f_equal. by apply IH.
Qed.

Lemma piece_ascii c : byte_of c <? RuneSelf = true → piece (byte_of c) = String (upper_byte c) "".
Proof.
  intros Hc. unfold piece, unicode_ToUpper, upper_byte, in_range. rewrite Hc.
  assert (H1 : ∀ c, implb (byte_of c <? RuneSelf) (seqb
    (let u := if (97 <=? byte_of c) && (byte_of c <=? 122) then byte_of c - 32 else byte_of c in
     if u <? 0 then "" else encode_rune u)
    (String (if (97 <=? byte_of c) && (byte_of c <=? 122) then ascii_of (byte_of c - 32) else c) "")) = true)
    by (apply forall_ascii; vm_compute; reflexivity).
  specialize (H1 c). rewrite Hc in H1. by apply seqb_true in H1.
Qed.

(** Both branches of [ToUpper] are the rune by rune one. *)
Lemma ToUpper_pieces s : ToUpper s = String.concat "" (piece <$> runes s).
Proof.
  unfold ToUpper. destruct (is_ascii_string s) eqn:E; [|done]. rewrite runes_ascii by done.
  unfold is_ascii_string in E. induction s as [|c s IH]; [done|].
  cbn [string_all] in E. apply andb_true_iff in E as [Hc Hs].
  cbn [bytes_of fmap list_fmap]. rewrite concat_empty_cons, piece_ascii, <-IH by done. done.
Qed.

(** The encoding of a rune above 127 holds no ASCII. *)
Lemma encode_rune_high u : 128 ≤ u →
  ∃ c t, encode_rune u = String c t ∧ string_all (λ c, 128 <=? byte_of c) (String c t) = true.
Proof.
  intros Hu. unfold encode_rune. set (r := if _ || _ then RuneError else u).
  assert (Hr : 128 ≤ r ≤ 1114111).
  { unfold r, RuneError. destruct (_ || _) eqn:E; [lia|]. reflect_bool. lia. }
  assert (Hb : ∀ z, 128 ≤ z < 256 → 128 <=? byte_of (ascii_of z) = true).
  { intros z Hz. rewrite byte_of_ascii_of by lia. lia. }
  rewrite (proj2 (Z.ltb_ge r 128)) by lia.
  destruct (r <? 2048) eqn:E1; [|destruct (r <? 65536) eqn:E2]; reflect_bool;
    cbn [string_of_bytes]; eexists _, _; (split; [reflexivity|]); cbn [string_all];
    rewrite !Hb; try done; divlia.
Qed.

Lemma strip_high s : string_all (λ c, 128 <=? byte_of c) s = true → strip s = s.
Proof.
  intros Hs. unfold strip. assert (Hne : ∀ d, byte_of d < 128 → ReplaceAll_empty s d = s).
  { intros d Hd. apply ReplaceAll_empty_id. eapply string_all_impl; [|exact Hs].
    intros c Hc. apply negb_true_iff, Ascii.eqb_neq. intros ->. lia. }
  by rewrite !Hne.
Qed.

(** The four kinds of pieces. *)
Lemma strip_piece r :
  unseen r ∧ strip (piece r) = "" ∨
  ¬ unseen r ∧ 0 ≤ unicode_ToUpper r < 128 ∧
    strip (piece r) = String (ascii_of (unicode_ToUpper r)) "" ∨
  ¬ unseen r ∧ 128 ≤ unicode_ToUpper r ∧
    ∃ c t, strip (piece r) = String c t ∧ 128 ≤ byte_of c.
Proof.
  unfold unseen, piece. cbn zeta. generalize (unicode_ToUpper r) as u. intros u.
  destruct (u <? 0) eqn:E0; reflect_bool; [left; split; [lia|done]|].
  destruct (decide (128 ≤ u)) as [Hu|Hu].
  - right; right. split; [lia|]. split; [done|]. destruct (encode_rune_high u Hu) as (c & t & -> & Hall).
    exists c, t. split; [by apply strip_high|]. cbn in Hall. lia.
  - assert (He : encode_rune u = String (ascii_of u) "").
    { unfold encode_rune. replace (_ || _) with false by lia.
      by rewrite (proj2 (Z.ltb_lt u 128)) by lia. }
    rewrite He. destruct (decide (u = 45)) as [->|]; [left; split; [by left|done]|].
    destruct (decide (u = 32)) as [->|]; [left; split; [by right; left|done]|].
    right; left. split; [lia|]. split; [lia|]. unfold strip.
    assert (Hn : ∀ d, byte_of d ≠ u → Ascii.eqb (ascii_of u) d = false).
    { intros d Hd. apply Ascii.eqb_neq. intros <-. by rewrite byte_of_ascii_of in Hd by lia. }
    cbn [ReplaceAll_empty]. rewrite (Hn "-"%char) by (intros He'; vm_compute in He'; lia).
    cbn [ReplaceAll_empty]. by rewrite (Hn " "%char) by (intros He'; vm_compute in He'; lia).
Qed.

Lemma alphabet_seen c : in_alphabet c = true → byte_of c < 128 ∧ byte_of c ≠ 45 ∧ byte_of c ≠ 32.
Proof.
  intros Hc. assert (Hi : implb (in_alphabet c) ((byte_of c <? 128) && negb (byte_of c =? 45)
    && negb (byte_of c =? 32)) = true).
  { clear Hc. revert c. apply forall_ascii. vm_compute. reflexivity. }
  rewrite Hc in Hi. cbn [implb] in Hi. lia.
Qed.

Lemma strip_retyping rs : ∀ w, string_all in_alphabet w = true →
  strip (String.concat "" (piece <$> rs)) = w ↔ retyping rs (bytes_of w).
Proof.
  induction rs as [|r rs IH]; intros w Hw.
  - cbn. split; [intros <-; constructor|]. destruct w; [done|]. cbn. intros Hr. inversion Hr.
  - cbn [fmap list_fmap]. rewrite concat_empty_cons, strip_app.
    assert (Hlet : ∀ u v, retyping (r :: rs) (u :: v) → ¬ unseen r →
      u = unicode_ToUpper r ∧ retyping rs v) by (intros u v Hr Hn; by inversion Hr; subst).
    destruct (strip_piece r) as [[Hu ->]|[(Hu & Hr & ->)|(Hu & Hr & c & t & -> & Hc)]].
    + rewrite string_app_nil_l, (IH w Hw). split; [by apply retyping_unseen|].
      intros Hr. inversion Hr; subst; [done|]. exfalso. destruct w as [|d w]; [done|].
      cbn [bytes_of string_all] in *. apply andb_true_iff in Hw as [Hd _].
      apply alphabet_seen in Hd. destruct Hu as [Hu|[Hu|Hu]]; simplify_eq; pose proof (byte_of_range d); lia.
    + rewrite string_app_cons, string_app_nil_l. destruct w as [|d w].
      { split; [done|]. intros Hrt. by inversion Hrt. }
      cbn [string_all bytes_of] in *. apply andb_true_iff in Hw as [_ Hw]. split.
      * intros [= <- He]. rewrite byte_of_ascii_of by lia. apply retyping_letter. by apply IH.
      * intros Hrt. destruct (Hlet _ _ Hrt Hu) as [He Hrt']. rewrite <-He, ascii_of_byte_of.
        f_equal. by apply IH.
    + rewrite string_app_cons. split.
      * intros <-. cbn [string_all] in Hw. apply andb_true_iff in Hw as [Hd _]. apply alphabet_seen in Hd. lia.
      * intros Hrt. exfalso. destruct w as [|d w]; [by inversion Hrt|].
        destruct (Hlet _ _ Hrt Hu) as [He _]. cbn [string_all] in Hw.
        apply andb_true_iff in Hw as [Hd _]. apply alphabet_seen in Hd. lia.
Qed.

End Retyping.
(** ** Properties *)

(** C30: the comparison accepts exactly the retypings of the session's
    code: whatever bytes are submitted, white space around them aside, their
    runes must be the eight letters in order, each up to its upper case, with
    dashes and spaces anywhere and nothing else; in particular another
    generated code is never accepted. *)
Theorem codesEqual_exact `{UnicodeCase} submitted a b :
  well_formed_code (a +:+ "-" +:+ b) → String.length a = 4%nat →
  (codesEqual submitted (a +:+ "-" +:+ b) = true ↔
     retyping (runes (TrimSpace submitted)) (bytes_of (a +:+ b))) ∧
  (well_formed_code submitted →
     codesEqual submitted (a +:+ "-" +:+ b) = true ↔ submitted = a +:+ "-" +:+ b).
Proof.
  intros (a' & b' & He & La' & Lb & Ha & Hb) La.
  apply string_app_inj_l in He as [-> He]; [|congruence].
  apply string_app_inj_l in He as [_ ->]; [|done].
  rewrite codesEqual_seqb, seqb_true, (normalize_code a' b' Ha Hb). split.
  - rewrite <-strip_retyping by (by rewrite string_all_app, Ha, Hb).
    unfold normalizeUserCode. fold (strip (ToUpper (TrimSpace submitted))). by rewrite ToUpper_pieces.
  - intros (c & d & -> & Lc & _ & Hc & Hd). rewrite (normalize_code c d Hc Hd). split; [|intros Heq].
    + intros Heq. by apply string_app_inj_l in Heq as [-> ->]; [|congruence].
    + apply string_app_inj_l in Heq as [-> Heq]; [|congruence].
      by apply string_app_inj_l in Heq as [_ ->].
Qed.

(** *** Counting the entropy of a code *)

(** The strings of [n] bytes, each once. *)
Fixpoint all_strings (n : nat) : list string :=
  match n with
  | O => [""]
  | S n => all_strings n ≫= λ s, (λ c, String c s) <$> all_ascii
  end.

Lemma all_ascii_spec : NoDup all_ascii ∧ ∀ c, c ∈ all_ascii.
Proof.
  split; [apply (bool_decide_unpack (NoDup all_ascii)); by vm_compute|]. intros c.
  apply (bool_decide_eq_true (c ∈ all_ascii)). revert c. apply forall_ascii. by vm_compute.
Qed.

Lemma all_strings_spec n :
  NoDup (all_strings n) ∧ ∀ s, s ∈ all_strings n ↔ String.length s = n.
Proof.
  destruct all_ascii_spec as [Hnd Hin]. induction n as [|n [IHnd IHin]]; cbn [all_strings].
  - split; [apply NoDup_singleton|]. intros s. rewrite list_elem_of_singleton. by destruct s.
  - split.
    + apply NoDup_bind; [|intros s _; by apply NoDup_fmap_2; [intros ?? [=]|]|done].
      intros s1 s2 s _ _ (c1 & -> & _)%list_elem_of_fmap (c2 & He & _)%list_elem_of_fmap. congruence.
    + intros s. rewrite list_elem_of_bind. split.
      * intros (s' & (c & -> & _)%list_elem_of_fmap & <-%IHin). done.
      * destruct s as [|c s]; [done|]. intros [= Hs]. exists s. split; [|by apply IHin].
        apply list_elem_of_fmap. by exists c.
Qed.

(** Every letter is the image of exactly eight bytes. *)
Lemma code_char_preimages d : in_alphabet d = true →
  length (filter (λ c, code_char c = d) all_ascii) = 8%nat.
Proof.
  intros Hd. assert (H : implb (in_alphabet d)
    (Nat.eqb (length (filter (λ c, code_char c = d) all_ascii)) 8) = true).
  { clear Hd. revert d. apply forall_ascii. vm_compute. reflexivity. }
  rewrite Hd in H. by apply Nat.eqb_eq.
Qed.

Lemma length_filter_iff {A} (P Q : A → Prop) `{∀ x, Decision (P x), ∀ x, Decision (Q x)} l :
  (∀ x, x ∈ l → P x ↔ Q x) → length (filter P l) = length (filter Q l).
Proof.
  induction l as [|x l IH]; intros Hl; [done|]. rewrite !filter_cons.
  assert (IHl : length (filter P l) = length (filter Q l)) by (apply IH; intros y Hy; apply Hl; by right).
  pose proof (Hl x ltac:(by left)). repeat case_decide; cbn [length]; naive_solver.
Qed.

Lemma length_filter_bind {A B} (P : B → Prop) (Q : A → Prop) `{∀ x, Decision (P x), ∀ x, Decision (Q x)}
    (f : A → list B) k l :
  (∀ x, length (filter P (f x)) = if decide (Q x) then k else 0%nat) →
  length (filter P (l ≫= f)) = (k * length (filter Q l))%nat.
Proof.
  intros Hf. induction l as [|x l IH]; [cbn; lia|].
  cbn [mbind list_bind]. rewrite list.filter_app, length_app, IH, Hf, filter_cons.
  case_decide; cbn [length]; lia.
Qed.

Lemma string_map_preimages w : string_all in_alphabet w = true →
  length (filter (λ raw, string_map code_char raw = w) (all_strings (String.length w)))
  = (8 ^ String.length w)%nat.
Proof.
  induction w as [|d w IH]; [done|]. cbn [string_all]. intros [Hd Hw]%andb_true_iff.
  cbn [String.length all_strings]. rewrite Nat.pow_succ_r', <-(IH Hw).
  apply length_filter_bind. intros s. rewrite <-(code_char_preimages d Hd). clear.
  case_decide as Hs; [|apply length_zero_iff_nil]; induction all_ascii as [|c l IHl]; try done;
    cbn [fmap list_fmap]; rewrite ?filter_cons; cbn [string_map].
  - rewrite Hs. repeat case_decide; simplify_eq; cbn [length]; [by f_equal|done].
  - rewrite decide_False; [done|]. intros [= _ ?]. done.
Qed.

Lemma rand_Read_app raw rest : rand_Read (String.length raw) (raw +:+ rest) = (Some raw, rest).
Proof.
  unfold rand_Read. assert (H : take_bytes (String.length raw) (raw +:+ rest) = Some (raw, rest)).
  { induction raw as [|c raw IH]; [by destruct rest|].
    rewrite string_app_cons. cbn [String.length take_bytes]. by rewrite IH. }
  by rewrite H.
Qed.

(** The code drawn from eight bytes. *)
Definition code_of (raw : string) : string :=
  string_take 4 (string_map code_char raw) +:+ "-" +:+ string_drop 4 (string_map code_char raw).

Lemma GenerateUserCode_app raw rest : String.length raw = 8%nat →
  GenerateUserCode (raw +:+ rest) = (Ok (code_of raw), rest).
Proof. intros Hr. unfold GenerateUserCode. by rewrite <-Hr, rand_Read_app. Qed.

Lemma code_of_iff raw a b : String.length raw = 8%nat → String.length a = 4%nat →
  code_of raw = a +:+ "-" +:+ b ↔ string_map code_char raw = a +:+ b.
Proof.
  intros Hr Ha. unfold code_of. set (idx := string_map code_char raw).
  assert (Hl : String.length idx = 8%nat) by (unfold idx; by rewrite string_map_length). split.
  - intros He. apply string_app_inj_l in He as [Ht He]; [|rewrite string_take_length; lia].
    apply string_app_inj_l in He as [_ Hd]; [|done]. by rewrite <-(string_take_drop 4 idx), Ht, Hd.
  - intros He. rewrite <-(string_take_drop 4 idx) in He.
    apply string_app_inj_l in He as [-> ->]; [done|]. rewrite string_take_length; lia.
Qed.

(** C31: a generated code is two groups of four letters of the alphabet, and
    it is unbiased: of the strings of eight bytes the entropy source may yield
    (all of them are in [all_strings], once each), every such code is drawn
    from exactly 8^8; the source is read no further. *)
Theorem GenerateUserCode_unbiased :
  (∀ t c t', GenerateUserCode t = (Ok c, t') → well_formed_code c) ∧
  (∀ c rest, well_formed_code c →
     length (filter (λ raw, GenerateUserCode (raw +:+ rest) = (Ok c, rest)) (all_strings 8))
     = (8 ^ 8)%nat).
Proof.
  split; [exact GenerateUserCode_wf|]. intros c rest (a & b & -> & La & Lb & Ha & Hb).
  assert (Hab : String.length (a +:+ b) = 8%nat) by (rewrite string_app_length; lia).
  pose proof (string_map_preimages (a +:+ b)) as Hc. rewrite Hab in Hc.
  rewrite <-Hc by (by rewrite string_all_app, Ha, Hb). apply length_filter_iff.
  intros raw Hraw%all_strings_spec. rewrite GenerateUserCode_app, <-code_of_iff by done.
  split; congruence.
Qed.

(** The Unicode tables restricted to nothing: every rune above 127 is its own
    case; enough for the witnesses, which use ASCII strings. *)
Definition ascii_case : UnicodeCase := {| uni_lower := id; uni_upper := id |}.

(** A tab before, a space inside, the dash misplaced, one letter in lower case. *)
Definition retyped : string := String "009" "aBCD 2-345 ".

Lemma codesEqual_exact_witness :
  @codesEqual ascii_case retyped "ABCD-2345" = true ∧ @codesEqual ascii_case "ABCD-2346" "ABCD-2345" = false.
Proof.
  assert (H : well_formed_code "ABCD-2345").
  { exists "ABCD", "2345". vm_compute. repeat split. }
  assert (H6 : well_formed_code "ABCD-2346").
  { exists "ABCD", "2346". vm_compute. repeat split. }
  split.
  - apply (proj1 (@codesEqual_exact ascii_case retyped "ABCD" "2345" H eq_refl)).
    change (bytes_of ("ABCD" +:+ "2345")) with [65; 66; 67; 68; 50; 51; 52; 53].
    replace (runes (TrimSpace retyped)) with [97; 66; 67; 68; 32; 50; 45; 51; 52; 53] by (by vm_compute).
    apply (@retyping_letter ascii_case 97), (@retyping_letter ascii_case 66), (@retyping_letter ascii_case 67),
      (@retyping_letter ascii_case 68), retyping_unseen; [by right; left|].
    apply (@retyping_letter ascii_case 50), retyping_unseen; [by left|].
    apply (@retyping_letter ascii_case 51), (@retyping_letter ascii_case 52), (@retyping_letter ascii_case 53).
    constructor.
  - apply not_true_is_false. intros Heq.
    by apply (proj2 (@codesEqual_exact ascii_case "ABCD-2346" "ABCD" "2345" H eq_refl) H6) in Heq.
Defined.
