(* ===== verification/Pkce.v ===== *)
(** Check 1 (PKCE): [internal/broker/pkce.go], the pair the client generates
    ([newPKCEPair] of [pkg/client/client.go]), and what binds them. *)

From S2P Require Import Prelude GoCrypto.

(** [base64.RawURLEncoding.EncodeToString(sha256.Sum256(verifier))]. *)
Definition s256 (verifier : string) : string := RawURL_EncodeToString (Sum256 verifier).

Definition verifyClientPKCE (verifier challenge : string) : bool :=
  if is_empty verifier || is_empty challenge then false
  else ConstantTimeCompare (s256 verifier) challenge =? 1.

(** [pkg/client]'s fresh pair: 32 random bytes, base64url, and its S256 hash. *)
Definition newPKCEPair (t : entropy) : result (string * string) string * entropy :=
  match rand_Read 32 t with
  | (None, t') => (Err "xdauth/client: generate pkce verifier", t')
  | (Some raw, t') =>
      let verifier := RawURL_EncodeToString raw in
      (Ok (verifier, s256 verifier), t')
  end.

Lemma s256_nonempty v : s256 v ≠ "".
Proof.
  unfold s256. rewrite RawURL_empty. intros H.
  pose proof (Sum256_length v) as Hl. by rewrite H in Hl.
Qed.

Lemma verifyClientPKCE_spec v ch :
  verifyClientPKCE v ch = true ↔ v ≠ "" ∧ ch = s256 v.
Proof.
  unfold verifyClientPKCE. rewrite ConstantTimeCompare_1.
  destruct (is_empty v) eqn:Ev; simpl.
  { apply is_empty_true in Ev as ->. naive_solver. }
  apply is_empty_false in Ev. destruct (is_empty ch) eqn:Ec.
  - apply is_empty_true in Ec as ->. pose proof (s256_nonempty v). naive_solver.
  - rewrite seqb_true. naive_solver.
Qed.

(** Equal challenges come from equal verifiers, up to a SHA-256 collision. *)
Lemma s256_inj v w : s256 v = s256 w → v = w ∨ sha256_collision v w.
Proof.
  intros H%(inj RawURL_EncodeToString). destruct (decide (v = w)); [by left|by right].
Qed.

(** C32: the check accepts the verifier of the pair the client generated,
    and any other verifier it accepts for that challenge is a SHA-256
    collision with it. *)
Theorem verifyClientPKCE_binds t v ch t' :
  newPKCEPair t = (Ok (v, ch), t') →
  verifyClientPKCE v ch = true ∧
  ∀ w, verifyClientPKCE w ch = true → w = v ∨ sha256_collision w v.
Proof.
  unfold newPKCEPair. destruct (rand_Read 32 t) as [[raw|] t0] eqn:E; [|done].
  intros [= <- <- _]. split.
  - apply verifyClientPKCE_spec. split; [|done]. rewrite RawURL_empty. intros ->.
    by apply rand_Read_Some in E.
  - intros w [_ Hw]%verifyClientPKCE_spec. symmetry in Hw. by apply s256_inj.
Qed.

Lemma verifyClientPKCE_binds_witness :
  let t := string_of_bytes (seqZ 0 40) in
  ∃ v ch t', newPKCEPair t = (Ok (v, ch), t') ∧ verifyClientPKCE v ch = true.
Proof.
  eexists _, _, _. split; [reflexivity|].
  refine (proj1 (verifyClientPKCE_binds (string_of_bytes (seqZ 0 40)) _ _ _ _)).
  reflexivity.
Defined.
