(* ===== verification/Fsm.v ===== *)
(** The session state machine and its checks: [internal/broker/session.go].
    Every Go function that mutates its [*store.Session] returns the new
    session; those that draw randomness thread the entropy tape; [time.Now()]
    and [normalize] are arguments, as in the code. *)

From S2P Require Import Prelude GoStrings GoTime GoCrypto UserCode Pkce Session.

(** The sentinel errors, and [errors.New]/[fmt.Errorf] values. *)
Inductive broker_error :=
  | ErrExpired
  | ErrConsumed
  | ErrWrongState
  | ErrInvalidVerifier
  | ErrIdentityMismatch
  | ErrApprovalNotBound
  | ErrText (msg : string).

#[export] Instance broker_error_eq_dec : EqDecision broker_error.
Proof. solve_decision. Defined.

Definition Normalizer := string → string.
Definition defaultNormalizer `{UnicodeCase} (s : string) : string := ToLower (TrimSpace s).

(** [if normalize == nil { normalize = defaultNormalizer }]. *)
Definition normalizer_or_default `{UnicodeCase} (n : option Normalizer) : Normalizer :=
  match n with Some f => f | None => defaultNormalizer end.

(** ** Random identifiers and secrets *)
Definition rand_hex (n : nat) (what : string) (t : entropy) : result string string * entropy :=
  match rand_Read n t with
  | (None, t') => (Err ("generate " +:+ what), t')
  | (Some b, t') => (Ok (hex_EncodeToString b), t')
  end.

Definition newSessionID (t : entropy) := rand_hex 16 "session id" t.
Definition newCSRFToken (t : entropy) := rand_hex 24 "csrf token" t.
Definition newApprovalSecret (t : entropy) := rand_hex 24 "approval secret" t.

Definition hashBinding (secret : string) : string := hex_EncodeToString (Sum256 secret).

(** ** Creation *)
Record StartParams := mkStartParams {
  p_LoginHint : string;
  p_CodeChallenge : string;
  p_ClientKind : string;
  p_ClientHost : string;
  p_ClientIP : string;
  p_VerifiedClient : string;
}.

Definition newSession (p : StartParams) (ttl interval : Duration) (now : Time)
    (t : entropy) : result Session string * entropy :=
  match newSessionID t with
  | (Err e, t1) => (Err e, t1)
  | (Ok id, t1) =>
      match GenerateUserCode t1 with
      | (Err e, t2) => (Err e, t2)
      | (Ok code, t2) =>
          (Ok {| ID := id;
                 LoginHint := p_LoginHint p;
                 CodeChallenge := p_CodeChallenge p;
                 ClientKind := p_ClientKind p;
                 ClientHost := p_ClientHost p;
                 ClientIP := p_ClientIP p;
                 VerifiedClient := p_VerifiedClient p;
                 Interval := interval;
                 CreatedAt := now;
                 ExpiresAt := Add now ttl;
                 UserCode := code;
                 Protocol := ""; IdPState := ""; IdPNonce := "";
                 IdPPKCEVerifier := ""; SAMLRequestID := "";
                 SIdentity := None; IdentityAt := 0;
                 ApproveAttempts := 0; CSRFToken := "";
                 ApprovalBindingHash := ""; LastPollAt := 0;
                 SState := StatePending; Consumed := false |}, t2)
      end
  end.

(** ** Expiry *)
Definition isExpired (s : Session) (now : Time) : bool := After now (ExpiresAt s).

Definition isTerminal (st : State) : bool :=
  match st with
  | StateApproved | StateDenied | StateExpired => true
  | _ => false
  end.

Definition expireIfNeeded (s : Session) (now : Time) : bool * Session :=
  if decide (SState s = StateExpired) then (true, s)
  else if isTerminal (SState s) then (false, s)
  else if isExpired s now then (true, set_State StateExpired s)
  else (false, s).

(** ** Check 4: identity match *)
Definition bindIdentity `{UnicodeCase} (s : Session) (ident : Identity)
    (normalize : option Normalizer) (now : Time) (approvalBindingHash : string)
    (t : entropy) : option broker_error * Session * entropy :=
  let (expired, s) := expireIfNeeded s now in
  if expired then (Some ErrExpired, s, t) else
  if negb (bool_decide (SState s = StatePending)) then (Some ErrWrongState, s, t) else
  let normalize := normalizer_or_default normalize in
  let s := set_Identity ident now s in
  if negb (seqb (normalize (Value ident)) (normalize (LoginHint s))) then
    (Some ErrIdentityMismatch, set_State StateDenied s, t)
  else
    match newCSRFToken t with
    | (Err e, t) => (Some (ErrText e), s, t)
    | (Ok token, t) =>
        let s := set_CSRFToken token s in
        let s := set_ApprovalBindingHash approvalBindingHash s in
        (None, set_State StateAwaitingApproval s, t)
    end.

(** ** Check 2: number matching *)
Definition maxApproveAttempts : Z := 5.

Definition approve `{UnicodeCase} (s : Session) (submittedCode : string)
    (decisionApprove : bool) (now : Time) (presentedBinding : string)
    : option broker_error * Session :=
  let (expired, s) := expireIfNeeded s now in
  if expired then (Some ErrExpired, s) else
  if negb (bool_decide (SState s = StateAwaitingApproval)) then (Some ErrWrongState, s) else
  if is_empty (ApprovalBindingHash s)
     || negb (ConstantTimeCompare (hashBinding presentedBinding) (ApprovalBindingHash s) =? 1)
  then (Some ErrApprovalNotBound, s) else
  if negb decisionApprove then (None, set_State StateDenied s) else
  if codesEqual submittedCode (UserCode s) then (None, set_State StateApproved s) else
  let s := set_ApproveAttempts (wrap64 (ApproveAttempts s + 1)) s in
  if maxApproveAttempts <=? ApproveAttempts s
  then (Some (ErrText "too many incorrect codes"), set_State StateDenied s)
  else (Some (ErrText "incorrect code"), s).

(** ** Check 1 and single use *)
Inductive PollStatus := PollPending | PollApproved | PollDenied | PollExpired | PollSlowDown.

#[export] Instance PollStatus_eq_dec : EqDecision PollStatus.
Proof. solve_decision. Defined.

Definition PollStatus_string (p : PollStatus) : string :=
  match p with
  | PollPending => "pending"
  | PollApproved => "approved"
  | PollDenied => "denied"
  | PollExpired => "expired"
  | PollSlowDown => "slow_down"
  end.

Record Artifact := mkArtifact {
  a_Subject : string;
  a_Identity : string;
  a_Claims : claims;
  a_ApprovedAt : Time;
  a_ExpiresAt : Time;
}.

Record PollResult := mkPollResult {
  pr_Status : PollStatus;
  pr_Artifact : option Artifact;
}.

(** What a call of [poll] can do: return a pair, or panic on the nil
    dereference [s.Identity.Subject]. *)
Inductive poll_outcome :=
  | PollReturns (r : PollResult)
  | PollFails (e : broker_error)
  | PollPanics.

Definition status_only (st : PollStatus) : poll_outcome := PollReturns (mkPollResult st None).

Definition poll (s : Session) (codeVerifier : string) (now : Time) (artifactTTL : Duration)
    : poll_outcome * Session :=
  let (expired, s) := expireIfNeeded s now in
  if expired then (status_only PollExpired, s) else
  if bool_decide (SState s = StateApproved) then
    if Consumed s then (status_only PollExpired, s) else
    if negb (verifyClientPKCE codeVerifier (CodeChallenge s))
    then (PollFails ErrInvalidVerifier, s) else
    let s := set_Consumed true s in
    match SIdentity s with
    | None => (PollPanics, s)
    | Some i =>
        (PollReturns (mkPollResult PollApproved (Some
           {| a_Subject := Subject i;
              a_Identity := Value i;
              a_Claims := Claims i;
              a_ApprovedAt := IdentityAt s;
              a_ExpiresAt := Add (IdentityAt s) artifactTTL |})), s)
    end
  else
  if negb (verifyClientPKCE codeVerifier (CodeChallenge s))
  then (PollFails ErrInvalidVerifier, s) else
  if negb (IsZero (LastPollAt s)) && (Sub now (LastPollAt s) <? Interval s)
  then (status_only PollSlowDown, s) else
  let s := set_LastPollAt now s in
  match SState s with
  | StateDenied => (status_only PollDenied, s)
  | StateExpired => (status_only PollExpired, s)
  | _ => (status_only PollPending, s)
  end.

#[global] Arguments hashBinding : simpl never.
#[global] Arguments verifyClientPKCE : simpl never.
#[global] Arguments codesEqual : simpl never.
#[global] Arguments ConstantTimeCompare : simpl never.
