(* ===== verification/Wire.v ===== *)
(** The JSON bodies of the broker's API, as bytes: the tagged structs of
    [internal/broker/handlers.go], read with [json.NewDecoder(r.Body).Decode]
    and written with [json.NewEncoder(w).Encode]. *)

From S2P Require Import Prelude GoStrings GoUtf8 GoTime GoJson GoFormat Rfc3339 Session GoMarshal.
From S2P Require Import SessionJson Fsm.

Local Open Scope list_scope.

(** [json.NewEncoder(w).Encode(v)]: the document and a newline, or nothing. *)
Definition Encode {A} (c : GoJson A) (a : A) : string :=
  match Marshal c a with
  | Some text => text +:+ String (ascii_of 10) ""
  | None => ""
  end.

(** ** Requests *)
Record startRequest := mkStartRequest {
  sq_LoginHint : string;
  sq_CodeChallenge : string;
  sq_CodeChallengeMethod : string;
  sq_ClientKind : string;
  sq_ClientHost : string;
}.

Definition startRequest_fields : list (field startRequest) :=
  [mkField "login_hint" string_laws never sq_LoginHint (λ v q, mkStartRequest v
     (sq_CodeChallenge q) (sq_CodeChallengeMethod q) (sq_ClientKind q) (sq_ClientHost q));
   mkField "code_challenge" string_laws never sq_CodeChallenge (λ v q, mkStartRequest
     (sq_LoginHint q) v (sq_CodeChallengeMethod q) (sq_ClientKind q) (sq_ClientHost q));
   mkField "code_challenge_method" string_laws never sq_CodeChallengeMethod (λ v q,
     mkStartRequest (sq_LoginHint q) (sq_CodeChallenge q) v (sq_ClientKind q) (sq_ClientHost q));
   mkField "client_kind" string_laws never sq_ClientKind (λ v q, mkStartRequest
     (sq_LoginHint q) (sq_CodeChallenge q) (sq_CodeChallengeMethod q) v (sq_ClientHost q));
   mkField "client_host" string_laws never sq_ClientHost (λ v q, mkStartRequest
     (sq_LoginHint q) (sq_CodeChallenge q) (sq_CodeChallengeMethod q) (sq_ClientKind q) v)].

Definition zero_startRequest : startRequest := mkStartRequest "" "" "" "" "".

(** [None] is a non-nil error. *)
Definition read_startRequest (body : string) : option startRequest :=
  Decode (struct_json startRequest_fields) body zero_startRequest.

Record pollRequest := mkPollRequest { pq_SessionID : string; pq_CodeVerifier : string }.

Definition pollRequest_fields : list (field pollRequest) :=
  [mkField "session_id" string_laws never pq_SessionID (λ v q, mkPollRequest v (pq_CodeVerifier q));
   mkField "code_verifier" string_laws never pq_CodeVerifier (λ v q, mkPollRequest (pq_SessionID q) v)].

Definition read_pollRequest (body : string) : option pollRequest :=
  Decode (struct_json pollRequest_fields) body (mkPollRequest "" "").

(** ** Responses *)
Record startResponse := mkStartResponse {
  sr_SessionID : string;
  sr_VerificationURI : string;
  sr_UserCode : string;
  sr_ExpiresIn : Z;
  sr_Interval : Z;
}.

Definition startResponse_fields : list (field startResponse) :=
  [mkField "session_id" string_laws never sr_SessionID (λ v r, mkStartResponse v
     (sr_VerificationURI r) (sr_UserCode r) (sr_ExpiresIn r) (sr_Interval r));
   mkField "verification_uri" string_laws never sr_VerificationURI (λ v r, mkStartResponse
     (sr_SessionID r) v (sr_UserCode r) (sr_ExpiresIn r) (sr_Interval r));
   mkField "user_code" string_laws never sr_UserCode (λ v r, mkStartResponse
     (sr_SessionID r) (sr_VerificationURI r) v (sr_ExpiresIn r) (sr_Interval r));
   mkField "expires_in" int_laws never sr_ExpiresIn (λ v r, mkStartResponse
     (sr_SessionID r) (sr_VerificationURI r) (sr_UserCode r) v (sr_Interval r));
   mkField "interval" int_laws never sr_Interval (λ v r, mkStartResponse
     (sr_SessionID r) (sr_VerificationURI r) (sr_UserCode r) (sr_ExpiresIn r) v)].

(** [pollResponse]; [artifactJSON] has the fields of [Artifact]. *)
Record pollResponse := mkPollResponse {
  po_Status : string;
  po_Artifact : option Artifact;
  po_Error : string;
}.

Section Wire.
Context {loc : Location}.

Definition artifactJSON_fields : list (field Artifact) :=
  [mkField "subject" string_laws never a_Subject (λ v a, mkArtifact v (a_Identity a) (a_Claims a)
     (a_ApprovedAt a) (a_ExpiresAt a));
   mkField "identity" string_laws never a_Identity (λ v a, mkArtifact (a_Subject a) v (a_Claims a)
     (a_ApprovedAt a) (a_ExpiresAt a));
   mkField "claims" claims_laws never a_Claims (λ v a, mkArtifact (a_Subject a) (a_Identity a) v
     (a_ApprovedAt a) (a_ExpiresAt a));
   mkField "approved_at" time_laws never a_ApprovedAt (λ v a, mkArtifact (a_Subject a) (a_Identity a)
     (a_Claims a) v (a_ExpiresAt a));
   mkField "expires_at" time_laws never a_ExpiresAt (λ v a, mkArtifact (a_Subject a) (a_Identity a)
     (a_Claims a) (a_ApprovedAt a) v)].

Definition zero_Artifact : Artifact := mkArtifact "" "" ∅ 0 0.

Lemma artifact_names : names_ok artifactJSON_fields artifactJSON_fields.
Proof. repeat (constructor; [split; reflexivity|]). constructor. Qed.

Lemma artifact_fresh a : fresh_fields artifactJSON_fields a zero_Artifact.
Proof. by repeat split. Qed.

Definition artifact_laws : @GoJsonLaws Artifact (struct_json artifactJSON_fields) :=
  struct_laws zero_Artifact artifactJSON_fields artifact_names artifact_fresh.

Lemma artifact_not_null (a : Artifact) :
  @marshal Artifact (struct_json artifactJSON_fields) a ≠ Some JNull.
Proof. cbn. unfold marshal_struct. by case_match. Qed.

Definition artifact_pointer_laws :
    @GoJsonLaws (option Artifact) (pointer_json zero_Artifact (struct_json artifactJSON_fields)) :=
  @pointer_laws Artifact zero_Artifact (struct_json artifactJSON_fields) artifact_laws
    artifact_not_null eq_refl.

(** [omitempty]. *)
Definition is_nil {A} (p : option A) : bool := match p with None => true | Some _ => false end.

Definition pollResponse_fields : list (field pollResponse) :=
  [mkField "status" string_laws never po_Status (λ v r, mkPollResponse v (po_Artifact r) (po_Error r));
   mkField "artifact" artifact_pointer_laws is_nil po_Artifact
     (λ v r, mkPollResponse (po_Status r) v (po_Error r));
   mkField "error" string_laws is_empty po_Error
     (λ v r, mkPollResponse (po_Status r) (po_Artifact r) v)].

Definition encode_startResponse (v : startResponse) : string :=
  Encode (struct_json startResponse_fields) v.
Definition encode_pollResponse (v : pollResponse) : string :=
  Encode (struct_json pollResponse_fields) v.

(** ** Laws of the tables *)
Lemma startResponse_names : names_ok startResponse_fields startResponse_fields.
Proof. repeat (constructor; [split; reflexivity|]). constructor. Qed.

Definition zero_startResponse : startResponse := mkStartResponse "" "" "" 0 0.

Lemma startResponse_fresh v : fresh_fields startResponse_fields v zero_startResponse.
Proof. by repeat split. Qed.

Definition startResponse_laws : @GoJsonLaws startResponse (struct_json startResponse_fields) :=
  struct_laws zero_startResponse startResponse_fields startResponse_names startResponse_fresh.

Definition zero_pollResponse : pollResponse := mkPollResponse "" None "".

Lemma pollResponse_names : names_ok pollResponse_fields pollResponse_fields.
Proof. repeat (constructor; [split; reflexivity|]). constructor. Qed.

Lemma pollResponse_fresh v : fresh_fields pollResponse_fields v zero_pollResponse.
Proof. destruct v as [st a e]. by repeat split. Qed.

Definition pollResponse_laws : @GoJsonLaws pollResponse (struct_json pollResponse_fields) :=
  struct_laws zero_pollResponse pollResponse_fields pollResponse_names pollResponse_fresh.

(** What an artifact reads back as. *)
Definition norm_artifact (a : Artifact) : Artifact :=
  mkArtifact (to_valid (a_Subject a)) (to_valid (a_Identity a)) (norm_claims (a_Claims a))
    (a_ApprovedAt a) (a_ExpiresAt a).

Lemma read_artifact a : read_fields artifactJSON_fields a zero_Artifact = norm_artifact a.
Proof. by destruct a. Qed.

(** What the encoding of a response needs: whole-minute zones, claims whose
    numbers have a text, and no nesting beyond what a decoder accepts. *)
Record artifact_printable (a : Artifact) : Prop := {
  ap_claims : claims_printable (a_Claims a);
  ap_approved : time_printable (a_ApprovedAt a);
  ap_expires : time_printable (a_ExpiresAt a);
  ap_nesting : Z.of_nat (@nesting _ _ claims_laws (a_Claims a)) + 2 ≤ maxNestingDepth;
}.

Lemma artifact_fields_printable a : artifact_printable a → fields_printable artifactJSON_fields a.
Proof. intros []. unfold fields_printable. cbn [map foldr artifactJSON_fields]. by split_and!. Qed.

End Wire.

Example wire_start : read_startRequest (string_of_bytes (map (λ c, if c =? 39 then 34 else c)
    (bytes_of "{'LOGIN_HINT':'alice','code_challenge':'c','extra':[1,{}],'client_kind':null} x")))
  = Some (mkStartRequest "alice" "c" "" "" "").
Proof. vm_compute. reflexivity. Qed.
Example wire_start_type : read_startRequest (string_of_bytes (map (λ c, if c =? 39 then 34 else c)
    (bytes_of "{'login_hint':7}"))) = None.
Proof. vm_compute. reflexivity. Qed.
