(* ===== verification/FsmSpec.v ===== *)
(** Declarative specifications of the operations of [Fsm], one rule per
    outcome, with the equivalence of each executable operation and its
    rules.  The rules are the case analysis every later proof uses. *)

From S2P Require Import Prelude GoStrings GoTime GoCrypto UserCode Pkce Session Fsm.

(** Open sessions: the two states the TTL applies to. *)
Definition open (st : State) : Prop := st = StatePending ∨ st = StateAwaitingApproval.

(** ** Expiry *)
Inductive expire_spec (s : Session) (now : Time) : bool → Session → Prop :=
  | expire_already : SState s = StateExpired → expire_spec s now true s
  | expire_now : open (SState s) → ExpiresAt s < now →
      expire_spec s now true (set_State StateExpired s)
  | expire_not_terminal : open (SState s) → now ≤ ExpiresAt s → expire_spec s now false s
  | expire_settled : SState s = StateApproved ∨ SState s = StateDenied →
      expire_spec s now false s.

Lemma expireIfNeeded_cases s now :
  expire_spec s now (expireIfNeeded s now).1 (expireIfNeeded s now).2.
Proof.
  unfold expireIfNeeded, isExpired, After.
  destruct (SState s) eqn:E; simpl;
    try (constructor; unfold open; rewrite E; naive_solver);
    case_match; reflect_bool; constructor; unfold open; rewrite ?E; naive_solver.
Qed.

Lemma expireIfNeeded_spec s now b s' :
  expireIfNeeded s now = (b, s') ↔ expire_spec s now b s'.
Proof.
  split.
  - intros H. pose proof (expireIfNeeded_cases s now) as Hc. by rewrite H in Hc.
  - intros H. unfold expireIfNeeded, isExpired, After, open in *.
    destruct H as [E | E Ht | E Ht | E].
    + by rewrite E.
    + destruct E as [E|E]; rewrite E; simpl; by rewrite (proj2 (Z.ltb_lt _ _)).
    + destruct E as [E|E]; rewrite E; simpl; by rewrite (proj2 (Z.ltb_ge _ _)).
    + by destruct E as [E|E]; rewrite E.
Qed.

(** The session is unexpired and in state [st]: the guard the operations share. *)
Definition live (s : Session) (st : State) (now : Time) : Prop :=
  SState s = st ∧ (open st → now ≤ ExpiresAt s).

(** Where the shared prologue [if expireIfNeeded(s, now) {...}] leads. *)
Inductive prologue (s : Session) (now : Time) : bool * Session → Prop :=
  | prologue_expired s' : expire_spec s now true s' → SState s' = StateExpired →
      prologue s now (true, s')
  | prologue_live : live s (SState s) now → SState s ≠ StateExpired →
      prologue s now (false, s).

Lemma prologue_intro s now : prologue s now (expireIfNeeded s now).
Proof.
  destruct (expireIfNeeded s now) as [b s'] eqn:E. apply expireIfNeeded_spec in E.
  inversion E as [H|H Ht|H Ht|H]; subst.
  - by constructor.
  - by constructor.
  - constructor; [|by destruct H as [-> | ->]]. by split.
  - constructor; [|by destruct H as [-> | ->]].
    split; [done|]. unfold open. destruct H as [-> | ->]; naive_solver.
Qed.

Lemma live_not_expired s st now :
  live s st now → st ≠ StateExpired → expireIfNeeded s now = (false, s).
Proof.
  intros [Hs Ht] Hne. apply expireIfNeeded_spec.
  destruct st; simplify_eq; unfold open in *;
    first [ apply expire_not_terminal; unfold open; naive_solver
          | apply expire_settled; naive_solver ].
Qed.

Section Specs.
Context `{UnicodeCase}.

Definition identity_matches (norm : option Normalizer) (ident : Identity) (s : Session) : Prop :=
  normalizer_or_default norm (Value ident) = normalizer_or_default norm (LoginHint s).

(** ** bindIdentity *)
Inductive bind_spec (s : Session) (ident : Identity) (norm : option Normalizer) (now : Time)
    (abh : string) (t : entropy) : option broker_error → Session → entropy → Prop :=
  | bind_expired s' : expire_spec s now true s' →
      bind_spec s ident norm now abh t (Some ErrExpired) s' t
  | bind_wrong_state : live s (SState s) now → SState s ≠ StateExpired →
      SState s ≠ StatePending → bind_spec s ident norm now abh t (Some ErrWrongState) s t
  | bind_mismatch : live s StatePending now → ¬ identity_matches norm ident s →
      bind_spec s ident norm now abh t (Some ErrIdentityMismatch)
        (set_State StateDenied (set_Identity ident now s)) t
  | bind_no_entropy e t' : live s StatePending now → identity_matches norm ident s →
      newCSRFToken t = (Err e, t') →
      bind_spec s ident norm now abh t (Some (ErrText e)) (set_Identity ident now s) t'
  | bind_ok token t' : live s StatePending now → identity_matches norm ident s →
      newCSRFToken t = (Ok token, t') →
      bind_spec s ident norm now abh t None
        (set_State StateAwaitingApproval
          (set_ApprovalBindingHash abh (set_CSRFToken token (set_Identity ident now s)))) t'.

Lemma bindIdentity_cases s ident norm now abh t e s' t' :
  bindIdentity s ident norm now abh t = (e, s', t') →
  bind_spec s ident norm now abh t e s' t'.
Proof.
  unfold bindIdentity. destruct (prologue_intro s now) as [s1 He _ | Hl Hne].
  { intros [= <- <- <-]. by constructor. }
  case_bool_decide as Hp; simpl.
  2:{ intros [= <- <- <-]. by constructor. }
  rewrite Hp in Hl. unfold seqb. case_bool_decide as Hm; simpl.
  2:{ intros [= <- <- <-]. by constructor. }
  destruct (newCSRFToken t) as [[token|msg] t1] eqn:Et; intros [= <- <- <-];
    by econstructor.
Qed.

(** ** approve *)
Definition binding_matches (b : string) (s : Session) : Prop :=
  ApprovalBindingHash s ≠ "" ∧ hashBinding b = ApprovalBindingHash s.

Inductive approve_spec (s : Session) (code : string) (dec : bool) (now : Time) (b : string)
    : option broker_error → Session → Prop :=
  | approve_expired s' : expire_spec s now true s' →
      approve_spec s code dec now b (Some ErrExpired) s'
  | approve_wrong_state : live s (SState s) now → SState s ≠ StateExpired →
      SState s ≠ StateAwaitingApproval →
      approve_spec s code dec now b (Some ErrWrongState) s
  | approve_not_bound : live s StateAwaitingApproval now → ¬ binding_matches b s →
      approve_spec s code dec now b (Some ErrApprovalNotBound) s
  | approve_deny : live s StateAwaitingApproval now → binding_matches b s → dec = false →
      approve_spec s code dec now b None (set_State StateDenied s)
  | approve_ok : live s StateAwaitingApproval now → binding_matches b s → dec = true →
      codesEqual code (UserCode s) = true →
      approve_spec s code dec now b None (set_State StateApproved s)
  | approve_too_many : live s StateAwaitingApproval now → binding_matches b s → dec = true →
      codesEqual code (UserCode s) = false →
      maxApproveAttempts ≤ wrap64 (ApproveAttempts s + 1) →
      approve_spec s code dec now b (Some (ErrText "too many incorrect codes"))
        (set_State StateDenied (set_ApproveAttempts (wrap64 (ApproveAttempts s + 1)) s))
  | approve_incorrect : live s StateAwaitingApproval now → binding_matches b s → dec = true →
      codesEqual code (UserCode s) = false →
      wrap64 (ApproveAttempts s + 1) < maxApproveAttempts →
      approve_spec s code dec now b (Some (ErrText "incorrect code"))
        (set_ApproveAttempts (wrap64 (ApproveAttempts s + 1)) s).

Lemma binding_test b s :
  (is_empty (ApprovalBindingHash s)
   || negb (ConstantTimeCompare (hashBinding b) (ApprovalBindingHash s) =? 1)) = false
  ↔ binding_matches b s.
Proof.
  unfold binding_matches.
  rewrite orb_false_iff, negb_false_iff, ConstantTimeCompare_1, seqb_true, is_empty_false. done.
Qed.

Lemma approve_cases s code dec now b e s' :
  approve s code dec now b = (e, s') → approve_spec s code dec now b e s'.
Proof.
  unfold approve. destruct (prologue_intro s now) as [s1 He _ | Hl Hne].
  { intros [= <- <-]. by constructor. }
  case_bool_decide as Hp; simpl.
  2:{ intros [= <- <-]. by constructor. }
  rewrite Hp in Hl. destruct (_ || _) eqn:Hb.
  { intros [= <- <-]. constructor; [done|]. rewrite <-binding_test. by rewrite Hb. }
  apply binding_test in Hb. destruct dec; simpl.
  2:{ intros [= <- <-]. by constructor. }
  destruct (codesEqual _ _) eqn:Hc.
  { intros [= <- <-]. by constructor. }
  case_match eqn:Ha; intros [= <- <-]; reflect_bool; by constructor.
Qed.

(** ** poll *)
Definition artifact_of (i : Identity) (s : Session) (ttl : Duration) : Artifact :=
  {| a_Subject := Subject i; a_Identity := Value i; a_Claims := Claims i;
     a_ApprovedAt := IdentityAt s; a_ExpiresAt := Add (IdentityAt s) ttl |}.

Definition released (a : Artifact) : poll_outcome :=
  PollReturns (mkPollResult PollApproved (Some a)).

(** The client polled again before [Interval] elapsed. *)
Definition too_soon (s : Session) (now : Time) : Prop :=
  LastPollAt s ≠ 0 ∧ Sub now (LastPollAt s) < Interval s.

Inductive poll_spec (s : Session) (v : string) (now : Time) (ttl : Duration)
    : poll_outcome → Session → Prop :=
  | poll_expired s' : expire_spec s now true s' →
      poll_spec s v now ttl (status_only PollExpired) s'
  | poll_consumed : SState s = StateApproved → Consumed s = true →
      poll_spec s v now ttl (status_only PollExpired) s
  | poll_bad_verifier : live s (SState s) now → SState s ≠ StateExpired →
      (SState s = StateApproved → Consumed s = false) →
      verifyClientPKCE v (CodeChallenge s) = false →
      poll_spec s v now ttl (PollFails ErrInvalidVerifier) s
  | poll_panic : SState s = StateApproved → Consumed s = false →
      verifyClientPKCE v (CodeChallenge s) = true → SIdentity s = None →
      poll_spec s v now ttl PollPanics (set_Consumed true s)
  | poll_release i : SState s = StateApproved → Consumed s = false →
      verifyClientPKCE v (CodeChallenge s) = true → SIdentity s = Some i →
      poll_spec s v now ttl (released (artifact_of i s ttl)) (set_Consumed true s)
  | poll_slow_down : live s (SState s) now → SState s ≠ StateExpired →
      SState s ≠ StateApproved → verifyClientPKCE v (CodeChallenge s) = true →
      too_soon s now → poll_spec s v now ttl (status_only PollSlowDown) s
  | poll_denied : SState s = StateDenied →
      verifyClientPKCE v (CodeChallenge s) = true → ¬ too_soon s now →
      poll_spec s v now ttl (status_only PollDenied) (set_LastPollAt now s)
  | poll_pending : open (SState s) → now ≤ ExpiresAt s →
      verifyClientPKCE v (CodeChallenge s) = true → ¬ too_soon s now →
      poll_spec s v now ttl (status_only PollPending) (set_LastPollAt now s).

Lemma too_soon_test s now :
  (negb (IsZero (LastPollAt s)) && (Sub now (LastPollAt s) <? Interval s)) = true
  ↔ too_soon s now.
Proof.
  unfold too_soon, IsZero. rewrite andb_true_iff, negb_true_iff, Z.eqb_neq, Z.ltb_lt. done.
Qed.

Lemma poll_cases s v now ttl o s' :
  poll s v now ttl = (o, s') → poll_spec s v now ttl o s'.
Proof.
  unfold poll. destruct (prologue_intro s now) as [s1 He _ | Hl Hne].
  { intros [= <- <-]. by constructor. }
  case_bool_decide as Hp.
  - destruct (Consumed s) eqn:Hc.
    { intros [= <- <-]. by apply poll_consumed. }
    destruct (verifyClientPKCE _ _) eqn:Hv; simpl.
    2:{ intros [= <- <-]. by constructor. }
    destruct (SIdentity s) as [i|] eqn:Hi; intros [= <- <-].
    + by apply poll_release.
    + by constructor.
  - destruct (verifyClientPKCE _ _) eqn:Hv; simpl.
    2:{ intros [= <- <-]. by constructor. }
    destruct (_ && _) eqn:Ht.
    { intros [= <- <-]. apply too_soon_test in Ht. by constructor. }
    assert (Hns : ¬ too_soon s now) by (rewrite <-too_soon_test; by rewrite Ht).
    change (SState (set_LastPollAt now s)) with (SState s). destruct Hl as [_ Ht'].
    destruct (SState s) eqn:Es; try done; intros [= <- <-];
      first [by apply poll_denied | apply poll_pending; unfold open in *; naive_solver].
Qed.

(** ** The rules determine the operations *)

(** Evaluate an operation along one of its rules. *)
Ltac run_prologue :=
  match goal with
  | H : expire_spec _ _ true _ |- _ => apply expireIfNeeded_spec in H; rewrite H; done
  | H : live ?s ?st _ |- _ =>
      let Hs := fresh "Hs" in
      rewrite (live_not_expired s st _ H) by done; destruct H as [Hs _]
  end.

Lemma bindIdentity_complete s ident norm now abh t e s' t' :
  bind_spec s ident norm now abh t e s' t' → bindIdentity s ident norm now abh t = (e, s', t').
Proof.
  unfold bindIdentity, identity_matches.
  intros Hr. inversion Hr as [s1 He | Hl Hne Hnp | Hl Hm | e1 t1 Hl Hm Ht | tok t1 Hl Hm Ht];
    subst; run_prologue.
  - by rewrite bool_decide_eq_false_2.
  - rewrite bool_decide_eq_true_2 by done. simpl. by rewrite (proj2 (seqb_false _ _)).
  - rewrite bool_decide_eq_true_2 by done. simpl. by rewrite (proj2 (seqb_true _ _)), Ht.
  - rewrite bool_decide_eq_true_2 by done. simpl. by rewrite (proj2 (seqb_true _ _)), Ht.
Qed.

Lemma approve_complete s code dec now b e s' :
  approve_spec s code dec now b e s' → approve s code dec now b = (e, s').
Proof.
  unfold approve. intros Hr. inversion Hr as [s1 He | Hl Hne Hna | Hl Hb | Hl Hb Hd
    | Hl Hb Hd Hc | Hl Hb Hd Hc Ha | Hl Hb Hd Hc Ha]; subst; run_prologue.
  { by rewrite bool_decide_eq_false_2. }
  all: rewrite bool_decide_eq_true_2 by done; simpl.
  { rewrite <-binding_test in Hb. by rewrite (not_false_is_true _ Hb). }
  all: rewrite (proj2 (binding_test _ _) Hb); simpl; try done; rewrite Hc; try done.
  - by rewrite (proj2 (Z.leb_le _ _) Ha).
  - by rewrite (proj2 (Z.leb_gt _ _) Ha).
Qed.

Lemma approved_settled s now : SState s = StateApproved → expireIfNeeded s now = (false, s).
Proof. intros. apply expireIfNeeded_spec, expire_settled. by left. Qed.

Lemma denied_settled s now : SState s = StateDenied → expireIfNeeded s now = (false, s).
Proof. intros. apply expireIfNeeded_spec, expire_settled. by right. Qed.

Lemma poll_complete s v now ttl o s' :
  poll_spec s v now ttl o s' → poll s v now ttl = (o, s').
Proof.
  unfold poll. intros Hr. inversion Hr as [s1 He | Hs Hc | Hl Hne Hc Hv | Hs Hc Hv Hi
    | i Hs Hc Hv Hi | Hl Hne Hna Hv Ht | Hs Hv Ht | Ho Hx Hv Ht]; subst.
  - run_prologue.
  - rewrite approved_settled, bool_decide_eq_true_2 by done. by rewrite Hc.
  - run_prologue. rewrite Hv. case_bool_decide; [by rewrite Hc|done].
  - rewrite approved_settled, bool_decide_eq_true_2, Hc, Hv by done. simpl. by rewrite Hi.
  - rewrite approved_settled, bool_decide_eq_true_2, Hc, Hv by done. simpl. by rewrite Hi.
  - run_prologue. rewrite bool_decide_eq_false_2, Hv by done. simpl.
    by rewrite (proj2 (too_soon_test _ _) Ht).
  - rewrite denied_settled by done.
    rewrite bool_decide_eq_false_2, Hv by congruence. simpl.
    rewrite <-too_soon_test in Ht. rewrite (not_true_is_false _ Ht). simpl. by rewrite Hs.
  - assert (Hl : live s (SState s) now) by (split; auto).
    assert (Hne : SState s ≠ StateExpired) by (destruct Ho; congruence).
    rewrite (live_not_expired s (SState s) now) by done.
    rewrite bool_decide_eq_false_2 by (destruct Ho; congruence). rewrite Hv. simpl.
    rewrite <-too_soon_test in Ht. rewrite (not_true_is_false _ Ht).
    by destruct Ho as [-> | ->].
Qed.

(** [bindIdentity] has exactly the outcomes of [bind_spec]: expired,
    wrong state, identity mismatch (denied at once), no entropy (identity
    recorded, state unchanged), or awaiting approval with a fresh CSRF token
    and the browser's binding hash. *)
Theorem bindIdentity_correct s ident norm now abh t e s' t' :
  bindIdentity s ident norm now abh t = (e, s', t')
  ↔ bind_spec s ident norm now abh t e s' t'.
Proof. split; auto using bindIdentity_cases, bindIdentity_complete. Qed.

(** [approve] has exactly the outcomes of [approve_spec]: approval
    needs a live session awaiting approval, the binding secret of the browser
    that logged in and the session's code; a deny needs no code; the fifth
    wrong code denies. *)
Theorem approve_correct s code dec now b e s' :
  approve s code dec now b = (e, s') ↔ approve_spec s code dec now b e s'.
Proof. split; [apply approve_cases|apply approve_complete]. Qed.

(** [poll] has exactly the outcomes of [poll_spec]; in particular it
    releases an artifact only for an approved, unconsumed session, against the
    PKCE verifier, and marks it consumed. *)
Theorem poll_correct s v now ttl o s' :
  poll s v now ttl = (o, s') ↔ poll_spec s v now ttl o s'.
Proof. split; [apply poll_cases|apply poll_complete]. Qed.

(** C12: the operations of a session have exactly the outcomes their rules
    give, on every branch: [bindIdentity] (expired, wrong state, mismatch
    denied at once, no entropy, bound), [approve] (only a live session awaiting
    approval, with the binding secret and the code, the fifth wrong code
    denying it) and [poll] (which releases an artifact only for an approved,
    unconsumed session, against the verifier, and marks it consumed). *)
Theorem session_operations_correct s :
  (∀ ident norm now abh t e s' t',
     bindIdentity s ident norm now abh t = (e, s', t')
     ↔ bind_spec s ident norm now abh t e s' t') ∧
  (∀ code dec now b e s',
     approve s code dec now b = (e, s') ↔ approve_spec s code dec now b e s') ∧
  (∀ v now ttl o s',
     poll s v now ttl = (o, s') ↔ poll_spec s v now ttl o s').
Proof.
  split_and!; intros; [apply bindIdentity_correct|apply approve_correct|apply poll_correct].
Qed.

End Specs.
