(* ===== verification/FsmTrace.v ===== *)
(** Histories of one session: sequences of the operations of [Fsm] applied to
    the session [newSession] created.  The abstract state machine of
    [docs/architecture.md] is the relation [edge]; the theorems say that
    operations only follow its edges, that the session invariant holds in
    every history, and what a released artifact proves about its history. *)

From S2P Require Import Prelude GoStrings GoTime GoCrypto UserCode Pkce Session Fsm FsmSpec.

Local Open Scope list_scope.

(** ** Operations on one session *)
Inductive op :=
  | OpBeginLogin (st nonce verifier request_id protocol : string)
  | OpExpire (now : Time)
  | OpBind (ident : Identity) (now : Time) (abh : string) (t : entropy)
  | OpApprove (code : string) (dec : bool) (now : Time) (b : string)
  | OpPoll (v : string) (now : Time) (ttl : Duration).

(** The abstract machine: pending → awaiting_approval → approved, and
    denied/expired from either open state. *)
Inductive edge : State → State → Prop :=
  | edge_bind : edge StatePending StateAwaitingApproval
  | edge_mismatch : edge StatePending StateDenied
  | edge_approve : edge StateAwaitingApproval StateApproved
  | edge_deny : edge StateAwaitingApproval StateDenied
  | edge_expire st : open st → edge st StateExpired.

(** Split an effect into the rule that produced it. *)
Ltac effect_cases H :=
  inversion H as [| ? ? ? He | ? ? ? ? ? ? ? He | ? ? ? ? ? ? He | ? ? ? ? ? He]; subst;
  [|destruct He|destruct He|destruct He|destruct He];
  repeat match goal with
  | E : expire_spec _ _ true _ |- _ => inversion E; subst; clear E
  | E : live _ _ _ |- _ => destruct E as [? ?]
  end.

Section Trace.
Context `{UnicodeCase}.
Variable norm : option Normalizer.

Definition after_op (o : op) (s : Session) : Session :=
  match o with
  | OpBeginLogin st nonce ver rid proto =>
      set_Protocol proto (set_SAMLRequestID rid (set_IdPOIDC st nonce ver s))
  | OpExpire now => (expireIfNeeded s now).2
  | OpBind ident now abh t => (bindIdentity s ident norm now abh t).1.2
  | OpApprove code dec now b => (approve s code dec now b).2
  | OpPoll v now ttl => (poll s v now ttl).2
  end.

Definition after (ops : list op) (s : Session) : Session := foldl (λ s o, after_op o s) s ops.

Lemma after_snoc ops o s : after (ops ++ [o]) s = after_op o (after ops s).
Proof. unfold after. by rewrite foldl_app. Qed.

(** Case analysis of one operation through its rules. *)
Inductive op_effect (s : Session) : op → Session → Prop :=
  | eff_begin st n v r p : op_effect s (OpBeginLogin st n v r p)
      (set_Protocol p (set_SAMLRequestID r (set_IdPOIDC st n v s)))
  | eff_expire now b s' : expire_spec s now b s' → op_effect s (OpExpire now) s'
  | eff_bind ident now abh t e s' t' : bind_spec s ident norm now abh t e s' t' →
      op_effect s (OpBind ident now abh t) s'
  | eff_approve c d now b e s' : approve_spec s c d now b e s' →
      op_effect s (OpApprove c d now b) s'
  | eff_poll v now ttl o s' : poll_spec s v now ttl o s' → op_effect s (OpPoll v now ttl) s'.

Lemma after_op_effect o s : op_effect s o (after_op o s).
Proof.
  destruct o; simpl.
  - constructor.
  - econstructor. apply expireIfNeeded_cases.
  - destruct (bindIdentity _ _ _ _ _ _) as [[e s'] t'] eqn:E.
    econstructor. by apply bindIdentity_cases.
  - destruct (approve _ _ _ _ _) as [e s'] eqn:E. econstructor. by apply approve_cases.
  - destruct (poll _ _ _ _) as [e s'] eqn:E. econstructor. by apply poll_cases.
Qed.

(** *** Steps follow the edges of the abstract machine *)
Lemma after_op_edge o s :
  SState (after_op o s) = SState s ∨ edge (SState s) (SState (after_op o s)).
Proof.
  pose proof (after_op_effect o s) as Heff. revert Heff.
  generalize (after_op o s) as s'. intros s' Heff. effect_cases Heff; simpl; auto;
    right; try by constructor.
  all: match goal with E : SState _ = _ |- _ => rewrite E; by constructor end.
Qed.

Lemma after_op_origin o s : origin (after_op o s) = origin s.
Proof.
  pose proof (after_op_effect o s) as Heff. revert Heff.
  generalize (after_op o s) as s'. intros s' Heff. by effect_cases Heff.
Qed.

Lemma after_origin ops s : origin (after ops s) = origin s.
Proof.
  induction ops as [|o ops IH] using rev_ind; [done|].
  by rewrite after_snoc, after_op_origin.
Qed.

Lemma edge_terminal st st' : edge st st' → isTerminal st = false.
Proof. by intros [| | | |? [-> | ->]]. Qed.

(** No sequence of operations leaves a terminal state. *)
Lemma terminal_stays ops s : isTerminal (SState s) = true → SState (after ops s) = SState s.
Proof.
  intros Ht. induction ops as [|o' ops IH] using rev_ind; [done|]. rewrite after_snoc.
  destruct (after_op_edge o' (after ops s)) as [-> | He%edge_terminal]; congruence.
Qed.

(** C13: an operation leaves the state or follows one edge of the abstract
    machine, it never touches the fields fixed at creation, and no sequence
    of operations leaves a terminal state. *)
Theorem operations_follow_edges o ops s :
  (SState (after_op o s) = SState s ∨ edge (SState s) (SState (after_op o s)))
  ∧ origin (after ops s) = origin s
  ∧ (isTerminal (SState s) = true → SState (after ops s) = SState s).
Proof.
  split; [apply after_op_edge|]. split; [apply after_origin|apply terminal_stays].
Qed.

(** *** The session invariant *)
Record wf (s : Session) : Prop := {
  wf_identity : SState s = StateAwaitingApproval ∨ SState s = StateApproved →
    ∃ i, SIdentity s = Some i ∧ identity_matches norm i s ∧ IdentityAt s ≤ ExpiresAt s;
  wf_csrf : (SState s = StatePending → CSRFToken s = "") ∧
    (SState s = StateAwaitingApproval ∨ SState s = StateApproved →
       String.length (CSRFToken s) = 48%nat);
  wf_binding : (SState s = StatePending → ApprovalBindingHash s = "") ∧
    (SState s = StateApproved → ApprovalBindingHash s ≠ "");
  wf_attempts : 0 ≤ ApproveAttempts s ≤ maxApproveAttempts ∧
    (SState s ≠ StateDenied → ApproveAttempts s < maxApproveAttempts);
  wf_consumed : Consumed s = true → SState s = StateApproved;
}.

Lemma newSession_wf p ttl int now t s t' :
  newSession p ttl int now t = (Ok s, t') → wf s.
Proof.
  unfold newSession. split_cases. intros [= <- _].
  constructor; simpl; unfold maxApproveAttempts; naive_solver lia.
Qed.

Lemma newCSRFToken_length t c t' : newCSRFToken t = (Ok c, t') → String.length c = 48%nat.
Proof.
  unfold newCSRFToken, rand_hex. destruct (rand_Read 24 t) as [[b|] t1] eqn:E; [|done].
  intros [= <- _]. rewrite hex_length. by rewrite (rand_Read_Some _ _ _ _ E).
Qed.

Lemma wrap64_attempts z : 0 ≤ z < maxApproveAttempts → wrap64 (z + 1) = z + 1.
Proof.
  unfold maxApproveAttempts. intros. apply wrap64_id.
  unfold is_int64, min_int64, max_int64. lia.
Qed.

Lemma wf_open_not_consumed s : wf s → SState s ≠ StateApproved → Consumed s = false.
Proof. intros Hwf Hs. destruct (Consumed s) eqn:E; [|done]. by destruct Hs; apply (wf_consumed s Hwf). Qed.

(** Moving an unconsumed session to a failed terminal state. *)
Lemma wf_denied s : 0 ≤ ApproveAttempts s ≤ maxApproveAttempts → Consumed s = false →
  wf (set_State StateDenied s).
Proof. intros Ha Hc. constructor; simpl; rewrite ?Hc; naive_solver. Qed.

Lemma wf_expired s : wf s → open (SState s) → wf (set_State StateExpired s).
Proof.
  intros Hwf Ho. assert (Hn : SState s ≠ StateApproved ∧ SState s ≠ StateDenied)
    by (destruct Ho; split; congruence).
  pose proof (wf_open_not_consumed s Hwf (proj1 Hn)) as Hc.
  destruct (wf_attempts s Hwf) as [Ha Ha']. specialize (Ha' (proj2 Hn)).
  constructor; simpl; rewrite ?Hc; try naive_solver.
Qed.

Lemma wf_expire_spec s now b s' : wf s → expire_spec s now b s' → wf s'.
Proof. intros Hwf []; auto using wf_expired. Qed.

(** Assignments the invariant does not read. *)
Lemma wf_set_LastPollAt s v : wf s → wf (set_LastPollAt v s).
Proof. intros []. by constructor. Qed.

Lemma wf_set_idp s st n v r p :
  wf s → wf (set_Protocol p (set_SAMLRequestID r (set_IdPOIDC st n v s))).
Proof. intros []. by constructor. Qed.

Lemma wf_set_Consumed s : wf s → SState s = StateApproved → wf (set_Consumed true s).
Proof. intros [] ?. by constructor. Qed.

Lemma wf_set_Identity s i now : wf s → SState s = StatePending → wf (set_Identity i now s).
Proof. intros [] Hs. constructor; simpl; rewrite ?Hs in *; naive_solver. Qed.

Lemma wf_bind s ident now abh t e s' t' :
  wf s → bind_spec s ident norm now abh t e s' t' → wf s'.
Proof.
  intros Hwf Hr. pose proof (wf_attempts s Hwf) as [Ha Ha'].
  destruct Hr as [s1 He | Hl Hne Hnp | [Hs Ht] Hm | e1 t1 [Hs Ht] Hm Hr | tok t1 [Hs Ht] Hm Hr].
  - by eapply wf_expire_spec.
  - done.
  - apply wf_denied; simpl; [done|]. apply wf_open_not_consumed; [done|congruence].
  - by apply wf_set_Identity.
  - apply newCSRFToken_length in Hr.
    assert (Hc : Consumed s = false) by (apply wf_open_not_consumed; [done|congruence]).
    rewrite Hs in Ha'. specialize (Ha' ltac:(done)). specialize (Ht ltac:(by left)).
    constructor; simpl; rewrite ?Hc; try naive_solver.
Qed.

Lemma wf_approve s c d now b e s' :
  wf s → approve_spec s c d now b e s' → wf s'.
Proof.
  intros Hwf Hr. pose proof (wf_attempts s Hwf) as [Ha Ha'].
  pose proof (wf_identity s Hwf) as Hi. pose proof (wf_csrf s Hwf) as [_ Hc].
  destruct Hr as [s1 He | Hl Hne Hna | [Hs Ht] Hb | [Hs Ht] Hb Hd
    | [Hs Ht] Hb Hd Hcode | [Hs Ht] Hb Hd Hcode Hat | [Hs Ht] Hb Hd Hcode Hat]; try done.
  { by eapply wf_expire_spec. }
  all: rewrite Hs in Hi, Hc, Ha'; specialize (Ha' ltac:(done));
    assert (Hcons : Consumed s = false) by (apply wf_open_not_consumed; [done|congruence]).
  - by apply wf_denied.
  - destruct Hb as [Hb _]. constructor; simpl; rewrite ?Hcons; naive_solver.
  - apply wf_denied; [|done]. simpl. rewrite wrap64_attempts by lia. lia.
  - rewrite wrap64_attempts in * by lia.
    constructor; simpl; rewrite ?Hs, ?Hcons; naive_solver lia.
Qed.

Lemma wf_poll s v now ttl o s' : wf s → poll_spec s v now ttl o s' → wf s'.
Proof.
  intros Hwf Hr. destruct Hr; auto using wf_set_Consumed, wf_set_LastPollAt.
  by eapply wf_expire_spec.
Qed.

(** Every operation preserves the invariant. *)
Lemma after_op_wf o s : wf s → wf (after_op o s).
Proof.
  intros Hwf. destruct (after_op_effect o s); eauto using
    wf_set_idp, wf_expire_spec, wf_bind, wf_approve, wf_poll.
Qed.

Lemma after_wf ops s : wf s → wf (after ops s).
Proof.
  intros Hwf. induction ops as [|o ops IH] using rev_ind; [done|].
  rewrite after_snoc. by apply after_op_wf.
Qed.

(** C9: every session in the history of a fresh one satisfies the invariant,
    so [poll] never dereferences a nil identity. *)
Theorem session_invariant p ttl int now t s t' ops :
  newSession p ttl int now t = (Ok s, t') →
  wf (after ops s) ∧ ∀ v tp attl, (poll (after ops s) v tp attl).1 ≠ PollPanics.
Proof.
  intros Hn%newSession_wf. pose proof (after_wf ops s Hn) as Hwf. split; [done|].
  intros v tp attl Hp. destruct (poll _ _ _ _) as [o s'] eqn:E. simpl in Hp; subst.
  apply poll_cases in E. inversion E as [| | | Hs _ _ Hi | | | | ]; subst.
  destruct (wf_identity _ Hwf) as (i & Hi' & _); [by right|]. congruence.
Qed.

(** *** Counting over a history *)

(** Fold an observation of each operation over a history. *)
Definition observe {A} (f : op → Session → list A) (ops : list op) (s : Session) : list A :=
  (foldl (λ '(s, acc) o, (after_op o s, acc ++ f o s)) (s, []) ops).2.

Lemma observe_fst {A} (f : op → Session → list A) ops s acc :
  (foldl (λ '(s, acc) o, (after_op o s, acc ++ f o s)) (s, acc) ops).1 = after ops s.
Proof. revert s acc. induction ops as [|o ops IH]; intros; simpl; [done|]. apply IH. Qed.

Lemma observe_snoc {A} (f : op → Session → list A) ops o s :
  observe f (ops ++ [o]) s = observe f ops s ++ f o (after ops s).
Proof.
  unfold observe. rewrite foldl_app. simpl.
  pose proof (observe_fst f ops s []) as Hf.
  destruct (foldl _ _ _) as [s1 acc]. simpl in *. by rewrite Hf.
Qed.

Lemma observe_app {A} (f : op → Session → list A) ops later s :
  ∃ l, observe f (ops ++ later) s = observe f ops s ++ l.
Proof.
  induction later as [|o later IH] using rev_ind; [exists []; by rewrite !app_nil_r|].
  destruct IH as [l Hl]. rewrite app_assoc, observe_snoc, Hl, <-app_assoc. by eexists.
Qed.

(** A wrong code that was compared with the session's. *)
Definition wrong_guess (o : op) (s : Session) : list string :=
  match o with
  | OpApprove c d now b =>
      match (approve s c d now b).1 with Some (ErrText _) => [c] | _ => [] end
  | _ => []
  end.

(** An artifact handed out. *)
Definition release (o : op) (s : Session) : list Artifact :=
  match o with
  | OpPoll v now ttl =>
      match (poll s v now ttl).1 with
      | PollReturns r => match pr_Artifact r with Some a => [a] | None => [] end
      | _ => []
      end
  | _ => []
  end.

Lemma attempts_step o s : wf s →
  ApproveAttempts (after_op o s) = ApproveAttempts s + Z.of_nat (length (wrong_guess o s)).
Proof.
  intros Hwf. destruct (wf_attempts s Hwf) as [Ha Ha'].
  destruct o; simpl in *.
  - lia.
  - destruct (expireIfNeeded_cases s now); simpl; lia.
  - destruct (bindIdentity _ _ _ _ _ _) as [[e s'] t'] eqn:E. apply bindIdentity_cases in E.
    destruct E as [s1 He| | | |]; try inversion He; subst; simpl; lia.
  - destruct (approve _ _ _ _ _) as [e s'] eqn:E. simpl. apply approve_cases in E.
    destruct E as [s1 He| | | | |[Hs _]|[Hs _]]; try inversion He; subst; simpl; try lia;
      rewrite Hs in Ha'; rewrite wrap64_attempts; naive_solver lia.
  - destruct (poll _ _ _ _) as [e s'] eqn:E. apply poll_cases in E.
    destruct E as [s1 He| | | | | | |]; try inversion He; subst; simpl; lia.
Qed.

Lemma attempts_count ops s : wf s →
  ApproveAttempts (after ops s)
    = ApproveAttempts s + Z.of_nat (length (observe wrong_guess ops s)).
Proof.
  intros Hwf. induction ops as [|o ops IH] using rev_ind; [simpl; lia|].
  rewrite after_snoc, observe_snoc, length_app, attempts_step, IH by auto using after_wf. lia.
Qed.

(** C10: as long as the operations on a session are applied one after
    another, at most five wrong codes are ever compared with its user code; the
    fifth denies the session, for good.  (Handlers that read the session before
    another one has written it back are not such a sequence.) *)
Theorem code_guesses_bounded p ttl int now t s t' ops :
  newSession p ttl int now t = (Ok s, t') →
  (length (observe wrong_guess ops s) ≤ 5)%nat ∧
  (length (observe wrong_guess ops s) = 5%nat → ∀ later,
     SState (after (ops ++ later) s) = StateDenied ∧
     length (observe wrong_guess (ops ++ later) s) = 5%nat).
Proof.
  intros Hn. pose proof (newSession_wf _ _ _ _ _ _ _ Hn) as Hwf.
  assert (ApproveAttempts s = 0) as H0.
  { unfold newSession in Hn. by split_cases_in Hn. }
  assert (Hb : ∀ l, (length (observe wrong_guess l s) ≤ 5)%nat ∧
    (length (observe wrong_guess l s) = 5%nat → SState (after l s) = StateDenied)).
  { intros l. pose proof (attempts_count l s Hwf) as Hc.
    destruct (wf_attempts _ (after_wf l s Hwf)) as [Ha Ha'].
    rewrite H0 in Hc. unfold maxApproveAttempts in *. split; [lia|].
    intros H5. destruct (decide (SState (after l s) = StateDenied)); [done|].
    specialize (Ha' ltac:(done)). lia. }
  split; [apply Hb|]. intros H5 later. split.
  - unfold after. rewrite foldl_app. change (SState (after later (after ops s)) = StateDenied).
    rewrite terminal_stays; [by apply Hb|]. by rewrite (proj2 (Hb ops) H5).
  - destruct (observe_app wrong_guess ops later s) as [l Hl]. pose proof (proj1 (Hb (ops ++ later))) as Hle.
    rewrite Hl, length_app in *. lia.
Qed.

(** *** Single use *)
Lemma release_inv o s a : a ∈ release o s →
  ∃ v now ttl i, o = OpPoll v now ttl ∧ SState s = StateApproved ∧ Consumed s = false
    ∧ verifyClientPKCE v (CodeChallenge s) = true ∧ SIdentity s = Some i
    ∧ a = artifact_of i s ttl ∧ after_op o s = set_Consumed true s ∧ release o s = [a].
Proof.
  destruct o as [| | | |v now ttl]; simpl; try (by intros ?%elem_of_nil).
  destruct (poll s v now ttl) as [out s'] eqn:E. simpl. apply poll_cases in E.
  inversion E as [| | | |i Hs Hc Hv Hi| | |]; subst; simpl; try (by intros ?%elem_of_nil).
  rewrite list_elem_of_singleton. intros ->. naive_solver.
Qed.

Lemma consumed_step o s : Consumed s = true → SState s = StateApproved →
  Consumed (after_op o s) = true ∧ SState (after_op o s) = StateApproved ∧ release o s = [].
Proof.
  intros Hc Hs. assert (Hr : release o s = []).
  { destruct (release o s) as [|a l] eqn:E; [done|].
    destruct (release_inv o s a) as (? & ? & ? & ? & _ & _ & ? & _); [|congruence].
    rewrite E. by left. }
  rewrite Hr. cut (Consumed (after_op o s) = true ∧ SState (after_op o s) = StateApproved).
  { naive_solver. }
  clear Hr. pose proof (after_op_effect o s) as Heff. revert Heff.
  generalize (after_op o s) as s'. intros s' Heff.
  effect_cases Heff; unfold open in *; destruct_or?; simpl; split_and!; congruence.
Qed.

Lemma release_consumes ops s :
  (observe release ops s = [] ∨ (length (observe release ops s) = 1%nat
     ∧ Consumed (after ops s) = true ∧ SState (after ops s) = StateApproved)).
Proof.
  induction ops as [|o ops IH] using rev_ind; [by left|].
  rewrite after_snoc, observe_snoc, length_app. destruct IH as [-> | (Hl & Hc & Hs)].
  - destruct (release o (after ops s)) as [|a l] eqn:E; [by left|right].
    destruct (release_inv o (after ops s) a)
      as (v & now & ttl & i & -> & Hs & _ & _ & _ & _ & Ha & Hr); [rewrite E; by left|].
    rewrite E in Hr. simplify_eq. rewrite Ha. done.
  - destruct (consumed_step o (after ops s) Hc Hs) as (? & ? & ->). right.
    rewrite Hl. done.
Qed.

(** A history releases at most one artifact. *)
Theorem artifact_single_use ops s : (length (observe release ops s) ≤ 1)%nat.
Proof. destruct (release_consumes ops s) as [-> | (-> & _)]; simpl; lia. Qed.

(** *** What an approved session proves about its history *)

Definition bound (s : Session) : Prop :=
  SState s = StateAwaitingApproval ∨ SState s = StateApproved.

(** A login that bound [ident] to the session at [tb], from the browser that
    was handed the secret hashed to [abh]. *)
Definition bound_by (ident : Identity) (tb : Time) (abh : string) (s : Session) : Prop :=
  SIdentity s = Some ident ∧ IdentityAt s = tb ∧ ApprovalBindingHash s = abh
  ∧ identity_matches norm ident s ∧ tb ≤ ExpiresAt s.

(** A step into a bound state from an unbound one is a successful bind; a step
    between bound states keeps the binding. *)
Lemma bound_step o s : bound (after_op o s) →
  (bound s ∧ ∀ i tb abh, bound_by i tb abh s → bound_by i tb abh (after_op o s)) ∨
  (SState s = StatePending ∧ ∃ ident now abh t,
     o = OpBind ident now abh t ∧ bound_by ident now abh (after_op o s)).
Proof.
  pose proof (after_op_effect o s) as Heff. revert Heff. generalize (after_op o s) as s'.
  intros s' Heff Hb. unfold bound, bound_by, identity_matches in *.
  effect_cases Heff; unfold open in *; simpl in *; try (left; naive_solver);
    try (destruct Hb; congruence).
  right. split; [done|]. repeat eexists; auto.
Qed.

(** The only way into the approved state is [approve] with the code and the
    binding secret. *)
Lemma approved_step o s : SState (after_op o s) = StateApproved →
  SState s = StateApproved ∨
  (SState s = StateAwaitingApproval ∧ ∃ code now b,
     o = OpApprove code true now b ∧ codesEqual code (UserCode s) = true
     ∧ binding_matches b s ∧ now ≤ ExpiresAt s).
Proof.
  pose proof (after_op_effect o s) as Heff. revert Heff. generalize (after_op o s) as s'.
  intros s' Heff Ha. effect_cases Heff; simpl in *; auto; try congruence;
    try (unfold open in *; destruct_or?; congruence).
  subst. right. split; [done|]. eexists _, _, _. split; [done|]. split; [done|]. split; [done|].
  unfold open in *. naive_solver.
Qed.

Lemma bound_history ops s : ¬ bound s → bound (after ops s) →
  ∃ l1 ident tb abh t l2, ops = l1 ++ OpBind ident tb abh t :: l2
    ∧ bound_by ident tb abh (after ops s).
Proof.
  intros Hs. induction ops as [|o ops IH] using rev_ind; [done|].
  rewrite after_snoc. intros Hb.
  destruct (bound_step o _ Hb) as [[Hb' Hk] | (_ & ident & now & abh & t & -> & H2)].
  - destruct (IH Hb') as (l1 & ident & tb & abh & t & l2 & -> & H2).
    exists l1, ident, tb, abh, t, (l2 ++ [o]). split; [by rewrite <-app_assoc|]. by apply Hk.
  - by exists ops, ident, now, abh, t, [].
Qed.

Lemma approved_history ops s : SState s = StatePending → SState (after ops s) = StateApproved →
  ∃ l1 ident tb abh t l2 code ta b l3,
    ops = l1 ++ OpBind ident tb abh t :: l2 ++ OpApprove code true ta b :: l3
    ∧ bound_by ident tb abh (after ops s)
    ∧ codesEqual code (UserCode s) = true ∧ hashBinding b = abh ∧ ta ≤ ExpiresAt s.
Proof.
  intros Hs. induction ops as [|o ops IH] using rev_ind; [by simpl; rewrite Hs|].
  rewrite after_snoc. intros Ha.
  pose proof (bound_step o (after ops s) (or_intror Ha)) as Hbs.
  destruct (approved_step o _ Ha) as [Hp | (Hw & code & ta & b & -> & Hc & [Hb0 Hb] & Ht)].
  - destruct (IH Hp) as (l1&ident&tb&abh&t&l2&code&ta&b&l3 & -> & H2 & H3).
    destruct Hbs as [[_ Hk]|[Hq _]]; [|congruence].
    exists l1, ident, tb, abh, t, l2, code, ta, b, (l3 ++ [o]).
    split; [by simplify_list_eq|]. split; [by apply Hk|done].
  - destruct (bound_history ops s) as (l1&ident&tb&abh&t&l2 & Heq & H2).
    { unfold bound. rewrite Hs. by intros [|]. }
    { by left. }
    destruct Hbs as [[_ Hk]|[Hq _]]; [|congruence].
    exists l1, ident, tb, abh, t, l2, code, ta, b, [].
    pose proof (after_origin ops s) as Ho. unfold origin in Ho. simplify_eq.
    split; [by simplify_list_eq|]. split; [by apply Hk|].
    destruct H2 as (_ & _ & Habh & _). split_and!; congruence.
Qed.

(** C7: an artifact is released only after, in this order, a login bound
    an identity equal to the session's login hint (check 4), the session's
    code was submitted with the binding secret minted at that login
    (check 2), both before the session expired, and the poll presented the
    verifier of the challenge given at start (check 1); the artifact is that
    login's identity, and its lifetime runs from the login. *)
Theorem release_needs_all_checks p ttl int now t s t' ops v tp attl a :
  newSession p ttl int now t = (Ok s, t') →
  (poll (after ops s) v tp attl).1 = released a →
  ∃ l1 ident tb abh te l2 code ta b l3,
    ops = l1 ++ OpBind ident tb abh te :: l2 ++ OpApprove code true ta b :: l3
    ∧ normalizer_or_default norm (Value ident)
        = normalizer_or_default norm (p_LoginHint p)
    ∧ codesEqual code (UserCode s) = true
    ∧ hashBinding b = abh
    ∧ tb ≤ Add now ttl ∧ ta ≤ Add now ttl
    ∧ v ≠ "" ∧ p_CodeChallenge p = s256 v
    ∧ a = {| a_Subject := Subject ident; a_Identity := Value ident; a_Claims := Claims ident;
             a_ApprovedAt := tb; a_ExpiresAt := Add tb attl |}.
Proof.
  intros Hn Hp. destruct (poll _ _ _ _) as [o s'] eqn:E. simpl in Hp; subst.
  apply poll_cases in E. inversion E as [| | | |i Ha Hc Hv Hi| | |]; subst.
  pose proof (after_origin ops s) as Ho. unfold origin in Ho. simplify_eq.
  assert (Hf : SState s = StatePending ∧ LoginHint s = p_LoginHint p
    ∧ CodeChallenge s = p_CodeChallenge p ∧ ExpiresAt s = Add now ttl).
  { clear -Hn. unfold newSession in Hn. by split_cases_in Hn. }
  destruct Hf as (Hs & Hh & Hch & Hx).
  destruct (approved_history ops s Hs Ha)
    as (l1&ident&tb&abh&te&l2&code&ta&b&l3 & Hops & (Hid & Hat & Hbh & Hm & Htb) & Hcode & Hab & Hta).
  apply verifyClientPKCE_spec in Hv as [Hv1 Hv2].
  exists l1, ident, tb, abh, te, l2, code, ta, b, l3. unfold identity_matches in Hm.
  unfold artifact_of. split_and!; congruence.
Qed.

(** *** The legitimate path, and pacing *)

Lemma poll_release_outcome s i v now ttl :
  SState s = StateApproved → Consumed s = false →
  verifyClientPKCE v (CodeChallenge s) = true → SIdentity s = Some i →
  (poll s v now ttl).1 = released (artifact_of i s ttl).
Proof. intros. by erewrite poll_complete by by apply poll_release. Qed.

(** C11: whoever logs in as the hinted identity and submits the session's
    code from that browser before the TTL has elapsed lets the holder of the
    verifier collect exactly that identity, whenever it polls. *)
Theorem legitimate_path_succeeds p ttl int now t s t' ident tb te tok te' b ta v tp attl :
  newSession p ttl int now t = (Ok s, t') →
  normalizer_or_default norm (Value ident) = normalizer_or_default norm (p_LoginHint p) →
  newCSRFToken te = (Ok tok, te') →
  tb ≤ Add now ttl → ta ≤ Add now ttl →
  v ≠ "" → p_CodeChallenge p = s256 v →
  (poll (after [OpBind ident tb (hashBinding b) te; OpApprove (UserCode s) true ta b] s)
     v tp attl).1 =
  released {| a_Subject := Subject ident; a_Identity := Value ident; a_Claims := Claims ident;
              a_ApprovedAt := tb; a_ExpiresAt := Add tb attl |}.
Proof.
  intros Hn Hm Htok Htb Hta Hv Hch.
  assert (Hf : SState s = StatePending ∧ LoginHint s = p_LoginHint p
    ∧ CodeChallenge s = p_CodeChallenge p ∧ ExpiresAt s = Add now ttl ∧ Consumed s = false).
  { clear -Hn. unfold newSession in Hn. by split_cases_in Hn. }
  destruct Hf as (Hs & Hh & Hc & Hx & Hcons). unfold after. simpl.
  erewrite (bindIdentity_complete s ident norm tb (hashBinding b) te None _ te').
  2:{ eapply bind_ok; [|by unfold identity_matches; rewrite Hh|exact Htok].
      split; [done|]. by rewrite Hx. }
  simpl. erewrite (approve_complete _ (UserCode s) true ta b None _).
  2:{ apply approve_ok; simpl; try done; [split; simpl; [done|by rewrite Hx]| |].
      - split; simpl; [|done]. intros Habs.
        pose proof (hex_length (Sum256 b)) as Hl. unfold hashBinding in Habs.
        by rewrite Habs, Sum256_length in Hl.
      - apply codesEqual_refl. }
  simpl. rewrite (poll_release_outcome _ ident); simpl; try done.
  apply verifyClientPKCE_spec. split; congruence.
Qed.

(** After a poll answered [pending], the next poll with the right
    verifier is answered [expired] after the TTL, [slow_down] (leaving the
    session as it is) within [Interval] of the first, else [pending]. *)
Theorem poll_is_paced s v t1 t2 ttl s1 :
  poll s v t1 ttl = (status_only PollPending, s1) →
  t1 ≠ 0 → min_int64 < Interval s ≤ max_int64 →
  (poll s1 v t2 ttl).1 = status_only
    (if ExpiresAt s <? t2 then PollExpired
     else if t2 - t1 <? Interval s then PollSlowDown else PollPending)
  ∧ ((ExpiresAt s <? t2) = false → t2 - t1 < Interval s → (poll s1 v t2 ttl).2 = s1).
Proof.
  intros Hp Ht1 Hint. apply poll_cases in Hp.
  inversion Hp as [| | | | | | |Ho Hx Hv Hns]; subst.
  set (s1 := set_LastPollAt t1 s). assert (Ho1 : open (SState s1)) by done.
  assert (Hts : too_soon s1 t2 ↔ t2 - t1 < Interval s).
  { unfold too_soon. simpl. rewrite <-Z.ltb_lt, Sub_lt, Z.ltb_lt by done. naive_solver. }
  destruct (ExpiresAt s <? t2) eqn:E; reflect_bool.
  - rewrite (poll_complete s1 v t2 ttl (status_only PollExpired) (set_State StateExpired s1)); [done|].
    apply poll_expired. by apply expire_now.
  - destruct (t2 - t1 <? Interval s) eqn:E2; reflect_bool.
    + erewrite (poll_complete s1 v t2 ttl (status_only PollSlowDown) s1); [done|].
      assert (SState s1 ≠ StateExpired ∧ SState s1 ≠ StateApproved) as [? ?]
        by (split; destruct Ho1; congruence).
      apply poll_slow_down; [by split|done|done|done|by apply Hts].
    + rewrite (poll_complete s1 v t2 ttl (status_only PollPending) (set_LastPollAt t2 s1)); [split; [done|lia]|].
      apply poll_pending; simpl; try done. rewrite Hts. lia.
Qed.

End Trace.

(** ** A concrete history *)
Module Demo.

Definition case_tables : UnicodeCase := ascii_case.
Definition tape : entropy := string_of_bytes (seqZ 0 250).
Definition t0 : Time := 1000 * Second.
Definition verifier : string := "verifier-1".
Definition params : StartParams :=
  mkStartParams "Alice@Example.com" (s256 verifier) "cli" "host-42" "10.1.2.3" "".
Definition default_session : Session :=
  mkSession "" "" "" "" "" "" "" 0 0 0 "" "" "" "" "" "" None 0 0 "" "" 0 StateDenied false.
Definition session : Session :=
  match (newSession params (5 * Minute) (3 * Second) t0 tape).1 with
  | Ok s => s | Err _ => default_session end.
Definition tape1 : entropy := (newSession params (5 * Minute) (3 * Second) t0 tape).2.
Definition alice : Identity := mkIdentity "sub-1" "alice@example.com" ∅.
Definition secret : string := "browser-secret".

Lemma session_created : newSession params (5 * Minute) (3 * Second) t0 tape = (Ok session, tape1).
Proof. vm_compute. reflexivity. Qed.

Definition csrf : string :=
  match (newCSRFToken tape1).1 with Ok c => c | Err _ => "" end.
Lemma csrf_created : newCSRFToken tape1 = (Ok csrf, (newCSRFToken tape1).2).
Proof. vm_compute. reflexivity. Qed.

(** Log in after ten seconds, approve after [d]. *)
Definition login : op := OpBind alice (t0 + 10 * Second) (hashBinding secret) tape1.
Definition approval (d : Duration) : op := OpApprove (UserCode session) true (t0 + d) secret.

Lemma identity_ok :
  @normalizer_or_default case_tables None (Value alice)
  = @normalizer_or_default case_tables None (p_LoginHint params).
Proof. vm_compute. reflexivity. Qed.

End Demo.

Import Demo.

(** With the default lifetimes (session 5 minutes, artifact 120
    seconds) an approval submitted three minutes after the login is accepted
    and its artifact has already expired when it is released one second
    later: [ApprovedAt] and the lifetime count from the login, not from the
    approval. *)
Theorem artifact_released_after_its_expiry :
  ∃ a, (poll (@after case_tables None [login; approval (200 * Second)] session)
          verifier (t0 + 201 * Second) (120 * Second)).1 = released a
    ∧ a_ApprovedAt a = t0 + 10 * Second
    ∧ After (t0 + 201 * Second) (a_ExpiresAt a) = true.
Proof.
  exists (mkArtifact "sub-1" "alice@example.com" ∅ (t0 + 10 * Second) (t0 + 130 * Second)).
  split; [vm_compute; reflexivity|]. split; reflexivity.
Qed.

Lemma session_invariant_witness :
  @wf case_tables None (@after case_tables None [login; approval (20 * Second)] session).
Proof.
  exact (proj1 (@session_invariant case_tables None _ _ _ _ _ _ _
    [login; approval (20 * Second)] session_created)).
Defined.

(** Five wrong codes, then the right one. *)
Definition wrong_code (d : Duration) : op := OpApprove "AAAA-AAAA" true (t0 + d) secret.
Definition guesses : list op :=
  login :: map (λ k, wrong_code (k * Second)) [11; 12; 13; 14; 15].

Lemma code_guesses_bounded_witness :
  SState (@after case_tables None (guesses ++ [approval (20 * Second)]) session) = StateDenied ∧
  length (@observe case_tables None string (@wrong_guess case_tables)
    (guesses ++ [approval (20 * Second)]) session) = 5%nat.
Proof.
  refine (proj2 (@code_guesses_bounded case_tables None _ _ _ _ _ _ _ guesses session_created) _ _).
  vm_compute. reflexivity.
Defined.

Lemma legitimate_path_succeeds_witness :
  ∃ a, (poll (@after case_tables None
     [OpBind alice (t0 + 10 * Second) (hashBinding secret) tape1;
      OpApprove (UserCode session) true (t0 + 20 * Second) secret] session)
     verifier (t0 + 21 * Second) (120 * Second)).1 = released a
    ∧ a_Identity a = "alice@example.com".
Proof.
  eexists. split.
  - refine (@legitimate_path_succeeds case_tables None _ _ _ _ _ _ _ alice
      (t0 + 10 * Second) tape1 csrf _ secret (t0 + 20 * Second) verifier
      (t0 + 21 * Second) (120 * Second) session_created identity_ok csrf_created _ _ _ _);
      vm_compute; congruence.
  - reflexivity.
Defined.

Lemma release_needs_all_checks_witness :
  ∃ ident tb abh te l1 l2 code ta b l3,
  [login; approval (20 * Second)] = l1 ++ OpBind ident tb abh te :: l2 ++ OpApprove code true ta b :: l3
  ∧ hashBinding b = abh ∧ p_CodeChallenge params = s256 verifier.
Proof.
  assert (Hr : (poll (@after case_tables None [login; approval (20 * Second)] session)
     verifier (t0 + 21 * Second) (120 * Second)).1
     = released (mkArtifact "sub-1" "alice@example.com" ∅ (t0 + 10 * Second) (t0 + 130 * Second)))
    by (vm_compute; reflexivity).
  destruct (@release_needs_all_checks case_tables None _ _ _ _ _ _ _
    [login; approval (20 * Second)] _ _ _ _ session_created Hr)
    as (l1&ident&tb&abh&te&l2&code&ta&b&l3&Hops&_&_&Hb&_&_&_&Hch&_).
  exists ident, tb, abh, te, l1, l2, code, ta, b, l3. split; [exact Hops|]. split; [exact Hb|exact Hch].
Defined.

Lemma poll_is_paced_witness :
  (poll (set_LastPollAt (t0 + 1) session) verifier (t0 + 2) 0).1 = status_only PollSlowDown.
Proof.
  refine (eq_trans (proj1 (poll_is_paced session verifier (t0 + 1) (t0 + 2) 0 _ _ _ _)) _).
  - vm_compute. reflexivity.
  - vm_compute. discriminate.
  - vm_compute. split; [reflexivity|discriminate].
  - vm_compute. reflexivity.
Defined.
