(* ===== verification/Store.v ===== *)
(** The storage interface of [internal/store/store.go] and its in-memory
    implementation.  [Memory] keeps pointers, so it is modelled on a heap:
    [Create] stores the caller's pointer, [Get] returns a pointer to a fresh
    copy, [Update] stores a pointer to a fresh copy.  The class [StoreLaws]
    is the contract the broker is verified against; [Memory] discharges it. *)

From S2P Require Import Prelude GoTime Session SessionJson.

(** [ErrNotFound], and the other failures a store may report. *)
Inductive store_error := ErrNotFound | ErrStore (msg : string).

#[export] Instance store_error_eq_dec : EqDecision store_error.
Proof. solve_decision. Defined.

(** ** The interface

    The instant a call runs at is an argument: a shared store expires keys. *)
Class Store (St : Type) := {
  store_Create : Time → Session → St → option store_error * St;
  store_Get : Time → string → St → result Session store_error * St;
  store_Update : Time → Session → St → option store_error * St;
  store_evict : Time → St → St;
}.

(** A partial map from ids to sessions.  Operations may fail; a
    failed write may or may not have taken effect, as over a network. *)
Class StoreLaws (St : Type) `{Store St} := {
  store_view : St → gmap string Session;
  store_ok : St → Prop;
  store_key : ∀ st id s, store_ok st → store_view st !! id = Some s → ID s = id;
  Create_law : ∀ now s st e st', store_ok st → store_Create now s st = (e, st') →
    store_ok st' ∧
    match e with
    | None => store_view st' = <[ID s := s]> (store_view st)
    | Some _ => store_view st' = store_view st
                ∨ store_view st' = <[ID s := s]> (store_view st)
    end;
  Get_law : ∀ now id st r st', store_ok st → store_Get now id st = (r, st') →
    store_ok st' ∧ store_view st' = store_view st ∧
    match r with
    | Ok s => store_view st !! id = Some s
    | Err ErrNotFound => store_view st !! id = None
    | Err _ => True
    end;
  Update_law : ∀ now s st e st', store_ok st → store_Update now s st = (e, st') →
    store_ok st' ∧
    match e with
    | None => is_Some (store_view st !! ID s)
              ∧ store_view st' = <[ID s := s]> (store_view st)
    | Some ErrNotFound => store_view st !! ID s = None ∧ store_view st' = store_view st
    | Some _ => store_view st' = store_view st
                ∨ (is_Some (store_view st !! ID s)
                   ∧ store_view st' = <[ID s := s]> (store_view st))
    end;
  evict_law : ∀ now st, store_ok st →
    store_ok (store_evict now st) ∧ store_view (store_evict now st) ⊆ store_view st;
}.

(** A store that never fails: absent and present are the only outcomes. *)
Class ReliableStore (St : Type) `{StoreLaws St} := {
  Create_reliable : ∀ now s st, store_ok st → (store_Create now s st).1 = None;
  Get_reliable : ∀ now id st, store_ok st →
    (store_Get now id st).1 = match store_view st !! id with
                          | Some s => Ok s | None => Err ErrNotFound end;
  Update_reliable : ∀ now s st, store_ok st →
    (store_Update now s st).1 = match store_view st !! ID s with
                            | Some _ => None | None => Some ErrNotFound end;
}.

(** ** Memory *)
Module Memory.

Definition loc := nat.

(** A [Session] object: its fields, and the pointer in [Identity] ([SIdentity]
    of the fields is not read). *)
Record object := mkObject {
  o_fields : Session;
  o_Identity : option loc;
}.

(** [sessions map[string]*Session] over a heap of [Session] and [Identity]
    objects. *)
Record Memory := mkMemory {
  sessions : gmap string loc;
  heap : gmap loc object;
  identities : gmap loc Identity;
  next : loc;
}.

Definition NewMemory : Memory := mkMemory ∅ ∅ ∅ 0%nat.

(** The session an object is, read through its pointer. *)
Definition deref (m : Memory) (o : object) : Session :=
  with_Identity (o_Identity o ≫= λ q, identities m !! q) (o_fields o).

(** [new(Session)] holding [o]; assignments through a [*Session] and through
    an [*Identity]. *)
Definition new (o : object) (m : Memory) : loc * Memory :=
  (next m, mkMemory (sessions m) (<[next m := o]> (heap m)) (identities m) (S (next m))).
Definition write (p : loc) (o : object) (m : Memory) : Memory :=
  mkMemory (sessions m) (<[p := o]> (heap m)) (identities m) (next m).
Definition write_identity (q : loc) (i : Identity) (m : Memory) : Memory :=
  mkMemory (sessions m) (heap m) (<[q := i]> (identities m)) (next m).

(** [&Identity{...}], and [&Session{...}] with it. *)
Definition new_identity (i : Identity) (m : Memory) : loc * Memory :=
  (next m, mkMemory (sessions m) (heap m) (<[next m := i]> (identities m)) (S (next m))).
Definition alloc (s : Session) (m : Memory) : loc * Memory :=
  match SIdentity s with
  | None => new (mkObject s None) m
  | Some i => let (q, m) := new_identity i m in new (mkObject s (Some q)) m
  end.

(** [m.sessions[id] = p]. *)
Definition point (id : string) (p : loc) (m : Memory) : Memory :=
  mkMemory (<[id := p]> (sessions m)) (heap m) (identities m) (next m).

Definition Create (p : loc) (m : Memory) : Memory :=
  match heap m !! p with
  | Some o => point (ID (o_fields o)) p m
  | None => m
  end.

(** [cp := *s] copies the fields and the pointer: the copy shares the
    [Identity] object. *)
Definition Get (id : string) (m : Memory) : result loc store_error * Memory :=
  match sessions m !! id ≫= λ p, heap m !! p with
  | None => (Err ErrNotFound, m)
  | Some o => let (cp, m) := new o m in (Ok cp, m)
  end.

Definition Update (p : loc) (m : Memory) : option store_error * Memory :=
  match heap m !! p with
  | None => (Some ErrNotFound, m)
  | Some o =>
      match sessions m !! ID (o_fields o) with
      | None => (Some ErrNotFound, m)
      | Some _ => let (cp, m) := new o m in (None, point (ID (o_fields o)) cp m)
      end
  end.

(** [now.After(s.ExpiresAt.Add(s.ExpiresAt.Sub(s.CreatedAt)))]. *)
Definition past_grace (now : Time) (s : Session) : bool :=
  After now (Add (ExpiresAt s) (Sub (ExpiresAt s) (CreatedAt s))).

Definition keep (now : Time) (m : Memory) (kp : string * loc) : bool :=
  match heap m !! kp.2 with Some o => negb (past_grace now (o_fields o)) | None => true end.

Definition sweep (now : Time) (m : Memory) : Memory :=
  mkMemory (filter (λ kp, keep now m kp = true) (sessions m)) (heap m) (identities m) (next m).

(** *** What the map holds, as values *)
Definition view (m : Memory) : gmap string Session :=
  omap (λ p, deref m <$> heap m !! p) (sessions m).

Record ok (m : Memory) : Prop := {
  ok_key : ∀ id p, sessions m !! id = Some p → ∃ o, heap m !! p = Some o ∧ ID (o_fields o) = id;
  ok_next : ∀ p, is_Some (heap m !! p) → (p < next m)%nat;
  ok_pointer : ∀ p o q, heap m !! p = Some o → o_Identity o = Some q → (q < next m)%nat;
}.

Lemma view_lookup m id : view m !! id = sessions m !! id ≫= λ p, deref m <$> heap m !! p.
Proof. unfold view. apply lookup_omap. Qed.

Lemma NewMemory_ok : ok NewMemory.
Proof.
  constructor; simpl; [intros ?? H|intros ? [? H]|intros ??? H]; by rewrite lookup_empty in H.
Qed.

Lemma fresh_unused m id p : ok m → sessions m !! id = Some p → p ≠ next m.
Proof.
  intros Hok Hp ->. destruct (ok_key m Hok _ _ Hp) as (o & Ho & _).
  pose proof (ok_next m Hok (next m) (ex_intro _ _ Ho)). lia.
Qed.

(** An object is safe to store if its pointer is allocated. *)
Definition safe (m : Memory) (o : object) : Prop := ∀ q, o_Identity o = Some q → (q < next m)%nat.

Lemma new_ok o m : ok m → safe m o → ok (new o m).2.
Proof.
  intros Hok Hs. constructor; simpl.
  - intros id p Hp. pose proof (fresh_unused m id p Hok Hp).
    rewrite lookup_insert_ne by done. by apply (ok_key m Hok).
  - intros p [s' [[<- _]|[_ Hp]]%lookup_insert_Some]; [lia|].
    pose proof (ok_next m Hok p (ex_intro _ _ Hp)). lia.
  - intros p o' q [[<- <-]|[_ Hp]]%lookup_insert_Some Hq.
    + pose proof (Hs q Hq). lia.
    + pose proof (ok_pointer m Hok p o' q Hp Hq). lia.
Qed.

Lemma new_identity_ok i m : ok m → ok (new_identity i m).2.
Proof.
  intros [Hk Hn Hp]. constructor; simpl; [done| |].
  - intros p Hs. specialize (Hn p Hs). lia.
  - intros p o q Ho Hq. specialize (Hp p o q Ho Hq). lia.
Qed.

Lemma alloc_ok s m : ok m → ok (alloc s m).2.
Proof.
  intros Hok. unfold alloc. destruct (SIdentity s) as [i|]; [|by apply new_ok].
  apply new_ok; [by apply new_identity_ok|]. intros q [= <-]. simpl. lia.
Qed.

Lemma alloc_fresh s m : sessions (alloc s m).2 = sessions m ∧ (next m ≤ (alloc s m).1)%nat.
Proof. unfold alloc. destruct (SIdentity s); simpl; split; try done; lia. Qed.

Lemma deref_heap m m' o : identities m' = identities m → deref m' o = deref m o.
Proof. unfold deref. by intros ->. Qed.

(** The new object is the session. *)
Lemma alloc_heap s m : let '(p, m') := alloc s m in
  ∃ o, heap m' !! p = Some o ∧ deref m' o = s ∧ o_fields o = s.
Proof.
  unfold alloc. destruct (SIdentity s) as [i|] eqn:E; simpl; rewrite lookup_insert_eq;
    (eexists; split; [reflexivity|]; split; [|done]); unfold deref; simpl;
    rewrite ?lookup_insert_eq, <-E; by destruct s.
Qed.

(** A write to an object the map does not reference is invisible. *)
Lemma view_write m p o : (∀ id, sessions m !! id ≠ Some p) → view (write p o m) = view m.
Proof.
  intros Hp. apply map_eq. intros id. rewrite !view_lookup. simpl.
  destruct (sessions m !! id) as [q|] eqn:E; simpl; [|done].
  rewrite lookup_insert_ne; [done|]. intros ->. by apply (Hp id).
Qed.

Lemma view_new o m : ok m → view (new o m).2 = view m.
Proof.
  intros Hok. apply (view_write m (next m) o). intros id Hid.
  by pose proof (fresh_unused m id _ Hok Hid).
Qed.

Lemma view_new_identity i m : ok m → view (new_identity i m).2 = view m.
Proof.
  intros Hok. apply map_eq. intros id. rewrite !view_lookup. simpl.
  destruct (sessions m !! id) as [p|]; simpl; [|done]. destruct (heap m !! p) as [o|] eqn:E; simpl; [|done].
  f_equal. unfold deref. simpl. destruct (o_Identity o) as [q|] eqn:Eq; simpl; [|done].
  rewrite lookup_insert_ne; [done|]. pose proof (ok_pointer m Hok p o q E Eq). lia.
Qed.

Lemma view_alloc s m : ok m → view (alloc s m).2 = view m.
Proof.
  intros Hok. unfold alloc. destruct (SIdentity s) as [i|]; [|by apply view_new].
  pose proof (new_identity_ok i m Hok). pose proof (view_new_identity i m Hok) as Hv.
  destruct (new_identity i m) as [q m1]. simpl in *. by rewrite <-Hv, <-(view_new (mkObject s (Some q)) m1).
Qed.

(** Pointing a key at an object. *)
Lemma view_point m id p o : heap m !! p = Some o → view (point id p m) = <[id := deref m o]> (view m).
Proof.
  intros Hp. apply map_eq. intros j. rewrite view_lookup. simpl.
  destruct (decide (id = j)) as [<-|Hne].
  - rewrite !lookup_insert_eq. simpl. by rewrite Hp.
  - by rewrite !lookup_insert_ne, view_lookup by done.
Qed.

Lemma point_ok m p o : ok m → heap m !! p = Some o → ok (point (ID (o_fields o)) p m).
Proof.
  intros [Hk Hn Hq] Hp. constructor; simpl; [|done..]. intros id q Hs.
  apply lookup_insert_Some in Hs as [[<- <-]|[_ Hs]]; [by exists o|by apply Hk].
Qed.

Lemma deref_ID m o : ID (deref m o) = ID (o_fields o).
Proof. by destruct o as [[] ?]. Qed.

Lemma deref_grace now m o : past_grace now (deref m o) = past_grace now (o_fields o).
Proof. by destruct o as [[] ?]. Qed.

Lemma view_key m id s : ok m → view m !! id = Some s → ID s = id.
Proof.
  rewrite view_lookup. intros Hok (p & Hp & (o & Ho & ->)%fmap_Some)%bind_Some.
  rewrite deref_ID. destruct (ok_key m Hok id p Hp) as (o' & Ho' & <-). congruence.
Qed.

Lemma view_sessions m id : ok m → (sessions m !! id = None ↔ view m !! id = None).
Proof.
  intros Hok. rewrite view_lookup. destruct (sessions m !! id) as [p|] eqn:E; [|done].
  destruct (ok_key m Hok id p E) as (o & Ho & _). simpl. by rewrite Ho.
Qed.

Lemma view_sweep now m : ok m →
  view (sweep now m) = filter (λ ks, past_grace now ks.2 = false) (view m).
Proof.
  intros Hok. apply map_eq. intros id. rewrite view_lookup. unfold sweep. simpl.
  rewrite !map_lookup_filter, view_lookup.
  destruct (sessions m !! id) as [p|] eqn:E; simpl; [|done].
  destruct (ok_key m Hok id p E) as (o & Ho & _). rewrite Ho. simpl.
  unfold keep. simpl. rewrite Ho, deref_grace.
  destruct (past_grace now (o_fields o)); simpl; repeat (case_guard; simpl); try done.
  by rewrite Ho.
Qed.

Lemma sweep_ok now m : ok m → ok (sweep now m).
Proof.
  intros [Hk Hn Hq]. constructor; simpl; [|done..]. intros id p Hp.
  apply map_lookup_filter_Some in Hp as [Hp _]. by apply Hk.
Qed.

(** *** The calls the broker makes, on session values: the session a handler
    passes to [Create] or [Update] lives in an object of its own, and the
    object [Get] returns is read once. *)
Definition create_value (s : Session) (m : Memory) : option store_error * Memory :=
  let (p, m) := alloc s m in (None, Create p m).

Definition get_value (id : string) (m : Memory) : result Session store_error * Memory :=
  match Get id m with
  | (Err e, m) => (Err e, m)
  | (Ok p, m) =>
      match heap m !! p with
      | Some o => (Ok (deref m o), m)
      | None => (Err ErrNotFound, m)
      end
  end.

Definition update_value (s : Session) (m : Memory) : option store_error * Memory :=
  let (p, m) := alloc s m in Update p m.

#[export] Instance Memory_Store : Store Memory := {
  store_Create _ := create_value;
  store_Get _ := get_value;
  store_Update _ := update_value;
  store_evict := sweep;
}.

Lemma create_value_spec s m : ok m →
  ∃ m', create_value s m = (None, m') ∧ ok m' ∧ view m' = <[ID s := s]> (view m).
Proof.
  intros Hok. unfold create_value. pose proof (alloc_heap s m) as Hh.
  pose proof (alloc_ok s m Hok) as Hok'. pose proof (view_alloc s m Hok) as Hv.
  destruct (alloc s m) as [p m1]. simpl in *. destruct Hh as (o & Ho & Hd & Hf). unfold Create. rewrite Ho.
  eexists. split; [done|]. split; [by apply point_ok|]. by rewrite (view_point m1 _ p o), Hd, Hf, Hv.
Qed.

Lemma get_value_spec id m : ok m →
  ∃ m', ok m' ∧ view m' = view m ∧
    get_value id m = (match view m !! id with Some s => Ok s | None => Err ErrNotFound end, m').
Proof.
  intros Hok. unfold get_value, Get. rewrite view_lookup.
  destruct (sessions m !! id) as [p|] eqn:E; simpl; [|by exists m].
  destruct (heap m !! p) as [o|] eqn:Ep; [|by exists m].
  simpl. rewrite lookup_insert_eq. exists (new o m).2.
  split; [|split; [by apply view_new|done]]. apply new_ok; [done|]. intros q Hq. by apply (ok_pointer m Hok p o).
Qed.

Lemma update_value_spec s m : ok m →
  ∃ e m', update_value s m = (e, m') ∧ ok m' ∧
    match view m !! ID s with
    | Some _ => e = None ∧ view m' = <[ID s := s]> (view m)
    | None => e = Some ErrNotFound ∧ view m' = view m
    end.
Proof.
  intros Hok. unfold update_value. pose proof (alloc_heap s m) as Hh.
  pose proof (alloc_ok s m Hok) as Hok1. pose proof (view_alloc s m Hok) as Hv.
  destruct (alloc s m) as [p m1]. simpl in *. destruct Hh as (o & Ho & Hd & Hf).
  unfold Update. rewrite Ho, Hf, <-Hv. pose proof (view_sessions m1 (ID s) Hok1) as Hs.
  destruct (sessions m1 !! ID s) as [q|] eqn:E.
  - assert (Hsafe : safe m1 o) by (intros r Hr; by apply (ok_pointer m1 Hok1 p o)).
    pose proof (new_ok o m1 Hok1 Hsafe) as Hok2. pose proof (view_new o m1 Hok1) as Hv2.
    assert (Hh2 : heap (new o m1).2 !! (new o m1).1 = Some o) by apply lookup_insert_eq.
    pose proof (deref_heap m1 (new o m1).2 o eq_refl) as Hd2.
    destruct (new o m1) as [cp m2]. simpl in *.
    eexists _, _. split; [done|]. split; [rewrite <-Hf; by apply point_ok|].
    destruct (view m1 !! ID s); [|naive_solver].
    split; [done|]. by rewrite (view_point m2 _ cp o), Hd2, Hd, Hv2.
  - eexists _, _. split; [done|]. split; [done|]. by rewrite (proj1 Hs).
Qed.

#[export] Program Instance Memory_Laws : StoreLaws Memory := {
  store_view := view;
  store_ok := ok;
}.
Next Obligation. intros. by eapply view_key. Qed.
Next Obligation.
  intros now s m e m' Hok H. destruct (create_value_spec s m Hok) as (m1 & H1 & ? & ?).
  simpl in H. rewrite H1 in H. by simplify_eq.
Qed.
Next Obligation.
  intros now id m r m' Hok H. destruct (get_value_spec id m Hok) as (m1 & ? & ? & H1).
  simpl in H. rewrite H1 in H. simplify_eq. by destruct (view m !! id).
Qed.
Next Obligation.
  intros now s m e m' Hok H. destruct (update_value_spec s m Hok) as (e1 & m1 & H1 & ? & Hv).
  simpl in H. rewrite H1 in H. simplify_eq. split; [done|].
  destruct (view m !! ID s); destruct Hv as [-> ?]; by eauto.
Qed.
Next Obligation.
  intros now m Hok. split; [by apply sweep_ok|].
  simpl. rewrite view_sweep by done. apply map_filter_subseteq.
Qed.

#[export] Program Instance Memory_Reliable : ReliableStore Memory.
Next Obligation.
  intros now s m Hok. change ((create_value s m).1 = None).
  by destruct (create_value_spec s m Hok) as (? & -> & _).
Qed.
Next Obligation.
  intros now id m Hok. destruct (get_value_spec id m Hok) as (m' & _ & _ & H).
  change ((get_value id m).1 = match view m !! id with Some s => Ok s | None => Err ErrNotFound end).
  by rewrite H.
Qed.
Next Obligation.
  intros now s m Hok. destruct (update_value_spec s m Hok) as (? & ? & H & _ & Hv).
  change ((update_value s m).1
    = match view m !! ID s with Some _ => None | None => Some ErrNotFound end).
  rewrite H. destruct (view m !! ID s); by destruct Hv as [-> _].
Qed.


(** [Create], unlike [Update], keeps the caller's object: a later
    write through the pointer passed to [Create] changes the stored session
    without any call of [Update]. *)
Theorem Create_aliases_caller m s o : ok m →
  let '(p, m1) := alloc s m in
  view (Create p m1) !! ID s = Some s ∧
  view (write p o (Create p m1)) !! ID s = Some (deref m1 o).
Proof.
  intros Hok. pose proof (alloc_heap s m) as Hh. destruct (alloc s m) as [p m1].
  destruct Hh as (o1 & Ho1 & Hd & Hf). unfold Create. rewrite Ho1, Hf. split.
  - by rewrite (view_point m1 _ p o1), lookup_insert_eq, Hd.
  - rewrite view_lookup. simpl. rewrite lookup_insert_eq. simpl. by rewrite lookup_insert_eq.
Qed.

(** [sweep] removes exactly the sessions past twice their lifetime, and
    so never a session whose TTL has not elapsed. *)
Theorem sweep_spec now m : ok m →
  view (sweep now m) = filter (λ ks, past_grace now ks.2 = false) (view m) ∧
  (∀ id s, view m !! id = Some s → CreatedAt s ≤ ExpiresAt s → now ≤ ExpiresAt s →
     view (sweep now m) !! id = Some s).
Proof.
  intros Hok. split; [by apply view_sweep|]. intros id s Hs Hc Hn.
  rewrite view_sweep by done. apply map_lookup_filter_Some. split; [done|].
  unfold past_grace, After, Add, Sub, min_int64, max_int64. simpl. apply Z.ltb_ge.
  repeat case_match; reflect_bool; lia.
Qed.

End Memory.

(** ** Witnesses *)
Definition demo_session (id : string) (ttl : Duration) : Session :=
  mkSession id "alice" "ch" "cli" "host" "10.0.0.1" "" 0 1000 (1000 + ttl) "ABCD-2345"
    "" "" "" "" "" None 0 0 "" "" 0 StatePending false.

Definition demo_memory : Memory.Memory :=
  (Memory.create_value (demo_session "s1" 300) Memory.NewMemory).2.

Lemma demo_memory_ok : Memory.ok demo_memory.
Proof.
  destruct (Memory.create_value_spec (demo_session "s1" 300) _ Memory.NewMemory_ok)
    as (m' & H & Hok & _).
  unfold demo_memory. by rewrite H.
Qed.

(** A session with an identity in the map, and what [Get] makes of it. *)
Definition bound_session : Session :=
  with_Identity (Some (mkIdentity "sub-1" "alice" ∅)) (demo_session "s2" 300).
Definition bound_memory : Memory.Memory := (Memory.create_value bound_session demo_memory).2.
Definition got_memory : Memory.Memory := (Memory.Get "s2" bound_memory).2.
Definition mallory : Identity := mkIdentity "sub-9" "mallory" ∅.

Lemma bound_memory_ok : Memory.ok bound_memory.
Proof.
  destruct (Memory.create_value_spec bound_session demo_memory demo_memory_ok) as (m' & H & Hok & _).
  unfold bound_memory. by rewrite H.
Qed.


Lemma Create_aliases_caller_witness :
  let '(p, m1) := Memory.alloc (demo_session "s2" 300) demo_memory in
  Memory.view (Memory.Create p m1) !! "s2" = Some (demo_session "s2" 300) ∧
  Memory.view (Memory.write p (Memory.mkObject (demo_session "s2" 999) None) (Memory.Create p m1)) !! "s2"
    = Some (demo_session "s2" 999).
Proof.
  exact (Memory.Create_aliases_caller demo_memory (demo_session "s2" 300)
    (Memory.mkObject (demo_session "s2" 999) None) demo_memory_ok).
Defined.

Lemma sweep_spec_witness :
  Memory.view (Memory.sweep 1200 demo_memory) !! "s1" = Some (demo_session "s1" 300)
  ∧ Memory.view (Memory.sweep 1601 demo_memory) !! "s1" = None.
Proof.
  split; [|vm_compute; reflexivity].
  refine (proj2 (Memory.sweep_spec 1200 demo_memory demo_memory_ok) "s1" _ _ _ _);
    vm_compute; congruence.
Defined.
