(* ===== verification/Redis.v ===== *)
(** The shared store: [internal/store/redis.go].  A method is a script of
    Redis commands and clock readings; between two commands other replicas
    and the clock may move.  The server behind the go-redis client is the
    class [RedisServer] with its documented behaviour: strings under keys,
    each with an expiry instant. *)

From S2P Require Import Prelude GoStrings GoUtf8 GoTime GoJson GoFormat Session GoMarshal.
From S2P Require Import SessionJson Store.

Local Open Scope list_scope.

(** ** The server *)
Class RedisServer (R : Type) := {
  do_get : Time → string → R → result (option string) string * R;   (* [Ok None]: [redis.Nil] *)
  do_exists : Time → string → R → result Z string * R;
  do_set : Time → string → string → Duration → R → option string * R;
}.

(** The expiry go-redis sends: whole seconds or milliseconds, at least one. *)
Definition redis_ttl (d : Duration) : Duration :=
  if d <? Millisecond then Millisecond else d - d mod Millisecond.

(** Values with the instant they expire at. *)
Notation database := (gmap string (string * Time)).

Definition alive (now : Time) (ve : string * Time) : option string :=
  if now <=? ve.2 then Some ve.1 else None.

(** The keys that exist at an instant. *)
Definition live (now : Time) (d : database) : gmap string string := omap (alive now) d.

(** [d] is [d'] less some keys that have expired: no command issued from
    [now] on can tell the two apart. *)
Definition same_from (now : Time) (d d' : database) : Prop :=
  d ⊆ d' ∧ ∀ t, now ≤ t → live t d = live t d'.

Class RedisLaws (R : Type) `{RedisServer R} := {
  db : R → database;
  get_law : ∀ now k r x r', do_get now k r = (x, r') →
    same_from now (db r') (db r) ∧
    match x with Ok v => v = live now (db r) !! k | Err _ => True end;
  exists_law : ∀ now k r x r', do_exists now k r = (x, r') →
    same_from now (db r') (db r) ∧
    match x with
    | Ok n => n = match live now (db r) !! k with Some _ => 1 | None => 0 end
    | Err _ => True
    end;
  set_law : ∀ now k v ttl r e r', 0 < ttl → do_set now k v ttl r = (e, r') →
    match e with
    | None => same_from now (db r') (<[k := (v, now + redis_ttl ttl)]> (db r))
    | Some _ => same_from now (db r') (db r) ∨
                same_from now (db r') (<[k := (v, now + redis_ttl ttl)]> (db r))
    end;
}.

(** A server that answers every command. *)
Class ReliableRedis (R : Type) `{RedisServer R} := {
  get_reliable : ∀ now k r, is_ok (do_get now k r).1 = true;
  exists_reliable : ∀ now k r, is_ok (do_exists now k r).1 = true;
  set_reliable : ∀ now k v ttl r, (do_set now k v ttl r).1 = None;
}.

(** ** Scripts *)
Inductive command : Type → Type :=
  | CmdGet (k : string) : command (result (option string) string)
  | CmdExists (k : string) : command (result Z string)
  | CmdSet (k v : string) (ttl : Duration) : command (option string)
  | TimeNow : command Time.

Inductive script (A : Type) : Type :=
  | Done (a : A)
  | Cmd (X : Type) (c : command X) (k : X → script A).
Arguments Done {A} a.
Arguments Cmd {A X} c k.

Section run.
Context {R : Type} {RS : RedisServer R}.

Definition do_command {X} (now : Time) (c : command X) (r : R) : X * R :=
  match c in command X return X * R with
  | CmdGet k => do_get now k r
  | CmdExists k => do_exists now k r
  | CmdSet k v ttl => do_set now k v ttl r
  | TimeNow => (now, r)
  end.

(** The commands of a script are issued at the instants of [clock]. *)
Fixpoint run_from {A} (clock : nat → Time) (n : nat) (p : script A) (r : R) : A * R :=
  match p with
  | Done a => (a, r)
  | Cmd c k => let (x, r') := do_command (clock n) c r in run_from clock (S n) (k x) r'
  end.

(** A script within which the clock does not move. *)
Definition run_at {A} (now : Time) (p : script A) (r : R) : A * R := run_from (λ _, now) 0 p r.

End run.

(** ** The store *)
Definition default_prefix : string := "xdauth:session:".

(** The client is go-redis's; its address and password belong to the caller. *)
Record RedisConfig (C : Type) := mkRedisConfig {
  rc_Client : C;
  rc_KeyPrefix : string;
}.
Arguments mkRedisConfig {C} _ _.
Arguments rc_Client {C} _.
Arguments rc_KeyPrefix {C} _.

Record Redis (C : Type) := mkRedis {
  rd_client : C;
  rd_keyPrefix : string;
}.
Arguments mkRedis {C} _ _.
Arguments rd_client {C} _.
Arguments rd_keyPrefix {C} _.

Definition NewRedis {C} (cfg : RedisConfig C) : Redis C :=
  let prefix := rc_KeyPrefix cfg in
  let prefix := if is_empty prefix then default_prefix else prefix in
  mkRedis (rc_Client cfg) prefix.

(** The methods of a store with the given [keyPrefix]. *)
Section store.
Context `{loc : Location}.
Variable keyPrefix : string.

Definition key (id : string) : string := keyPrefix +:+ id.

(** [s.ExpiresAt.Add(s.ExpiresAt.Sub(s.CreatedAt))]. *)
Definition grace_end (s : Session) : Time := Add (ExpiresAt s) (Sub (ExpiresAt s) (CreatedAt s)).

(** [time.Until(...)], and a minute if nothing is left. *)
Definition write_ttl (s : Session) (now : Time) : Duration :=
  let ttl := Sub (grace_end s) now in if ttl <=? 0 then Minute else ttl.

Definition write (s : Session) : script (option store_error) :=
  match encode_session s with
  | None => Done (Some (ErrStore "store/redis: encode"))
  | Some raw =>
      Cmd TimeNow (λ now,
      Cmd (CmdSet (key (ID s)) raw (write_ttl s now)) (λ err,
      Done (match err with
            | Some e => Some (ErrStore ("store/redis: set: " +:+ e))
            | None => None
            end)))
  end.

Definition Create (s : Session) : script (option store_error) := write s.

Definition Get (id : string) : script (result Session store_error) :=
  Cmd (CmdGet (key id)) (λ got,
  Done (match got with
        | Ok None => Err ErrNotFound
        | Err e => Err (ErrStore ("store/redis: get: " +:+ e))
        | Ok (Some raw) =>
            match decode_session raw with
            | Some s => Ok s
            | None => Err (ErrStore "store/redis: decode")
            end
        end)).

Definition Update (s : Session) : script (option store_error) :=
  Cmd (CmdExists (key (ID s))) (λ got,
  match got with
  | Err e => Done (Some (ErrStore ("store/redis: exists: " +:+ e)))
  | Ok n => if n =? 0 then Done (Some ErrNotFound) else write s
  end).

(** ** What the database holds, as sessions *)
Definition view (now : Time) (d : database) (id : string) : option Session :=
  live now d !! key id ≫= decode_session.

(** Every value under the prefix is a session filed under its id. *)
Definition ok (now : Time) (d : database) : Prop :=
  ∀ id v, live now d !! key id = Some v → ∃ s, decode_session v = Some s ∧ ID s = id.

(** One session replaced. *)
Definition updated (s : Session) (f : string → option Session) (id : string) : option Session :=
  if decide (id = ID s) then Some s else f id.

(** *** Lemmas *)
Lemma key_inj id id' : key id = key id' → id = id'.
Proof.
  unfold key. intros H. apply (f_equal (string_drop (String.length keyPrefix))) in H.
  by rewrite !string_drop_app in H.
Qed.

Lemma write_ttl_pos s now : 0 < write_ttl s now.
Proof. unfold write_ttl. cbv zeta. case_match eqn:E; reflect_bool; [done|lia]. Qed.

Lemma redis_ttl_pos d : 0 < redis_ttl d.
Proof.
  unfold redis_ttl, Millisecond. case_match eqn:E; reflect_bool; [done|].
  pose proof (Z.mod_pos_bound d 1000000). pose proof (Z.mod_le d 1000000).
  destruct (decide (d = d mod 1000000)) as [Hd|]; [|lia].
  pose proof (Z.mod_pos_bound d 1000000 ltac:(done)). lia.
Qed.

Lemma live_insert now k v e d : now ≤ e → live now (<[k := (v, e)]> d) = <[k := v]> (live now d).
Proof.
  intros He. apply map_eq. intros i. unfold live. rewrite lookup_omap.
  destruct (decide (k = i)) as [<-|Hne].
  - rewrite !lookup_insert_eq. cbn [mbind option_bind]. unfold alive. cbn [fst snd].
    by rewrite (proj2 (Z.leb_le _ _) He).
  - rewrite !lookup_insert_ne by done. by rewrite lookup_omap.
Qed.

Lemma same_from_later now t d d' : now ≤ t → same_from now d d' → same_from t d d'.
Proof. intros Ht [Hd Hl]. split; [done|]. intros u Hu. apply Hl. lia. Qed.

Lemma view_same now d d' : same_from now d d' → ∀ id, view now d id = view now d' id.
Proof. intros Hs id. unfold view. by rewrite (proj2 Hs now ltac:(lia)). Qed.

Lemma ok_same now d d' : same_from now d d' → ok now d' → ok now d.
Proof. intros Hs Hok id v. rewrite (proj2 Hs now ltac:(lia)). apply Hok. Qed.

Lemma view_set now s raw e d : now ≤ e → decode_session raw = Some s → ∀ id,
  view now (<[key (ID s) := (raw, e)]> d) id = updated s (view now d) id.
Proof.
  intros He Hd id. unfold view, updated. rewrite live_insert by done. case_decide as E.
  - subst. by rewrite lookup_insert_eq.
  - rewrite lookup_insert_ne; [done|]. by intros ?%key_inj.
Qed.

Lemma ok_set now s raw e d : now ≤ e → decode_session raw = Some s → ok now d →
  ok now (<[key (ID s) := (raw, e)]> d).
Proof.
  intros He Hd Hok id v. rewrite live_insert by done.
  intros [[<-%key_inj <-]|[_ Hv]]%lookup_insert_Some; [by exists s|by apply Hok].
Qed.

(** As time passes keys and sessions disappear and none appears. *)
Lemma live_expires now t d k v : now ≤ t → live t d !! k = Some v → live now d !! k = Some v.
Proof.
  intros Ht. unfold live. rewrite !lookup_omap_Some. intros ([w e] & Ha & Hd).
  exists (w, e). split; [|done]. unfold alive in *. cbn [fst snd] in *.
  destruct (t <=? e) eqn:E; [|done]. reflect_bool. by rewrite (proj2 (Z.leb_le now e)) by lia.
Qed.

Lemma view_expires now t d id s : now ≤ t → view t d id = Some s → view now d id = Some s.
Proof.
  intros Ht. unfold view. intros (v & Hv & Hs)%bind_Some. apply bind_Some. exists v.
  split; [by eapply live_expires|done].
Qed.

(** Conditions under which [s] is stored as it reads back. *)
Definition storable (s : Session) : Prop :=
  session_printable s ∧ ValidString (ID s) = true.

Lemma encode_storable s raw : storable s → encode_session s = Some raw →
  decode_session raw = Some (norm_session s) ∧ ID (norm_session s) = ID s.
Proof.
  intros [Hp Hid] He. split; [|cbn; by apply to_valid_id].
  by apply (session_json_decode s raw Hp He).
Qed.

Context {R : Type} {RS : RedisServer R} {RL : RedisLaws R}.

(** What [write] does, at an instant after the one it was called at. *)
Lemma write_spec clock n s r e r' now : storable s → clock n ≤ now → clock (S n) = now →
  run_from clock n (write s) r = (e, r') → ok now (db r) →
  ok now (db r') ∧
  match e with
  | None => ∀ id, view now (db r') id = updated (norm_session s) (view now (db r)) id
  | Some ErrNotFound => False
  | Some _ =>
      (∀ id, view now (db r') id = view now (db r) id) ∨
      (∀ id, view now (db r') id = updated (norm_session s) (view now (db r)) id)
  end.
Proof.
  intros Hs Hn Hc Hr Hok. unfold write in Hr.
  destruct (encode_session s) as [raw|] eqn:E.
  2: { cbn in Hr. injection Hr as <- <-. auto. }
  destruct (encode_storable s raw Hs E) as [Hd Hid]. cbn in Hr. rewrite Hc in Hr.
  destruct (do_set now (key (ID s)) raw (write_ttl s (clock n)) r) as [err r1] eqn:Es.
  injection Hr as <- <-.
  pose proof (set_law _ _ _ _ _ _ _ (write_ttl_pos s (clock n)) Es) as Hset.
  set (d := <[key (ID s) := _]> (db r)) in Hset.
  assert (Hle : now ≤ now + redis_ttl (write_ttl s (clock n)))
    by (pose proof (redis_ttl_pos (write_ttl s (clock n))); lia).
  assert (Hokd : ok now d) by (unfold d; rewrite <-Hid; by eapply ok_set).
  assert (Hv : ∀ id, view now d id = updated (norm_session s) (view now (db r)) id)
    by (intros id; unfold d; rewrite <-Hid; by apply view_set).
  destruct err as [msg|].
  - split; [destruct Hset as [Hset|Hset]; by eapply ok_same|].
    destruct Hset as [Hset|Hset]; [left|right]; intros id; rewrite (view_same _ _ _ Hset); [done|apply Hv].
  - split; [by eapply ok_same|]. intros id. rewrite (view_same _ _ _ Hset). apply Hv.
Qed.

Lemma get_spec now id r x r' : run_at now (Get id) r = (x, r') → ok now (db r) →
  ok now (db r') ∧ (∀ id', view now (db r') id' = view now (db r) id') ∧
  match x with
  | Ok s => view now (db r) id = Some s ∧ ID s = id
  | Err ErrNotFound => view now (db r) id = None
  | Err _ => True
  end.
Proof.
  intros Hr Hok. unfold run_at in Hr. cbn in Hr.
  destruct (do_get now (key id) r) as [got r1] eqn:E. injection Hr as <- <-.
  destruct (get_law _ _ _ _ _ E) as [Hs Hx].
  split; [by eapply ok_same|]. split; [by apply view_same|].
  destruct got as [[raw|]|msg]; [| |done]; unfold view; rewrite <-Hx; [|done].
  symmetry in Hx. destruct (Hok _ _ Hx) as (s & Hd & Hi). cbn [mbind option_bind]. by rewrite Hd.
Qed.

Lemma update_spec now s r e r' : storable s → run_at now (Update s) r = (e, r') → ok now (db r) →
  ok now (db r') ∧
  match e with
  | None => is_Some (view now (db r) (ID s)) ∧
      ∀ id, view now (db r') id = updated (norm_session s) (view now (db r)) id
  | Some ErrNotFound => view now (db r) (ID s) = None ∧ ∀ id, view now (db r') id = view now (db r) id
  | Some _ =>
      (∀ id, view now (db r') id = view now (db r) id) ∨
      is_Some (view now (db r) (ID s)) ∧
      (∀ id, view now (db r') id = updated (norm_session s) (view now (db r)) id)
  end.
Proof.
  intros Hs Hr Hok. unfold run_at in Hr. cbn in Hr.
  destruct (do_exists now (key (ID s)) r) as [got r1] eqn:E.
  destruct (exists_law _ _ _ _ _ E) as [Hsame Hx].
  pose proof (ok_same _ _ _ Hsame Hok) as Hok1. pose proof (view_same _ _ _ Hsame) as Hv.
  destruct got as [n|msg].
  2: { cbn in Hr. injection Hr as <- <-. auto. }
  destruct (live now (db r) !! key (ID s)) as [v|] eqn:El; subst n; cbn in Hr.
  - assert (Hsome : is_Some (view now (db r) (ID s))).
    { unfold view. rewrite El. destruct (Hok _ _ El) as (s' & Hd & _). cbn. rewrite Hd. by eexists. }
    destruct (write_spec (λ _, now) 1 s r1 e r' now Hs (Z.le_refl now) eq_refl Hr Hok1) as [Hok2 Hw].
    split; [done|]. destruct e as [[|msg]|]; [done| |].
    + destruct Hw as [Hw|Hw]; [left|right; split; [done|]]; intros id; rewrite Hw; [done|].
      unfold updated. by rewrite Hv.
    + split; [done|]. intros id. rewrite Hw. unfold updated. by rewrite Hv.
  - injection Hr as <- <-. split; [done|]. split; [|done]. unfold view. by rewrite El.
Qed.

(** ** Lifetimes *)

(** A successful write: the session is there until its expiry and not after. *)
Lemma write_lifetime clock n now s r r' : storable s → clock (S n) = now →
  run_from clock n (write s) r = (None, r') → ∀ t, now ≤ t →
  view t (db r') (ID s) =
    if t <=? now + redis_ttl (write_ttl s (clock n)) then Some (norm_session s) else None.
Proof.
  intros Hs Hc Hr t Ht. unfold write in Hr.
  destruct (encode_session s) as [raw|] eqn:E; [|done].
  destruct (encode_storable s raw Hs E) as [Hd _]. cbn in Hr. rewrite Hc in Hr.
  destruct (do_set now (key (ID s)) raw (write_ttl s (clock n)) r) as [[msg|] r1] eqn:Es;
    [done|]. injection Hr as <-.
  pose proof (set_law _ _ _ _ _ _ _ (write_ttl_pos s (clock n)) Es) as Hset.
  apply (same_from_later _ t) in Hset; [|done]. rewrite (view_same t _ _ Hset). unfold view, live. rewrite lookup_omap.
  rewrite lookup_insert_eq. cbn [mbind option_bind]. unfold alive. cbn [fst snd].
  by destruct (t <=? _).
Qed.

(** The arithmetic of the lifetime, within [int64]. *)
Definition lifetime_ok (s : Session) (now : Time) : Prop :=
  is_int64 (ExpiresAt s - CreatedAt s) ∧ is_int64 (grace_end s - now).

Lemma write_ttl_exact s now : lifetime_ok s now → write_ttl s now =
  if grace_end s - now <=? 0 then Minute else grace_end s - now.
Proof. intros [_ H]. unfold write_ttl. cbv zeta. by rewrite (Sub_exact (grace_end s) now H). Qed.

Lemma redis_ttl_bounds d : 0 < d → d - Millisecond < redis_ttl d < d + Millisecond.
Proof.
  unfold redis_ttl, Millisecond. intros Hd. pose proof (Z.mod_pos_bound d 1000000 ltac:(done)).
  case_match eqn:E; reflect_bool; lia.
Qed.

(** C28: up to a millisecond, Redis keeps a written session exactly
    as long as [Memory]'s sweep would: it is found while it is not past twice
    its lifetime, and not after.  A session already past it is kept for
    another minute, which [Memory] never does. *)
Theorem redis_lifetime_matches_memory now s r r' : storable s → lifetime_ok s now →
  run_at now (write s) r = (None, r') → ∀ t, now ≤ t →
  (Memory.past_grace now s = false → now ≠ grace_end s →
     (Memory.past_grace (t + Millisecond) s = false →
        view t (db r') (ID s) = Some (norm_session s)) ∧
     (Memory.past_grace (t - Millisecond) s = true → view t (db r') (ID s) = None)) ∧
  (Memory.past_grace now s = true →
     view t (db r') (ID s) = if t <=? now + Minute then Some (norm_session s) else None).
Proof.
  intros Hs Hl Hr t Ht.
  pose proof (write_lifetime (λ _, now) 0 now s r r' Hs eq_refl Hr t Ht) as Hv. cbv beta in Hv.
  rewrite write_ttl_exact in Hv by done. unfold Memory.past_grace, After.
  fold (grace_end s). split.
  - intros Hn Hne. reflect_bool.
    rewrite (proj2 (Z.leb_gt (grace_end s - now) 0)) in Hv by lia.
    pose proof (redis_ttl_bounds (grace_end s - now) ltac:(lia)). split; intros Hp; reflect_bool; rewrite Hv.
    + by rewrite (proj2 (Z.leb_le _ _)) by lia.
    + by rewrite (proj2 (Z.leb_gt _ _)) by lia.
  - intros Hn. reflect_bool. rewrite (proj2 (Z.leb_le (grace_end s - now) 0)) in Hv by lia. exact Hv.
Qed.

(** ** Update is not atomic *)

(** C29: [Update] looks for the key and then writes it, in two
    commands.  If the key expires in between, the session [Update] should
    have refused is stored again, and found for another minute. *)
Theorem redis_update_resurrects `{!ReliableRedis R} clock s r e r' :
  storable s → lifetime_ok s (clock 1%nat) → is_Some (encode_session s) →
  ok (clock 0%nat) (db r) → clock 0%nat ≤ clock 1%nat → clock 2%nat = clock 1%nat →
  is_Some (view (clock 0%nat) (db r) (ID s)) → view (clock 1%nat) (db r) (ID s) = None →
  grace_end s ≤ clock 1%nat →
  run_from clock 0 (Update s) r = (e, r') →
  e = None ∧ ∀ t, clock 1%nat ≤ t ≤ clock 1%nat + Minute →
    view t (db r') (ID s) = Some (norm_session s).
Proof.
  intros Hs Hl [raw He] Hok Hle Hc2 [s0 Hs0] Hgone Hg Hr. cbn in Hr.
  pose proof (exists_reliable (clock 0%nat) (key (ID s)) r) as Hrel.
  destruct (do_exists (clock 0%nat) (key (ID s)) r) as [got r1] eqn:E. cbn in Hrel.
  destruct (exists_law _ _ _ _ _ E) as [_ Hx]. destruct got as [n|]; [|done].
  assert (Hn : n = 1).
  { unfold view in Hs0. by destruct (live (clock 0%nat) (db r) !! key (ID s)). }
  subst n. rewrite Hn in Hr. cbn [Z.eqb Pos.eqb] in Hr.
  assert (Hnone : e = None).
  { unfold write in Hr. rewrite He in Hr. cbn in Hr.
    pose proof (set_reliable (clock 2%nat) (key (ID s)) raw (write_ttl s (clock 1%nat)) r1) as Hset.
    destruct (do_set _ _ _ _ r1) as [err r2]. cbn in Hset. subst err. by injection Hr as <- <-. }
  split; [done|]. subst e. intros t Ht.
  rewrite (write_lifetime clock 1 (clock 1%nat) s r1 r' Hs Hc2 Hr t) by lia.
  rewrite write_ttl_exact by done. rewrite (proj2 (Z.leb_le (grace_end s - _) 0)) by lia.
  change (redis_ttl Minute) with Minute. by rewrite (proj2 (Z.leb_le _ _)) by lia.
Qed.

(** C26: over any Redis that behaves as documented, with no command of
    another replica in between, the store is a map from ids to sessions, each
    as it reads back from JSON: [Create] and [Update] replace one entry or,
    when the server fails, possibly none; [Update] refuses an unknown id;
    [Get] answers the entry, and "not found" exactly when there is none.
    Every value stays a session filed under its own id. *)
Theorem Redis_refines_map now id s r : storable s → ok now (db r) →
  (∀ e r', run_at now (Create s) r = (e, r') →
     ok now (db r') ∧
     match e with
     | None => ∀ i, view now (db r') i = updated (norm_session s) (view now (db r)) i
     | Some ErrNotFound => False
     | Some _ => (∀ i, view now (db r') i = view now (db r) i) ∨
                 (∀ i, view now (db r') i = updated (norm_session s) (view now (db r)) i)
     end) ∧
  (∀ x r', run_at now (Get id) r = (x, r') →
     ok now (db r') ∧ (∀ i, view now (db r') i = view now (db r) i) ∧
     match x with
     | Ok s' => view now (db r) id = Some s' ∧ ID s' = id
     | Err ErrNotFound => view now (db r) id = None
     | Err _ => True
     end) ∧
  (∀ e r', run_at now (Update s) r = (e, r') →
     ok now (db r') ∧
     match e with
     | None => is_Some (view now (db r) (ID s)) ∧
               ∀ i, view now (db r') i = updated (norm_session s) (view now (db r)) i
     | Some ErrNotFound => view now (db r) (ID s) = None ∧
                           ∀ i, view now (db r') i = view now (db r) i
     | Some _ => (∀ i, view now (db r') i = view now (db r) i) ∨
                 is_Some (view now (db r) (ID s)) ∧
                 (∀ i, view now (db r') i = updated (norm_session s) (view now (db r)) i)
     end) ∧
  (∀ t, now ≤ t → ok t (db r) ∧ ∀ i s', view t (db r) i = Some s' → view now (db r) i = Some s').
Proof.
  intros Hs Hok. split.
  { intros e r' Hr. by apply (write_spec (λ _, now) 0 s r e r' now Hs (Z.le_refl now) eq_refl Hr). }
  split; [intros x r' Hr; by apply (get_spec now id r x r' Hr)|].
  split; [intros e r' Hr; by apply (update_spec now s r e r' Hs Hr)|].
  intros t Ht. split; [|intros i s'; by apply view_expires].
  intros i v Hv. apply (Hok i v). by eapply live_expires.
Qed.

End store.

(** ** A server in memory, and witnesses *)
Definition Server := gmap string (string * Time).

#[export] Instance Server_Redis : RedisServer Server := {
  do_get now k r := (Ok (live now r !! k), r);
  do_exists now k r := (Ok match live now r !! k with Some _ => 1 | None => 0 end, r);
  do_set now k v ttl r := (None, <[k := (v, now + redis_ttl ttl)]> r);
}.

#[export] Program Instance Server_Laws : RedisLaws Server := { db r := r }.
Next Obligation. intros now k r x r' [= <- <-]. by split. Qed.
Next Obligation. intros now k r x r' [= <- <-]. by split. Qed.
Next Obligation. by intros now k v ttl r e r' _ [= <- <-]. Qed.

#[export] Instance Server_Reliable : ReliableRedis Server.
Proof. by split. Qed.

Definition empty_server : Server := ∅.

Lemma empty_ok (loc : Location) p now : @ok loc p now (db empty_server).
Proof.
  intros id v. unfold live. change (db empty_server) with (∅ : gmap string (string * Time)).
  by rewrite omap_empty, lookup_empty.
Qed.

(** A session of five minutes created at second one, and a second later. *)
Definition redis_demo : Session := demo_session "s1" (300 * Second).

Lemma redis_demo_storable : @storable UTC redis_demo.
Proof.
  split; [|vm_compute; reflexivity]. split.
  - by split.
  - by split.
  - by right.
  - by right.
  - by left.
  - by left.
  - by intros i [=].
  - by vm_compute.
Qed.

Definition redis_demo_text : string := default "" (@encode_session UTC redis_demo).

Lemma session_json_roundtrip_witness :
  @decode_session UTC redis_demo_text = Some redis_demo.
Proof.
  refine (proj2 (@session_json_roundtrip UTC redis_demo redis_demo_text
    (proj1 redis_demo_storable) _) _).
  - vm_compute. reflexivity.
  - split; [repeat constructor|]. by intros i [=].
Defined.

(** The server after the session was created at second one. *)
Definition redis_now : Time := Second.
Definition redis_created : Server :=
  (run_at redis_now (@Create UTC default_prefix redis_demo) empty_server).2.

Lemma redis_created_ok : @ok UTC default_prefix redis_now (db redis_created).
Proof.
  exact (proj1 (write_spec default_prefix (λ _, redis_now) 0 redis_demo empty_server None
    redis_created redis_now redis_demo_storable (Z.le_refl _) eq_refl eq_refl
    (empty_ok UTC default_prefix redis_now))).
Qed.

Lemma redis_get_created :
  run_at redis_now (@Get UTC default_prefix "s1") redis_created = (Ok redis_demo, redis_created).
Proof. vm_compute. reflexivity. Qed.

Lemma Redis_refines_map_witness :
  @view UTC default_prefix redis_now (db redis_created) "s1" = Some redis_demo.
Proof.
  refine (proj1 (proj2 (proj2 (proj1 (proj2 (Redis_refines_map default_prefix redis_now "s1"
    redis_demo redis_created redis_demo_storable redis_created_ok))
    (Ok redis_demo) redis_created redis_get_created)))).
Defined.

(** Created at second one, it is found until a millisecond before minute ten
    and gone a millisecond after. *)
Lemma redis_lifetime_matches_memory_witness :
  @view UTC default_prefix (590 * Second) (db redis_created) "s1" = Some redis_demo ∧
  @view UTC default_prefix (601 * Second) (db redis_created) "s1" = None.
Proof.
  assert (Hw : run_at redis_now (@write UTC default_prefix redis_demo) empty_server
    = (None, redis_created)) by (vm_compute; reflexivity).
  assert (Hl : lifetime_ok redis_demo redis_now) by (split; vm_compute; split; congruence).
  split.
  - refine (proj1 (proj1 (redis_lifetime_matches_memory default_prefix redis_now redis_demo
      empty_server redis_created redis_demo_storable Hl Hw (590 * Second) _) _ _) _);
      vm_compute; congruence.
  - refine (proj2 (proj1 (redis_lifetime_matches_memory default_prefix redis_now redis_demo
      empty_server redis_created redis_demo_storable Hl Hw (601 * Second) _) _ _) _);
      vm_compute; congruence.
Defined.

(** The key is looked for at minute nine and written after it expired. *)
Definition redis_race_clock (n : nat) : Time := match n with O => 590 * Second | _ => 601 * Second end.

Lemma redis_update_resurrects_witness :
  (run_from redis_race_clock 0 (@Update UTC default_prefix redis_demo) redis_created).1 = None ∧
  @view UTC default_prefix (601 * Second) (db redis_created) "s1" = None ∧
  @view UTC default_prefix (660 * Second)
    (db (run_from redis_race_clock 0 (@Update UTC default_prefix redis_demo) redis_created).2) "s1"
    = Some redis_demo.
Proof.
  assert (Hl : lifetime_ok redis_demo (601 * Second)) by (split; vm_compute; split; congruence).
  assert (He : is_Some (@encode_session UTC redis_demo)) by (eexists; vm_compute; reflexivity).
  assert (Hok : @ok UTC default_prefix (590 * Second) (db redis_created)).
  { intros id v Hv. apply redis_created_ok. eapply live_expires; [|exact Hv]. vm_compute. congruence. }
  assert (Hold : is_Some (@view UTC default_prefix (590 * Second) (db redis_created) "s1"))
    by (eexists; vm_compute; reflexivity).
  assert (Hgone : @view UTC default_prefix (601 * Second) (db redis_created) "s1" = None)
    by (vm_compute; reflexivity).
  pose proof (redis_update_resurrects default_prefix redis_race_clock redis_demo redis_created
    None (run_from redis_race_clock 0 (@Update UTC default_prefix redis_demo) redis_created).2
    redis_demo_storable Hl He Hok) as Ht.
  split; [vm_compute; reflexivity|]. split; [exact Hgone|].
  refine (proj2 (Ht _ eq_refl Hold Hgone _ _) (660 * Second) _);
    [vm_compute; congruence|vm_compute; congruence|vm_compute; reflexivity|
     vm_compute; split; congruence].
Defined.
