(* ===== verification/Http.v ===== *)
(** The parts of [net/http] the handlers read and write: the request after
    the server parsed it, cookies, and status codes.  The body is its bytes,
    the form is the outcome of [ParseForm]; chi's URL parameter is an argument
    of the handler that reads it. *)

From S2P Require Import Prelude GoTime Session.

Record Request := mkRequest {
  RemoteAddr : string;
  Header : list (string * list string);      (* canonical keys *)
  TLS : option (list string);                (* PeerCertificates: Subject.CommonName *)
  Cookies : list (string * string);
  Body : string;
  Form : option (list (string * string));    (* body parameters first, then the query *)
  PostForm : list (string * string);         (* body parameters only *)
  Query : list (string * string);            (* URL query *)
}.

(** First value of a key in an ordered list of pairs. *)
Fixpoint first_value {A} (k : string) (l : list (string * A)) : option A :=
  match l with
  | [] => None
  | (k', v) :: l' => if seqb k k' then Some v else first_value k l'
  end.

(** [r.Header.Get(key)]: the first value only. *)
Definition Header_Get (r : Request) (key : string) : string :=
  match first_value key (Header r) with
  | Some (v :: _) => v
  | _ => ""
  end.

(** [r.Cookie(name)]: the first cookie of that name. *)
Definition Request_Cookie (r : Request) (name : string) : option string :=
  first_value name (Cookies r).

(** [r.FormValue], [r.PostFormValue] (after a successful [ParseForm]), [q.Get]. *)
Definition FormValue (r : Request) (key : string) : string :=
  default "" (Form r ≫= first_value key).
Definition PostFormValue (r : Request) (key : string) : string :=
  default "" (first_value key (PostForm r)).
Definition Query_Get (r : Request) (key : string) : string :=
  default "" (first_value key (Query r)).

(** ** Responses *)
Inductive SameSite := SameSiteLaxMode | SameSiteNoneMode.

#[export] Instance SameSite_eq_dec : EqDecision SameSite.
Proof. solve_decision. Defined.

Record Cookie := mkCookie {
  c_Name : string;
  c_Value : string;
  c_Path : string;
  c_MaxAge : Z;
  c_HttpOnly : bool;
  c_Secure : bool;
  c_SameSite : SameSite;
}.

(** [http.StatusXxx]. *)
Definition StatusOK : Z := 200.
Definition StatusFound : Z := 302.
Definition StatusBadRequest : Z := 400.
Definition StatusUnauthorized : Z := 401.
Definition StatusForbidden : Z := 403.
Definition StatusNotFound : Z := 404.
Definition StatusConflict : Z := 409.
Definition StatusGone : Z := 410.
Definition StatusTooManyRequests : Z := 429.
Definition StatusInternalServerError : Z := 500.
Definition StatusBadGateway : Z := 502.
