(* ===== verification/ClientIP.v ===== *)
(** Client address resolution and network gating: [internal/broker/clientip.go]. *)

From S2P Require Import Prelude GoStrings Http Netip.

Local Open Scope list_scope.

Definition isTrustedHost (host : string) (trusted : list Prefix) : bool :=
  match ParseAddr host with
  | None => false
  | Some addr => existsb (λ p, Contains p addr) trusted
  end.

(** The loop over the hops from the last to the first. *)
Fixpoint last_untrusted (rev_hops : list string) (trusted : list Prefix) : option string :=
  match rev_hops with
  | [] => None
  | h :: hs =>
      let hop := TrimSpace h in
      if negb (isTrustedHost hop trusted) then Some hop else last_untrusted hs trusted
  end.

Definition peer_host (r : Request) : string :=
  default (RemoteAddr r) (SplitHostPort_host (RemoteAddr r)).

Definition resolveClientIP (r : Request) (trusted : list Prefix) : string :=
  let host := peer_host r in
  if negb (isTrustedHost host trusted) then host else
  let xff := Header_Get r "X-Forwarded-For" in
  if is_empty xff then host else
  match last_untrusted (reverse (Split xff ",")) trusted with
  | Some hop => hop
  | None => host
  end.

Definition isAllowedClient (ip : string) (allowed : list Prefix) : bool :=
  match allowed with
  | [] => true
  | _ =>
      match ParseAddr ip with
      | None => false
      | Some addr => existsb (λ p, Contains p addr) allowed
      end
  end.

(** ** Lemmas *)
Lemma Split_app a b c : 
  Split (a +:+ String c b) c = Split a c ++ Split b c.
Proof.
  induction a as [|d a IH]; simpl.
  - by rewrite Ascii.eqb_refl.
  - change (String.append a (String c b)) with (a +:+ String c b). rewrite IH.
    case_match; [done|]. pose proof (Split_nonempty a c).
    destruct (Split a c); [congruence|reflexivity].
Qed.

Lemma last_untrusted_app hs gs trusted :
  last_untrusted (hs ++ gs) trusted =
  match last_untrusted hs trusted with
  | Some h => Some h | None => last_untrusted gs trusted end.
Proof. induction hs as [|h hs IH]; simpl; [done|]. destruct (negb _); [done|exact IH]. Qed.

Lemma last_untrusted_Some hs trusted h : last_untrusted hs trusted = Some h →
  isTrustedHost h trusted = false ∧
  ∃ l1 h0 l2, hs = l1 ++ h0 :: l2 ∧ h = TrimSpace h0
    ∧ Forall (λ x, isTrustedHost (TrimSpace x) trusted = true) l1.
Proof.
  induction hs as [|g hs IH]; simpl; [done|]. case_match eqn:E.
  - intros [= <-]. apply negb_true_iff in E. split; [done|]. by exists [], g, hs.
  - intros H. destruct (IH H) as (Hh & l1 & h0 & l2 & -> & -> & Hf).
    split; [done|]. exists (g :: l1), h0, l2. split; [done|]. split; [done|].
    constructor; [|done]. by apply negb_false_iff in E.
Qed.

(** C33: a peer outside the trusted proxies is identified by its own address
    whatever headers it sends; behind a trusted proxy the answer is the peer
    or the rightmost hop that is not a trusted proxy, and text a client puts
    to the left of that hop does not change it. *)
Theorem resolveClientIP_not_spoofable r trusted :
  (isTrustedHost (peer_host r) trusted = false → resolveClientIP r trusted = peer_host r) ∧
  (isTrustedHost (resolveClientIP r trusted) trusted = true →
     resolveClientIP r trusted = peer_host r) ∧
  (∀ spoofed hops r', Header_Get r "X-Forwarded-For" = hops → hops ≠ "" →
     Header_Get r' "X-Forwarded-For" = spoofed +:+ String "," hops →
     RemoteAddr r' = RemoteAddr r →
     is_Some (last_untrusted (reverse (Split hops ",")) trusted) →
     resolveClientIP r' trusted = resolveClientIP r trusted).
Proof.
  split_and!.
  - intros H. unfold resolveClientIP. by rewrite H.
  - unfold resolveClientIP. case_match; [done|]. case_match; [done|].
    case_match eqn:E; [|done]. apply last_untrusted_Some in E as [E _]. congruence.
  - intros spoofed hops r' Hh Hne Hh' Hr [h Hs].
    unfold resolveClientIP, peer_host. rewrite Hh, Hh', Hr.
    case_match; [done|]. rewrite (proj2 (is_empty_false hops) Hne).
    rewrite (proj2 (is_empty_false _)) by (by destruct spoofed).
    by rewrite Split_app, reverse_app, last_untrusted_app, Hs.
Qed.

(** With a non-empty allow list only an address that parses and lies in
    one of the prefixes may start a session; an empty list gates nothing. *)
Theorem isAllowedClient_correct ip allowed :
  isAllowedClient ip allowed = true ↔
  allowed = [] ∨ ∃ a p, ParseAddr ip = Some a ∧ In p allowed ∧ Contains p a = true.
Proof.
  unfold isAllowedClient. destruct allowed as [|p ps]; [naive_solver|].
  destruct (ParseAddr ip) as [a|]; [|naive_solver].
  rewrite existsb_exists. naive_solver.
Qed.

Definition demo_proxies : list Prefix :=
  match ParsePrefix "10.0.0.0/8" with Some p => [p] | None => [] end.
Definition demo_request (xff : string) : Request :=
  mkRequest "10.0.0.9:4711" [("X-Forwarded-For", [xff])] None [] EmptyString None [] [].

Lemma resolveClientIP_not_spoofable_witness :
  resolveClientIP (demo_request "6.6.6.6,198.51.100.7, 10.2.0.1") demo_proxies
  = resolveClientIP (demo_request "198.51.100.7, 10.2.0.1") demo_proxies
  ∧ resolveClientIP (demo_request "198.51.100.7, 10.2.0.1") demo_proxies = "198.51.100.7".
Proof.
  split; [|vm_compute; reflexivity].
  refine (proj2 (proj2 (resolveClientIP_not_spoofable
    (demo_request "198.51.100.7, 10.2.0.1") demo_proxies))
    "6.6.6.6" "198.51.100.7, 10.2.0.1" (demo_request "6.6.6.6,198.51.100.7, 10.2.0.1")
    eq_refl _ eq_refl eq_refl _).
  - discriminate.
  - exists "198.51.100.7". vm_compute. reflexivity.
Defined.
