(* ===== verification/ClientAuth.v ===== *)
(** Client authentication of /auth/start: [internal/broker/clientauth.go]. *)

From S2P Require Import Prelude GoStrings GoCrypto Http.

Local Open Scope list_scope.

Inductive auth_error := ErrClientNotAuthenticated.

(** The interface: verify the caller, return its client id. *)
Definition ClientAuthenticator := Request → result string auth_error.

(** [for known, id := range a.Tokens]: Go iterates in an unspecified order,
    here the order of the list. *)
Fixpoint token_loop (token : string) (entries : list (string * string)) : result string auth_error :=
  match entries with
  | [] => Err ErrClientNotAuthenticated
  | (known, id) :: rest =>
      if ConstantTimeCompare token known =? 1 then Ok id else token_loop token rest
  end.

Definition StaticToken_Authenticate (entries : list (string * string)) : ClientAuthenticator :=
  λ r,
    let auth := Header_Get r "Authorization" in
    if negb (HasPrefix auth "Bearer ") then Err ErrClientNotAuthenticated
    else token_loop (TrimPrefix auth "Bearer ") entries.

(** [StaticTokenClientAuth{Tokens: tokens}]. *)
Definition StaticTokenClientAuth (tokens : gmap string string) : ClientAuthenticator :=
  StaticToken_Authenticate (map_to_list tokens).

Definition MTLSClientAuth : ClientAuthenticator :=
  λ r, match TLS r with
       | Some (cn :: _) => Ok cn
       | _ => Err ErrClientNotAuthenticated
       end.

Lemma token_loop_lookup token (entries : list (string * string)) (m : gmap string string) :
  NoDup (entries.*1) → (∀ k v, (k, v) ∈ entries ↔ m !! k = Some v) →
  token_loop token entries =
  match m !! token with Some id => Ok id | None => Err ErrClientNotAuthenticated end.
Proof.
  revert m. induction entries as [|[k v] es IH]; intros m Hnd Hm; simpl.
  - destruct (m !! token) as [id|] eqn:E; [|done]. by apply Hm, elem_of_nil in E.
  - rewrite ConstantTimeCompare_1. simpl in Hnd. apply list.NoDup_cons in Hnd as [Hk Hnd].
    destruct (seqb token k) eqn:Et.
    + apply seqb_true in Et as ->. by rewrite (proj1 (Hm k v) ltac:(by left)).
    + apply seqb_false in Et. rewrite (IH (delete k m)); [by rewrite lookup_delete_ne|done|].
      intros k' v'. rewrite lookup_delete_Some, <-Hm, elem_of_cons.
      split; [|naive_solver]. intros Hin. split; [|by right]. intros ->.
      apply Hk. apply list_elem_of_fmap. by exists (k', v').
Qed.

(** C34: whatever order Go ranges over the map, a caller is authenticated
    exactly when its Authorization header is "Bearer " followed by a configured
    token, as that token's client id; the iteration order never matters. *)
Theorem StaticToken_order_independent (tokens : gmap string string) order r :
  Permutation order (map_to_list tokens) →
  StaticToken_Authenticate order r = StaticTokenClientAuth tokens r ∧
  ∀ id, StaticTokenClientAuth tokens r = Ok id ↔
    ∃ token, Header_Get r "Authorization" = "Bearer " +:+ token ∧ tokens !! token = Some id.
Proof.
  intros Hp. unfold StaticTokenClientAuth, StaticToken_Authenticate.
  assert (Hl : ∀ l, Permutation l (map_to_list tokens) → ∀ token, token_loop token l =
    match tokens !! token with Some id => Ok id | None => Err ErrClientNotAuthenticated end).
  { intros l Hl token. apply token_loop_lookup.
    - rewrite Hl. apply NoDup_fst_map_to_list.
    - intros k v. rewrite Hl. apply elem_of_map_to_list. }
  rewrite !Hl by done. split; [done|]. intros id.
  destruct (HasPrefix (Header_Get r "Authorization") "Bearer ") eqn:E; simpl.
  - pose proof (HasPrefix_inv _ _ E) as Hi. split.
    + intros Hx. eexists. split; [exact Hi|]. by destruct (tokens !! _); simplify_eq.
    + intros (token & Ht & Hlk). rewrite Ht, TrimPrefix_app. by rewrite Hlk.
  - split; [done|]. intros (token & Ht & _). rewrite Ht in E.
    by rewrite HasPrefix_app in E.
Qed.

Definition demo_tokens : gmap string string := {["t0k3n" := "bastion-01"]}.
Definition demo_auth_request : Request :=
  mkRequest "10.0.0.9:1" [("Authorization", ["Bearer t0k3n"])] None [] EmptyString None [] [].

Lemma StaticToken_order_independent_witness :
  StaticToken_Authenticate (map_to_list demo_tokens) demo_auth_request
    = StaticTokenClientAuth demo_tokens demo_auth_request
  ∧ StaticTokenClientAuth demo_tokens demo_auth_request = Ok "bastion-01".
Proof.
  split; [exact (proj1 (StaticToken_order_independent demo_tokens _ demo_auth_request
    (Permutation_refl _)))|vm_compute; reflexivity].
Defined.
