(* ===== verification/Detect.v ===== *)
(** The abuse detector: [internal/broker/detect.go].  [Observe] returns the
    events it hands to [onEvent], in order, and the new counters; it runs
    under the detector's mutex, so it is one atomic step. *)

From S2P Require Import Prelude GoTime.

Local Open Scope list_scope.

Record SecurityEvent := mkSecurityEvent {
  se_Kind : string;
  se_SessionID : string;
  se_Key : string;
  se_At : Time;
}.

Definition EventWrongCode : string := "wrong_code".
Definition EventRepeatedStart : string := "repeated_start".
Definition EventConsumedReplay : string := "consumed_replay".
Definition EventIdentityMismatch : string := "identity_mismatch".
Definition EventSuspectedAbuse : string := "suspected_abuse".

Record abuseThresholds := mkThresholds {
  th_WrongCode : Z;
  th_RepeatedStart : Z;
  th_IdentityMismatch : Z;
  th_Window : Duration;
}.

Definition defaultAbuseThresholds : abuseThresholds := mkThresholds 3 5 3 (5 * Minute).

Record counterEntry := mkCounter { count : Z; windowEnd : Time }.

Record detector := mkDetector {
  counts : gmap string counterEntry;
  thresholds : abuseThresholds;
}.

Definition newDetector (th : abuseThresholds) : detector := mkDetector ∅ th.

Definition thresholdFor (d : detector) (kind : string) : Z :=
  if seqb kind EventWrongCode then th_WrongCode (thresholds d)
  else if seqb kind EventRepeatedStart then th_RepeatedStart (thresholds d)
  else if seqb kind EventIdentityMismatch then th_IdentityMismatch (thresholds d)
  else 0.

Definition map_key (kind key : string) : string := kind +:+ "|" +:+ key.

(** The live entry of a key, or a fresh one whose window starts now. *)
Definition entry_for (d : detector) (mk : string) (now : Time) : counterEntry :=
  let fresh := mkCounter 0 (Add now (th_Window (thresholds d))) in
  match counts d !! mk with
  | Some e => if After now (windowEnd e) then fresh else e
  | None => fresh
  end.

Definition tripped (d : detector) (kind key : string) (threshold : Z) (now : Time)
    : bool * detector :=
  let mk := map_key kind key in
  let e := entry_for d mk now in
  let e := mkCounter (wrap64 (count e + 1)) (windowEnd e) in
  (count e =? threshold, mkDetector (<[mk := e]> (counts d)) (thresholds d)).

Definition Observe (d : detector) (kind key sessionID : string) (now : Time)
    : list SecurityEvent * detector :=
  let evt := mkSecurityEvent kind sessionID key now in
  let threshold := thresholdFor d kind in
  if threshold <=? 0 then ([evt], d) else
  let (t, d) := tripped d kind key threshold now in
  if t then ([evt; mkSecurityEvent EventSuspectedAbuse sessionID (kind +:+ ":" +:+ key) now], d)
  else ([evt], d).

(** [abuseWebhook.fire] is reached for [suspected_abuse] only. *)
Definition forwarded (evts : list SecurityEvent) : list SecurityEvent :=
  filter (λ e, se_Kind e = EventSuspectedAbuse) evts.

(** ** Keys *)
Definition no_bar (s : string) : bool := string_all (λ c, negb (Ascii.eqb c "|")) s.

Lemma map_key_inj k1 x1 k2 x2 : no_bar k1 = true → no_bar k2 = true →
  map_key k1 x1 = map_key k2 x2 → k1 = k2 ∧ x1 = x2.
Proof.
  unfold map_key, no_bar. revert k2. induction k1 as [|c k1 IH]; intros [|d k2]; simpl;
    rewrite ?andb_true_iff, ?negb_true_iff, ?string_app_cons, ?string_app_nil_l.
  - intros _ _ He. by injection He.
  - intros _ [Hd _] He. injection He as Hc _. by rewrite <-Hc in Hd.
  - intros [Hd _] _ He. injection He as Hc _. by rewrite Hc in Hd.
  - intros [_ H1] [_ H2] He. injection He as -> He. by destruct (IH k2 H1 H2 He) as [-> ->].
Qed.

(** The kinds that are counted. *)
Definition counted (kind : string) : Prop :=
  kind = EventWrongCode ∨ kind = EventRepeatedStart ∨ kind = EventIdentityMismatch.

Lemma counted_no_bar k : counted k → no_bar k = true.
Proof. by intros [-> | [-> | ->]]. Qed.

(** ** Sequences of observations *)
Record observation := mkObs { o_kind : string; o_key : string; o_sid : string; o_now : Time }.

Definition observe1 (o : observation) (d : detector) : list SecurityEvent * detector :=
  Observe d (o_kind o) (o_key o) (o_sid o) (o_now o).

Fixpoint observe_all (os : list observation) (d : detector) : list SecurityEvent * detector :=
  match os with
  | [] => ([], d)
  | o :: os' =>
      let (e1, d1) := observe1 o d in
      let (e2, d2) := observe_all os' d1 in (e1 ++ e2, d2)
  end.

(** Alarms raised for a kind and key. *)
Definition is_alarm (kind key : string) (o : observation) (evts : list SecurityEvent) : nat :=
  if decide (o_kind o = kind ∧ o_key o = key) then length (forwarded evts) else 0.

Fixpoint alarms (kind key : string) (os : list observation) (d : detector) : nat :=
  match os with
  | [] => 0
  | o :: os' =>
      let (e1, d1) := observe1 o d in
      (is_alarm kind key o e1 + alarms kind key os' d1)%nat
  end.

Definition occurrences (kind key : string) (os : list observation) : nat :=
  length (filter (λ o, o_kind o = kind ∧ o_key o = key) os).

Lemma Observe_thresholds d kind key sid now :
  thresholds (Observe d kind key sid now).2 = thresholds d.
Proof. unfold Observe, tripped. by repeat case_match; simplify_eq/=. Qed.

Lemma Observe_other d kind key sid now mk :
  map_key kind key ≠ mk → counts (Observe d kind key sid now).2 !! mk = counts d !! mk.
Proof.
  intros Hne. unfold Observe, tripped. repeat case_match; simplify_eq/=; try done;
    by rewrite lookup_insert_ne.
Qed.

Lemma thresholdFor_counted d kind : 0 < thresholdFor d kind → counted kind.
Proof.
  unfold thresholdFor, counted, seqb. repeat case_bool_decide; [naive_solver..|lia].
Qed.

(** What one observation of a counted kind does to its own counter. *)
Lemma Observe_same d kind key sid now : 0 < thresholdFor d kind →
  let e := entry_for d (map_key kind key) now in
  counts (Observe d kind key sid now).2 !! map_key kind key
    = Some (mkCounter (wrap64 (count e + 1)) (windowEnd e)) ∧
  length (forwarded (Observe d kind key sid now).1)
    = (if wrap64 (count e + 1) =? thresholdFor d kind then 1%nat else 0%nat).
Proof.
  intros Ht e. pose proof (thresholdFor_counted d kind Ht) as Hk.
  assert (Hne : kind ≠ EventSuspectedAbuse) by (by destruct Hk as [-> | [-> | ->]]).
  unfold Observe, tripped. rewrite (proj2 (Z.leb_gt _ _)) by lia. simpl. fold e.
  destruct (_ =? _); simpl; (split; [apply lookup_insert_eq|]); unfold forwarded;
    rewrite ?filter_cons; simpl; repeat case_decide; simplify_eq/=; done.
Qed.

Lemma alarms_nonmatching kind key o os d : ¬ (o_kind o = kind ∧ o_key o = key) →
  alarms kind key (o :: os) d = alarms kind key os (observe1 o d).2.
Proof.
  intros Hn. simpl. unfold is_alarm. destruct (observe1 o d) as [e1 d1].
  by rewrite decide_False.
Qed.

Lemma observe1_thresholdFor o d kind :
  thresholdFor (observe1 o d).2 kind = thresholdFor d kind.
Proof. unfold thresholdFor, observe1. by rewrite Observe_thresholds. Qed.

Lemma occurrences_cons kind key o os :
  occurrences kind key (o :: os) =
  (if decide (o_kind o = kind ∧ o_key o = key) then S (occurrences kind key os)
   else occurrences kind key os).
Proof. unfold occurrences. rewrite filter_cons. by case_decide. Qed.

Lemma occurrences_length kind key os : (occurrences kind key os ≤ length os)%nat.
Proof. apply length_filter. Qed.

(** An observation of something else leaves this counter alone. *)
Lemma observe1_frame kind key o d : no_bar (o_kind o) = true → counted kind →
  ¬ (o_kind o = kind ∧ o_key o = key) →
  counts (observe1 o d).2 !! map_key kind key = counts d !! map_key kind key.
Proof.
  intros Hb Hk Hn. apply Observe_other. intros He.
  apply map_key_inj in He; [naive_solver|done|by apply counted_no_bar].
Qed.

(** Alarms from a live counter at [c]. *)
Lemma alarms_live kind key os d c w :
  0 < thresholdFor d kind →
  counts d !! map_key kind key = Some (mkCounter c w) →
  Forall (λ o, no_bar (o_kind o) = true) os →
  Forall (λ o, o_kind o = kind ∧ o_key o = key → o_now o ≤ w) os →
  0 ≤ c → c + Z.of_nat (length os) ≤ max_int64 →
  alarms kind key os d =
  if (c <? thresholdFor d kind) && (thresholdFor d kind <=? c + Z.of_nat (occurrences kind key os))
  then 1%nat else 0%nat.
Proof.
  revert d c. induction os as [|o os IH]; intros d c Ht Hc Hb Hw H0 Hmax.
  { simpl. destruct (_ && _) eqn:E; [|done]. reflect_bool. unfold occurrences in *. simpl in *. lia. }
  inversion Hb as [|? ? Hb1 Hb2]; inversion Hw as [|? ? Hw1 Hw2]; subst. simpl length in Hmax.
  rewrite occurrences_cons. pose proof (thresholdFor_counted d kind Ht) as Hk.
  case_decide as Hm.
  - destruct o as [k x sid now]. simpl in Hm. destruct Hm as [-> ->].
    specialize (Hw1 (conj eq_refl eq_refl)). simpl in Hw1.
    destruct (Observe_same d kind key sid now Ht) as [H1 H2].
    assert (He : entry_for d (map_key kind key) now = mkCounter c w).
    { unfold entry_for. rewrite Hc. unfold After. simpl. by rewrite (proj2 (Z.ltb_ge _ _)). }
    rewrite He in H1, H2. simpl in H1, H2.
    rewrite wrap64_id in H1, H2 by (unfold is_int64, min_int64; lia).
    simpl. unfold is_alarm, observe1. simpl.
    destruct (Observe d kind key sid now) as [e1 d1] eqn:Eo. simpl in *.
    rewrite decide_True, H2 by done.
    assert (Hth : thresholdFor d1 kind = thresholdFor d kind).
    { pose proof (observe1_thresholdFor (mkObs kind key sid now) d kind) as Hx.
      unfold observe1 in Hx. simpl in Hx. by rewrite Eo in Hx. }
    rewrite (IH d1 (c + 1)) by (try done; try lia; by rewrite Hth). rewrite Hth.
    pose proof (occurrences_length kind key os).
    repeat (case_match; reflect_bool); try lia;
      repeat match goal with H : (_ && _) = false |- _ => apply andb_false_iff in H as [?|?] end;
      reflect_bool; lia.
  - rewrite alarms_nonmatching by done.
    rewrite (IH (observe1 o d).2 c) by
      (rewrite ?observe1_thresholdFor, ?observe1_frame; first [done | lia]).
    by rewrite observe1_thresholdFor.
Qed.

(** The counter of a key outlives a window: the entry keeps the window's end. *)
Lemma window_kept kind key os : ∀ d c w, 0 < thresholdFor d kind →
  counts d !! map_key kind key = Some (mkCounter c w) →
  Forall (λ o, no_bar (o_kind o) = true) os →
  Forall (λ o, o_kind o = kind ∧ o_key o = key → o_now o ≤ w) os →
  windowEnd <$> counts (observe_all os d).2 !! map_key kind key = Some w.
Proof.
  induction os as [|o os IH]; intros d c w Ht Hc Hb Hw; [cbn; by rewrite Hc|].
  apply list.Forall_cons in Hb as [Hb1 Hb], Hw as [Hw1 Hw]. cbn [observe_all].
  assert (Hc1 : ∃ c1, counts (observe1 o d).2 !! map_key kind key = Some (mkCounter c1 w)).
  { destruct (decide (o_kind o = kind ∧ o_key o = key)) as [Hm|Hm].
    - specialize (Hw1 Hm). destruct o as [k x sid now]. cbn in Hm, Hw1. destruct Hm as [-> ->].
      destruct (Observe_same d kind key sid now Ht) as [H1 _]. eexists. etrans; [exact H1|].
      unfold entry_for. rewrite Hc. unfold After. cbn [windowEnd].
      by rewrite (proj2 (Z.ltb_ge _ _)) by done.
    - exists c. rewrite observe1_frame; [done..|by eapply thresholdFor_counted|done]. }
  destruct Hc1 as [c1 Hc1]. pose proof (observe1_thresholdFor o d kind) as Hth.
  destruct (observe1 o d) as [e1 d1]. cbn [snd] in Hc1, Hth. specialize (IH d1 c1 w).
  destruct (observe_all os d1). apply IH; by rewrite ?Hth.
Qed.

Lemma alarms_app kind key os1 os2 : ∀ d,
  alarms kind key (os1 ++ os2) d
  = (alarms kind key os1 d + alarms kind key os2 (observe_all os1 d).2)%nat.
Proof.
  induction os1 as [|o os1 IH]; intros d; [done|]. cbn [app alarms observe_all].
  destruct (observe1 o d) as [e1 d1]. rewrite IH. destruct (observe_all os1 d1). cbn [snd]. lia.
Qed.

Lemma observe_all_thresholds os : ∀ d, thresholds (observe_all os d).2 = thresholds d.
Proof.
  induction os as [|o os IH]; intros d; [done|]. cbn [observe_all].
  pose proof (Observe_thresholds d (o_kind o) (o_key o) (o_sid o) (o_now o)) as H.
  fold (observe1 o d) in H. destruct (observe1 o d) as [e1 d1]. specialize (IH d1).
  destruct (observe_all os d1). cbn [snd] in *. congruence.
Qed.

Lemma thresholdFor_eq d d' kind : thresholds d = thresholds d' → thresholdFor d kind = thresholdFor d' kind.
Proof. unfold thresholdFor. by intros ->. Qed.

(** ** Windows *)
Section Windows.
Variables kind key : string.

(** Observations of which those of the kind and key all fall into the window
    of the given length that the first of them, at [t], opens. *)
Record window (len : Duration) (t : Time) (os : list observation) : Prop := {
  win_kinds : Forall (λ o, no_bar (o_kind o) = true) os;
  win_open : o_now <$> hd_error (filter (λ o, o_kind o = kind ∧ o_key o = key) os) = Some t;
  win_within : Forall (λ o, o_kind o = kind ∧ o_key o = key → o_now o ≤ Add t len) os;
  win_length : Z.of_nat (length os) ≤ max_int64;
}.

(** No window of the key is open at [t]. *)
Definition closed (d : detector) (t : Time) : Prop :=
  ∀ e, counts d !! map_key kind key = Some e → windowEnd e < t.

(** Successive windows, each opened after the one before has ended. *)
Fixpoint windows (len : Duration) (wss : list (Time * list observation)) : Prop :=
  match wss with
  | [] => True
  | (t, os) :: rest =>
      window len t os ∧ windows len rest ∧
      match rest with [] => True | (t', _) :: _ => Add t len < t' end
  end.

(** The observation that opens a window behaves like one on an empty counter
    that ends with the window. *)
Lemma opening d o t : closed d t → o_kind o = kind → o_key o = key → o_now o = t →
  0 < thresholdFor d kind → t ≤ Add t (th_Window (thresholds d)) →
  observe1 o d = observe1 o (mkDetector
    (<[map_key kind key := mkCounter 0 (Add t (th_Window (thresholds d)))]> (counts d)) (thresholds d)).
Proof.
  intros Hc Hk Hx Hnow Ht Hle. set (d' := mkDetector _ _). unfold observe1, Observe. rewrite Hk, Hx, Hnow.
  rewrite (thresholdFor_eq d' d kind eq_refl). case_match; [reflect_bool; lia|].
  assert (He : entry_for d (map_key kind key) t = mkCounter 0 (Add t (th_Window (thresholds d)))).
  { unfold entry_for. destruct (counts d !! map_key kind key) as [e|] eqn:E; [|done].
    unfold After. by rewrite (proj2 (Z.ltb_lt _ _)) by (by apply Hc). }
  assert (He' : entry_for d' (map_key kind key) t = mkCounter 0 (Add t (th_Window (thresholds d)))).
  { unfold entry_for, d'. cbn [counts thresholds]. rewrite lookup_insert_eq. unfold After. cbn [windowEnd].
    by rewrite (proj2 (Z.ltb_ge _ _)) by done. }
  unfold tripped. rewrite He, He'. unfold d'. cbn [counts thresholds]. by rewrite insert_insert_eq.
Qed.

(** One window: the alarm, and what is left of its counter. *)
Lemma one_window os t : ∀ d, 0 < thresholdFor d kind → closed d t →
  window (th_Window (thresholds d)) t os →
  alarms kind key os d =
    (if thresholdFor d kind <=? Z.of_nat (occurrences kind key os) then 1%nat else 0%nat) ∧
  windowEnd <$> counts (observe_all os d).2 !! map_key kind key
    = Some (Add t (th_Window (thresholds d))).
Proof.
  induction os as [|o os IH]; intros d Ht Hc [Hb Ho Hw Hl]; [done|].
  pose proof (thresholdFor_counted d kind Ht) as Hk.
  set (len := th_Window (thresholds d)) in *.
  destruct (decide (o_kind o = kind ∧ o_key o = key)) as [Hm|Hm].
  - rewrite filter_cons_True in Ho by done. cbn in Ho. injection Ho as Hnow.
    pose proof (proj1 (proj1 (list.Forall_cons _ _ _) Hw) Hm) as Hle. rewrite Hnow in Hle.
    pose proof (opening d o t Hc (proj1 Hm) (proj2 Hm) Hnow Ht Hle) as He. fold len in He.
    set (d' := mkDetector _ _) in He.
    assert (Hd' : counts d' !! map_key kind key = Some (mkCounter 0 (Add t len))) by apply lookup_insert_eq.
    assert (Ha : alarms kind key (o :: os) d = alarms kind key (o :: os) d') by (cbn; by rewrite He).
    assert (Hs : observe_all (o :: os) d = observe_all (o :: os) d') by (cbn; by rewrite He).
    rewrite Ha, Hs. split; [|by eapply window_kept].
    rewrite (alarms_live kind key (o :: os) d' 0 (Add t len)); try done.
    rewrite (thresholdFor_eq d' d kind eq_refl), (proj2 (Z.ltb_lt 0 _) Ht). by rewrite Z.add_0_l.
  - apply list.Forall_cons in Hb as [Hb1 Hb], Hw as [_ Hw]. rewrite filter_cons_False in Ho by done.
    assert (Hth : thresholds (observe1 o d).2 = thresholds d) by apply Observe_thresholds.
    rewrite alarms_nonmatching, occurrences_cons, decide_False by done. cbn [observe_all].
    assert (Hcl : closed (observe1 o d).2 t) by (intros e; rewrite observe1_frame by done; apply Hc).
    destruct (observe1 o d) as [e1 d1] eqn:E. cbn [snd] in Hth, Hcl |- *.
    destruct (IH d1) as [IHa IHw]; rewrite ?(thresholdFor_eq d1 d kind Hth), ?Hth; [done..| |].
    { constructor; [done..|]. cbn [length] in Hl. lia. }
    rewrite IHa, (thresholdFor_eq d1 d kind Hth). rewrite Hth in IHw. by destruct (observe_all os d1).
Qed.

(** C36: in every window of a kind and key, the first one and any that opens
    after another has ended, [suspected_abuse] is raised exactly once if the
    threshold is reached in it and not at all otherwise, however observations
    of other kinds and keys are interleaved: over a sequence of windows there
    are as many alarms as windows that reach the threshold. *)
Theorem alarm_once_per_window d wss :
  0 < thresholdFor d kind → windows (th_Window (thresholds d)) wss →
  (∀ t os, head wss = Some (t, os) → closed d t) →
  alarms kind key (concat wss.*2) d =
    length (filter (λ w : Time * list observation,
      thresholdFor d kind ≤ Z.of_nat (occurrences kind key w.2)) wss).
Proof.
  revert d. induction wss as [|[t os] wss IH]; intros d Ht Hw Hc; [done|].
  destruct Hw as (Hwin & Hws & Hnext). destruct (one_window os t d Ht (Hc t os eq_refl) Hwin) as [Ha He].
  cbn [fmap list_fmap concat snd]. rewrite alarms_app, Ha, filter_cons. cbn [snd].
  pose proof (observe_all_thresholds os d) as Hth. set (d1 := (observe_all os d).2) in *.
  rewrite (IH d1), (thresholdFor_eq d1 d kind Hth); cycle 1.
  - by rewrite (thresholdFor_eq d1 d kind Hth).
  - by rewrite Hth.
  - intros t' os' Hhd e Hle. destruct wss as [|[t1 os1] wss]; [done|]. injection Hhd as -> ->.
    rewrite Hle in He. injection He as ->. done.
  - case_decide; case_match; reflect_bool; cbn [length]; lia.
Qed.

End Windows.

(** A replayed poll ([consumed_replay]) is reported but never counted:
    no number of replays raises [suspected_abuse]. *)
Theorem consumed_replay_never_alarms d key sid now :
  Observe d EventConsumedReplay key sid now
    = ([mkSecurityEvent EventConsumedReplay sid key now], d).
Proof. reflexivity. Qed.

Definition demo_observations : list observation :=
  [mkObs EventWrongCode "10.0.0.1" "s1" 100; mkObs EventWrongCode "10.0.0.2" "s2" 110;
   mkObs EventWrongCode "10.0.0.1" "s1" 120; mkObs EventConsumedReplay "10.0.0.1" "s1" 125;
   mkObs EventWrongCode "10.0.0.1" "s3" 130; mkObs EventWrongCode "10.0.0.1" "s3" 140].

(** Five minutes and more later: the counter starts again. *)
Definition later_observations : list observation :=
  [mkObs EventWrongCode "10.0.0.1" "s4" (6 * Minute); mkObs EventWrongCode "10.0.0.1" "s4" (7 * Minute);
   mkObs EventWrongCode "10.0.0.1" "s4" (8 * Minute)].

Lemma alarm_once_per_window_witness :
  alarms EventWrongCode "10.0.0.1" (demo_observations ++ later_observations ++ [])
    (newDetector defaultAbuseThresholds) = 2%nat.
Proof.
  refine (eq_trans (alarm_once_per_window EventWrongCode "10.0.0.1" (newDetector defaultAbuseThresholds)
    [(100, demo_observations); (6 * Minute, later_observations)] _ _ _) _).
  - reflexivity.
  - split; [|split; [split; [|done]|]].
    + constructor; [repeat constructor|reflexivity| |vm_compute; discriminate].
      repeat constructor; intros _; vm_compute; discriminate.
    + constructor; [repeat constructor|reflexivity| |vm_compute; discriminate].
      repeat constructor; intros _; vm_compute; discriminate.
    + vm_compute. reflexivity.
  - intros t os [= <- <-] e He. vm_compute in He. discriminate.
  - vm_compute. reflexivity.
Defined.
