(* ===== verification/Webhook.v ===== *)
(** The abuse webhook: [abuseWebhook] of [internal/broker/detect.go].  [fire]
    is the request it sends, if any; the answer is ignored by the code. *)

From S2P Require Import Prelude GoStrings GoUtf8 GoTime GoJson GoFormat Rfc3339 Session GoMarshal.
From S2P Require Import GoUrl HttpClient Detect.

Local Open Scope list_scope.

Record abuseWebhook := mkAbuseWebhook {
  wh_url : string;
  wh_client : httpClient;
}.

Definition newAbuseWebhook (url : string) (client : option httpClient) : abuseWebhook :=
  mkAbuseWebhook url (default (mkHttpClient (5 * Second)) client).

Section Webhook.
Context {loc : Location}.

(** The JSON tags of [SecurityEvent]. *)
Definition event_fields : list (field SecurityEvent) :=
  [mkField "kind" string_laws (λ _, false) se_Kind
     (λ v e, mkSecurityEvent v (se_SessionID e) (se_Key e) (se_At e));
   mkField "session_id" string_laws is_empty se_SessionID
     (λ v e, mkSecurityEvent (se_Kind e) v (se_Key e) (se_At e));
   mkField "key" string_laws is_empty se_Key
     (λ v e, mkSecurityEvent (se_Kind e) (se_SessionID e) v (se_At e));
   mkField "at" time_laws (λ _, false) se_At
     (λ v e, mkSecurityEvent (se_Kind e) (se_SessionID e) (se_Key e) v)].

Definition encode_event (evt : SecurityEvent) : option string := Marshal (struct_json event_fields) evt.

(** The request posted; [None]: the event does not encode, or the address
    does not parse. *)
Definition fire (h : abuseWebhook) (evt : SecurityEvent) : option httpRequest :=
  body ← encode_event evt;
  req ← NewRequest "POST" (wh_url h) body;
  Some (with_json req).

(** ** What the receiver reads *)
Definition zero_event : SecurityEvent := mkSecurityEvent "" "" "" 0.

Lemma event_names : names_ok event_fields event_fields.
Proof. repeat (constructor; [split; reflexivity|]). constructor. Qed.

Lemma event_fresh e : fresh_fields event_fields e zero_event.
Proof. destruct e as [k s y t]. by repeat split. Qed.

Definition event_laws : @GoJsonLaws SecurityEvent (struct_json event_fields) :=
  struct_laws zero_event event_fields event_names event_fresh.

Definition read_event (text : string) : option SecurityEvent :=
  Unmarshal (struct_json event_fields) text zero_event.

Definition norm_event (e : SecurityEvent) : SecurityEvent :=
  mkSecurityEvent (to_valid (se_Kind e)) (to_valid (se_SessionID e)) (to_valid (se_Key e)) (se_At e).

Lemma read_event_fields e : read_fields event_fields e zero_event = norm_event e.
Proof. destruct e as [k s y t]. by destruct s, y. Qed.

Lemma encode_event_decodes e text : time_printable (se_At e) → encode_event e = Some text →
  read_event text = Some (norm_event e).
Proof.
  intros Ht He. unfold read_event.
  rewrite (Unmarshal_Marshal _ event_laws e text zero_event); [| | | |exact He].
  - cbn [norm event_laws struct_laws]. by rewrite read_event_fields.
  - unfold printable, event_laws, struct_laws, fields_printable. cbn [map foldr event_fields].
    by split_and!.
  - done.
  - by vm_compute.
Qed.

(** An event encodes exactly if its time is in the years 0 to 9999. *)
Lemma marshal_string_field (f : field SecurityEvent) e :
  is_Some (marshal (f_get f e)) → is_Some (marshal_field e f).
Proof. unfold marshal_field. intros [j ->]. case_match; by eexists. Qed.

Lemma encode_event_Some e : is_Some (encode_event e) ↔ is_Some (time_text (se_At e)).
Proof.
  unfold encode_event, Marshal. rewrite fmap_is_Some. cbn [marshal struct_json].
  unfold marshal_struct. assert (Ht : is_Some (traverse (marshal_field e) event_fields)
    ↔ Forall (λ f, is_Some (marshal_field e f)) event_fields) by apply traverse_is_Some.
  transitivity (is_Some (traverse (marshal_field e) event_fields)).
  { destruct (traverse _ _); split; intros [? ?]; try done; by eexists. }
  rewrite Ht. unfold event_fields. rewrite !list.Forall_cons, list.Forall_nil.
  assert (Hat : is_Some (marshal_field e (mkField "at" time_laws (λ _, false) se_At
    (λ v e, mkSecurityEvent (se_Kind e) (se_SessionID e) (se_Key e) v)))
    ↔ is_Some (time_text (se_At e))).
  { unfold marshal_field. cbn [f_omit f_get f_json f_name marshal time_json].
    destruct (time_text (se_At e)); split; intros [? ?]; try done; by eexists. }
  rewrite Hat. split; [by intros (_ & _ & _ & ? & _)|].
  intros H. split_and!; try done; apply marshal_string_field; by eexists.
Qed.

(** C37: a fired event is one JSON POST to the configured address, sent
    exactly if that address parses (and the year of the event is printable);
    its body reads back as the event, to the nanosecond, empty fields left
    out, invalid UTF-8 replaced. *)
Theorem webhook_posts_the_event h evt : time_printable (se_At evt) →
  (is_Some (fire h evt) ↔ is_Some (Parse (wh_url h)) ∧ is_Some (time_text (se_At evt))) ∧
  (∀ req, fire h evt = Some req →
     hr_Method req = "POST" ∧ Some (hr_URL req) = without_empty_port <$> Parse (wh_url h) ∧
     hr_Header req = [("Content-Type", "application/json")] ∧
     read_event (hr_Body req) = Some (norm_event evt)).
Proof.
  intros Ht. split.
  - unfold fire, NewRequest. rewrite <-encode_event_Some.
    destruct (encode_event evt) as [body|], (Parse (wh_url h)) as [u|]; cbn;
      (split; [intros [? ?]|intros [[? ?] [? ?]]]; try done; by eexists).
  - unfold fire, NewRequest. intros req Hf.
    destruct (encode_event evt) as [body|] eqn:Eb; [|done].
    destruct (Parse (wh_url h)) as [u|] eqn:Eu; [|done]. injection Hf as <-.
    split_and!; try done. by apply encode_event_decodes.
Qed.

End Webhook.

Definition demo_event : SecurityEvent :=
  mkSecurityEvent EventSuspectedAbuse "" "wrong_code:10.0.0.9" (63271811045 * Second + 5).

Lemma demo_host : u_Host <$> (without_empty_port <$> Parse (wh_url (newAbuseWebhook
  "https://alerts.example:/xdauth" None))) = Some "alerts.example".
Proof. vm_compute. reflexivity. Qed.

Lemma webhook_posts_the_event_witness :
  ∃ req, @fire UTC (newAbuseWebhook "https://alerts.example:/xdauth" None) demo_event = Some req ∧
    u_Host (hr_URL req) = "alerts.example" ∧ @read_event UTC (hr_Body req) = Some demo_event.
Proof.
  assert (Ht : @time_printable UTC (se_At demo_event)) by (right; split; vm_compute; done).
  destruct (webhook_posts_the_event (newAbuseWebhook "https://alerts.example:/xdauth" None)
    demo_event Ht) as [H1 H2].
  destruct (proj2 H1) as [req Hreq].
  { split; [eexists; vm_compute; reflexivity|eexists; vm_compute; reflexivity]. }
  exists req. split; [exact Hreq|]. destruct (H2 req Hreq) as (_ & Hu & _ & Hb).
  split; [|exact Hb]. apply (f_equal (fmap u_Host)) in Hu. rewrite demo_host in Hu.
  injection Hu as Hu. exact Hu.
Defined.
