(* ===== verification/RateLimit.v ===== *)
(** Per-key rate limiting of /auth/start: [internal/broker/ratelimit.go].
    The token bucket of golang.org/x/time/rate is third-party code: it is the
    class [RateLimiter].  [Allow] reads the clock twice, once for the sweep
    and once inside the bucket. *)

From S2P Require Import Prelude GoTime.

Local Open Scope list_scope.

(** The float64 [rate.Limit], [rate.Every], [rate.NewLimiter] and the method
    [Allow] of a limiter at a given clock reading. *)
Class RateLimiter := {
  Limit : Type;
  Limiter : Type;
  limit_zero : Limit;                 (* the zero value *)
  limit_le_0 : Limit → bool;
  rate_Every : Duration → Limit;
  NewLimiter : Limit → Z → Limiter;
  limiter_Allow : Time → Limiter → bool * Limiter;
}.

Section RateLimit.
Context `{RateLimiter}.

Record limiterEntry := mkLimiterEntry { limiter : Limiter; lastSeen : Time }.

Record keyedLimiter := mkKeyedLimiter {
  kl_limit : Limit;
  kl_burst : Z;
  kl_idleTTL : Duration;
  kl_entries : gmap string limiterEntry;
}.

Definition newKeyedLimiter (r : Limit) (burst : Z) (idleTTL : Duration) : keyedLimiter :=
  mkKeyedLimiter r burst idleTTL ∅.

Definition set_entries (es : gmap string limiterEntry) (k : keyedLimiter) : keyedLimiter :=
  mkKeyedLimiter (kl_limit k) (kl_burst k) (kl_idleTTL k) es.

Definition sweepLocked (now : Time) (k : keyedLimiter) : keyedLimiter :=
  set_entries (filter (λ ke, (kl_idleTTL k <? Sub now (lastSeen ke.2)) = false) (kl_entries k)) k.

(** [now] is the reading of [Allow], [now2] the one of [e.limiter.Allow()]. *)
Definition Allow (now now2 : Time) (key : string) (k : keyedLimiter) : bool * keyedLimiter :=
  let k := sweepLocked now k in
  let l := match kl_entries k !! key with
           | Some e => limiter e
           | None => NewLimiter (kl_limit k) (kl_burst k)
           end in
  let (ok, l) := limiter_Allow now2 l in
  (ok, set_entries (<[key := mkLimiterEntry l now]> (kl_entries k)) k).

(** ** A dedicated bucket per key *)
Record call := mkCall { call_now : Time; call_now2 : Time; call_key : string }.

(** Answers given to [key] along a sequence of calls. *)
Fixpoint answers (key : string) (cs : list call) (k : keyedLimiter) : list bool :=
  match cs with
  | [] => []
  | c :: cs' =>
      let (ok, k') := Allow (call_now c) (call_now2 c) (call_key c) k in
      if decide (call_key c = key) then ok :: answers key cs' k' else answers key cs' k'
  end.

(** The same calls of [key] on one bucket of its own. *)
Fixpoint bucket_run (l : Limiter) (ts : list Time) : list bool :=
  match ts with
  | [] => []
  | t :: ts' => let (ok, l') := limiter_Allow t l in ok :: bucket_run l' ts'
  end.

Definition times_of (key : string) (cs : list call) : list Time :=
  call_now2 <$> filter (λ c, call_key c = key) cs.

(** No call finds [key] idle for more than the idle TTL. *)
Fixpoint busy (idle : Duration) (key : string) (last : Time) (cs : list call) : Prop :=
  match cs with
  | [] => True
  | c :: cs' =>
      Sub (call_now c) last ≤ idle ∧
      busy idle key (if decide (call_key c = key) then call_now c else last) cs'
  end.

Lemma times_of_cons key c cs :
  times_of key (c :: cs) =
  (if decide (call_key c = key) then call_now2 c :: times_of key cs else times_of key cs).
Proof. unfold times_of. rewrite filter_cons. by case_decide. Qed.

Lemma Allow_config now now2 key k : let k' := (Allow now now2 key k).2 in
  kl_limit k' = kl_limit k ∧ kl_burst k' = kl_burst k ∧ kl_idleTTL k' = kl_idleTTL k.
Proof. unfold Allow. simpl. by destruct (limiter_Allow _ _). Qed.

(** Other keys keep their entry unless it is idle. *)
Lemma Allow_frame now now2 key k key' : key ≠ key' →
  kl_entries (Allow now now2 key k).2 !! key' =
  match kl_entries k !! key' with
  | Some e => if kl_idleTTL k <? Sub now (lastSeen e) then None else Some e
  | None => None
  end.
Proof.
  intros Hne. unfold Allow. destruct (limiter_Allow _ _). simpl.
  rewrite lookup_insert_ne, map_lookup_filter by done.
  destruct (kl_entries k !! key') as [e|]; simpl; [|done].
  case_guard as Hg; simpl in *; [by rewrite Hg|]. by rewrite (not_false_is_true _ Hg).
Qed.

(** A key seen within the idle TTL is answered by its own bucket. *)
Lemma Allow_live now now2 key k e :
  kl_entries k !! key = Some e → Sub now (lastSeen e) ≤ kl_idleTTL k →
  (Allow now now2 key k).1 = (limiter_Allow now2 (limiter e)).1 ∧
  kl_entries (Allow now now2 key k).2 !! key
    = Some (mkLimiterEntry (limiter_Allow now2 (limiter e)).2 now).
Proof.
  intros He Hi. unfold Allow. simpl. rewrite map_lookup_filter, He. simpl.
  rewrite option_guard_True by (simpl; by apply Z.ltb_ge). simpl.
  destruct (limiter_Allow now2 (limiter e)) as [ok l]. simpl.
  split; [done|]. apply lookup_insert_eq.
Qed.

(** An absent key, or one idle for longer, gets a full bucket. *)
Lemma Allow_fresh now now2 key k :
  (∀ e, kl_entries k !! key = Some e → kl_idleTTL k < Sub now (lastSeen e)) →
  (Allow now now2 key k).1 = (limiter_Allow now2 (NewLimiter (kl_limit k) (kl_burst k))).1 ∧
  kl_entries (Allow now now2 key k).2 !! key =
    Some (mkLimiterEntry (limiter_Allow now2 (NewLimiter (kl_limit k) (kl_burst k))).2 now).
Proof.
  intros Hi. unfold Allow. simpl. rewrite map_lookup_filter.
  destruct (kl_entries k !! key) as [e|] eqn:E; simpl.
  - rewrite option_guard_False by (simpl; rewrite (proj2 (Z.ltb_lt _ _)); auto). simpl.
    destruct (limiter_Allow _ _) as [ok l]. simpl. split; [done|apply lookup_insert_eq].
  - destruct (limiter_Allow _ _) as [ok l]. simpl. split; [done|apply lookup_insert_eq].
Qed.

Lemma answers_live key cs k e :
  kl_entries k !! key = Some e → busy (kl_idleTTL k) key (lastSeen e) cs →
  answers key cs k = bucket_run (limiter e) (times_of key cs).
Proof.
  revert k e. induction cs as [|[now now2 key'] cs IH]; intros k e He Hb; [done|].
  destruct Hb as [Hi Hb]. rewrite times_of_cons. simpl in *.
  destruct (Allow_config now now2 key' k) as (_ & _ & Hidle). simpl in Hidle.
  case_decide as Hk.
  - subst key'. destruct (Allow_live now now2 key k e He Hi) as [H1 H2].
    destruct (Allow now now2 key k) as [ok k'] eqn:Ea. simpl in *. subst ok.
    rewrite (IH k' _ H2) by (simpl; by rewrite Hidle).
    simpl. by destruct (limiter_Allow now2 (limiter e)).
  - pose proof (Allow_frame now now2 key' k key Hk) as Hf. rewrite He in Hf.
    rewrite (proj2 (Z.ltb_ge _ _) Hi) in Hf.
    destruct (Allow now now2 key' k) as [ok k']. simpl in *.
    apply (IH k' e Hf). by rewrite Hidle.
Qed.

(** C35: however calls for other keys are interleaved, a new key is answered
    exactly as a token bucket of its own answers, as long as no call finds it
    idle for more than the idle TTL. *)
Theorem keyed_limiter_is_per_key key pre now now2 cs k :
  Forall (λ c, call_key c ≠ key) pre →
  kl_entries k !! key = None →
  busy (kl_idleTTL k) key now cs →
  answers key (pre ++ mkCall now now2 key :: cs) k =
  bucket_run (NewLimiter (kl_limit k) (kl_burst k)) (now2 :: times_of key cs).
Proof.
  revert k. induction pre as [|c pre IH]; intros k Hpre Hk Hb; simpl.
  - destruct (Allow_fresh now now2 key k) as [H1 H2]; [by rewrite Hk|].
    destruct (Allow_config now now2 key k) as (_ & _ & Hidle). simpl in Hidle.
    destruct (Allow now now2 key k) as [ok k'] eqn:Ea. simpl in *. subst ok.
    rewrite decide_True by done.
    rewrite (answers_live key cs k' _ H2) by (simpl; by rewrite Hidle).
    simpl. by destruct (limiter_Allow _ _).
  - inversion Hpre as [|? ? Hc Hpre']; subst.
    pose proof (Allow_frame (call_now c) (call_now2 c) (call_key c) k key Hc) as Hf.
    destruct (Allow_config (call_now c) (call_now2 c) (call_key c) k) as (Hl & Hbu & Hidle).
    simpl in Hl, Hbu, Hidle. rewrite Hk in Hf.
    destruct (Allow (call_now c) (call_now2 c) (call_key c) k) as [ok k']. simpl in *.
    rewrite decide_False by done. rewrite (IH k' Hpre' Hf) by (by rewrite Hidle).
    by rewrite Hl, Hbu.
Qed.

End RateLimit.

(** ** A concrete bucket for the witnesses: [Limit] is the nanoseconds per
    token, the bucket holds its tokens in nanoseconds. *)
Definition bucket_Allow (t : Time) (l : Z * Z * Z * Time) : bool * (Z * Z * Z * Time) :=
  let '(per, cap, level, last) := l in
  let level := Z.min cap (level + Z.max 0 (t - last)) in
  if per <=? level then (true, (per, cap, level - per, t)) else (false, (per, cap, level, t)).

Definition token_bucket : RateLimiter := {|
  Limit := Z;
  Limiter := Z * Z * Z * Time;
  limit_zero := 0;
  limit_le_0 := λ l, l <=? 0;
  rate_Every := λ d, d;
  NewLimiter := λ per burst, (per, per * burst, per * burst, 0);
  limiter_Allow := bucket_Allow;
|}.

Definition demo_calls : list (@call) :=
  [mkCall 12 12 "b"; mkCall 13 13 "a"; mkCall 14 14 "a"; mkCall 25 25 "a"].

Lemma keyed_limiter_is_per_key_witness :
  @answers token_bucket "a" (mkCall 10 10 "b" :: mkCall 11 11 "a" :: demo_calls)
    (@newKeyedLimiter token_bucket 10 2 1000) = [true; true; false; true].
Proof.
  refine (eq_trans (@keyed_limiter_is_per_key token_bucket "a" [mkCall 10 10 "b"] 11 11
    demo_calls (@newKeyedLimiter token_bucket 10 2 1000) _ _ _) _).
  - repeat constructor. simpl. discriminate.
  - reflexivity.
  - vm_compute. repeat split; discriminate.
  - vm_compute. reflexivity.
Defined.
