(* ===== verification/Prog.v ===== *)
(** Effectful code of the broker.  A handler is a program over [event]s: one
    event per access to something other goroutines share (the clock, the
    entropy source, the store, the limiters, the detector, the log, the
    identity provider).  Between two events other goroutines may run; an
    event itself is atomic.  [run] executes a program alone, [wp] is the
    weakest precondition under arbitrary interference. *)

From S2P Require Import Prelude GoTime GoCrypto Session Store Http Detect RateLimit.

Local Open Scope list_scope.

(** [internal/broker/idp.go]: the identity provider.  [BeginLogin] mutates
    the session it is given and may draw randomness; [CompleteLogin] talks to
    the provider over the network, so it has a state of its own. *)
Class IdentityProvider (I : Type) := {
  BeginLogin : Time → Session → entropy → I → result string string * Session * entropy * I;
  CompleteLogin : Time → Request → Session → I → result Identity string * I;
}.

(** What the broker relies on: [BeginLogin] assigns the correlation fields
    of the session and nothing else. *)
Class IdentityProviderLaws (I : Type) `{IdentityProvider I} := {
  BeginLogin_frame : ∀ now s t i r s' t' i',
    BeginLogin now s t i = (r, s', t', i') → same_but_idp s s';
}.

(** One record of [slog]: session id, event and the attributes. *)
Record LogEntry := mkLog {
  l_session_id : string;
  l_event : string;
  l_attrs : list (string * string);
}.

Inductive event : Type → Type :=
  | Now : event Time
  | Draw (A : Type) (f : entropy → A * entropy) : event A
  | StCreate (s : Session) : event (option store_error)
  | StGet (id : string) : event (result Session store_error)
  | StUpdate (s : Session) : event (option store_error)
  | IPAllow (key : string) : event bool
  | HintAllow (key : string) : event bool
  | Tripped (kind key : string) (threshold : Z) (now : Time) : event bool
  | LogInfo (l : LogEntry) : event unit
  | WebhookPost (e : SecurityEvent) : event unit
  | IdPBegin (s : Session) : event (result string string * Session)
  | IdPComplete (r : Request) (s : Session) : event (result Identity string).

Arguments Draw {A} f.

Inductive prog (A : Type) : Type :=
  | Ret (a : A)
  | Panic
  | Vis (R : Type) (e : event R) (k : R → prog A).

Arguments Ret {A} a.
Arguments Panic {A}.
Arguments Vis {A R} e k.

Definition trigger {R} (e : event R) : prog R := Vis e Ret.

Fixpoint pbind {A B} (p : prog A) (f : A → prog B) : prog B :=
  match p with
  | Ret a => f a
  | Panic => Panic
  | Vis e k => Vis e (λ x, pbind (k x) f)
  end.

Notation "x <- p ;; q" := (pbind p (λ x, q))
  (at level 100, p at next level, right associativity) : xdauth_scope.
Notation "' pat <- p ;; q" := (pbind p (λ x, match x with pat => q end))
  (at level 100, pat pattern, p at next level, right associativity) : xdauth_scope.
Notation "p ;;; q" := (pbind p (λ _, q)) (at level 100, right associativity) : xdauth_scope.

(** ** The shared state *)
Section World.
Context {St I : Type} `{Store St} `{RateLimiter} `{IdentityProvider I}.

Record World := mkWorld {
  w_clock : Time;
  w_entropy : entropy;
  w_store : St;
  w_ipLimiter : keyedLimiter;
  w_hintLimiter : keyedLimiter;
  w_detector : detector;
  w_idp : I;
  w_log : list LogEntry;
  w_webhook : list SecurityEvent;
}.

Definition with_clock t w := mkWorld t (w_entropy w) (w_store w) (w_ipLimiter w)
  (w_hintLimiter w) (w_detector w) (w_idp w) (w_log w) (w_webhook w).
Definition with_entropy t w := mkWorld (w_clock w) t (w_store w) (w_ipLimiter w)
  (w_hintLimiter w) (w_detector w) (w_idp w) (w_log w) (w_webhook w).
Definition with_store st w := mkWorld (w_clock w) (w_entropy w) st (w_ipLimiter w)
  (w_hintLimiter w) (w_detector w) (w_idp w) (w_log w) (w_webhook w).
Definition with_ipLimiter l w := mkWorld (w_clock w) (w_entropy w) (w_store w) l
  (w_hintLimiter w) (w_detector w) (w_idp w) (w_log w) (w_webhook w).
Definition with_hintLimiter l w := mkWorld (w_clock w) (w_entropy w) (w_store w)
  (w_ipLimiter w) l (w_detector w) (w_idp w) (w_log w) (w_webhook w).
Definition with_detector d w := mkWorld (w_clock w) (w_entropy w) (w_store w)
  (w_ipLimiter w) (w_hintLimiter w) d (w_idp w) (w_log w) (w_webhook w).
Definition with_idp i w := mkWorld (w_clock w) (w_entropy w) (w_store w)
  (w_ipLimiter w) (w_hintLimiter w) (w_detector w) i (w_log w) (w_webhook w).
Definition with_log l w := mkWorld (w_clock w) (w_entropy w) (w_store w)
  (w_ipLimiter w) (w_hintLimiter w) (w_detector w) (w_idp w) l (w_webhook w).
Definition with_webhook es w := mkWorld (w_clock w) (w_entropy w) (w_store w)
  (w_ipLimiter w) (w_hintLimiter w) (w_detector w) (w_idp w) (w_log w) es.

(** The clock does not advance within one event. *)
Definition interp {R} (e : event R) (w : World) : R * World :=
  match e in event R return R * World with
  | Now => (w_clock w, w)
  | Draw f => let (a, t) := f (w_entropy w) in (a, with_entropy t w)
  | StCreate s => let (r, st) := store_Create (w_clock w) s (w_store w) in (r, with_store st w)
  | StGet id => let (r, st) := store_Get (w_clock w) id (w_store w) in (r, with_store st w)
  | StUpdate s => let (r, st) := store_Update (w_clock w) s (w_store w) in (r, with_store st w)
  | IPAllow key =>
      let (ok, l) := Allow (w_clock w) (w_clock w) key (w_ipLimiter w) in
      (ok, with_ipLimiter l w)
  | HintAllow key =>
      let (ok, l) := Allow (w_clock w) (w_clock w) key (w_hintLimiter w) in
      (ok, with_hintLimiter l w)
  | Tripped kind key th now =>
      let (b, d) := tripped (w_detector w) kind key th now in (b, with_detector d w)
  | LogInfo l => (tt, with_log (w_log w ++ [l]) w)
  | WebhookPost e => (tt, with_webhook (w_webhook w ++ [e]) w)
  | IdPBegin s =>
      let '(r, s', t, i) := BeginLogin (w_clock w) s (w_entropy w) (w_idp w) in
      (r, s', with_idp i (with_entropy t w))
  | IdPComplete r s =>
      let (a, i) := CompleteLogin (w_clock w) r s (w_idp w) in (a, with_idp i w)
  end.

(** A program alone: its result ([None]: it panicked) and the final state. *)
Fixpoint run {A} (p : prog A) (w : World) : option A * World :=
  match p with
  | Ret a => (Some a, w)
  | Panic => (None, w)
  | Vis e k => let (x, w') := interp e w in run (k x) w'
  end.

Lemma run_bind {A B} (p : prog A) (f : A → prog B) w :
  run (pbind p f) w =
  match run p w with
  | (Some a, w') => run (f a) w'
  | (None, w') => (None, w')
  end.
Proof.
  revert w. induction p as [a| |R e k IH]; intros w; simpl; [done..|].
  destruct (interp e w). apply IH.
Qed.

End World.

Arguments World St I {_} : assert.

(** ** Weakest preconditions under interference

    [H] is what has happened so far, ordered by [⊑]; [pre i e h] is the
    obligation for performing [e] in thread [i], [post i e x h] what holds
    once it has answered [x].  Other threads extend the history freely. *)
Section Wp.
Context {H : Type} {le : relation H} `{!PreOrder le}.
Variable pre : ∀ R, event R → H → Prop.
Variable post : ∀ R, event R → R → H → Prop.

Fixpoint wp {A} (Q : H → A → Prop) (p : prog A) (h : H) : Prop :=
  match p with
  | Ret a => Q h a
  | Panic => False
  | Vis e k => ∀ h', le h h' → pre _ e h' ∧
      ∀ x h'', le h' h'' → post _ e x h'' → wp Q (k x) h''
  end.

(** In particular a verified program never panics. *)

(** Assertions that survive interference. *)
Definition stable {A} (Q : H → A → Prop) : Prop := ∀ h h' a, le h h' → Q h a → Q h' a.

Lemma wp_mono {A} (Q : H → A → Prop) p h h' :
  stable Q → le h h' → wp Q p h → wp Q p h'.
Proof.
  intros HQ Hle. destruct p as [a| |R e k]; simpl; [by apply HQ|done|].
  intros Hp h1 Hle1. apply Hp. by etrans.
Qed.

Lemma wp_bind {A B} (Q : H → B → Prop) (R : H → A → Prop) (p : prog A) f h :
  wp R p h → (∀ a h', le h h' → R h' a → wp Q (f a) h') → wp Q (pbind p f) h.
Proof.
  revert h. induction p as [a| |X e k IH]; simpl; intros h Hp Hf.
  - by apply Hf.
  - done.
  - intros h1 Hle1. destruct (Hp h1 Hle1) as [Hpre Hk]. split; [done|].
    intros x h2 Hle2 Hpost. apply IH; [by apply Hk|]. intros a h3 Hle3. apply Hf.
    by etrans; [|etrans].
Qed.

Lemma wp_weaken {A} (Q R : H → A → Prop) (p : prog A) h :
  wp R p h → (∀ a h', le h h' → R h' a → Q h' a) → wp Q p h.
Proof.
  intros Hp HQ. revert h Hp HQ. induction p as [a| |X e k IH]; simpl; intros h Hp HQ.
  - by apply HQ.
  - done.
  - intros h1 Hle1. destruct (Hp h1 Hle1) as [Hpre Hk]. split; [done|].
    intros x h2 Hle2 Hpost. apply IH; [by apply Hk|]. intros a h3 Hle3. apply HQ.
    by etrans; [|etrans].
Qed.

End Wp.

(** ** Obligations that do not depend on the past

    [obeys pre post p]: every event [p] performs meets [pre], as long as every
    answer it gets meets [post]. *)
Section Obeys.
Variable pre : ∀ R, event R → Prop.
Variable post : ∀ R, event R → R → Prop.

Fixpoint obeys {A} (p : prog A) : Prop :=
  match p with
  | Vis e k => pre _ e ∧ ∀ x, post _ e x → obeys (k x)
  | _ => True
  end.

Lemma obeys_bind {A B} (p : prog A) (f : A → prog B) :
  obeys p → (∀ a, obeys (f a)) → obeys (pbind p f).
Proof.
  intros Hp Hf. induction p as [a| |R e k IH]; simpl; [apply Hf|done|].
  destruct Hp as [He Hk]. split; [done|]. intros x Hx. by apply IH, Hk.
Qed.

(** Both together. *)
Lemma wp_obeys {H : Type} {le : relation H} (pre' : ∀ R, event R → H → Prop)
    (post' : ∀ R, event R → R → H → Prop) {A} (Q : H → A → Prop) p h :
  wp (le := le) pre' post' Q p h → obeys p →
  wp (le := le) (λ R e h, pre' R e h ∧ pre R e) (λ R e x h, post' R e x h ∧ post R e x) Q p h.
Proof.
  revert h. induction p as [a| |R e k IH]; simpl; [done..|]. intros h Hw [He Hk] h1 Hle.
  destruct (Hw h1 Hle) as [Hpre Hnext]. split; [done|].
  intros x h2 Hle2 [Hp1 Hp2]. apply IH; [by apply Hnext|by apply Hk].
Qed.

End Obeys.
