(* ===== verification/Broker.v ===== *)
(** The broker object: [internal/broker/broker.go] (configuration, defaults,
    construction, security events, middlewares), [log.go], and the response
    writer with the page data of [templates.go].  A [*Broker] is its [Config]
    (immutable after [New]) and the shared [World]. *)

From S2P Require Import Prelude GoStrings GoTime GoFormat GoCrypto Session Fsm Store Wire Http Netip.
From S2P Require Import ClientIP ClientAuth Detect RateLimit Prog.

Local Open Scope list_scope.
Open Scope xdauth_scope.

(** ** Responses being written *)
Record resultPage := mkResultPage { Title : string; Message : string }.

Record approvePage := mkApprovePage {
  ap_Identity : string;
  ap_ClientHost : string;
  ap_ClientKind : string;
  ap_ClientIP : string;
  ap_VerifiedClient : string;
  ap_StartedAt : string;
  ap_CSRFToken : string;
  ap_ApproveAction : string;
}.

(** What is written to the body: a JSON value or a template with its data. *)
Inductive content :=
  | JSONStart (v : startResponse)
  | JSONPoll (v : pollResponse)
  | PageResult (p : resultPage)
  | PageApprove (p : approvePage)
  | PageRedirect (url : string).

Record ResponseWriter := mkRW {
  rw_header : gmap string string;
  rw_cookies : list Cookie;
  rw_status : option Z;
  rw_body : option content;
}.

Definition new_writer : ResponseWriter := mkRW ∅ [] None None.

Definition Header_Set (k v : string) (w : ResponseWriter) : ResponseWriter :=
  mkRW (<[k := v]> (rw_header w)) (rw_cookies w) (rw_status w) (rw_body w).

Definition SetCookie (c : Cookie) (w : ResponseWriter) : ResponseWriter :=
  mkRW (rw_header w) (rw_cookies w ++ [c]) (rw_status w) (rw_body w).

(** Only the first [WriteHeader] counts. *)
Definition WriteHeader (code : Z) (w : ResponseWriter) : ResponseWriter :=
  mkRW (rw_header w) (rw_cookies w)
    (Some (match rw_status w with Some c => c | None => code end)) (rw_body w).

(** The first write sends the status, 200 if none was set. *)
Definition Write (c : content) (w : ResponseWriter) : ResponseWriter :=
  let w := WriteHeader StatusOK w in
  mkRW (rw_header w) (rw_cookies w) (rw_status w) (Some c).

(** [http.Redirect] to an absolute ASCII URL. *)
Definition Redirect (url : string) (code : Z) (w : ResponseWriter) : ResponseWriter :=
  Write (PageRedirect url)
    (WriteHeader code (Header_Set "Content-Type" "text/html; charset=utf-8"
      (Header_Set "Location" url w))).

(** ** Middlewares *)
Definition csp_policy : string :=
  "default-src 'none'; style-src 'unsafe-inline'; base-uri 'none'; form-action 'self'; frame-ancestors 'none'".

Definition Handler := ResponseWriter → Request → prog ResponseWriter.

Definition noStoreMiddleware (next : Handler) : Handler :=
  λ w r, next (Header_Set "Cache-Control" "no-store" w) r.

Definition cspMiddleware (next : Handler) : Handler :=
  λ w r, next (Header_Set "Referrer-Policy" "no-referrer"
                (Header_Set "X-Content-Type-Options" "nosniff"
                  (Header_Set "Content-Security-Policy" csp_policy w))) r.

Section Broker.
Context `{RateLimiter}.

(** ** Configuration *)
Record Config := mkConfig {
  BaseURL : string;
  SessionTTL : Duration;
  PollInterval : Duration;
  StartRatePerSec : Limit;
  StartRateBurst : Z;
  ArtifactTTL : Duration;
  IdentityNormalizer : option Normalizer;
  AbuseWebhookURL : string;
  ClientAuthenticator : option (Request → result string auth_error);
  TrustedProxies : list Prefix;
  AllowedClientCIDRs : list Prefix;
}.

(** [if c.D <= 0 { c.D = d }]. *)
Definition or_default (d v : Z) : Z := if v <=? 0 then d else v.

(** The logger, always set after [applyDefaults], is the log of [World]. *)
Definition applyDefaults (c : Config) : Config := {|
  BaseURL := BaseURL c;
  SessionTTL := or_default (5 * Minute) (SessionTTL c);
  PollInterval := or_default (3 * Second) (PollInterval c);
  StartRatePerSec :=
    if limit_le_0 (StartRatePerSec c) then rate_Every (5 * Second) else StartRatePerSec c;
  StartRateBurst := or_default 5 (StartRateBurst c);
  ArtifactTTL := or_default (120 * Second) (ArtifactTTL c);
  IdentityNormalizer := IdentityNormalizer c;
  AbuseWebhookURL := AbuseWebhookURL c;
  ClientAuthenticator := ClientAuthenticator c;
  TrustedProxies := TrustedProxies c;
  AllowedClientCIDRs := AllowedClientCIDRs c;
|}.

(** [New]: the configuration with defaults, and the shared state around the
    caller's store and identity provider. *)
Definition New {St I} (cfg : Config) (now : Time) (t : entropy) (st : St) (idp : I)
    : Config * World St I :=
  let cfg := applyDefaults cfg in
  let idleTTL := Duration_mul (SessionTTL cfg) 4 in
  let limiter := newKeyedLimiter (StartRatePerSec cfg) (StartRateBurst cfg) idleTTL in
  (cfg, {| w_clock := now; w_entropy := t; w_store := st;
           w_ipLimiter := limiter; w_hintLimiter := limiter;
           w_detector := newDetector defaultAbuseThresholds;
           w_idp := idp; w_log := []; w_webhook := [] |}).

(** ** Logging and security events *)
Definition logTransition (sessionID event : string) (attrs : list (string * string)) : prog unit :=
  trigger (LogInfo (mkLog sessionID event attrs)).

Variable cfg : Config.

Definition onSecurityEvent (evt : SecurityEvent) : prog unit :=
  logTransition (se_SessionID evt) (se_Kind evt) [("severity", "warn"); ("key", se_Key evt)] ;;;
  if seqb (se_Kind evt) EventSuspectedAbuse && negb (is_empty (AbuseWebhookURL cfg))
  then trigger (WebhookPost evt) else Ret tt.

(** [b.detector.Observe]: [Detect.Observe] with its callback, the counter
    update being the only access to shared state. *)
Definition Observe (kind key sessionID : string) (now : Time) : prog unit :=
  onSecurityEvent (mkSecurityEvent kind sessionID key now) ;;;
  let threshold := thresholdFor (newDetector defaultAbuseThresholds) kind in
  if threshold <=? 0 then Ret tt else
  t <- trigger (Tripped kind key threshold now) ;;
  if (t : bool)
  then onSecurityEvent (mkSecurityEvent EventSuspectedAbuse sessionID (kind +:+ ":" +:+ key) now)
  else Ret tt.

End Broker.
