(* ===== verification/Handlers.v ===== *)
(** The HTTP handlers: [internal/broker/handlers.go], translated statement by
    statement.  A handler takes the response writer and the request and
    returns the writer; the session a handler mutates through its pointer is
    rebound after every mutation. *)

From S2P Require Import Prelude GoStrings GoTime GoCrypto GoFormat UserCode Pkce Session Fsm.
From S2P Require Import Store Wire Http Netip ClientIP ClientAuth Detect RateLimit Prog Broker.

Local Open Scope list_scope.

Definition sessionCookieName : string := "xdauth_session".
Definition approvalCookieName : string := "xdauth_approve".

(** ** Helpers *)
Definition constantTimeStringEqual (a b : string) : bool :=
  if (slen a =? 0) || (slen b =? 0) || negb (slen a =? slen b) then false
  else ConstantTimeCompare a b =? 1.

(** [r.TLS != nil || r.Header.Get("X-Forwarded-Proto") == "https"]. *)
Definition is_secure (r : Request) : bool :=
  match TLS r with Some _ => true | None => seqb (Header_Get r "X-Forwarded-Proto") "https" end.

Definition setSessionCookie (r : Request) (sessionID : string) (w : ResponseWriter)
    : ResponseWriter :=
  let secure := is_secure r in
  let sameSite := if negb secure then SameSiteLaxMode else SameSiteNoneMode in
  let w := SetCookie {| c_Name := sessionCookieName; c_Value := sessionID; c_Path := "/";
                        c_MaxAge := 0; c_HttpOnly := true; c_Secure := secure;
                        c_SameSite := sameSite |} w in
  SetCookie {| c_Name := sessionCookieName; c_Value := ""; c_Path := "/auth";
               c_MaxAge := -1; c_HttpOnly := true; c_Secure := secure;
               c_SameSite := sameSite |} w.

Definition setApprovalCookie (r : Request) (secret : string) (w : ResponseWriter)
    : ResponseWriter :=
  let secure := is_secure r in
  let sameSite := if negb secure then SameSiteLaxMode else SameSiteNoneMode in
  SetCookie {| c_Name := approvalCookieName; c_Value := secret; c_Path := "/";
               c_MaxAge := 0; c_HttpOnly := true; c_Secure := secure;
               c_SameSite := sameSite |} w.

(** [("", false)] is [None]. *)
Definition read_cookie (name : string) (r : Request) : option string :=
  match Request_Cookie r name with
  | Some v => if is_empty v then None else Some v
  | None => None
  end.
Definition readSessionCookie : Request → option string := read_cookie sessionCookieName.
Definition readApprovalCookie : Request → option string := read_cookie approvalCookieName.

Definition approvalBindingMatches (r : Request) (sess : Session) : bool :=
  match readApprovalCookie r with
  | Some secret =>
      if is_empty (ApprovalBindingHash sess) then false
      else constantTimeStringEqual (hashBinding secret) (ApprovalBindingHash sess)
  | None => false
  end.

(** ** Responses *)
Definition writeJSON (status : Z) (v : content) (w : ResponseWriter) : ResponseWriter :=
  Write v (WriteHeader status (Header_Set "Content-Type" "application/json; charset=utf-8" w)).

Definition writeJSONError (status : Z) (code msg : string) (w : ResponseWriter) : ResponseWriter :=
  writeJSON status (JSONPoll (mkPollResponse "error" None (code +:+ ": " +:+ msg))) w.

Definition renderResult (status : Z) (title message : string) (w : ResponseWriter)
    : ResponseWriter :=
  Write (PageResult (mkResultPage title message))
    (WriteHeader status (Header_Set "Content-Type" "text/html; charset=utf-8" w)).

Definition renderApprove `{Location} (sess : Session) (baseURL : string) (w : ResponseWriter)
    : ResponseWriter :=
  Write (PageApprove {|
      ap_Identity := match SIdentity sess with Some i => Value i | None => "" end;
      ap_ClientHost := ClientHost sess;
      ap_ClientKind := ClientKind sess;
      ap_ClientIP := ClientIP sess;
      ap_VerifiedClient := VerifiedClient sess;
      ap_StartedAt := Format_RFC1123 (CreatedAt sess);
      ap_CSRFToken := CSRFToken sess;
      ap_ApproveAction := baseURL +:+ "/auth/approve" |})
    (Header_Set "Content-Type" "text/html; charset=utf-8" w).

(** ** Request bodies: [json.NewDecoder(r.Body).Decode(&req)] *)
Definition decode_startRequest (r : Request) : option startRequest := read_startRequest (Body r).
Definition decode_pollRequest (r : Request) : option pollRequest := read_pollRequest (Body r).

Section Handlers.
Context `{UnicodeCase} `{Location} `{RateLimiter}.
Variable cfg : Config.

(** ** POST /auth/start *)
Definition authenticate_client (r : Request) : result string auth_error :=
  match ClientAuthenticator cfg with None => Ok "" | Some auth => auth r end.

(** [!b.ipLimiter.Allow(ip) || !b.hintLimiter.Allow(req.LoginHint)]: the
    second limiter is not charged when the first refuses. *)
Definition rate_limited (ip hint : string) : prog bool :=
  a <- trigger (IPAllow ip) ;;
  if negb a then Ret true else
  b <- trigger (HintAllow hint) ;; Ret (negb b).

Definition create_session (p : StartParams) : prog (result Session string) :=
  now <- trigger Now ;;
  trigger (Draw (newSession p (SessionTTL cfg) (PollInterval cfg) now)).

Definition handleStart (w : ResponseWriter) (r : Request) : prog ResponseWriter :=
  match authenticate_client r with
  | Err _ => Ret (writeJSONError StatusUnauthorized "invalid_client" "client authentication failed" w)
  | Ok verifiedClient =>
  match decode_startRequest r with
  | None => Ret (writeJSONError StatusBadRequest "invalid_request" "malformed JSON body" w)
  | Some req =>
  if is_empty (sq_LoginHint req) || is_empty (sq_CodeChallenge req) then
    Ret (writeJSONError StatusBadRequest "invalid_request"
      "login_hint and code_challenge are required" w)
  else if negb (is_empty (sq_CodeChallengeMethod req))
          && negb (seqb (sq_CodeChallengeMethod req) "S256") then
    Ret (writeJSONError StatusBadRequest "invalid_request"
      "only S256 code_challenge_method is supported" w)
  else
  now <- trigger Now ;;
  Observe cfg EventRepeatedStart (sq_LoginHint req) "" now ;;;
  let ip := resolveClientIP r (TrustedProxies cfg) in
  if negb (isAllowedClient ip (AllowedClientCIDRs cfg)) then
    Ret (writeJSONError StatusForbidden "network_not_allowed"
      "this network is not permitted to start sign-ins" w)
  else
  limited <- rate_limited ip (sq_LoginHint req) ;;
  if (limited : bool) then
    Ret (writeJSONError StatusTooManyRequests "rate_limited"
      "too many session starts; try again later" w)
  else
  created <- create_session (mkStartParams (sq_LoginHint req) (sq_CodeChallenge req)
    (sq_ClientKind req) (sq_ClientHost req) ip verifiedClient) ;;
  match created with
  | Err _ => Ret (writeJSONError StatusInternalServerError "server_error"
      "could not create session" w)
  | Ok sess =>
  err <- trigger (StCreate sess) ;;
  match err with
  | Some _ => Ret (writeJSONError StatusInternalServerError "server_error"
      "could not persist session" w)
  | None =>
  logTransition (ID sess) "session_started"
    [("severity", "info"); ("client_host", ClientHost sess);
     ("client_kind", ClientKind sess); ("client_ip", ClientIP sess)] ;;;
  Ret (writeJSON StatusOK (JSONStart {|
    sr_SessionID := ID sess;
    sr_VerificationURI := BaseURL cfg +:+ "/auth/verify/" +:+ ID sess;
    sr_UserCode := UserCode sess;
    sr_ExpiresIn := int_Seconds (SessionTTL cfg);
    sr_Interval := int_Seconds (PollInterval cfg) |}) w)
  end end end end.

(** ** GET /auth/verify/{session_id} *)
Definition link_not_found (w : ResponseWriter) : ResponseWriter :=
  renderResult StatusNotFound "Link not found"
    "This sign-in link is invalid or has already been used." w.

Definition link_expired (w : ResponseWriter) : ResponseWriter :=
  renderResult StatusGone "Link expired"
    "This sign-in request has expired. Go back to the client and try again." w.

Definition continue_elsewhere (w : ResponseWriter) : ResponseWriter :=
  renderResult StatusForbidden "Continue on your device"
    "This sign-in is waiting for approval on the browser where you signed in. Please continue there." w.

Definition could_not_start (w : ResponseWriter) : ResponseWriter :=
  renderResult StatusInternalServerError "Error" "Could not start sign-in. Please try again." w.

Definition begin_idp_leg (w : ResponseWriter) (r : Request) (sess : Session)
    : prog ResponseWriter :=
  '(res, sess) <- trigger (IdPBegin sess) ;;
  match res with
  | Err _ => Ret (could_not_start w)
  | Ok redirectURL =>
      err <- trigger (StUpdate sess) ;;
      match err with
      | Some _ => Ret (could_not_start w)
      | None => Ret (Redirect redirectURL StatusFound (setSessionCookie r (ID sess) w))
      end
  end.

Definition handleVerify (id : string) (w : ResponseWriter) (r : Request) : prog ResponseWriter :=
  got <- trigger (StGet id) ;;
  match got with
  | Err _ => Ret (link_not_found w)
  | Ok sess =>
  now <- trigger Now ;;
  let (expired, sess) := expireIfNeeded sess now in
  if (expired : bool) then
    trigger (StUpdate sess) ;;; Ret (link_expired w)
  else
  match SState sess with
  | StateAwaitingApproval =>
      if negb (approvalBindingMatches r sess) then Ret (continue_elsewhere w)
      else Ret (renderApprove sess (BaseURL cfg) (setSessionCookie r (ID sess) w))
  | StateDenied => Ret (renderResult StatusOK "Sign-in denied"
      "This sign-in request was already denied." w)
  | StateApproved => Ret (renderResult StatusOK "Already approved"
      "This sign-in request was already approved." w)
  | StatePending => begin_idp_leg w r sess
  | StateExpired => Ret (renderResult StatusOK "Unavailable"
      "This sign-in request is no longer available." w)
  end end.

(** ** GET /auth/callback and POST /auth/saml/acs *)
Definition missing_cookie (w : ResponseWriter) : ResponseWriter :=
  renderResult StatusBadRequest "Error" "Missing sign-in cookie; please restart from the client." w.

(** [bindIdentity] with the entropy it draws. *)
Definition bind_identity (sess : Session) (ident : Identity) (now : Time) (abh : string)
    : prog (option broker_error * Session) :=
  trigger (Draw (bindIdentity sess ident (IdentityNormalizer cfg) now abh)).

Definition handleIdPResponse (w : ResponseWriter) (r : Request) : prog ResponseWriter :=
  match readSessionCookie r with
  | None => Ret (missing_cookie w)
  | Some sessID =>
  got <- trigger (StGet sessID) ;;
  match got with
  | Err _ => Ret (link_not_found w)
  | Ok sess =>
  now <- trigger Now ;;
  let (expired, sess) := expireIfNeeded sess now in
  if (expired : bool) then
    trigger (StUpdate sess) ;;; Ret (link_expired w)
  else
  if negb (bool_decide (SState sess = StatePending)) then
    Ret (renderResult StatusConflict "Already in progress"
      "This sign-in request was already completed." w)
  else
  res <- trigger (IdPComplete r sess) ;;
  match res with
  | Err _ =>
      logTransition (ID sess) "callback_exchange_failed" [("severity", "warn")] ;;;
      Ret (renderResult StatusBadGateway "Sign-in failed"
        "The identity provider rejected this sign-in attempt." w)
  | Ok ident =>
  minted <- trigger (Draw newApprovalSecret) ;;
  match minted with
  | Err _ => Ret (renderResult StatusInternalServerError "Error"
      "This sign-in request could not be completed." w)
  | Ok approvalSecret =>
  '(bindErr, sess) <- bind_identity sess ident now (hashBinding approvalSecret) ;;
  trigger (StUpdate sess) ;;;
  match bindErr with
  | Some ErrIdentityMismatch =>
      Observe cfg EventIdentityMismatch (LoginHint sess) (ID sess) now ;;;
      Ret (renderResult StatusForbidden "Identity mismatch"
        "You are signed in as a different account than the one this request is for. The request has been denied." w)
  | Some _ => Ret (renderResult StatusConflict "Error"
      "This sign-in request could not be completed." w)
  | None =>
  logTransition (ID sess) "identity_bound" [("severity", "info")] ;;;
  Ret (renderApprove sess (BaseURL cfg) (setApprovalCookie r approvalSecret w))
  end end end end end.

(** ** POST /auth/approve *)
Record approveRequest := mkApproveRequest {
  aq_SessionID : string;
  aq_UserCode : string;
  aq_CSRFToken : string;
  aq_Approve : bool;
}.

Definition read_approveRequest (sessID : string) (r : Request) : approveRequest :=
  mkApproveRequest sessID (FormValue r "user_code") (FormValue r "csrf_token")
    (seqb (FormValue r "decision") "approve").

(** The [switch] after [approve]: [appErr == nil] is [None]. *)
Definition approve_response (appErr : option broker_error) (sess : Session) (now : Time)
    (w : ResponseWriter) (r : Request) : prog ResponseWriter :=
  if bool_decide (appErr = None) && bool_decide (SState sess = StateApproved) then
    logTransition (ID sess) "approved" [("severity", "info")] ;;;
    Ret (renderResult StatusOK "Approved" "Sign-in approved. Return to the client to continue." w)
  else if bool_decide (SState sess = StateDenied) then
    logTransition (ID sess) "denied" [("severity", "info")] ;;;
    Ret (renderResult StatusOK "Denied" "Sign-in denied." w)
  else
  match appErr with
  | Some ErrExpired =>
      Ret (renderResult StatusGone "Expired" "This sign-in request has expired." w)
  | Some ErrApprovalNotBound =>
      logTransition (ID sess) "approval_not_bound" [("severity", "warn")] ;;;
      Ret (continue_elsewhere w)
  | Some _ =>
      Observe cfg EventWrongCode (resolveClientIP r (TrustedProxies cfg)) (ID sess) now ;;;
      Ret (renderApprove sess (BaseURL cfg) w)
  | None => Ret (renderResult StatusOK "Done" "This request has been processed." w)
  end.

Definition handleApprove (w : ResponseWriter) (r : Request) : prog ResponseWriter :=
  match readSessionCookie r with
  | None => Ret (missing_cookie w)
  | Some sessID =>
  match Form r with
  | None => Ret (renderResult StatusBadRequest "Error" "Malformed request." w)
  | Some _ =>
  let req := read_approveRequest sessID r in
  got <- trigger (StGet (aq_SessionID req)) ;;
  match got with
  | Err _ => Ret (link_not_found w)
  | Ok sess =>
  if negb (constantTimeStringEqual (aq_CSRFToken req) (CSRFToken sess)) then
    Ret (renderResult StatusForbidden "Error"
      "Invalid form submission; please reload the page and try again." w)
  else
  let approvalSecret := default "" (readApprovalCookie r) in
  now <- trigger Now ;;
  let (appErr, sess) := approve sess (aq_UserCode req) (aq_Approve req) now approvalSecret in
  trigger (StUpdate sess) ;;;
  approve_response appErr sess now w r
  end end end.

(** ** POST /auth/poll *)
Definition poll_status (o : poll_outcome) : option PollStatus :=
  match o with PollReturns r => Some (pr_Status r) | _ => None end.

Definition poll_response (outcome : poll_outcome) (sess : Session) (w : ResponseWriter)
    : prog ResponseWriter :=
  match outcome with
  | PollPanics => Panic
  | PollFails ErrInvalidVerifier =>
      logTransition (ID sess) "poll_invalid_verifier" [("severity", "warn")] ;;;
      Ret (writeJSONError StatusForbidden "invalid_verifier" "code_verifier does not match" w)
  | PollFails _ => Ret (writeJSONError StatusInternalServerError "server_error"
      "could not evaluate session" w)
  | PollReturns result =>
      match pr_Status result, pr_Artifact result with
      | PollApproved, Some a =>
          logTransition (ID sess) "consumed" [("severity", "info")] ;;;
          Ret (writeJSON StatusOK
            (JSONPoll (mkPollResponse (PollStatus_string PollApproved) (Some a) "")) w)
      | st, _ => Ret (writeJSON StatusOK
            (JSONPoll (mkPollResponse (PollStatus_string st) None "")) w)
      end
  end.

(** A panic in [poll] leaves the handler before [Update]. *)
Definition handlePoll (w : ResponseWriter) (r : Request) : prog ResponseWriter :=
  let malformed := writeJSONError StatusBadRequest "invalid_request" "malformed JSON body" w in
  match decode_pollRequest r with
  | None => Ret malformed
  | Some req =>
  if is_empty (pq_SessionID req) then Ret malformed else
  got <- trigger (StGet (pq_SessionID req)) ;;
  match got with
  | Err _ => Ret (writeJSON StatusOK
      (JSONPoll (mkPollResponse (PollStatus_string PollExpired) None "")) w)
  | Ok sess =>
  let wasConsumed := Consumed sess in
  now <- trigger Now ;;
  let (outcome, sess) := poll sess (pq_CodeVerifier req) now (ArtifactTTL cfg) in
  match outcome with
  | PollPanics => Panic
  | _ =>
  trigger (StUpdate sess) ;;;
  (if wasConsumed && bool_decide (poll_status outcome = Some PollExpired) then
     now2 <- trigger Now ;;
     Observe cfg EventConsumedReplay (resolveClientIP r (TrustedProxies cfg)) (ID sess) now2
   else Ret tt) ;;;
  poll_response outcome sess w
  end end end.

(** ** Router *)
Inductive endpoint :=
  | Healthz
  | Start
  | Verify (session_id : string)
  | Callback
  | SamlACS
  | ApproveForm
  | PollEndpoint.

Definition auth_middlewares (h : Handler) : Handler := noStoreMiddleware (cspMiddleware h).

(** The routes of [Router]; chi matches the method and the path. *)
Definition Router (e : endpoint) : Handler :=
  match e with
  | Healthz => λ w _, Ret (WriteHeader StatusOK w)
  | Start => auth_middlewares handleStart
  | Verify id => auth_middlewares (handleVerify id)
  | Callback => auth_middlewares handleIdPResponse
  | SamlACS => auth_middlewares handleIdPResponse
  | ApproveForm => auth_middlewares handleApprove
  | PollEndpoint => auth_middlewares handlePoll
  end.

Definition serve (e : endpoint) (r : Request) : prog ResponseWriter := Router e new_writer r.

End Handlers.
