(* ===== verification/System.v ===== *)
(** The broker serving concurrent requests.  A state has one program per
    request received; an action is the arrival of a request, one event of one
    program, a move of the clock, or the store's background eviction.  Every
    interleaving of handlers is a list of actions.  The trace records what
    each thread did and was answered; it is the history the program logic of
    [Prog] is instantiated with. *)

From S2P Require Import Prelude GoStrings GoTime GoCrypto GoFormat Session Fsm Store Wire Http.
From S2P Require Import ClientIP ClientAuth Detect RateLimit Prog Broker Handlers.

Local Open Scope list_scope.

(** A performed event with its answer, tagged with its thread. *)
Definition tev : Type := nat * {R : Type & (event R * R)%type}.

Definition did (i : nat) {R} (e : event R) (x : R) : tev := (i, existT R (e, x)).

(** Histories: the requests received and the trace. *)
Definition history : Type := list (endpoint * Request) * list tev.

Definition le (h h' : history) : Prop := h.1 `prefix_of` h'.1 ∧ h.2 `prefix_of` h'.2.

#[export] Instance le_preorder : PreOrder le.
Proof.
  split; [intros h; by split|]. intros h1 h2 h3 [? ?] [? ?]. split; by etrans.
Qed.

Lemma le_request h h' i er : le h h' → h.1 !! i = Some er → h'.1 !! i = Some er.
Proof. intros [Hp _] Hi. by eapply prefix_lookup_Some. Qed.

Lemma le_did h h' (x : tev) : le h h' → x ∈ h.2 → x ∈ h'.2.
Proof. intros [_ [l ->]] Hx. apply elem_of_app. by left. Qed.

Inductive action :=
  | Arrive (e : endpoint) (r : Request)
  | Step (i : nat)
  | Tick (d : Duration)
  | Evict.

Section System.
Context {St I : Type} `{StoreLaws St} `{RateLimiter} `{IdentityProviderLaws I}.
Context `{UnicodeCase} `{Location}.
Variable cfg : Config.

Record Sys := mkSys {
  s_world : World St I;
  s_reqs : list (endpoint * Request);
  s_threads : list (prog ResponseWriter);
  s_trace : list tev;
}.

Definition hist (sys : Sys) : history := (s_reqs sys, s_trace sys).

Definition set_world (w : World St I) (sys : Sys) : Sys :=
  mkSys w (s_reqs sys) (s_threads sys) (s_trace sys).

Definition step (a : action) (sys : Sys) : Sys :=
  match a with
  | Arrive e r =>
      mkSys (s_world sys) (s_reqs sys ++ [(e, r)]) (s_threads sys ++ [serve cfg e r])
        (s_trace sys)
  | Step i =>
      match s_threads sys !! i with
      | Some (Vis e k) =>
          let (x, w) := interp e (s_world sys) in
          mkSys w (s_reqs sys) (<[i := k x]> (s_threads sys)) (s_trace sys ++ [did i e x])
      | _ => sys
      end
  | Tick d => set_world (with_clock (w_clock (s_world sys) + d) (s_world sys)) sys
  | Evict =>
      let w := s_world sys in
      set_world (with_store (store_evict (w_clock w) (w_store w)) w) sys
  end.

Definition exec (acts : list action) (sys : Sys) : Sys := foldl (λ s a, step a s) sys acts.

Definition init (w : World St I) : Sys := mkSys w [] [] [].

Definition response (sys : Sys) (i : nat) : option ResponseWriter :=
  match s_threads sys !! i with Some (Ret rw) => Some rw | _ => None end.

(** Serving a request without interference is one of the schedules:
    some number of consecutive steps of a thread takes the system to the
    state and the response that [run] computes (so every handler
    terminates). *)
Lemma run_is_schedule p : ∀ sys i, s_threads sys !! i = Some p →
  ∃ n, let sys' := exec (replicate n (Step i)) sys in
    s_world sys' = (run p (s_world sys)).2 ∧ s_reqs sys' = s_reqs sys ∧
    match (run p (s_world sys)).1 with
    | Some rw => s_threads sys' = <[i := Ret rw]> (s_threads sys)
    | None => s_threads sys' = <[i := Panic]> (s_threads sys)
    end.
Proof.
  induction p as [a| |R e k IH]; intros sys i Hi; simpl.
  - exists 0%nat. simpl. by rewrite list_insert_id.
  - exists 0%nat. simpl. by rewrite list_insert_id.
  - destruct (interp e (s_world sys)) as [x w] eqn:E.
    set (sys1 := mkSys w (s_reqs sys) (<[i := k x]> (s_threads sys))
                   (s_trace sys ++ [did i e x])).
    assert (Hi1 : s_threads sys1 !! i = Some (k x)).
    { simpl. apply list_lookup_insert_eq. by eapply lookup_lt_Some. }
    destruct (IH x sys1 i Hi1) as (n & Hw & Hr & Ht). exists (S n).
    assert (Hs : step (Step i) sys = sys1) by (simpl; by rewrite Hi, E).
    cbn [replicate exec foldl]. fold (exec (replicate n (Step i)) (step (Step i) sys)).
    rewrite Hs. simpl in Hw, Hr, Ht. split; [done|]. split; [done|].
    destruct (run (k x) w) as [[rw|] w'] eqn:Er; simpl in *; rewrite Ht;
      by rewrite list_insert_insert_eq.
Qed.

(** ** Soundness of the program logic

    [just h s]: the session value [s] is justified by the history [h]. *)
Section Soundness.
Variable just : history → Session → Prop.
Hypothesis just_stable : stable (le := le) just.

Definition pre (R : Type) (e : event R) (h : history) : Prop :=
  match e with StCreate s => just h s | StUpdate s => just h s | _ => True end.

Definition post (i : nat) (R : Type) (e : event R) (x : R) (h : history) : Prop :=
  did i e x ∈ h.2 ∧
  match e in event R return R → Prop with
  | StGet id => λ r, match r with Ok s => ID s = id ∧ just h s | Err _ => True end
  | Draw f => λ a, ∃ t, (f t).1 = a
  | IdPBegin s => λ rs, same_but_idp s rs.2
  | _ => λ _, True
  end x.

(** Responses: [Q i h rw] is the claim about the response of thread [i]. *)
Variable Q : nat → history → ResponseWriter → Prop.
Hypothesis Q_stable : ∀ i, stable (le := le) (Q i).

Definition wp_thread (i : nat) : prog ResponseWriter → history → Prop :=
  wp (le := le) pre (post i) (Q i).

Record inv (sys : Sys) : Prop := {
  inv_store : store_ok (w_store (s_world sys));
  inv_just : ∀ id s, store_view (w_store (s_world sys)) !! id = Some s → just (hist sys) s;
  inv_threads : ∀ i p, s_threads sys !! i = Some p → wp_thread i p (hist sys);
  inv_length : length (s_threads sys) = length (s_reqs sys);
}.

(** What one event does to the store, and its postcondition. *)
Lemma interp_sound i R (e : event R) w x w' h h' :
  store_ok (w_store w) →
  (∀ id s, store_view (w_store w) !! id = Some s → just h s) →
  pre R e h → le h h' → did i e x ∈ h'.2 → interp e w = (x, w') →
  store_ok (w_store w') ∧
  (∀ id s, store_view (w_store w') !! id = Some s → just h' s) ∧
  post i R e x h'.
Proof.
  intros Hok Hj Hpre Hle Hdid Hint. unfold post.
  assert (Hj' : ∀ id s, store_view (w_store w) !! id = Some s → just h' s)
    by (intros; eapply just_stable; eauto).
  destruct e; simpl in *; repeat case_match; simplify_eq/=;
    try (split_and!; [done|done|done|by eauto]).
  - split_and!; [done|done|done|]. by eexists; match goal with H : _ = (_, _) |- _ => rewrite H end.
  - match goal with H : store_Create _ _ _ = _ |- _ => apply Create_law in H as [Hok' Hv]; [|done] end.
    split_and!; [done| |done|done]. intros id s' Hs.
    repeat case_match; destruct_or?; simplify_eq/=; try (rewrite Hv in Hs); eauto;
      apply lookup_insert_Some in Hs as [[_ <-]|[_ Hs]]; eauto.
  - match goal with H : store_Get _ _ _ = _ |- _ => apply Get_law in H as (Hok' & Hv & Hr); [|done] end.
    rewrite Hv. split_and!; [done|done|done|by apply (store_key (w_store w))|by eauto].
  - match goal with H : store_Get _ _ _ = _ |- _ => apply Get_law in H as (Hok' & Hv & Hr); [|done] end.
    rewrite Hv. by split_and!.
  - match goal with H : store_Update _ _ _ = _ |- _ => apply Update_law in H as [Hok' Hv]; [|done] end.
    split_and!; [done| |done|done]. intros id s' Hs.
    assert (Hc : store_view s0 = store_view (w_store w)
               ∨ store_view s0 = <[ID s := s]> (store_view (w_store w)))
      by (repeat case_match; naive_solver).
    destruct Hc as [Hc|Hc]; rewrite Hc in Hs; [eauto|].
    apply lookup_insert_Some in Hs as [[_ <-]|[_ Hs]]; eauto.
  - split_and!; [done|done|done|]. by eapply BeginLogin_frame.
Qed.

(** Every handler meets its claim when its request is recorded. *)
Hypothesis serve_sound : ∀ i e r h, h.1 !! i = Some (e, r) → wp_thread i (serve cfg e r) h.

Lemma step_inv a sys : inv sys → inv (step a sys).
Proof.
  intros Hi. pose proof (inv_store sys Hi) as Hok. pose proof (inv_just sys Hi) as Hj.
  pose proof (inv_length sys Hi) as Hlen. destruct a as [e r|i|d|]; simpl.
  - assert (Hle : le (hist sys) (s_reqs sys ++ [(e, r)], s_trace sys))
      by (split; simpl; [by apply prefix_app_r|done]).
    constructor; simpl; [done| | |rewrite !length_app; simpl; lia].
    + intros id s Hs. eapply just_stable; eauto.
    + intros i p Hp. apply lookup_app_Some in Hp as [Hp|[Hge Hp]].
      * eapply wp_mono; [apply Q_stable|exact Hle|by apply (inv_threads sys Hi)].
      * apply list_lookup_singleton_Some in Hp as [Heq <-]. apply serve_sound. unfold hist. simpl.
        replace i with (length (s_reqs sys)) by lia. by rewrite lookup_app_r, Nat.sub_diag.
  - destruct (s_threads sys !! i) as [[rw| |R e k]|] eqn:Hp; [done|done| |done].
    destruct (interp e (s_world sys)) as [x w] eqn:Hint.
    pose proof (inv_threads sys Hi i _ Hp) as Hwp. simpl in Hwp.
    destruct (Hwp (hist sys) ltac:(done)) as [Hpre Hk].
    assert (Hle : le (hist sys) (s_reqs sys, s_trace sys ++ [did i e x]))
      by (split; simpl; [done|by apply prefix_app_r]).
    destruct (interp_sound i R e (s_world sys) x w (hist sys)
      (s_reqs sys, s_trace sys ++ [did i e x])) as (Hok' & Hj' & Hpost); try done.
    { simpl. apply elem_of_app. right. by apply list_elem_of_singleton. }
    constructor; simpl; [done|done| |by rewrite length_insert].
    intros j p Hj2. apply list_lookup_insert_Some in Hj2 as [(<- & <- & _)|[Hne Hj2]].
    + by apply Hk.
    + eapply wp_mono; [apply Q_stable|exact Hle|by apply (inv_threads sys Hi)].
  - constructor; simpl; try done. intros i p. apply (inv_threads sys Hi).
  - destruct (evict_law (w_clock (s_world sys)) (w_store (s_world sys)) Hok) as [Hok' Hsub].
    constructor; simpl; try done.
    + intros id s Hs. apply (Hj id). by eapply lookup_weaken.
    + intros i p. apply (inv_threads sys Hi).
Qed.

Lemma exec_inv acts sys : inv sys → inv (exec acts sys).
Proof.
  revert sys. induction acts as [|a acts IH]; intros sys Hi; simpl; [done|].
  by apply IH, step_inv.
Qed.

Lemma init_inv w : store_ok (w_store w) → store_view (w_store w) = ∅ → inv (init w).
Proof.
  intros Hok He. constructor; simpl; try done. intros id s. rewrite He.
  by rewrite lookup_empty.
Qed.

(** No thread panics, in any schedule. *)
Lemma system_no_panic w acts i :
  store_ok (w_store w) → store_view (w_store w) = ∅ →
  s_threads (exec acts (init w)) !! i ≠ Some Panic.
Proof.
  intros Hok He Hp. pose proof (exec_inv acts _ (init_inv w Hok He)) as Hi.
  exact (inv_threads _ Hi i _ Hp).
Qed.

(** Every response, in every schedule, satisfies its claim. *)
Lemma system_sound w acts i rw :
  store_ok (w_store w) → store_view (w_store w) = ∅ →
  response (exec acts (init w)) i = Some rw → Q i (hist (exec acts (init w))) rw.
Proof.
  intros Hok He Hr. pose proof (exec_inv acts _ (init_inv w Hok He)) as Hi.
  unfold response in Hr. destruct (s_threads _ !! i) as [p|] eqn:Hp; [|done].
  pose proof (inv_threads _ Hi i p Hp) as Hwp. destruct p; simplify_eq. exact Hwp.
Qed.

End Soundness.
End System.
