(* ===== verification/Justify.v ===== *)
(** What the existence of a session value proves about the past.  [just h s]
    says that the history [h] contains the start request that created [s],
    and, if [s] is bound or approved, the login and the approval that made it
    so.  Every operation of [Fsm] preserves it, and later events cannot
    falsify it. *)

From S2P Require Import Prelude GoStrings GoTime GoCrypto GoFormat UserCode Pkce Session Fsm.
From S2P Require Import FsmSpec FsmTrace Store Wire Http ClientIP ClientAuth Detect RateLimit Prog.
From S2P Require Import Broker Handlers System.

Local Open Scope list_scope.

Section Justify.
Context `{UnicodeCase} `{RateLimiter}.
Variable cfg : Config.
Notation norm := (IdentityNormalizer cfg).

(** Thread [i] serves the request [r] at endpoint [e]. *)
Definition serves (h : history) (i : nat) (e : endpoint) (r : Request) : Prop :=
  h.1 !! i = Some (e, r).

(** Thread [i] performed [e] and was answered [x]. *)
Definition performed (h : history) (i : nat) {R} (e : event R) (x : R) : Prop :=
  did i e x ∈ h.2.

(** A request of /auth/start passed every gate and created the session. *)
Definition started (h : history) (s : Session) : Prop := ∃ i r req,
  serves h i Start r ∧ decode_startRequest r = Some req ∧
  authenticate_client cfg r = Ok (VerifiedClient s) ∧
  sq_LoginHint req = LoginHint s ∧ LoginHint s ≠ "" ∧
  sq_CodeChallenge req = CodeChallenge s ∧ CodeChallenge s ≠ "" ∧
  resolveClientIP r (TrustedProxies cfg) = ClientIP s ∧
  isAllowedClient (ClientIP s) (AllowedClientCIDRs cfg) = true ∧
  performed h i (IPAllow (ClientIP s)) true ∧ performed h i (HintAllow (LoginHint s)) true ∧
  performed h i Now (CreatedAt s) ∧ ExpiresAt s = Add (CreatedAt s) (SessionTTL cfg).

(** A response of the identity provider, before the session expired, asserted
    [ident], which matches the login hint; [secret] was minted for it. *)
Definition logged_in (h : history) (s : Session) (ident : Identity) (secret : string) : Prop :=
  ∃ i e r s0,
  serves h i e r ∧ (e = Callback ∨ e = SamlACS) ∧ readSessionCookie r = Some (ID s) ∧
  performed h i (IdPComplete r s0) (Ok ident) ∧ origin s0 = origin s ∧
  performed h i (Draw newApprovalSecret) (Ok secret) ∧
  performed h i Now (IdentityAt s) ∧ IdentityAt s ≤ ExpiresAt s ∧
  identity_matches norm ident s ∧ SIdentity s = Some ident ∧
  ApprovalBindingHash s = hashBinding secret.

(** A form submission, before the session expired, with the session's cookie,
    CSRF token and code, from a browser holding the binding secret. *)
Definition approved_by (h : history) (s : Session) : Prop := ∃ i r ta,
  serves h i ApproveForm r ∧ readSessionCookie r = Some (ID s) ∧
  FormValue r "decision" = "approve" ∧ FormValue r "csrf_token" = CSRFToken s ∧
  codesEqual (FormValue r "user_code") (UserCode s) = true ∧
  hashBinding (default "" (readApprovalCookie r)) = ApprovalBindingHash s ∧
  performed h i Now ta ∧ ta ≤ ExpiresAt s.

Record just (h : history) (s : Session) : Prop := {
  just_wf : wf norm s;
  just_started : started h s;
  just_login : bound s → ∃ ident secret, logged_in h s ident secret;
  just_approved : SState s = StateApproved → approved_by h s;
}.

(** *** Later events *)
Lemma serves_le h h' i e r : le h h' → serves h i e r → serves h' i e r.
Proof. apply le_request. Qed.

Lemma performed_le h h' i {R} (e : event R) x : le h h' → performed h i e x → performed h' i e x.
Proof. apply le_did. Qed.

Hint Resolve serves_le performed_le : xdauth.

Lemma started_le h h' s : le h h' → started h s → started h' s.
Proof.
  intros Hle (i & r & req & Hs & Hrest). exists i, r, req.
  destruct_and!. split_and!; eauto with xdauth.
Qed.

Lemma logged_in_le h h' s ident secret :
  le h h' → logged_in h s ident secret → logged_in h' s ident secret.
Proof.
  intros Hle (i & e & r & s0 & Hs & Hrest). exists i, e, r, s0.
  destruct_and!. split_and!; eauto with xdauth.
Qed.

Lemma approved_by_le h h' s : le h h' → approved_by h s → approved_by h' s.
Proof.
  intros Hle (i & r & ta & Hs & Hrest). exists i, r, ta.
  destruct_and!. split_and!; eauto with xdauth.
Qed.

Lemma just_stable : stable (le := le) just.
Proof.
  intros h h' s Hle [Hw Hs Hl Ha]. constructor.
  - done.
  - by eapply started_le.
  - intros Hb. destruct (Hl Hb) as (i & b & Hi). exists i, b. by eapply logged_in_le.
  - intros Hb. by eapply approved_by_le; [|apply Ha].
Qed.

(** *** Operations *)

Lemma started_origin h s s' : origin s' = origin s → started h s → started h s'.
Proof.
  unfold started, origin. intros Ho (i & r & req & Hrest). simplify_eq. exists i, r, req.
  repeat match goal with E : _ s' = _ s |- _ => rewrite E end. exact Hrest.
Qed.

(** The fields the justification of a bound session reads. *)
Definition binding (s : Session) :=
  (SIdentity s, IdentityAt s, ApprovalBindingHash s, CSRFToken s).

Lemma logged_in_binding h s s' ident secret : origin s' = origin s → binding s' = binding s →
  logged_in h s ident secret → logged_in h s' ident secret.
Proof.
  unfold logged_in, identity_matches, origin, binding.
  intros Ho Hb (i & e & r & s0 & Hrest). simplify_eq. exists i, e, r, s0.
  repeat match goal with E : _ s' = _ s |- _ => rewrite E end. exact Hrest.
Qed.

Lemma approved_by_binding h s s' : origin s' = origin s → binding s' = binding s →
  approved_by h s → approved_by h s'.
Proof.
  unfold approved_by, origin, binding. intros Ho Hb (i & r & ta & Hrest). simplify_eq.
  exists i, r, ta. repeat match goal with E : _ s' = _ s |- _ => rewrite E end. exact Hrest.
Qed.

(** A step that does not bind or approve. *)
Lemma just_frame h s s' : wf norm s' → origin s' = origin s →
  (bound s' → bound s ∧ binding s' = binding s) →
  (SState s' = StateApproved → SState s = StateApproved) →
  just h s → just h s'.
Proof.
  intros Hwf Ho Hb Ha [_ Hs Hl Hap]. constructor.
  - done.
  - by eapply started_origin.
  - intros H'. destruct (Hb H') as [Hb1 Hb2]. destruct (Hl Hb1) as (i & b & Hi).
    exists i, b. by eapply logged_in_binding.
  - intros H'. eapply approved_by_binding; [done| |by apply Hap, Ha].
    apply Hb. by right.
Qed.

Lemma just_expire h s now b s' : expire_spec s now b s' → just h s → just h s'.
Proof.
  intros He Hj. pose proof (wf_expire_spec _ _ _ _ _ (just_wf _ _ Hj) He) as Hwf.
  destruct He; try done. apply (just_frame h s); [done|done| | |done]; simpl; [|done].
  by intros [|].
Qed.

Lemma just_idp h s s' : same_but_idp s s' → just h s → just h s'.
Proof.
  intros Hs Hj. apply (just_frame h s); [| | | |exact Hj]; try by rewrite Hs.
  rewrite Hs. by apply wf_set_idp, (just_wf h).
Qed.

Lemma just_poll h s v now ttl o s' : poll_spec s v now ttl o s' → just h s → just h s'.
Proof.
  intros Hp Hj. pose proof (wf_poll _ _ _ _ _ _ _ (just_wf _ _ Hj) Hp) as Hwf.
  destruct Hp; try done; try (by eapply just_expire);
    (apply (just_frame h s); [done|done| | |exact Hj]); done.
Qed.

(** Binding: the login is in the history. *)
Lemma just_bind h s ident now secret t e s' t' i ep r :
  bind_spec s ident norm now (hashBinding secret) t e s' t' →
  serves h i ep r → (ep = Callback ∨ ep = SamlACS) → readSessionCookie r = Some (ID s) →
  performed h i (IdPComplete r s) (Ok ident) →
  performed h i (Draw newApprovalSecret) (Ok secret) →
  performed h i Now now → just h s → just h s'.
Proof.
  intros Hb Hsv Hep Hck Hidp Hsec Hnow Hj.
  pose proof (wf_bind _ _ _ _ _ _ _ _ _ (just_wf _ _ Hj) Hb) as Hwf.
  destruct Hb as [s1 He | | Hl Hm | e1 t1 Hl Hm Ht | tok t1 [Hp Hx] Hm Ht].
  - by eapply just_expire.
  - done.
  - apply (just_frame h s); [done|done| | |exact Hj]; simpl; [by intros [|]|done].
  - destruct Hl as [Hp _]. apply (just_frame h s); [done|done| | |exact Hj]; simpl.
    + unfold bound. simpl. rewrite Hp. by intros [|].
    + done.
  - constructor; [done|by apply (started_origin _ s), (just_started _ _ Hj)| |done].
    intros _. exists ident, secret, i, ep, r, s. simpl. split_and!; try done.
    apply Hx. by left.
Qed.

(** Approving: the form submission is in the history. *)
Lemma just_approve h s r now e s' i :
  approve_spec s (FormValue r "user_code") (seqb (FormValue r "decision") "approve") now
    (default "" (readApprovalCookie r)) e s' →
  serves h i ApproveForm r → readSessionCookie r = Some (ID s) →
  FormValue r "csrf_token" = CSRFToken s →
  performed h i Now now → just h s → just h s'.
Proof.
  intros Ha Hsv Hck Hcs Hnow Hj.
  pose proof (wf_approve _ _ _ _ _ _ _ _ (just_wf _ _ Hj) Ha) as Hwf.
  destruct Ha as [s1 He | | | [Hs Hx] Hb Hd | [Hs Hx] Hb Hd Hc | | [Hs Hx] Hb Hd Hc Hat].
  - by eapply just_expire.
  - done.
  - done.
  - apply (just_frame h s); [done|done| | |exact Hj]; simpl; [by intros [|]|done].
  - constructor; [done|by apply (started_origin _ s), (just_started _ _ Hj)| |].
    + intros _. destruct (just_login _ _ Hj) as (ident & secret & Hl); [by left|].
      exists ident, secret. by eapply logged_in_binding; [| |exact Hl].
    + intros _. destruct Hb as [_ Hb]. exists i, r, now. simpl.
      split_and!; try done; [by apply seqb_true|apply Hx; by right].
  - apply (just_frame h s); [done|done| | |exact Hj]; simpl; [by intros [|]|done].
  - apply (just_frame h s); [done|done| | |exact Hj]; simpl; [|done].
    intros Hbd. split; [exact Hbd|done].
Qed.

(** A new session is justified by the request that created it. *)
Lemma just_new h i r req vc now t s t' :
  newSession (mkStartParams (sq_LoginHint req) (sq_CodeChallenge req) (sq_ClientKind req)
    (sq_ClientHost req) (resolveClientIP r (TrustedProxies cfg)) vc)
    (SessionTTL cfg) (PollInterval cfg) now t = (Ok s, t') →
  serves h i Start r → decode_startRequest r = Some req → authenticate_client cfg r = Ok vc →
  sq_LoginHint req ≠ "" → sq_CodeChallenge req ≠ "" →
  isAllowedClient (resolveClientIP r (TrustedProxies cfg)) (AllowedClientCIDRs cfg) = true →
  performed h i (IPAllow (resolveClientIP r (TrustedProxies cfg))) true →
  performed h i (HintAllow (sq_LoginHint req)) true →
  performed h i Now now → just h s.
Proof.
  intros Hn Hsv Hd Hau Hh Hc Hal Hip Hhi Hnow. pose proof (newSession_wf norm _ _ _ _ _ _ _ Hn) as Hwf.
  unfold newSession in Hn. split_cases_in Hn.
  constructor; [done| | |done].
  - exists i, r, req. simpl. by split_and!.
  - unfold bound. simpl. by intros [|].
Qed.

End Justify.

#[export] Hint Resolve serves_le performed_le : xdauth.
