(* ===== verification/Safety.v ===== *)
(** End-to-end safety of the concurrent broker.  Each handler is verified
    once, in the program logic of [Prog], against the claim [claim] about the
    response it produces; the theorems then hold of every response in every
    interleaving of any number of requests with clock moves and evictions,
    over any store and identity provider that meet their contracts. *)

From S2P Require Import Prelude GoStrings GoUtf8 GoTime GoCrypto GoFormat UserCode Pkce Session Fsm.
From S2P Require Import FsmSpec FsmTrace Store Wire Http ClientIP ClientAuth Detect RateLimit Prog.
From S2P Require Import Broker Handlers System Justify.

Local Open Scope list_scope.

(** The headers every /auth response carries. *)
Definition secure_headers (rw : ResponseWriter) : Prop :=
  rw_header rw !! "Cache-Control" = Some "no-store" ∧
  rw_header rw !! "Content-Security-Policy" = Some csp_policy ∧
  rw_header rw !! "X-Content-Type-Options" = Some "nosniff" ∧
  rw_header rw !! "Referrer-Policy" = Some "no-referrer".

Definition safe_cookie (c : Cookie) : Prop :=
  c_HttpOnly c = true ∧ (c_SameSite c = SameSiteNoneMode → c_Secure c = true).

Definition approval_cookies (rw : ResponseWriter) : list string :=
  c_Value <$> filter (λ c, c_Name c = approvalCookieName) (rw_cookies rw).

Definition csrf_shown (rw : ResponseWriter) : option string :=
  match rw_body rw with Some (PageApprove p) => Some (ap_CSRFToken p) | _ => None end.

Definition artifact_in (rw : ResponseWriter) : option Artifact :=
  match rw_body rw with Some (JSONPoll v) => po_Artifact v | _ => None end.

(** The status field of a poll's answer. *)
Definition status_in (rw : ResponseWriter) : option string :=
  match rw_body rw with Some (JSONPoll v) => Some (po_Status v) | _ => None end.

Definition has_status (rw : ResponseWriter) : Prop :=
  ∃ st, status_in rw = Some st ∧ ValidString st = true.

Lemma constantTimeStringEqual_true a b : constantTimeStringEqual a b = true ↔ a = b ∧ a ≠ "".
Proof.
  unfold constantTimeStringEqual. rewrite ConstantTimeCompare_1.
  assert (Hl : ∀ s, (slen s =? 0) = is_empty s) by (by intros [|? ?]).
  rewrite !Hl. destruct (is_empty a) eqn:Ea; simpl.
  { apply is_empty_true in Ea. naive_solver. }
  apply is_empty_false in Ea. destruct (is_empty b) eqn:Eb; simpl.
  { apply is_empty_true in Eb. naive_solver. }
  destruct (slen a =? slen b) eqn:E; simpl.
  - rewrite seqb_true. naive_solver.
  - reflect_bool. split; [done|]. naive_solver.
Qed.

Section Safety.
Context {St I : Type} `{StoreLaws St} `{RateLimiter} `{IdentityProviderLaws I}.
Context `{UnicodeCase} `{Location}.
Variable cfg : Config.
Notation norm := (IdentityNormalizer cfg).

(** The artifact in the response to a poll: who asked for it, and the session
    it was released from, whose past is in the history. *)
Definition released_to (h : history) (e : endpoint) (r : Request) (a : Artifact) : Prop :=
  ∃ s req ident, e = PollEndpoint ∧ decode_pollRequest r = Some req ∧
    pq_SessionID req = ID s ∧ just cfg h s ∧
    SState s = StateApproved ∧ Consumed s = false ∧ SIdentity s = Some ident ∧
    verifyClientPKCE (pq_CodeVerifier req) (CodeChallenge s) = true ∧
    a = artifact_of ident s (ArtifactTTL cfg).

(** A thread that was told an identity by the identity provider and drew
    [secret] for it. *)
Definition minted_by (h : history) (i : nat) (e : endpoint) (r : Request) (secret : string) : Prop :=
  (e = Callback ∨ e = SamlACS) ∧ performed h i (Draw newApprovalSecret) (Ok secret) ∧
  ∃ s ident, readSessionCookie r = Some (ID s) ∧ performed h i (IdPComplete r s) (Ok ident).

(** The ways a browser earns sight of a session's CSRF token: it presents the
    binding secret, it presents the token itself, or it has just completed
    the login. *)
Definition may_see_csrf (h : history) (i : nat) (e : endpoint) (r : Request) (tok : string) : Prop :=
  (∃ s secret, just cfg h s ∧ CSRFToken s = tok ∧ SState s = StateAwaitingApproval ∧
     readApprovalCookie r = Some secret ∧ hashBinding secret = ApprovalBindingHash s) ∨
  (e = ApproveForm ∧ FormValue r "csrf_token" = tok) ∨
  (∃ secret, minted_by h i e r secret).

Record claim_for (h : history) (i : nat) (e : endpoint) (r : Request) (rw : ResponseWriter)
    : Prop := {
  cl_headers : e ≠ Healthz → secure_headers rw;
  cl_cookies : Forall safe_cookie (rw_cookies rw);
  cl_approval : ∀ secret, secret ∈ approval_cookies rw → minted_by h i e r secret;
  cl_csrf : ∀ tok, csrf_shown rw = Some tok → may_see_csrf h i e r tok;
  cl_artifact : ∀ a, artifact_in rw = Some a → released_to h e r a;
  cl_status : status_in rw = Some "approved" → is_Some (artifact_in rw);
  cl_poll : e = PollEndpoint → has_status rw;
}.

Definition claim (i : nat) (h : history) (rw : ResponseWriter) : Prop :=
  ∃ e r, serves h i e r ∧ claim_for h i e r rw.

Lemma minted_by_le h h' i e r secret : le h h' → minted_by h i e r secret → minted_by h' i e r secret.
Proof.
  intros Hle (He & Hd & s & ident & Hc & Hp).
  repeat split; eauto 10 with xdauth.
Qed.

Lemma may_see_csrf_le h h' i e r tok : le h h' → may_see_csrf h i e r tok → may_see_csrf h' i e r tok.
Proof.
  intros Hle [(s & secret & Hj & Hrest)|[?|[secret Hm]]].
  - left. exists s, secret. split; [by eapply just_stable|done].
  - by right; left.
  - right; right. exists secret. by eapply minted_by_le.
Qed.

Lemma claim_stable i : stable (le := le) (claim i).
Proof.
  intros h h' rw Hle (e & r & Hs & [Hh Hc Ha Ht Hr Hst Hp]). exists e, r.
  split; [by eapply serves_le|]. constructor; [done|done|..|done|done].
  - intros secret Hin. by eapply minted_by_le, Ha.
  - intros tok Htok. by eapply may_see_csrf_le, Ht.
  - intros a Hin. destruct (Hr a Hin) as (s & req & ident & ? & ? & ? & Hj & Hrest).
    exists s, req, ident. split_and!; try done; [by eapply just_stable|by apply Hrest..].
Qed.

Notation WP := (wp (le := le) (pre (just cfg))).
Notation wp_top := (λ (_ : history) _, True).

(** *** Rules *)

(** One event: its obligation, then the rest with its answer. *)
Lemma wp_trigger i {A R} (e : event R) (k : R → prog A) Q h :
  (∀ h', le h h' → pre (just cfg) R e h') →
  (∀ h' x, le h h' → post (just cfg) i R e x h' → WP (post (just cfg) i) Q (k x) h') →
  WP (post (just cfg) i) Q (Vis e k) h.
Proof.
  intros Hpre Hk h1 Hle1. split; [by apply Hpre|].
  intros x h2 Hle2 Hpost. apply Hk; [by etrans|done].
Qed.

(** A program run for its effects. *)
Lemma wp_effect i {A B} (p : prog A) (q : prog B) Q h :
  WP (post (just cfg) i) wp_top p h → (∀ h', le h h' → WP (post (just cfg) i) Q q h') →
  WP (post (just cfg) i) Q (pbind p (λ _, q)) h.
Proof. intros Hp Hq. eapply wp_bind; [exact Hp|]. auto. Qed.

Lemma wp_logTransition i sid ev attrs h :
  WP (post (just cfg) i) wp_top (logTransition sid ev attrs) h.
Proof. by apply (wp_trigger i). Qed.

Lemma wp_onSecurityEvent i evt h : WP (post (just cfg) i) wp_top (onSecurityEvent cfg evt) h.
Proof.
  apply wp_effect; [apply wp_logTransition|]. intros h' Hle.
  destruct (_ && _); [by apply (wp_trigger i)|done].
Qed.

Lemma wp_Observe i kind key sid now h :
  WP (post (just cfg) i) wp_top (Observe cfg kind key sid now) h.
Proof.
  apply wp_effect; [apply wp_onSecurityEvent|]. intros h' Hle. simpl.
  case_match; [done|]. apply (wp_trigger i); [done|]. intros h2 [|] _ _; [|done].
  apply wp_onSecurityEvent.
Qed.

(** *** Responses without a cookie, CSRF token or artifact *)
Definition ready (w : ResponseWriter) : Prop := secure_headers w ∧ rw_cookies w = [].

Definition plain (rw : ResponseWriter) : Prop :=
  secure_headers rw ∧ rw_cookies rw = [] ∧ csrf_shown rw = None ∧ artifact_in rw = None ∧
  status_in rw ≠ Some "approved".

Lemma claim_intro h i e r rw : serves h i e r → secure_headers rw → rw_cookies rw = [] →
  (∀ tok, csrf_shown rw = Some tok → may_see_csrf h i e r tok) →
  (∀ a, artifact_in rw = Some a → released_to h e r a) →
  (status_in rw = Some "approved" → is_Some (artifact_in rw)) →
  (e = PollEndpoint → has_status rw) → claim i h rw.
Proof.
  intros Hs Hh Hc Ht Ha Hst Hp. exists e, r. split; [done|].
  constructor; unfold approval_cookies; rewrite ?Hc; try done. by intros ? ?%elem_of_nil.
Qed.

Lemma plain_claim h i e r rw : serves h i e r → (e = PollEndpoint → has_status rw) →
  plain rw → claim i h rw.
Proof.
  intros Hs Hp (Hh & Hc & Ht & Ha & Hst). apply (claim_intro h i e r); rewrite ?Ht, ?Ha; done.
Qed.

Lemma secure_headers_set k v w :
  k ∉ ["Cache-Control"; "Content-Security-Policy"; "X-Content-Type-Options"; "Referrer-Policy"] →
  secure_headers w → secure_headers (Header_Set k v w).
Proof.
  rewrite !not_elem_of_cons. intros (? & ? & ? & ? & _) (? & ? & ? & ?).
  unfold secure_headers. simpl. by rewrite !lookup_insert_ne by congruence.
Qed.

Lemma content_type_fresh :
  "Content-Type" ∉ ["Cache-Control"; "Content-Security-Policy"; "X-Content-Type-Options"; "Referrer-Policy"].
Proof. rewrite !not_elem_of_cons. repeat split; try discriminate. by intros ?%elem_of_nil. Qed.

Lemma location_fresh :
  "Location" ∉ ["Cache-Control"; "Content-Security-Policy"; "X-Content-Type-Options"; "Referrer-Policy"].
Proof. rewrite !not_elem_of_cons. repeat split; try discriminate. by intros ?%elem_of_nil. Qed.

Lemma headers_writeJSON status v w : secure_headers w → secure_headers (writeJSON status v w).
Proof. intros Hw. by apply (secure_headers_set _ "application/json; charset=utf-8" w content_type_fresh). Qed.

Lemma headers_html w : secure_headers w →
  secure_headers (Header_Set "Content-Type" "text/html; charset=utf-8" w).
Proof. apply secure_headers_set, content_type_fresh. Qed.

Lemma plain_result status title msg w : ready w → plain (renderResult status title msg w).
Proof. intros [Hh Hc]. split; [by apply (headers_html w)|]. by rewrite <-Hc. Qed.

Lemma plain_error status code msg w : ready w → plain (writeJSONError status code msg w).
Proof. intros [Hh Hc]. split; [by apply (headers_writeJSON _ _ w)|]. by rewrite <-Hc. Qed.

Lemma plain_poll status st w : st ≠ "approved" → ready w →
  plain (writeJSON status (JSONPoll (mkPollResponse st None "")) w).
Proof.
  intros Hst [Hh Hc]. split; [by apply (headers_writeJSON _ _ w)|]. rewrite <-Hc.
  split_and!; try done. unfold status_in. simpl. congruence.
Qed.

Lemma plain_start status v w : ready w → plain (writeJSON status (JSONStart v) w).
Proof. intros [Hh Hc]. split; [by apply (headers_writeJSON _ _ w)|]. by rewrite <-Hc. Qed.

(** *** Cookies *)
Lemma safe_cookie_intro name value path age r :
  safe_cookie (mkCookie name value path age true (is_secure r)
    (if negb (is_secure r) then SameSiteLaxMode else SameSiteNoneMode)).
Proof. split; [done|]. simpl. by destruct (is_secure r). Qed.

Lemma session_cookies r id w : rw_cookies w = [] →
  Forall safe_cookie (rw_cookies (setSessionCookie r id w)) ∧
  approval_cookies (setSessionCookie r id w) = [].
Proof.
  intros Hc. unfold approval_cookies, setSessionCookie, SetCookie. simpl. rewrite Hc. simpl.
  split; [repeat constructor; apply safe_cookie_intro|done].
Qed.

Lemma approval_cookie r secret w : rw_cookies w = [] →
  Forall safe_cookie (rw_cookies (setApprovalCookie r secret w)) ∧
  approval_cookies (setApprovalCookie r secret w) = [secret].
Proof.
  intros Hc. unfold approval_cookies, setApprovalCookie, SetCookie. simpl. rewrite Hc. simpl.
  split; [repeat constructor; apply safe_cookie_intro|done].
Qed.

(** *** Handlers *)

(** Carry the facts about the past over to the extended history. *)
Ltac lift Hle :=
  match type of Hle with le ?h ?h' =>
    repeat match goal with
    | X : serves h _ _ _ |- _ => apply (serves_le _ _ _ _ _ Hle) in X
    | X : performed h _ _ _ |- _ => apply (performed_le _ _ _ _ _ Hle) in X
    | X : just _ h _ |- _ => apply (just_stable _ _ _ _ Hle) in X
    end; clear Hle
  end.

(** Perform the next event: [wstep x] names its answer, the fact that it was
    performed is left in the context. *)
Tactic Notation "wstep" simple_intropattern(x) "as" simple_intropattern(Hp) :=
  cbn [pbind trigger]; eapply wp_trigger;
  [ let h := fresh "h" in let Hle := fresh "Hle" in
    intros h Hle; simpl; try done; lift Hle; try done
  | let h := fresh "h" in let Hle := fresh "Hle" in let Hd := fresh "Hdid" in
    let Hq := fresh "Hpost" in
    intros h x Hle [Hd Hq]; simpl in Hq; lift Hle;
    match type of Hd with did ?i ?e ?y ∈ _ => change (performed h i e y) in Hd end;
    revert Hq; intros Hp ].
Tactic Notation "wstep" simple_intropattern(x) := wstep x as _.

(** Run a part that answers nothing. *)
Ltac weffect L :=
  cbn [pbind trigger]; apply wp_effect; [apply L|]; let h := fresh "h" in let Hle := fresh "Hle" in
  intros h Hle; lift Hle.

(** A poll is answered with a status. *)
Ltac answers := first
  [done | by intros _; eexists; split; [reflexivity|vm_compute; reflexivity] | by intros ->; naive_solver].

Ltac leaf := eapply plain_claim; [eassumption|answers|
  lazymatch goal with
  | |- plain (writeJSONError _ _ _ _) => apply plain_error
  | |- plain (writeJSON _ (JSONStart _) _) => apply plain_start
  | |- plain (writeJSON _ _ _) => apply plain_poll; [discriminate|]
  | |- _ => apply plain_result
  end; assumption].

(** Justify a session value by the history reached so far. *)
Ltac justify Hj s tac :=
  match goal with |- wp _ _ _ _ ?h =>
    assert (Hj : just cfg h s) by tac
  end.

Lemma wp_handleStart i w r h : serves h i Start r → ready w →
  WP (post (just cfg) i) (claim i) (handleStart cfg w r) h.
Proof.
  intros Hs Hw. unfold handleStart.
  destruct (authenticate_client cfg r) as [vc|] eqn:Hau; [|leaf].
  destruct (decode_startRequest r) as [req|] eqn:Hd; [|leaf].
  destruct (is_empty (sq_LoginHint req) || _) eqn:He; [leaf|].
  apply orb_false_iff in He as [Hh Hc]. apply is_empty_false in Hh, Hc.
  destruct (negb (is_empty _) && _); [leaf|].
  wstep now0. weffect wp_Observe.
  destruct (isAllowedClient _ _) eqn:Hal; cbn [negb]; [|leaf].
  unfold rate_limited. wstep a. destruct a; cbn [negb pbind]; [|leaf].
  wstep b. destruct b; cbn [negb pbind]; [|leaf].
  unfold create_session. wstep now. wstep created as [t Ht].
  destruct created as [sess|]; [|leaf].
  destruct (newSession _ _ _ _ _) as [? t'] eqn:Hn in Ht. simpl in Ht. subst.
  justify Hj sess ltac:(eapply just_new; eassumption).
  wstep err. destruct err; [leaf|]. weffect wp_logTransition. leaf.
Qed.

Lemma wp_handleVerify i id w r h : serves h i (Verify id) r → ready w →
  WP (post (just cfg) i) (claim i) (handleVerify cfg id w r) h.
Proof.
  intros Hs Hw. unfold handleVerify.
  wstep got as Hgot. destruct got as [sess|]; [destruct Hgot as [Hid Hj]|leaf].
  wstep now. destruct (prologue_intro sess now) as [s1 He _ | Hl Hne].
  { justify Hj1 s1 ltac:(by eapply just_expire). wstep u. leaf. }
  destruct (SState sess) eqn:Est; try leaf.
  - unfold begin_idp_leg. wstep res as Hsame. destruct res as [res s1]. simpl in Hsame.
    justify Hj1 s1 ltac:(by eapply just_idp).
    destruct res as [url|]; [|leaf]. wstep u. destruct u; [leaf|].
    destruct Hw as [Hh Hc]. destruct (session_cookies r (ID s1) w Hc) as [Hck Ha].
    eexists _, _. split; [eassumption|]. constructor; try done.
    + intros _. by apply (secure_headers_set _ _ _ content_type_fresh), secure_headers_set, Hh;
        apply location_fresh.
    + change (approval_cookies _) with (approval_cookies (setSessionCookie r (ID s1) w)).
      rewrite Ha. by intros ? ?%elem_of_nil.
  - destruct (approvalBindingMatches r sess) eqn:Hb; [|leaf].
    destruct Hw as [Hh Hc]. destruct (session_cookies r (ID sess) w Hc) as [Hck Ha].
    eexists _, _. split; [eassumption|]. constructor; try done.
    + intros _. apply (headers_html _ Hh).
    + change (approval_cookies _) with (approval_cookies (setSessionCookie r (ID sess) w)).
      rewrite Ha. by intros ? ?%elem_of_nil.
    + intros tok [= <-]. left. unfold approvalBindingMatches in Hb.
      destruct (readApprovalCookie r) as [secret|]; [|done]. case_match; [done|].
      apply constantTimeStringEqual_true in Hb as [Hb _]. by exists sess, secret.
Qed.

Lemma wp_handleIdPResponse i e r w h : serves h i e r → e = Callback ∨ e = SamlACS → ready w →
  WP (post (just cfg) i) (claim i) (handleIdPResponse cfg w r) h.
Proof.
  intros Hs He Hw. unfold handleIdPResponse.
  destruct (readSessionCookie r) as [sid|] eqn:Hck; [|leaf].
  wstep got as Hgot. destruct got as [sess|]; [destruct Hgot as [<- Hj]|leaf].
  wstep now. destruct (prologue_intro sess now) as [s1 Hx _ | Hl Hne].
  { justify Hj1 s1 ltac:(by eapply just_expire). wstep u. leaf. }
  destruct (negb _); [leaf|].
  wstep res. destruct res as [ident|]; [|weffect wp_logTransition; leaf].
  wstep minted. destruct minted as [secret|]; [|leaf].
  unfold bind_identity. wstep bound as [t Ht]. destruct bound as [bindErr s1].
  destruct (bindIdentity _ _ _ _ _ _) as [[e1 s2] t'] eqn:Hb in Ht. simpl in Ht. simplify_eq.
  apply bindIdentity_cases in Hb.
  justify Hj1 s1 ltac:(eapply just_bind; eassumption).
  wstep u. destruct bindErr as [err|].
  { destruct err; try leaf. weffect wp_Observe. leaf. }
  weffect wp_logTransition.
  match goal with |- wp _ _ _ _ ?h => assert (Hm : minted_by h i e r secret) end.
  { split; [done|]. split; [done|]. by exists sess, ident. }
  destruct Hw as [Hh Hc]. destruct (approval_cookie r secret w Hc) as [Hcs Ha].
  eexists _, _. split; [eassumption|]. constructor; try done.
  - intros _. apply (headers_html _ Hh).
  - change (approval_cookies _) with (approval_cookies (setApprovalCookie r secret w)).
    rewrite Ha. by intros ? ->%list_elem_of_singleton.
  - intros tok _. right; right. by exists secret.
  - answers.
Qed.

Lemma wp_handleApprove i r w h : serves h i ApproveForm r → ready w →
  WP (post (just cfg) i) (claim i) (handleApprove cfg w r) h.
Proof.
  intros Hs Hw. unfold handleApprove.
  destruct (readSessionCookie r) as [sid|] eqn:Hck; [|leaf].
  destruct (Form r) as [form|]; [|leaf]. cbn [aq_SessionID aq_UserCode aq_CSRFToken aq_Approve read_approveRequest].
  wstep got as Hgot. destruct got as [sess|]; [destruct Hgot as [<- Hj]|leaf].
  destruct (constantTimeStringEqual _ _) eqn:Hcsrf; cbn [negb]; [|leaf].
  apply constantTimeStringEqual_true in Hcsrf as [Hcsrf _].
  wstep now. destruct (approve _ _ _ _ _) as [appErr s1] eqn:Ha.
  pose proof (approve_cases _ _ _ _ _ _ _ Ha) as Hsp.
  justify Hj1 s1 ltac:(eapply just_approve; eassumption).
  assert (Htok : CSRFToken s1 = CSRFToken sess).
  { destruct Hsp as [s2 Hx| | | | | |]; try done. by destruct Hx. }
  wstep u. unfold approve_response.
  destruct (_ && _); [weffect wp_logTransition; leaf|].
  case_bool_decide; [weffect wp_logTransition; leaf|].
  destruct appErr as [err|]; [|leaf].
  assert (Hpage : ∀ h', serves h' i ApproveForm r → claim i h' (renderApprove s1 (BaseURL cfg) w)).
  { intros h' Hs'. destruct Hw as [Hh Hc].
    apply (claim_intro h' i ApproveForm r); try done; [apply (headers_html _ Hh)|].
    intros tok [= <-]. right; left. by rewrite Htok. }
  destruct err; try leaf; try (weffect wp_logTransition; leaf); weffect wp_Observe; by apply Hpage.
Qed.

Lemma wp_handlePoll i r w h : serves h i PollEndpoint r → ready w →
  WP (post (just cfg) i) (claim i) (handlePoll cfg w r) h.
Proof.
  intros Hs Hw. unfold handlePoll.
  destruct (decode_pollRequest r) as [req|] eqn:Hd; [|leaf].
  destruct (is_empty _); [leaf|].
  wstep got as Hgot. destruct got as [sess|]; [destruct Hgot as [Hid Hj]|leaf].
  wstep now. destruct (poll _ _ _ _) as [outcome s1] eqn:Hp. apply poll_cases in Hp.
  assert (Hnp : outcome ≠ PollPanics).
  { destruct Hp as [| | |Hst _ _ Hi| | | |]; try done.
    destruct (wf_identity _ _ (just_wf _ _ _ Hj)) as (ident & Hi' & _); [by right|].
    congruence. }
  justify Hj1 s1 ltac:(by eapply just_poll).
  assert (Hrel : ∀ a, outcome = released a → ∀ h', serves h' i PollEndpoint r → just cfg h' sess →
    released_to h' PollEndpoint r a).
  { intros a -> h' Hs' Hj'. inversion Hp as [| | | |ident Hst Hc Hv Hi| | |]; subst.
    by exists sess, req, ident. }
  assert (Hshape : (∃ a, outcome = released a)
    ∨ (∃ st, outcome = status_only st ∧ st ≠ PollApproved)
    ∨ outcome = PollFails ErrInvalidVerifier) by (destruct Hp; eauto 6; naive_solver).
  clear Hp. destruct Hshape as [[a ->]|[(st & -> & Hna)| ->]].
  - cbn [released status_only poll_status poll_response pr_Status pr_Artifact]. wstep u. rewrite andb_false_r. cbn [pbind]. weffect wp_logTransition.
    destruct Hw as [Hh Hc]. apply (claim_intro _ i PollEndpoint r); try done; [apply (headers_writeJSON _ _ _ Hh)| |answers].
    intros a' [= <-]. by apply Hrel.
  - cbn [released status_only poll_status poll_response pr_Status pr_Artifact]. wstep u. destruct (_ && _).
    + wstep now2. weffect wp_Observe. destruct st; try done; leaf.
    + cbn [pbind]. destruct st; try done; leaf.
  - cbn [released status_only poll_status poll_response pr_Status pr_Artifact]. wstep u. rewrite andb_false_r. cbn [pbind].
    weffect wp_logTransition. leaf.
Qed.

Lemma middlewares_ready :
  ready (Header_Set "Referrer-Policy" "no-referrer"
    (Header_Set "X-Content-Type-Options" "nosniff"
      (Header_Set "Content-Security-Policy" csp_policy
        (Header_Set "Cache-Control" "no-store" new_writer)))).
Proof. by repeat split. Qed.

Lemma serve_sound i e r h : serves h i e r → WP (post (just cfg) i) (claim i) (serve cfg e r) h.
Proof.
  intros Hs. pose proof middlewares_ready as Hr.
  destruct e; unfold serve, Router, auth_middlewares, noStoreMiddleware, cspMiddleware.
  - exists Healthz, r. split; [done|]. constructor; try done.
    unfold approval_cookies. simpl. by intros ? ?%elem_of_nil.
  - by apply wp_handleStart.
  - by apply wp_handleVerify.
  - by apply (wp_handleIdPResponse i Callback); [|left|].
  - by apply (wp_handleIdPResponse i SamlACS); [|right|].
  - by apply wp_handleApprove.
  - by apply wp_handlePoll.
Qed.

Lemma serve_thread i e r h : h.1 !! i = Some (e, r) →
  wp_thread (just cfg) claim i (serve cfg e r) h.
Proof. apply serve_sound. Qed.

(** What an artifact handed out by thread [i] proves about the past. *)
Definition checked (h : history) (i : nat) (a : Artifact) : Prop :=
  ∃ r req s ident secret,
    serves h i PollEndpoint r ∧ decode_pollRequest r = Some req ∧
    pq_SessionID req = ID s ∧
    pq_CodeVerifier req ≠ "" ∧ CodeChallenge s = s256 (pq_CodeVerifier req) ∧
    started cfg h s ∧ logged_in cfg h s ident secret ∧
    approved_by h s ∧
    a = artifact_of ident s (ArtifactTTL cfg).

Lemma claim_checked i h rw a : claim i h rw → artifact_in rw = Some a → checked h i a.
Proof.
  intros (e & r & Hs & Hc) Ha.
  destruct (cl_artifact _ _ _ _ _ Hc a Ha)
    as (s & req & ident & -> & Hd & Hid & Hj & Hst & _ & Hi & Hv & ->).
  apply verifyClientPKCE_spec in Hv as [Hv1 Hv2].
  destruct (just_login _ _ _ Hj) as (ident' & secret & Hl); [by right|].
  assert (ident' = ident) as -> by (destruct Hl as (?&?&?&?&_&_&_&_&_&_&_&_&_&Hi'&_); by simplify_eq).
  exists r, req, s, ident, secret. split_and!; try done; apply Hj. exact Hst.
Qed.

(** ** Theorems *)
Section Theorems.
Variable w : World St I.
Hypothesis fresh_store : store_ok (w_store w) ∧ store_view (w_store w) = ∅.
Variable acts : list action.
Notation final := (exec cfg acts (init w)).

Lemma response_claim i rw : response final i = Some rw → claim i (hist final) rw.
Proof.
  intros Hr. destruct fresh_store as [Hok He].
  exact (system_sound cfg (just cfg) (just_stable cfg) claim claim_stable serve_thread
    w acts i rw Hok He Hr).
Qed.

Lemma release_checked i rw a :
  response final i = Some rw → artifact_in rw = Some a → checked (hist final) i a.
Proof. intros Hr Ha. by apply (claim_checked i _ rw), Ha; apply response_claim. Qed.

(** C1: in every interleaving of requests, whenever a response carries an
    artifact, it answers a poll that named the session and proved knowledge
    of the verifier; the session was created by a start request that passed
    client authentication, the network allow list and both rate limiters; an
    identity provider response bound, before expiry, the identity the hint
    asked for; a form submission approved it, before expiry, with the
    session's code and CSRF token from a browser whose secret hashes like the
    one minted at that login; and the artifact is that identity. *)
Theorem artifact_needs_all_checks i rw a :
  response final i = Some rw → artifact_in rw = Some a → checked (hist final) i a.
Proof. apply release_checked. Qed.

(** C14: no handler panics, whatever the requests and the interleaving: in
    particular [poll] never dereferences a nil identity. *)
Theorem handlers_never_panic i : s_threads (exec cfg acts (init w)) !! i ≠ Some Panic.
Proof.
  destruct fresh_store as [Hok He].
  exact (system_no_panic cfg (just cfg) (just_stable cfg) claim claim_stable serve_thread
    w acts i Hok He).
Qed.

(** C15: responses give nothing away: a page showing a CSRF token is only
    sent to a browser that presented the binding secret of a session awaiting
    approval with that token, that submitted the token itself, or that has
    just completed the login; the approval cookie is only set in the response
    to a callback whose identity provider response was accepted, to the secret
    minted for that very request; every response under /auth forbids caching
    and carries the no-script policy; and every cookie is HttpOnly and, if
    SameSite=None, Secure. *)
Theorem responses_are_safe i rw :
  response final i = Some rw →
  ∃ e r, serves (hist final) i e r ∧
    (∀ tok, csrf_shown rw = Some tok → may_see_csrf (hist final) i e r tok) ∧
    (∀ secret, secret ∈ approval_cookies rw → minted_by (hist final) i e r secret) ∧
    (e ≠ Healthz → secure_headers rw) ∧ Forall safe_cookie (rw_cookies rw).
Proof.
  intros Hr. destruct (response_claim i rw Hr) as (e & r & Hs & Hc).
  exists e, r. split; [done|]. split_and!; apply Hc.
Qed.

End Theorems.
End Safety.
