(* ===== verification/Progress.v ===== *)
(** Every request is answered.  [within p g u o]: whatever it is answered, the
    program [p] reads the store at most [g] times, writes it at most [u] times
    and accesses other shared state at most [o] times before it ends. *)

From S2P Require Import Prelude GoStrings GoTime GoCrypto GoFormat UserCode Pkce Session Fsm FsmSpec.
From S2P Require Import Store Wire Http ClientIP ClientAuth Detect RateLimit Prog Broker Handlers.
From S2P Require Import System Justify Safety.

Local Open Scope list_scope.

Inductive access := Reads | Writes | Others.

Definition access_of {R} (e : event R) : access :=
  match e with
  | StGet _ => Reads
  | StCreate _ | StUpdate _ => Writes
  | _ => Others
  end.

Fixpoint within {A} (p : prog A) (g u o : nat) : Prop :=
  match p with
  | Ret _ | Panic => True
  | Vis e k =>
      match access_of e with
      | Reads => match g with S g => ∀ x, within (k x) g u o | O => False end
      | Writes => match u with S u => ∀ x, within (k x) g u o | O => False end
      | Others => match o with S o => ∀ x, within (k x) g u o | O => False end
      end
  end.

(** More budget does no harm. *)
Lemma within_mono {A} (p : prog A) : ∀ g u o g' u' o',
  within p g u o → (g ≤ g')%nat → (u ≤ u')%nat → (o ≤ o')%nat → within p g' u' o'.
Proof.
  induction p as [a| |R e k IH]; intros g u o g' u' o' Hp Hg Hu Ho; [done..|].
  cbn in *. destruct (access_of e); [destruct g, g'|destruct u, u'|destruct o, o']; try done; try lia;
    intros x; (eapply IH; [apply Hp|lia..]).
Qed.

(** A part that does not touch the store, and the rest. *)
Lemma within_bind {A B} (p : prog A) (f : A → prog B) g u n : ∀ o,
  within p 0 0 n → (n ≤ o)%nat → (∀ a, within (f a) g u (o - n)) → within (pbind p f) g u o.
Proof.
  revert n. induction p as [a| |R e k IH]; intros n o Hp Hn Hf; cbn.
  - eapply within_mono; [apply Hf|lia..].
  - done.
  - cbn in Hp. destruct (access_of e); [done..|]. destruct n as [|n]; [done|].
    destruct o as [|o]; [lia|]. intros x. apply (IH x n); [done|lia|]. exact Hf.
Qed.

Section Handlers.
Context `{UnicodeCase} `{Location} `{RateLimiter}.
Variable cfg : Config.

Lemma within_log sid ev attrs : within (logTransition sid ev attrs) 0 0 1.
Proof. done. Qed.

Lemma within_event evt : within (onSecurityEvent cfg evt) 0 0 2.
Proof. cbn. intros _. by destruct (_ && _). Qed.

Lemma within_Observe kind key sid now : within (Observe cfg kind key sid now) 0 0 5.
Proof.
  unfold Observe. apply (within_bind _ _ 0 0 2); [apply within_event|lia|]. intros _. cbn zeta.
  case_match; [done|]. cbn. intros [|]; [|done]. cbn. intros _. by destruct (_ && _).
Qed.

(** Take the events of a handler one by one. *)
Tactic Notation "event" simple_intropattern(x) := cbn [pbind trigger within access_of]; intros x.
Ltac logs := cbn [pbind trigger];
  (eapply within_bind; [first [apply within_log | apply within_Observe]|lia|]);
  intros _; cbn [Nat.sub].
Ltac leaf := repeat logs; done.

Lemma within_handleStart w r : within (handleStart cfg w r) 1 1 12.
Proof.
  unfold handleStart. destruct (authenticate_client cfg r); [|leaf].
  destruct (decode_startRequest r); [|leaf]. destruct (_ || _); [leaf|]. destruct (_ && _); [leaf|].
  event now. logs. destruct (isAllowedClient _ _); cbn [negb]; [|leaf].
  unfold rate_limited. event ok1. destruct ok1; cbn [negb pbind]; [|leaf].
  event ok2. destruct ok2; cbn [negb pbind]; [|leaf].
  unfold create_session. event now'. event created. destruct created; [|leaf].
  event err. destruct err; leaf.
Qed.

Lemma within_handleVerify id w r : within (handleVerify cfg id w r) 1 1 12.
Proof.
  unfold handleVerify. event got. destruct got as [sess|]; [|leaf]. event now.
  destruct (expireIfNeeded sess now) as [expired s1]. destruct expired; [by event u|].
  destruct (SState s1); try leaf; [|by destruct (negb _); leaf].
  unfold begin_idp_leg. event res. destruct res as [[url|] s2]; [|leaf]. event u. destruct u; leaf.
Qed.

Lemma within_handleIdPResponse w r : within (handleIdPResponse cfg w r) 1 1 12.
Proof.
  unfold handleIdPResponse. destruct (readSessionCookie r); [|leaf].
  event got. destruct got as [sess|]; [|leaf]. event now.
  destruct (expireIfNeeded sess now) as [expired s1]. destruct expired; [by event u|].
  destruct (negb _); [leaf|]. event res. destruct res; [|leaf]. event minted.
  destruct minted; [|leaf]. unfold bind_identity. event bound. destruct bound as [e s2]. event u.
  destruct e as [[]|]; leaf.
Qed.

Lemma within_handleApprove w r : within (handleApprove cfg w r) 1 1 12.
Proof.
  unfold handleApprove. destruct (readSessionCookie r); [|leaf]. destruct (Form r); [|leaf]. cbn zeta.
  event got. destruct got as [sess|]; [|leaf]. destruct (negb _); [leaf|]. event now.
  destruct (approve _ _ _ _ _) as [e s1]. event u. unfold approve_response.
  destruct (_ && _); [leaf|]. case_bool_decide; [leaf|]. destruct e as [[]|]; leaf.
Qed.

Lemma within_handlePoll w r : within (handlePoll cfg w r) 1 1 12.
Proof.
  unfold handlePoll. cbn zeta. destruct (decode_pollRequest r); [|leaf]. destruct (is_empty _); [leaf|].
  event got. destruct got as [sess|]; [|leaf]. event now. destruct (poll _ _ _ _) as [outcome s1].
  assert (Hr : ∀ o, within (poll_response o s1 w) 0 0 1).
  { intros [res|e|]; [| |done]; unfold poll_response.
    - destruct (pr_Status res); try leaf. destruct (pr_Artifact res); leaf.
    - destruct e; leaf. }
  destruct outcome as [res|e|]; [| |done]; event u;
    (apply (within_bind _ _ 0 0 6); [|lia|intros _; eapply within_mono; [apply Hr|cbn; lia..]]);
    (destruct (_ && _); [|done]); event now2; apply within_Observe.
Qed.

Lemma within_serve e r : within (serve cfg e r) 1 1 12.
Proof.
  unfold serve, Router, auth_middlewares, noStoreMiddleware, cspMiddleware.
  destruct e; [done|apply within_handleStart|apply within_handleVerify
    |apply within_handleIdPResponse..|apply within_handleApprove|apply within_handlePoll].
Qed.

End Handlers.

(** ** Schedules *)
Section Progress.
Context {St I : Type} `{StoreLaws St} `{RateLimiter} `{IdentityProviderLaws I}.
Context `{UnicodeCase} `{Location}.
Variable cfg : Config.

Definition is_step (i : nat) (a : action) : bool :=
  match a with Step j => bool_decide (j = i) | _ => false end.

(** How often a schedule runs thread [i]. *)
Definition turns_of (i : nat) (acts : list action) : nat := length (filter (is_step i) acts).

Definition is_access (i : nat) (c : access) (x : tev) : bool :=
  bool_decide (x.1 = i) && match x.2, c with existT _ (e, _), c =>
    match access_of e, c with Reads, Reads | Writes, Writes | Others, Others => true | _, _ => false end
  end.

(** Accesses of thread [i] to the store, on record. *)
Definition accesses (i : nat) (c : access) (tr : list tev) : nat := length (filter (is_access i c) tr).

Definition finished (p : prog ResponseWriter) : Prop := match p with Vis _ _ => False | _ => True end.

(** Thread [i] has been run [n] times since it arrived. *)
Definition progressed (i n : nat) (sys : Sys (St := St) (I := I)) : Prop :=
  ∃ p g u o, s_threads sys !! i = Some p ∧ within p g u o ∧
    (accesses i Reads (s_trace sys) + g ≤ 1)%nat ∧ (accesses i Writes (s_trace sys) + u ≤ 1)%nat ∧
    (finished p ∨ n + g + u + o ≤ 14)%nat.

Lemma accesses_snoc i c tr x :
  accesses i c (tr ++ [x]) = (accesses i c tr + (if is_access i c x then 1 else 0))%nat.
Proof.
  unfold accesses. rewrite list.filter_app, length_app. f_equal. rewrite filter_cons.
  by destruct (is_access i c x).
Qed.

Lemma step_progressed a i n sys : progressed i n sys →
  progressed i (if is_step i a then S n else n) (step cfg a sys).
Proof.
  intros (p & g & u & o & Hp & Hw & Hr & Hu & Hn). destruct a as [e r|j|d|]; cbn [is_step].
  - exists p, g, u, o. split_and!; try done. cbn. rewrite lookup_app_l; [done|]. by eapply lookup_lt_Some.
  - cbn [step]. case_bool_decide as Hji.
    + subst j. rewrite Hp. destruct p as [rw| |R e k]; [exists (Ret rw)|exists Panic|].
      1-2: exists g, u, o; split_and!; try done; by left.
      destruct (interp e (s_world sys)) as [x w'].
      assert (Hlt : (i < length (s_threads sys))%nat) by (by eapply lookup_lt_Some).
      destruct Hn as [[]|Hn]. cbn in Hw. exists (k x).
      assert (Hacc : ∀ c, accesses i c (s_trace sys ++ [did i e x]) = (accesses i c (s_trace sys) +
        (if match access_of e, c with Reads, Reads | Writes, Writes | Others, Others => true | _, _ => false end
         then 1 else 0))%nat).
      { intros c. rewrite accesses_snoc. unfold is_access, did. cbn. by rewrite bool_decide_eq_true_2. }
      destruct (access_of e) eqn:Ea; [destruct g as [|g]|destruct u as [|u]|destruct o as [|o]]; try done;
        exists g, u, o; cbn [s_threads s_trace]; rewrite list_lookup_insert_eq, !Hacc by done;
        (split; [done|]; split; [apply Hw|]; split; [lia|]; split; [lia|]; right; lia).
    + destruct (s_threads sys !! j) as [[rw| |R e k]|] eqn:Hj; [by exists p, g, u, o..| |by exists p, g, u, o].
      destruct (interp e (s_world sys)) as [x w']. exists p, g, u, o. cbn [s_threads s_trace].
      rewrite list_lookup_insert_ne by done. rewrite !accesses_snoc.
      assert (Hno : ∀ c, is_access i c (did j e x) = false)
        by (intros c; unfold is_access; cbn; by rewrite bool_decide_eq_false_2).
      rewrite !Hno, !Nat.add_0_r. by split_and!.
  - by exists p, g, u, o.
  - by exists p, g, u, o.
Qed.

Lemma exec_progressed acts i : ∀ n sys, progressed i n sys →
  progressed i (n + turns_of i acts) (exec cfg acts sys).
Proof.
  induction acts as [|a acts IH]; intros n sys Hp; [by rewrite Nat.add_0_r|].
  unfold turns_of. rewrite filter_cons. cbn [exec foldl]. apply (step_progressed a) in Hp.
  destruct (is_step i a) eqn:E; cbn [length] in *.
  - rewrite decide_True by done. cbn [length]. rewrite Nat.add_succ_r. by apply (IH (S n)).
  - rewrite decide_False by (by intros []). by apply IH.
Qed.

(** Events are on record for threads that exist only, one per request. *)
Definition recorded (sys : Sys (St := St) (I := I)) : Prop :=
  length (s_threads sys) = length (s_reqs sys) ∧
  Forall (λ x : tev, (x.1 < length (s_threads sys))%nat) (s_trace sys).

Lemma exec_recorded acts sys : recorded sys → recorded (exec cfg acts sys).
Proof.
  revert sys. induction acts as [|a acts IH]; intros sys Hr; [done|]. cbn [exec foldl]. apply IH.
  destruct Hr as [Hl Hf], a as [e r|j|d|]; cbn [step]; [| |by split..].
  - split; cbn; [by rewrite !length_app, Hl|]. eapply list.Forall_impl; [exact Hf|].
    intros x Hx. rewrite length_app. cbn in Hx |- *. lia.
  - destruct (s_threads sys !! j) as [[rw| |R e k]|] eqn:Hj; try by split.
    destruct (interp e (s_world sys)) as [x w']. split; cbn; rewrite length_insert; [done|].
    apply Forall_app. split; [done|]. constructor; [|done]. by eapply lookup_lt_Some.
Qed.

Lemma accesses_none i c tr : Forall (λ x : tev, (x.1 < i)%nat) tr → accesses i c tr = 0%nat.
Proof.
  unfold accesses. induction 1 as [|x tr Hx _ IH]; [done|].
  assert (Hno : is_access i c x = false) by (unfold is_access; rewrite bool_decide_eq_false_2; [done|lia]).
  rewrite filter_cons_False; [exact IH|]. rewrite Hno. by intros [].
Qed.

Variable w : World St I.
Hypothesis fresh_store : store_ok (w_store w) ∧ store_view (w_store w) = ∅.

(** C38: every request is answered, whatever else the server is doing: once a
    schedule has run a request fourteen times since it arrived, its response is
    there, however the turns are interleaved with those of other requests, and
    the handler has read the store at most once and written it at most once. *)
Theorem requests_are_answered acts e r later :
  let i := length (s_reqs (exec cfg acts (init w))) in
  let sys := exec cfg (acts ++ Arrive e r :: later) (init w) in
  (accesses i Reads (s_trace sys) ≤ 1)%nat ∧ (accesses i Writes (s_trace sys) ≤ 1)%nat ∧
  ((14 ≤ turns_of i later)%nat → is_Some (response sys i)).
Proof.
  intros i sys. set (before := exec cfg acts (init w)) in i.
  assert (Hrec : recorded before) by (apply exec_recorded; by split).
  destruct Hrec as [Hlen Htr]. assert (Hi : i = length (s_threads before)) by (by rewrite Hlen).
  assert (Hp : progressed i (0 + turns_of i later) sys).
  { unfold sys. replace (exec cfg (acts ++ Arrive e r :: later) (init w))
      with (exec cfg later (step cfg (Arrive e r) before)) by (unfold exec; by rewrite foldl_app).
    apply exec_progressed. exists (serve cfg e r), 1%nat, 1%nat, 12%nat. cbn [step s_threads s_trace].
    rewrite Hi, lookup_app_r, Nat.sub_diag, !accesses_none by done.
    split_and!; try done; [apply within_serve|lia..|right; lia]. }
  destruct Hp as (p & g & u & o & Ht & Hw & Hr & Hu & Hn). split; [lia|]. split; [lia|]. intros Hturns.
  unfold response. rewrite Ht. destruct p as [rw| |R ev k]; [by eexists| |].
  - destruct fresh_store as [Hok He]. exfalso.
    exact (system_no_panic cfg (just cfg) (just_stable cfg) (claim cfg) (claim_stable cfg) (serve_thread cfg)
      w _ i Hok He Ht).
  - exfalso. destruct Hn as [[]|Hn]. cbn in Hw. destruct (access_of ev); [destruct g|destruct u|destruct o]; done || lia.
Qed.

End Progress.
