(* ===== verification/Sequential.v ===== *)
(** Requests served one at a time over a store that does not fail: each
    request performs at most one creation or one operation of [Fsm] on one
    session, so the server refines the session state machine and inherits
    the theorems about its histories. *)

From S2P Require Import Prelude GoStrings GoTime GoCrypto GoFormat UserCode Pkce Session Fsm.
From S2P Require Import FsmSpec FsmTrace Store Wire Http ClientIP ClientAuth Detect RateLimit Prog.
From S2P Require Import Broker Handlers System Safety.

Local Open Scope list_scope.

Notation sessions_map := (gmap string Session).

(** What one request does to the sessions. *)
Inductive label :=
  | LSkip
  | LCreate (s : Session)
  | LOp (id : string) (o : op).

Section Sequential.
Context {St I : Type} `{ReliableStore St} `{RateLimiter} `{IdentityProviderLaws I}.
Context `{UnicodeCase} `{Location}.
Variable cfg : Config.
Notation norm := (IdentityNormalizer cfg).

Definition apply_label (l : label) (V : sessions_map) : sessions_map :=
  match l with
  | LSkip => V
  | LCreate s => <[ID s := s]> V
  | LOp id o => alter (after_op norm o) id V
  end.

(** The artifacts a label hands out. *)
Definition label_artifacts (l : label) (V : sessions_map) : list Artifact :=
  match l with
  | LOp id o => match V !! id with Some s => release o s | None => [] end
  | _ => []
  end.

(** Which operations an endpoint may perform, and with which arguments. *)
Inductive performs : endpoint → Request → label → Prop :=
  | does_nothing e r : performs e r LSkip
  | does_create r req vc now t s t' :
      decode_startRequest r = Some req → authenticate_client cfg r = Ok vc →
      newSession (mkStartParams (sq_LoginHint req) (sq_CodeChallenge req) (sq_ClientKind req)
        (sq_ClientHost req) (resolveClientIP r (TrustedProxies cfg)) vc)
        (SessionTTL cfg) (PollInterval cfg) now t = (Ok s, t') →
      performs Start r (LCreate s)
  | does_begin r id st nonce ver rid proto :
      performs (Verify id) r (LOp id (OpBeginLogin st nonce ver rid proto))
  | does_expire_link r id now : performs (Verify id) r (LOp id (OpExpire now))
  | does_expire_callback e r id now : e = Callback ∨ e = SamlACS →
      readSessionCookie r = Some id → performs e r (LOp id (OpExpire now))
  | does_bind e r id ident now secret t : e = Callback ∨ e = SamlACS →
      readSessionCookie r = Some id →
      performs e r (LOp id (OpBind ident now (hashBinding secret) t))
  | does_approve r id now : readSessionCookie r = Some id →
      performs ApproveForm r (LOp id (OpApprove (FormValue r "user_code")
        (seqb (FormValue r "decision") "approve") now (default "" (readApprovalCookie r))))
  | does_poll r req now : decode_pollRequest r = Some req →
      performs PollEndpoint r
        (LOp (pq_SessionID req) (OpPoll (pq_CodeVerifier req) now (ArtifactTTL cfg))).

(** *** Weakest preconditions of a program run alone, on the sessions *)
Notation view w := (store_view (w_store w)).
Notation W := (World St I).

Definition swp {A} (Q : option A → sessions_map → Prop) (p : prog A) (V : sessions_map) : Prop :=
  ∀ w : W, store_ok (w_store w) → view w = V →
    store_ok (w_store (run p w).2) ∧ Q (run p w).1 (view (run p w).2).

(** The answer of an event and the sessions after it. *)
Definition sem R (e : event R) (x : R) (V V' : sessions_map) : Prop :=
  match e in event R return R → Prop with
  | StCreate s => λ r, r = None ∧ V' = <[ID s := s]> V
  | StGet id => λ r, V' = V ∧
      r = match V !! id with Some s => Ok s | None => Err ErrNotFound end
  | StUpdate s => λ r, match V !! ID s with
      | Some _ => r = None ∧ V' = <[ID s := s]> V
      | None => r = Some ErrNotFound ∧ V' = V end
  | Draw f => λ a, V' = V ∧ ∃ t, (f t).1 = a
  | IdPBegin s => λ rs, V' = V ∧ same_but_idp s rs.2
  | _ => λ _, V' = V
  end x.

Lemma interp_sem R (e : event R) (w : W) x w' :
  store_ok (w_store w) → interp e w = (x, w') →
  store_ok (w_store w') ∧ sem R e x (view w) (view w').
Proof.
  intros Hok Hi. destruct e; simpl in *; split_cases_in Hi; simplify_eq/=; try done.
  - split; [done|]. split; [done|]. by eexists; match goal with E : _ = (_, _) |- _ => rewrite E end.
  - match goal with E : store_Create _ _ _ = _ |- _ => rename E into Hc end.
    pose proof (Create_reliable (w_clock w) s _ Hok) as Hr. rewrite Hc in Hr. simpl in Hr. subst.
    by apply Create_law in Hc as [? ?].
  - match goal with E : store_Get _ _ _ = _ |- _ => rename E into Hg end.
    pose proof (Get_reliable (w_clock w) id _ Hok) as Hr. rewrite Hg in Hr. simpl in Hr. subst.
    by apply Get_law in Hg as (? & ? & _).
  - match goal with E : store_Update _ _ _ = _ |- _ => rename E into Hu end.
    pose proof (Update_reliable (w_clock w) s _ Hok) as Hr. rewrite Hu in Hr. simpl in Hr. subst.
    apply Update_law in Hu as [Hok' Hv]; [|done]. split; [done|].
    revert Hv. destruct (view w !! ID s); simpl; intros [_ Hv]; by split.
  - split; [done|]. split; [done|]. by eapply BeginLogin_frame.
Qed.

Lemma swp_ret {A} (Q : option A → sessions_map → Prop) a V : Q (Some a) V → swp Q (Ret a) V.
Proof. by intros HQ w Hok <-. Qed.

Lemma swp_vis {A R} (e : event R) (k : R → prog A) Q V :
  (∀ x V', sem R e x V V' → swp Q (k x) V') → swp Q (Vis e k) V.
Proof.
  intros Hk w Hok <-. simpl. destruct (interp e w) as [x w1] eqn:E.
  destruct (interp_sem _ _ _ _ _ Hok E) as [Hok1 Hs]. by apply (Hk x (view w1)).
Qed.

(** A part that only logs, counts or reads the clock. *)
Definition silent (p : prog unit) : Prop := ∀ V, swp (λ r V', r = Some tt ∧ V' = V) p V.

Lemma swp_silent {A} (p : prog unit) (q : prog A) Q V :
  silent p → swp Q q V → swp Q (pbind p (λ _, q)) V.
Proof.
  intros Hp Hq w Hok Hv. destruct (Hp V w Hok Hv) as (Hok1 & Hr & Hv1).
  rewrite run_bind. destruct (run p w) as [[u|] w1]; simpl in *; [|done]. by apply Hq.
Qed.

Lemma silent_logTransition sid ev attrs : silent (logTransition sid ev attrs).
Proof. intros V. apply swp_vis. intros [] V' HV. by apply swp_ret. Qed.

Lemma silent_onSecurityEvent evt : silent (onSecurityEvent cfg evt).
Proof.
  intros V. apply swp_silent; [apply silent_logTransition|].
  destruct (_ && _); [|by apply swp_ret].
  apply swp_vis. intros [] V' HV. by apply swp_ret.
Qed.

Lemma silent_Observe kind key sid now : silent (Observe cfg kind key sid now).
Proof.
  intros V. apply swp_silent; [apply silent_onSecurityEvent|]. cbn zeta.
  case_match; [by apply swp_ret|]. apply swp_vis. intros [|] V' HV; simpl in HV; subst.
  - apply silent_onSecurityEvent.
  - by apply swp_ret.
Qed.

(** *** Handlers *)

(** The effect of a request that found the sessions [V]. *)
Definition serves_as (e : endpoint) (r : Request) (V : sessions_map)
    (res : option ResponseWriter) (V' : sessions_map) : Prop :=
  ∃ l, performs e r l ∧ V' = apply_label l V ∧
    (option_list (res ≫= artifact_in) = label_artifacts l V) ∧
    match l with LOp id _ => is_Some (V !! id) | _ => True end ∧
    (∀ s, l = LCreate s → ∃ rw v, res = Some rw ∧ rw_body rw = Some (JSONStart v)
       ∧ sr_SessionID v = ID s).

Lemma serves_nothing e r V rw : artifact_in rw = None → serves_as e r V (Some rw) V.
Proof.
  intros Ha. exists LSkip. split; [constructor|]. simpl. rewrite Ha. by split_and!.
Qed.

(** One operation on the session found under [id]. *)
Lemma serves_op e r V id o s s' rw :
  performs e r (LOp id o) → V !! id = Some s → after_op norm o s = s' → ID s = id →
  option_list (artifact_in rw) = release o s →
  serves_as e r V (Some rw) (<[ID s' := s']> V).
Proof.
  intros Hp Hs <- <- Ha. exists (LOp (ID s) o). split; [done|]. simpl. rewrite Ha, Hs.
  split; [|by split_and!].
  assert (ID (after_op norm o s) = ID s) as ->.
  { pose proof (after_op_origin norm o s) as Hor. unfold origin in Hor. congruence. }
  apply map_eq. intros j. destruct (decide (ID s = j)) as [<-|Hne].
  - by rewrite lookup_insert_eq, lookup_alter_eq, Hs.
  - by rewrite lookup_insert_ne, lookup_alter_ne.
Qed.

(** The store's keys are the sessions' ids. *)
Definition keyed (V : sessions_map) : Prop := ∀ id s, V !! id = Some s → ID s = id.

(** Perform the next event: its answer and what is known of it. *)
Tactic Notation "sstep" simple_intropattern(x) "as" simple_intropattern(Hp) :=
  cbn [pbind trigger]; apply swp_vis; let V1 := fresh "V1" in
  let Hq := fresh "Hq" in intros x V1 Hq; simpl in Hq; revert Hq; intros Hp.
Tactic Notation "sstep" simple_intropattern(x) := sstep x as ->.
Ltac ssilent L := cbn [pbind trigger]; apply swp_silent; [apply L|].
Ltac sret := apply swp_ret.
Ltac snone := sret; apply serves_nothing; reflexivity.

(** Write back the session [s1] reached from the stored [s] by [o]. *)
Lemma swp_update {A} (k : option store_error → prog A) Q V s s1 :
  V !! ID s = Some s → ID s1 = ID s →
  swp Q (k None) (<[ID s1 := s1]> V) → swp Q (Vis (StUpdate s1) k) V.
Proof.
  intros Hs Hid Hk. apply swp_vis. intros x V1 Hx. simpl in Hx. rewrite Hid, Hs in Hx.
  destruct Hx as [-> ->]. by rewrite <-Hid.
Qed.

Lemma expire_ID s now b s' : expireIfNeeded s now = (b, s') → ID s' = ID s.
Proof. intros He%expireIfNeeded_spec. by destruct He. Qed.

Lemma seq_handleStart w r V :
  swp (serves_as Start r V) (handleStart cfg w r) V.
Proof.
  unfold handleStart.
  destruct (authenticate_client cfg r) as [vc|] eqn:Hau; [|snone].
  destruct (decode_startRequest r) as [req|] eqn:Hd; [|snone].
  destruct (is_empty (sq_LoginHint req) || _); [snone|].
  destruct (negb (is_empty _) && _); [snone|].
  sstep now0. ssilent silent_Observe.
  destruct (isAllowedClient _ _); cbn [negb]; [|snone].
  unfold rate_limited. sstep a. destruct a; cbn [negb pbind]; [|snone].
  sstep b. destruct b; cbn [negb pbind]; [|snone].
  unfold create_session. sstep now. sstep created as [-> [t Ht]].
  destruct created as [sess|]; [|snone].
  destruct (newSession _ _ _ _ _) as [? t'] eqn:Hn in Ht. simpl in Ht. subst.
  sstep err as [-> ->]. ssilent silent_logTransition. sret.
  exists (LCreate sess). split; [by econstructor|]. split; [done|]. split; [done|].
  split; [done|]. intros s [= <-]. by eexists _, _.
Qed.

Lemma seq_handleVerify id w r V : keyed V →
  swp (serves_as (Verify id) r V) (handleVerify cfg id w r) V.
Proof.
  intros Hkey. unfold handleVerify. sstep got as [-> ->].
  destruct (V !! id) as [sess|] eqn:Hs; [|snone]. pose proof (Hkey _ _ Hs) as <-.
  sstep now. destruct (expireIfNeeded sess now) as [expired s1] eqn:He.
  pose proof (expire_ID _ _ _ _ He) as Hid. destruct expired.
  { cbn [pbind trigger]. eapply swp_update; [exact Hs|done|]. sret.
    eapply (serves_op _ _ _ _ (OpExpire now)); [constructor|exact Hs|..]; try done.
    simpl. by rewrite He. }
  assert (s1 = sess) as ->.
  { apply expireIfNeeded_spec in He. by inversion He. }
  destruct (SState sess); try snone.
  - unfold begin_idp_leg. sstep res as [-> Hsame]. destruct res as [res s1]. simpl in Hsame.
    destruct res as [url|]; [|snone]. cbn [pbind trigger].
    eapply swp_update; [exact Hs|by rewrite Hsame|]. sret.
    eapply (serves_op _ _ _ _ (OpBeginLogin (IdPState s1) (IdPNonce s1) (IdPPKCEVerifier s1)
      (SAMLRequestID s1) (Protocol s1))); [constructor|exact Hs|by symmetry|done..].
  - destruct (negb _); snone.
Qed.

Lemma seq_handleIdPResponse e w r V : e = Callback ∨ e = SamlACS → keyed V →
  swp (serves_as e r V) (handleIdPResponse cfg w r) V.
Proof.
  intros Hep Hkey. unfold handleIdPResponse.
  destruct (readSessionCookie r) as [sid|] eqn:Hck; [|snone]. sstep got as [-> ->].
  destruct (V !! sid) as [sess|] eqn:Hs; [|snone]. pose proof (Hkey _ _ Hs) as <-.
  sstep now. destruct (expireIfNeeded sess now) as [expired s1] eqn:He.
  pose proof (expire_ID _ _ _ _ He) as Hid. destruct expired.
  { cbn [pbind trigger]. eapply swp_update; [exact Hs|done|]. sret.
    eapply (serves_op _ _ _ _ (OpExpire now)); [by constructor|exact Hs|..]; try done.
    simpl. by rewrite He. }
  assert (s1 = sess) as ->.
  { apply expireIfNeeded_spec in He. by inversion He. }
  destruct (negb _); [snone|]. sstep res.
  destruct res as [ident|]; [|ssilent silent_logTransition; snone].
  sstep minted as [-> [t0 Ht0]]. destruct minted as [secret|]; [|snone].
  unfold bind_identity. sstep bound as [-> [t Ht]]. destruct bound as [bindErr s1].
  destruct (bindIdentity _ _ _ _ _ _) as [[e1 s2] t'] eqn:Hb in Ht. simpl in Ht. simplify_eq.
  assert (Hop : after_op norm (OpBind ident now (hashBinding secret) t) sess = s1)
    by (simpl; by rewrite Hb).
  assert (Hid1 : ID s1 = ID sess).
  { pose proof (after_op_origin norm (OpBind ident now (hashBinding secret) t) sess) as Ho.
    rewrite Hop in Ho. unfold origin in Ho. congruence. }
  assert (Hfin : ∀ rw, artifact_in rw = None →
    serves_as e r V (Some rw) (<[ID s1 := s1]> V)).
  { intros rw Hn. eapply (serves_op _ _ _ (ID sess) (OpBind ident now (hashBinding secret) t));
      [by constructor|exact Hs|exact Hop|done|by rewrite Hn]. }
  cbn [pbind trigger]. eapply swp_update; [exact Hs|exact Hid1|].
  destruct bindErr as [err|].
  - destruct err; try (sret; by apply Hfin). ssilent silent_Observe. sret. by apply Hfin.
  - ssilent silent_logTransition. sret. by apply Hfin.
Qed.

Lemma seq_handleApprove w r V : keyed V →
  swp (serves_as ApproveForm r V) (handleApprove cfg w r) V.
Proof.
  intros Hkey. unfold handleApprove.
  destruct (readSessionCookie r) as [sid|] eqn:Hck; [|snone].
  destruct (Form r) as [form|]; [|snone].
  cbn [aq_SessionID aq_UserCode aq_CSRFToken aq_Approve read_approveRequest].
  sstep got as [-> ->]. destruct (V !! sid) as [sess|] eqn:Hs; [|snone].
  pose proof (Hkey _ _ Hs) as <-. destruct (constantTimeStringEqual _ _); cbn [negb]; [|snone].
  sstep now. destruct (approve _ _ _ _ _) as [appErr s1] eqn:Ha.
  set (o := OpApprove (FormValue r "user_code") (seqb (FormValue r "decision") "approve") now
    (default "" (readApprovalCookie r))).
  assert (Hop : after_op norm o sess = s1) by (simpl; by rewrite Ha).
  assert (Hid1 : ID s1 = ID sess).
  { pose proof (after_op_origin norm o sess) as Ho. rewrite Hop in Ho.
    unfold origin in Ho. congruence. }
  assert (Hfin : ∀ rw, artifact_in rw = None →
    serves_as ApproveForm r V (Some rw) (<[ID s1 := s1]> V)).
  { intros rw Hn. eapply (serves_op _ _ _ (ID sess) o);
      [by constructor|exact Hs|exact Hop|done|by rewrite Hn]. }
  cbn [pbind trigger]. eapply swp_update; [exact Hs|exact Hid1|].
  unfold approve_response.
  destruct (_ && _); [ssilent silent_logTransition; sret; by apply Hfin|].
  case_bool_decide; [ssilent silent_logTransition; sret; by apply Hfin|].
  destruct appErr as [err|]; [|sret; by apply Hfin].
  destruct err; try (ssilent silent_Observe; sret; by apply Hfin);
    try (ssilent silent_logTransition; sret; by apply Hfin); sret; by apply Hfin.
Qed.

Lemma seq_handlePoll w r V : keyed V → artifact_in w = None →
  swp (serves_as PollEndpoint r V) (handlePoll cfg w r) V.
Proof.
  intros Hkey Hw. unfold handlePoll.
  destruct (decode_pollRequest r) as [req|] eqn:Hd; [|snone].
  destruct (is_empty _); [snone|].
  sstep got as [-> ->]. destruct (V !! pq_SessionID req) as [sess|] eqn:Hs; [|snone].
  pose proof (Hkey _ _ Hs) as Hid. sstep now.
  set (o := OpPoll (pq_CodeVerifier req) now (ArtifactTTL cfg)).
  destruct (poll _ _ _ _) as [outcome s1] eqn:Hp.
  assert (Hop : after_op norm o sess = s1) by (simpl; by rewrite Hp).
  assert (Hid1 : ID s1 = ID sess).
  { pose proof (after_op_origin norm o sess) as Ho. rewrite Hop in Ho.
    unfold origin in Ho. congruence. }
  assert (Hrel : release o sess = match outcome with
    | PollReturns p => option_list (pr_Artifact p) | _ => [] end).
  { simpl. rewrite Hp. simpl. destruct outcome as [p| |]; [|done..]. by destruct (pr_Artifact p). }
  assert (Hfin : ∀ rw, option_list (artifact_in rw) = release o sess →
    serves_as PollEndpoint r V (Some rw) (<[ID s1 := s1]> V)).
  { intros rw Ha. eapply (serves_op _ _ _ (pq_SessionID req) o);
      [by constructor|exact Hs|exact Hop|exact Hid|exact Ha]. }
  rewrite Hrel in Hfin. clear Hrel Hop. rewrite <-Hid in Hs.
  apply poll_cases in Hp.
  assert (Hshape : (∃ a, outcome = released a) ∨ (∃ st, outcome = status_only st)
    ∨ outcome = PollFails ErrInvalidVerifier ∨ outcome = PollPanics)
    by (destruct Hp; eauto; naive_solver).
  clear Hp. destruct Hshape as [[a ->]|[[st ->]|[-> | ->]]];
    cbn [released status_only poll_status poll_response pr_Status pr_Artifact pbind trigger].
  - eapply swp_update; [exact Hs|exact Hid1|]. rewrite andb_false_r. cbn [pbind].
    ssilent silent_logTransition. sret. by apply Hfin.
  - eapply swp_update; [exact Hs|exact Hid1|]. destruct (_ && _).
    + sstep now2. ssilent silent_Observe. destruct st; sret; by apply Hfin.
    + cbn [pbind]. destruct st; sret; by apply Hfin.
  - eapply swp_update; [exact Hs|exact Hid1|]. rewrite andb_false_r. cbn [pbind].
    ssilent silent_logTransition. sret. by apply Hfin.
  - intros w' Hok <-. split; [done|]. simpl. exists LSkip. split; [constructor|]. by split_and!.
Qed.

(** ** The server refines the state machine *)
Lemma apply_label_keyed l V : keyed V → keyed (apply_label l V).
Proof.
  intros Hk. destruct l as [|s|id o]; simpl; [done|..]; intros j s' Hj.
  - apply lookup_insert_Some in Hj as [[<- <-]|[_ Hj]]; [done|by apply Hk].
  - apply lookup_alter_Some in Hj as [(<- & s & Hs & ->)|[_ Hj]]; [|by apply Hk].
    pose proof (after_op_origin norm o s) as Ho. unfold origin in Ho.
    rewrite <-(Hk _ _ Hs). congruence.
Qed.

Lemma serve_effect e r (w : W) : store_ok (w_store w) →
  store_ok (w_store (run (serve cfg e r) w).2) ∧
  serves_as e r (view w) (run (serve cfg e r) w).1 (view (run (serve cfg e r) w).2).
Proof.
  intros Hok. assert (Hk : keyed (view w)) by (intros id s; by apply store_key).
  unfold serve, Router, auth_middlewares, noStoreMiddleware, cspMiddleware.
  destruct e.
  - split; [done|]. by apply serves_nothing.
  - by apply seq_handleStart.
  - by apply seq_handleVerify.
  - apply seq_handleIdPResponse; auto.
  - apply seq_handleIdPResponse; auto.
  - by apply seq_handleApprove.
  - by apply seq_handlePoll.
Qed.

(** C6: over a reliable store, a request served without interference does
    to the sessions exactly what one label does: nothing, the creation of one
    session, or one operation of the state machine, of the kind and with the
    arguments its endpoint allows, on the session its cookie, path or body
    names; and its response carries exactly the artifacts that operation
    releases. *)
Theorem serve_refines_fsm e r (w : W) : store_ok (w_store w) →
  let (res, w') := run (serve cfg e r) w in
  store_ok (w_store w') ∧ ∃ l, performs e r l ∧ view w' = apply_label l (view w) ∧
    option_list (res ≫= artifact_in) = label_artifacts l (view w).
Proof.
  intros Hok. pose proof (serve_effect e r w Hok) as [Hok' (l & Hp & Hv & Ha & _)].
  destruct (run (serve cfg e r) w) as [res w']. eauto.
Qed.

(** ** What a poll gives away *)
Lemma poll_expired_response w r req V s :
  keyed V → decode_pollRequest r = Some req → pq_SessionID req ≠ "" →
  V !! pq_SessionID req = Some s →
  SState s = StateExpired ∨ SState s = StateApproved ∧ Consumed s = true →
  swp (λ res _, res = Some (writeJSON StatusOK (JSONPoll (mkPollResponse "expired" None "")) w))
    (handlePoll cfg w r) V.
Proof.
  intros Hk Hd Hne Hs Hst. unfold handlePoll. rewrite Hd. apply is_empty_false in Hne as ->.
  pose proof (Hk _ _ Hs) as Hid. sstep got as [-> ->]. rewrite Hs. sstep now.
  assert (Hp : poll s (pq_CodeVerifier req) now (ArtifactTTL cfg) = (status_only PollExpired, s)).
  { apply poll_complete. destruct Hst as [Hst|[Hst Hc]].
    - apply poll_expired. by constructor.
    - by apply poll_consumed. }
  rewrite Hp. cbn [status_only]. rewrite <-Hid in Hs.
  cbn [pbind trigger]. eapply swp_update; [exact Hs|done|].
  destruct (_ && _); [|by apply swp_ret].
  sstep now2. ssilent silent_Observe. by apply swp_ret.
Qed.

(** A poll for an id no session has is answered exactly as one for an
    expired or an already collected session, whatever verifier it presents:
    the response does not tell them apart. *)
Theorem poll_does_not_distinguish r req (w : W) :
  store_ok (w_store w) → decode_pollRequest r = Some req → pq_SessionID req ≠ "" →
  (∀ s, view w !! pq_SessionID req = Some s →
     SState s = StateExpired ∨ SState s = StateApproved ∧ Consumed s = true) →
  ∀ rw, (run (handlePoll cfg rw r) w).1
    = Some (writeJSON StatusOK (JSONPoll (mkPollResponse "expired" None "")) rw).
Proof.
  intros Hok Hd Hne Hs rw. assert (Hk : keyed (view w)) by (intros id s; by apply store_key).
  destruct (view w !! pq_SessionID req) as [s|] eqn:E.
  - exact (proj2 (poll_expired_response rw r req _ s Hk Hd Hne E (Hs s eq_refl) w Hok eq_refl)).
  - assert (Hswp : swp (λ res _, res = Some (writeJSON StatusOK
      (JSONPoll (mkPollResponse "expired" None "")) rw)) (handlePoll cfg rw r) (view w)).
    { unfold handlePoll. rewrite Hd. apply is_empty_false in Hne as ->.
      sstep got as [-> ->]. rewrite E. by apply swp_ret. }
    exact (proj2 (Hswp w Hok eq_refl)).
Qed.

(** ** Single use *)
Inductive turn :=
  | Serve (e : endpoint) (r : Request)
  | Wait (d : Duration)
  | Sweep.

Definition answer : Type := endpoint * Request * option ResponseWriter.

(** Serve the requests one after the other. *)
Fixpoint serve_all (ts : list turn) (w : W) : list answer * W :=
  match ts with
  | [] => ([], w)
  | Serve e r :: ts' =>
      let (res, w1) := run (serve cfg e r) w in
      let (outs, w2) := serve_all ts' w1 in ((e, r, res) :: outs, w2)
  | Wait d :: ts' => serve_all ts' (with_clock (w_clock w + d) w)
  | Sweep :: ts' => serve_all ts' (with_store (store_evict (w_clock w) (w_store w)) w)
  end.

(** Artifacts handed to polls that name the session [id]. *)
Definition handed_out (id : string) (a : answer) : nat :=
  let '(e, r, res) := a in
  match e, decode_pollRequest r with
  | PollEndpoint, Some req =>
      if decide (pq_SessionID req = id) then length (option_list (res ≫= artifact_in)) else 0
  | _, _ => 0
  end.

(** Sessions created under [id]. *)
Definition created (id : string) (a : answer) : nat :=
  match a.2 ≫= rw_body with
  | Some (JSONStart v) => if decide (sr_SessionID v = id) then 1 else 0
  | _ => 0
  end.

Definition total (f : answer → nat) (outs : list answer) : nat := sum_list_with f outs.

(** A session under [id] that has not been collected. *)
Definition available (id : string) (V : sessions_map) : nat :=
  match V !! id with Some s => if Consumed s then 0 else 1 | None => 0 end.

Lemma Consumed_monotone o s : Consumed s = true → Consumed (after_op norm o s) = true.
Proof.
  intros Hc. destruct (after_op_effect norm o s) as [| ? ? ? He | ? ? ? ? ? ? ? He
    | ? ? ? ? ? ? He | ? ? ? ? ? He]; [done|by destruct He|..];
    destruct He; try done;
    match goal with E : expire_spec _ _ true _ |- _ => by inversion E; subst end.
Qed.

Lemma available_release id o V s : V !! id = Some s →
  (length (release o s) + available id (apply_label (LOp id o) V) ≤ available id V)%nat.
Proof.
  intros Hs. unfold available. simpl. rewrite lookup_alter_eq, Hs. simpl.
  destruct (release o s) as [|a l] eqn:E.
  - simpl. destruct (Consumed s) eqn:Hc; [by rewrite Consumed_monotone|]. case_match; lia.
  - destruct (release_inv norm o s a) as (v & now & ttl & i & _ & _ & Hc & _ & _ & _ & Ha & Hr);
      [rewrite E; by left|]. rewrite E in Hr. simplify_eq. rewrite Ha, Hc. simpl. lia.
Qed.

Lemma available_sub id V V' : V' ⊆ V → (available id V' ≤ available id V)%nat.
Proof.
  intros Hsub. unfold available. destruct (V' !! id) as [s|] eqn:E; [|lia].
  by rewrite (lookup_weaken _ _ _ _ E Hsub).
Qed.

Lemma serve_accounting e r (w : W) id : store_ok (w_store w) →
  let (res, w') := run (serve cfg e r) w in
  store_ok (w_store w') ∧
  (handed_out id (e, r, res) + available id (view w') ≤ created id (e, r, res) + available id (view w))%nat.
Proof.
  intros Hok. pose proof (serve_effect e r w Hok) as [Hok' (l & Hp & Hv & Ha & Hl & Hc)].
  destruct (run (serve cfg e r) w) as [res w']. simpl in *. split; [done|]. rewrite Hv.
  destruct l as [|s|id' o]; simpl in *.
  - rewrite Ha. repeat case_match; simpl; lia.
  - destruct (Hc s eq_refl) as (rw & v & -> & Hb & Hid). unfold created. simpl. rewrite Hb, Hid.
    simpl in Ha. rewrite Ha. destruct e; try by inversion Hp.
    unfold available. destruct (decide (ID s = id)) as [<-|Hne].
    + rewrite lookup_insert_eq. repeat case_match; lia.
    + rewrite lookup_insert_ne by done. repeat case_match; lia.
  - destruct Hl as [s Hs]. rewrite Hs in Ha. rewrite Ha.
    destruct (decide (id' = id)) as [<-|Hne].
    + pose proof (available_release id' o (view w) s Hs) as Hav. simpl in Hav.
      repeat case_match; simpl; lia.
    + unfold available. rewrite lookup_alter_ne by done.
      assert (Hz : match e, decode_pollRequest r with
        | PollEndpoint, Some req =>
            if decide (pq_SessionID req = id) then length (release o s) else 0%nat
        | _, _ => 0%nat end = 0%nat).
      { destruct e; try done. destruct (decode_pollRequest r) as [req|] eqn:Hd; [|done].
        inversion Hp; simplify_eq; [exfalso; naive_solver..|]. by rewrite decide_False. }
      rewrite Hz. lia.
Qed.

(** C8: served one at a time over a reliable store, however many requests
    of whatever kind, in whatever order, with any waits and sweeps between
    them: the polls naming a session are handed at most as many artifacts as
    sessions were created under that id. *)
Theorem sequential_single_use ts (w : W) id :
  store_ok (w_store w) → view w !! id = None →
  (total (handed_out id) (serve_all ts w).1 ≤ total (created id) (serve_all ts w).1)%nat.
Proof.
  intros Hok Hn. cut (∀ w : W, store_ok (w_store w) →
    (total (handed_out id) (serve_all ts w).1 ≤
     total (created id) (serve_all ts w).1 + available id (view w))%nat).
  { intros Hall. specialize (Hall w Hok). unfold available in Hall. rewrite Hn in Hall. lia. }
  clear w Hok Hn. induction ts as [|t ts IH]; intros w Hok; simpl; [lia|].
  destruct t as [e r|d|].
  - pose proof (serve_accounting e r w id Hok) as Hacc.
    destruct (run (serve cfg e r) w) as [res w1]. destruct Hacc as [Hok1 Hacc].
    specialize (IH w1 Hok1). destruct (serve_all ts w1) as [outs w2]. simpl in *.
    unfold total in *. simpl. lia.
  - by apply (IH (with_clock (w_clock w + d) w)).
  - destruct (evict_law (w_clock w) (w_store w) Hok) as [Hok1 Hsub].
    specialize (IH (with_store (store_evict (w_clock w) (w_store w)) w) Hok1).
    simpl in IH. pose proof (available_sub id _ _ Hsub). lia.
Qed.

End Sequential.
