(* ===== verification/Races.v ===== *)
(** What the handlers' separate [Get] and [Update] do not guarantee.  Requests
    for one session that all read it before the first writes it back are each
    served from that one reading: every one is answered as if it had come alone,
    and only the change of the last one to write is kept. *)

From S2P Require Import Prelude GoStrings GoTime GoCrypto GoFormat UserCode Pkce Session Fsm FsmSpec.
From S2P Require Import FsmTrace Store Wire Http ClientIP ClientAuth Detect RateLimit Prog Broker.
From S2P Require Import Handlers System Safety Sequential.

Local Open Scope list_scope.

Section Races.
Context {St I : Type} `{ReliableStore St} `{RateLimiter} `{IdentityProviderLaws I}.
Context `{UnicodeCase} `{Location}.
Variable cfg : Config.
Notation W := (World St I).
Notation view w := (store_view (w_store w)).
Notation Sys := (Sys (St := St) (I := I)).

(** ** The clock stands still while a program runs alone *)
Lemma interp_clock R (e : event R) (w : W) : w_clock (interp e w).2 = w_clock w.
Proof. destruct e; cbn; by repeat case_match. Qed.

Lemma run_clock {A} (p : prog A) : ∀ w : W, w_clock (run p w).2 = w_clock w.
Proof.
  induction p as [a| |R e k IH]; intros w; [done..|]. cbn.
  pose proof (interp_clock _ e w) as Hc. destruct (interp e w) as [x w1]. by rewrite IH.
Qed.

(** ** Programs decided by what they have read

    [settles p rw]: [p] leaves the sessions as they are and answers [rw]. *)
Definition settles (p : prog ResponseWriter) (rw : ResponseWriter) : Prop :=
  ∀ V, swp (St := St) (I := I) (λ r V', r = Some rw ∧ V' = V) p V.

Lemma settles_ret rw : settles (Ret rw) rw.
Proof. intros V. by apply swp_ret. Qed.

Lemma settles_silent p q rw : silent (St := St) (I := I) p → settles q rw → settles (pbind p (λ _, q)) rw.
Proof. intros Hp Hq V. by apply swp_silent. Qed.

Hint Resolve settles_ret settles_silent silent_logTransition silent_Observe : core.

Lemma approve_response_settles e s now w r : ∃ rw, settles (approve_response cfg e s now w r) rw.
Proof.
  unfold approve_response. destruct (_ && _); [eauto|]. case_bool_decide; [eauto|].
  destruct e as [[]|]; eauto.
Qed.

Lemma poll_response_settles o s w : o ≠ PollPanics → ∃ rw, settles (poll_response o s w) rw.
Proof.
  intros Ho. destruct o as [res|e|]; [| |done]; unfold poll_response; [|destruct e; eauto].
  destruct (pr_Status res); eauto. destruct (pr_Artifact res); eauto.
Qed.

(** [decides c p rw s1]: run at time [c], with some session under the id of
    [s1], [p] answers [rw] and leaves [s1] there. *)
Definition decides (c : Time) (p : prog ResponseWriter) (rw : ResponseWriter) (s1 : Session) : Prop :=
  ∀ w : W, store_ok (w_store w) → w_clock w = c → is_Some (view w !! ID s1) →
    store_ok (w_store (run p w).2) ∧ (run p w).1 = Some rw ∧ view (run p w).2 = <[ID s1 := s1]> (view w).

Lemma decides_now c k rw s1 : decides c (k c) rw s1 → decides c (Vis Now k) rw s1.
Proof. intros Hk w Hok <-. by apply Hk. Qed.

Lemma decides_update c k rw s1 : (∀ x, settles (k x) rw) → decides c (Vis (StUpdate s1) k) rw s1.
Proof.
  intros Hk w Hok _ Hs. cbn [run]. destruct (interp (StUpdate s1) w) as [x w1] eqn:E.
  destruct (interp_sem _ _ _ _ _ Hok E) as [Hok1 Hx]. cbn in Hx. destruct Hs as [s0 Hs].
  rewrite Hs in Hx. destruct Hx as [-> Hv]. destruct (Hk None _ w1 Hok1 eq_refl) as (Hok2 & Hr & Hv2).
  split; [done|]. split; [done|]. by rewrite Hv2.
Qed.

(** ** The requests that read and write one session

    A poll for the session, or an approval form of a browser that follows its
    cookie and shows its CSRF token. *)
Inductive targets (s : Session) : endpoint * Request → Prop :=
  | targets_poll r req : decode_pollRequest r = Some req → pq_SessionID req = ID s → ID s ≠ "" →
      targets s (PollEndpoint, r)
  | targets_form r form : readSessionCookie r = Some (ID s) → Form r = Some form →
      constantTimeStringEqual (FormValue r "csrf_token") (CSRFToken s) = true →
      targets s (ApproveForm, r).

(** A session that has been approved has an identity ([FsmTrace.session_invariant]). *)
Definition identified (s : Session) : Prop := SState s = StateApproved → SIdentity s ≠ None.

Lemma poll_not_panic s v now ttl o s1 :
  identified s → poll s v now ttl = (o, s1) → o ≠ PollPanics.
Proof. intros Hi Hp ->. apply poll_cases in Hp. inversion Hp; subst. by apply Hi. Qed.

Lemma after_op_ID o s : ID (after_op (IdentityNormalizer cfg) o s) = ID s.
Proof. pose proof (after_op_origin (IdentityNormalizer cfg) o s) as Ho. unfold origin in Ho. congruence. Qed.

(** Once such a request has read the session, its answer and what it writes are
    decided by the time. *)
Definition decided_as (s : Session) (c : Time) (p : prog ResponseWriter) (s1 : Session)
    (rw : ResponseWriter) : Prop :=
  ∃ k, p = Vis (StGet (ID s)) k ∧ ID s1 = ID s ∧ decides c (k (Ok s)) rw s1.

Definition decided (s : Session) (c : Time) (p : prog ResponseWriter) : Prop :=
  ∃ s1 rw, decided_as s c p s1 rw.

Lemma poll_decided s c w r req o s1 rw : decode_pollRequest r = Some req →
  pq_SessionID req = ID s → ID s ≠ "" →
  poll s (pq_CodeVerifier req) c (ArtifactTTL cfg) = (o, s1) → o ≠ PollPanics →
  settles (poll_response o s1 w) rw → decided_as s c (handlePoll cfg w r) s1 rw.
Proof.
  intros Hd Hid Hne Hp Ho Hrw. unfold handlePoll. rewrite Hd, Hid. apply is_empty_false in Hne as ->.
  eexists _. split; [reflexivity|]. split.
  { pose proof (after_op_ID (OpPoll (pq_CodeVerifier req) c (ArtifactTTL cfg)) s) as He.
    simpl in He. by rewrite Hp in He. }
  apply decides_now. rewrite Hp.
  destruct o as [res|e|]; [| |done]; apply decides_update; intros x V; destruct (_ && _); cbn [pbind];
    try apply Hrw; cbn [trigger pbind]; apply swp_vis; intros now2 V2 ->;
    (apply swp_silent; [apply silent_Observe|apply Hrw]).
Qed.

Lemma form_decided s c w r form e s1 rw : readSessionCookie r = Some (ID s) → Form r = Some form →
  constantTimeStringEqual (FormValue r "csrf_token") (CSRFToken s) = true →
  approve s (FormValue r "user_code") (seqb (FormValue r "decision") "approve") c
    (default "" (readApprovalCookie r)) = (e, s1) →
  settles (approve_response cfg e s1 c w r) rw → decided_as s c (handleApprove cfg w r) s1 rw.
Proof.
  intros Hck Hf Hcsrf Ha Hrw. unfold handleApprove. rewrite Hck, Hf. cbn zeta.
  cbn [aq_SessionID aq_UserCode aq_CSRFToken aq_Approve read_approveRequest].
  eexists _. split; [reflexivity|]. split.
  { pose proof (after_op_ID (OpApprove (FormValue r "user_code")
      (seqb (FormValue r "decision") "approve") c (default "" (readApprovalCookie r))) s) as He.
    simpl in He. by rewrite Ha in He. }
  cbv beta iota. rewrite Hcsrf. cbn [negb]. apply decides_now. rewrite Ha. apply decides_update.
  intros x. apply Hrw.
Qed.

Ltac routed := unfold serve, Router, auth_middlewares, noStoreMiddleware, cspMiddleware; cbn [fst snd].

Lemma targets_decided s c er : identified s → targets s er → decided s c (serve cfg er.1 er.2).
Proof.
  intros Hi [r req Hd Hid Hne | r form Hck Hf Hcsrf]; routed.
  - destruct (poll s (pq_CodeVerifier req) c (ArtifactTTL cfg)) as [o s1] eqn:Hp.
    pose proof (poll_not_panic _ _ _ _ _ _ Hi Hp) as Ho.
    match goal with |- decided _ _ (handlePoll _ ?w _) =>
      destruct (poll_response_settles o s1 w Ho) as [rw Hrw] end.
    exists s1, rw. by eapply poll_decided.
  - destruct (approve s (FormValue r "user_code") (seqb (FormValue r "decision") "approve") c
      (default "" (readApprovalCookie r))) as [e s1] eqn:Ha.
    match goal with |- decided _ _ (handleApprove _ ?w _) =>
      destruct (approve_response_settles e s1 c w r) as [rw Hrw] end.
    exists s1, rw. by eapply form_decided.
Qed.

(** ** Serving requests together *)
Definition alone (w : W) (er : endpoint * Request) : option ResponseWriter * W :=
  run (serve cfg er.1 er.2) w.

Definition serving (a : action) : Prop := match a with Arrive _ _ | Step _ => True | _ => False end.

(** [sys'] is reached from [sys] when exactly the requests [ers] arrive and are
    served in some interleaving, while the clock stands still. *)
Definition together (sys : Sys) (ers : list (endpoint * Request)) (sys' : Sys) : Prop :=
  ∃ acts, Forall serving acts ∧ sys' = exec cfg acts sys ∧ s_reqs sys' = s_reqs sys ++ ers.

Lemma exec_app l l' (sys : Sys) : exec cfg (l ++ l') sys = exec cfg l' (exec cfg l sys).
Proof. unfold exec. by rewrite foldl_app. Qed.

Section Batch.
Variables (s : Session) (w0 : W).
Hypothesis store0 : store_ok (w_store w0).
Hypothesis held : view w0 !! ID s = Some s.

(** [p] is what is left of the request [er] after it has read [s]. *)
Definition remains (er : endpoint * Request) (p : prog ResponseWriter) : Prop :=
  ∃ rw s1, ID s1 = ID s ∧ decides (w_clock w0) p rw s1 ∧
    (alone w0 er).1 = Some rw ∧ view (alone w0 er).2 = <[ID s := s1]> (view w0).

(** Like the world the batch starts in. *)
Definition alike (w : W) : Prop := store_ok (w_store w) ∧ w_clock w = w_clock w0.

Lemma get_held (w : W) : store_ok (w_store w) → view w = view w0 →
  ∃ w', interp (StGet (ID s)) w = (Ok s, w') ∧ store_ok (w_store w') ∧ view w' = view w0 ∧
    w_clock w' = w_clock w.
Proof.
  intros Hok Hv. pose proof (interp_clock _ (StGet (ID s)) w) as Hc.
  destruct (interp (StGet (ID s)) w) as [x w'] eqn:E.
  destruct (interp_sem _ _ _ _ _ Hok E) as [Hok2 [Hv2 Hx]]. rewrite Hv, held in Hx. subst x.
  exists w'. by rewrite Hv2, Hv.
Qed.

Lemma decided_alone er s1 rw : decided_as s (w_clock w0) (serve cfg er.1 er.2) s1 rw →
  (alone w0 er).1 = Some rw ∧ view (alone w0 er).2 = <[ID s := s1]> (view w0).
Proof.
  intros (k & Hserve & Hid & Hdec). unfold alone. rewrite Hserve. cbn [run].
  destruct (get_held w0 store0 eq_refl) as (w1 & -> & Hok1 & Hv1 & Hc1).
  destruct (Hdec w1 Hok1 Hc1) as (_ & Hr & Hw); [rewrite Hv1, Hid, held; by eexists|].
  split; [done|]. by rewrite Hw, Hv1, Hid.
Qed.

(** The request has arrived and has read the session. *)
Lemma arrive_and_read er sys : decided s (w_clock w0) (serve cfg er.1 er.2) →
  alike (s_world sys) → view (s_world sys) = view w0 →
  ∃ p, let sys' := exec cfg [Arrive er.1 er.2; Step (length (s_threads sys))] sys in
    remains er p ∧ s_threads sys' = s_threads sys ++ [p] ∧ s_reqs sys' = s_reqs sys ++ [er] ∧
    alike (s_world sys') ∧ view (s_world sys') = view w0.
Proof.
  intros (s1 & rw & Hdec) [Hok Hc] Hv. pose proof (decided_alone _ _ _ Hdec) as [Hr1 Hv1].
  destruct Hdec as (k & Hserve & Hid & Hdec).
  exists (k (Ok s)). destruct (get_held (s_world sys) Hok Hv) as (w' & E & Hok' & Hv' & Hc').
  cbn [exec foldl step s_threads s_reqs s_world s_trace].
  rewrite lookup_app_r, Nat.sub_diag by done. cbn [lookup list_lookup]. rewrite Hserve, E.
  cbn [s_threads s_reqs s_world]. split; [by exists rw, s1|].
  split; [|split; [by destruct er|split; [split; congruence|done]]].
  rewrite insert_app_r_alt by done. by rewrite Nat.sub_diag.
Qed.

Lemma all_read ers : ∀ sys, Forall (λ er, decided s (w_clock w0) (serve cfg er.1 er.2)) ers →
  alike (s_world sys) → view (s_world sys) = view w0 →
  ∃ acts ps, let sys' := exec cfg acts sys in
    Forall serving acts ∧ Forall2 remains ers ps ∧ s_threads sys' = s_threads sys ++ ps ∧
    s_reqs sys' = s_reqs sys ++ ers ∧ alike (s_world sys') ∧ view (s_world sys') = view w0.
Proof.
  induction ers as [|er ers IH]; intros sys Hd Ha Hv.
  { exists [], []. cbn. by rewrite !app_nil_r. }
  inversion Hd as [|? ? Hd1 Hd2]; subst.
  destruct (arrive_and_read er sys Hd1 Ha Hv) as (p & Hp & Ht & Hr & Ha1 & Hv1).
  set (first := [Arrive er.1 er.2; Step (length (s_threads sys))]) in *.
  destruct (IH (exec cfg first sys) Hd2 Ha1 Hv1) as (acts & ps & Hs & Hps & Ht' & Hr' & Ha' & Hv').
  exists (first ++ acts), (p :: ps). rewrite exec_app.
  split; [by repeat constructor|]. split; [by constructor|]. rewrite Ht', Hr', Ht, Hr, <-!app_assoc.
  by split_and!.
Qed.

(** Then each runs to its end, in turn. *)
Lemma all_finish ers ps : Forall2 remains ers ps → ∀ T sys, s_threads sys = T ++ ps →
  alike (s_world sys) → is_Some (view (s_world sys) !! ID s) →
  ∃ acts rws, let sys' := exec cfg acts sys in
    Forall serving acts ∧ s_reqs sys' = s_reqs sys ∧ s_threads sys' = T ++ map Ret rws ∧
    Forall2 (λ er rw, (alone w0 er).1 = Some rw) ers rws ∧
    match list.last ers with
    | None => view (s_world sys') = view (s_world sys)
    | Some er => ∃ s1, view (alone w0 er).2 = <[ID s := s1]> (view w0) ∧
        view (s_world sys') = <[ID s := s1]> (view (s_world sys))
    end.
Proof.
  induction 1 as [|er p ers ps (rw & s1 & Hid & Hd & Hr & Hv) _ IH]; intros T sys Ht [Hok Hc] Hs.
  { exists [], []. by split_and!. }
  rewrite <-Hid in Hs. destruct (Hd (s_world sys) Hok Hc Hs) as (Hok1 & Hr1 & Hv1).
  destruct (run_is_schedule cfg p sys (length T)) as (n & Hw & Hq & Hth).
  { rewrite Ht, lookup_app_r by done. by rewrite Nat.sub_diag. }
  set (sys1 := exec cfg (replicate n (Step (length T))) sys) in *. rewrite Hr1 in Hth.
  rewrite Ht, insert_app_r_alt, Nat.sub_diag in Hth by done. cbn [insert list_insert] in Hth.
  destruct (IH (T ++ [Ret rw]) sys1) as (acts & rws & Hser & Hq' & Hth' & Hall & Hlast).
  - by rewrite Hth, <-app_assoc.
  - rewrite Hw. split; [done|]. by rewrite run_clock.
  - rewrite Hw, Hv1, Hid, lookup_insert_eq. by eexists.
  - exists (replicate n (Step (length T)) ++ acts), (rw :: rws). rewrite exec_app. fold sys1.
    split; [apply Forall_app; split; [by apply Forall_replicate|done]|].
    rewrite Hq', Hq, Hth', <-app_assoc. split; [done|]. split; [done|]. split; [by constructor|].
    rewrite last_cons. rewrite Hw, Hv1, Hid in Hlast. destruct (list.last ers) as [er'|].
    + destruct Hlast as (s2 & He & ->). exists s2. by rewrite insert_insert_eq.
    + by exists s1.
Qed.

End Batch.

(** A batch of requests for the session [s], served from one reading of it. *)
Lemma served_from_one_reading sys s ers er :
  store_ok (w_store (s_world sys)) → view (s_world sys) !! ID s = Some s → identified s →
  Forall (targets s) (ers ++ [er]) →
  ∃ sys', together sys (ers ++ [er]) sys' ∧
    (∀ i e, (ers ++ [er]) !! i = Some e →
       response sys' (length (s_threads sys) + i) = (alone (s_world sys) e).1) ∧
    view (s_world sys') = view (alone (s_world sys) er).2.
Proof.
  intros Hok Hs Hi Ht. set (w0 := s_world sys).
  destruct (all_read s w0 Hok Hs (ers ++ [er]) sys) as (acts & ps & Hser & Hps & Hth & Hq & Ha & Hv);
    [|by split|done|].
  { eapply list.Forall_impl; [exact Ht|]. intros e He. by apply targets_decided. }
  set (sys1 := exec cfg acts sys) in *.
  destruct (all_finish s w0 (ers ++ [er]) ps Hps (s_threads sys) sys1 Hth Ha)
    as (acts' & rws & Hser' & Hq' & Hth' & Hall & Hlast); [rewrite Hv; by eexists|].
  rewrite last_snoc in Hlast. destruct Hlast as (s1 & Hone & Hlast).
  exists (exec cfg acts' sys1). split_and!.
  - exists (acts ++ acts'). rewrite exec_app. split; [by apply Forall_app|]. split; [done|].
    by rewrite Hq', Hq.
  - intros i e He. destruct (Forall2_lookup_l _ _ _ _ _ Hall He) as (rw & Hrw & Hr).
    unfold response. rewrite Hth', lookup_app_r by lia.
    replace (length (s_threads sys) + i - length (s_threads sys))%nat with i by lia.
    rewrite list_lookup_fmap, Hrw. exact (eq_sym Hr).
  - by rewrite Hlast, Hv, Hone.
Qed.

(** ** What that means for the three decisions the session takes *)

(** A poll for [s] with its verifier. *)
Definition collects (s : Session) (r : Request) : Prop :=
  ∃ req, decode_pollRequest r = Some req ∧ pq_SessionID req = ID s ∧ ID s ≠ "" ∧
    verifyClientPKCE (pq_CodeVerifier req) (CodeChallenge s) = true.

(** An approval form from the browser that logged in. *)
Definition form_of (s : Session) (r : Request) : Prop :=
  readSessionCookie r = Some (ID s) ∧ is_Some (Form r) ∧
  constantTimeStringEqual (FormValue r "csrf_token") (CSRFToken s) = true ∧
  binding_matches (default "" (readApprovalCookie r)) s.

Definition approves (s : Session) (good : bool) (r : Request) : Prop :=
  form_of s r ∧ FormValue r "decision" = "approve" ∧
  codesEqual (FormValue r "user_code") (UserCode s) = good.

Definition denies (s : Session) (r : Request) : Prop :=
  form_of s r ∧ FormValue r "decision" ≠ "approve".

Lemma map_snoc {A B} (f : A → B) l x : map f (l ++ [x]) = map f l ++ [f x].
Proof. by rewrite map_app. Qed.

Lemma form_targets s r : form_of s r → targets s (ApproveForm, r).
Proof. intros (Hc & [f Hf] & Ht & _). by eapply targets_form. Qed.

Lemma form_alone s r e s1 rw (w : W) : store_ok (w_store w) → view w !! ID s = Some s → form_of s r →
  approve_spec s (FormValue r "user_code") (seqb (FormValue r "decision") "approve") (w_clock w)
    (default "" (readApprovalCookie r)) e s1 →
  (∀ w', settles (approve_response cfg e s1 (w_clock w) w' r) (rw w')) →
  ∃ w', (alone w (ApproveForm, r)).1 = Some (rw w') ∧
    view (alone w (ApproveForm, r)).2 = <[ID s := s1]> (view w).
Proof.
  intros Hok Hs (Hc & [f Hf] & Ht & _) Ha Hrw. eexists. eapply decided_alone; [done..|]. routed.
  eapply form_decided; [done..|by apply approve_complete|apply Hrw].
Qed.

Lemma collect_alone s r i (w : W) : store_ok (w_store w) → view w !! ID s = Some s →
  SState s = StateApproved → Consumed s = false → SIdentity s = Some i → collects s r →
  ∃ rw, (alone w (PollEndpoint, r)).1 = Some rw ∧ artifact_in rw = Some (artifact_of i s (ArtifactTTL cfg)).
Proof.
  intros Hok Hs Hst Hc Hi (req & Hd & Hid & Hne & Hv).
  eexists. split; [eapply (decided_alone s w Hok Hs (PollEndpoint, r)); routed|].
  - eapply poll_decided; [done..|by apply poll_complete, poll_release|done|].
    unfold poll_response. cbn [released pr_Status pr_Artifact].
    apply settles_silent; [apply silent_logTransition|apply settles_ret].
  - done.
Qed.

Lemma polls_race (sys : Sys) s i rs :
  store_ok (w_store (s_world sys)) → view (s_world sys) !! ID s = Some s →
  SState s = StateApproved → Consumed s = false → SIdentity s = Some i → Forall (collects s) rs →
  ∃ sys', together sys (map (pair PollEndpoint) rs) sys' ∧
    ∀ j, (j < length rs)%nat → ∃ rw, response sys' (length (s_threads sys) + j) = Some rw ∧
      artifact_in rw = Some (artifact_of i s (ArtifactTTL cfg)).
Proof.
  intros Hok Hs Hst Hc Hi Hrs. destruct rs as [|r rs _] using rev_ind.
  { exists sys. split; [|cbn; lia]. exists []. by rewrite app_nil_r. }
  pose proof (map_snoc (pair PollEndpoint) rs r) as Hmap.
  destruct (served_from_one_reading sys s (map (pair PollEndpoint) rs) (PollEndpoint, r))
    as (sys' & Ht & Hall & _); [done..|by intros _; rewrite Hi| |].
  { rewrite <-Hmap. apply Forall_map. eapply list.Forall_impl; [exact Hrs|].
    intros r' (req & ? & ? & ? & _). by eapply targets_poll. }
  exists sys'. rewrite Hmap. split; [exact Ht|]. intros j Hj.
  destruct (lookup_lt_is_Some_2 (rs ++ [r]) j Hj) as [r' Hr'].
  rewrite (Hall j (PollEndpoint, r')).
  - eapply collect_alone; try done. by eapply (Forall_lookup_1 (collects s)).
  - rewrite <-Hmap, list_lookup_fmap. by rewrite Hr'.
Qed.

Lemma guess_alone s r (w : W) : store_ok (w_store w) → view w !! ID s = Some s →
  live s StateAwaitingApproval (w_clock w) → 0 ≤ ApproveAttempts s < maxApproveAttempts - 1 →
  approves s false r →
  (∃ rw, (alone w (ApproveForm, r)).1 = Some rw ∧ csrf_shown rw = Some (CSRFToken s)) ∧
  view (alone w (ApproveForm, r)).2 = <[ID s := set_ApproveAttempts (ApproveAttempts s + 1) s]> (view w).
Proof.
  intros Hok Hs Hl Ha (Hf & Hd & Hc). pose proof (proj2 (proj2 (proj2 Hf))) as Hb.
  assert (Hw : wrap64 (ApproveAttempts s + 1) = ApproveAttempts s + 1) by (apply wrap64_attempts; lia).
  set (s1 := set_ApproveAttempts (ApproveAttempts s + 1) s).
  edestruct (form_alone s r (Some (ErrText "incorrect code")) s1 (λ w', renderApprove s1 (BaseURL cfg) w') w)
    as (w' & Hr & Hv); [done|done|done| | |split; [|exact Hv]].
  - unfold s1. rewrite <-Hw. apply approve_incorrect; try done; [by rewrite Hd|lia].
  - intros w'. unfold approve_response. destruct Hl as [Hst _]. cbn [SState s1 set_ApproveAttempts].
    rewrite Hst. apply settles_silent; [apply silent_Observe|apply settles_ret].
  - eexists. by split; [exact Hr|].
Qed.

Lemma guesses_race (sys : Sys) s rs : rs ≠ [] →
  store_ok (w_store (s_world sys)) → view (s_world sys) !! ID s = Some s →
  live s StateAwaitingApproval (w_clock (s_world sys)) →
  0 ≤ ApproveAttempts s < maxApproveAttempts - 1 → Forall (approves s false) rs →
  ∃ sys', together sys (map (pair ApproveForm) rs) sys' ∧
    (∀ j, (j < length rs)%nat → ∃ rw, response sys' (length (s_threads sys) + j) = Some rw ∧
       csrf_shown rw = Some (CSRFToken s)) ∧
    view (s_world sys') !! ID s = Some (set_ApproveAttempts (ApproveAttempts s + 1) s).
Proof.
  intros Hne Hok Hs Hl Ha Hrs. destruct rs as [|r rs _] using rev_ind; [done|].
  pose proof (map_snoc (pair ApproveForm) rs r) as Hmap.
  destruct (served_from_one_reading sys s (map (pair ApproveForm) rs) (ApproveForm, r))
    as (sys' & Ht & Hall & Hv); [done..| | |].
  { intros Hst. destruct Hl as [Hst' _]. congruence. }
  { rewrite <-Hmap. apply Forall_map. eapply list.Forall_impl; [exact Hrs|].
    intros r' [Hf _]. by apply form_targets. }
  exists sys'. rewrite Hmap. split; [exact Ht|]. split.
  - intros j Hj. destruct (lookup_lt_is_Some_2 (rs ++ [r]) j Hj) as [r' Hr'].
    rewrite (Hall j (ApproveForm, r')).
    + apply guess_alone; try done. by eapply (Forall_lookup_1 (approves s false)).
    + rewrite <-Hmap, list_lookup_fmap. by rewrite Hr'.
  - rewrite Hv. apply Forall_app in Hrs as [_ Hr]. inversion Hr; subst.
    destruct (guess_alone s r (s_world sys)) as [_ ->]; try done. apply lookup_insert_eq.
Qed.

Lemma denial_race (sys : Sys) s r1 r2 :
  store_ok (w_store (s_world sys)) → view (s_world sys) !! ID s = Some s →
  live s StateAwaitingApproval (w_clock (s_world sys)) → denies s r1 → approves s true r2 →
  ∃ sys', together sys [(ApproveForm, r1); (ApproveForm, r2)] sys' ∧
    (response sys' (length (s_threads sys)) ≫= rw_body)
      = Some (PageResult (mkResultPage "Denied" "Sign-in denied.")) ∧
    view (s_world sys') !! ID s = Some (set_State StateApproved s).
Proof.
  intros Hok Hs Hl [Hf1 Hd1] (Hf2 & Hd2 & Hc2).
  destruct (served_from_one_reading sys s [(ApproveForm, r1)] (ApproveForm, r2))
    as (sys' & Ht & Hall & Hv); [done..| | |].
  { intros Hst. destruct Hl as [Hst' _]. congruence. }
  { repeat constructor; by apply form_targets. }
  exists sys'. split; [exact Ht|]. split.
  - pose proof (Hall 0%nat _ eq_refl) as H0'. rewrite Nat.add_0_r in H0'. rewrite H0'.
    edestruct (form_alone s r1 None (set_State StateDenied s)
      (λ w', renderResult StatusOK "Denied" "Sign-in denied." w') (s_world sys)) as (w' & -> & _); [done|done|done| | |done].
    + apply approve_deny; [done|apply Hf1|]. by apply seqb_false.
    + intros w'. apply settles_silent; [apply silent_logTransition|apply settles_ret].
  - rewrite Hv. edestruct (form_alone s r2 None (set_State StateApproved s)
      (λ w', renderResult StatusOK "Approved" "Sign-in approved. Return to the client to continue." w')
      (s_world sys)) as (w' & _ & ->); [done|done|apply Hf2| | |apply lookup_insert_eq].
    + rewrite Hd2. apply approve_ok; try done. apply Hf2.
    + intros w'. apply settles_silent; [apply silent_logTransition|apply settles_ret].
Qed.

(** C39: what concurrent requests for one session may do to it, over any
    store that keeps its promises.  Whatever polls and approval forms arrive
    for a session, some interleaving answers every one of them as if it had
    come alone and keeps only what the last one wrote.  So any number of polls
    for an approved session are all handed its artifact; any number of wrong
    codes are all compared with the session's code while it counts one attempt
    and still awaits approval; and a browser that denied and was told so sees
    the denial overwritten by an approval that had read the session before. *)
Theorem concurrent_requests_race (sys : Sys) s :
  store_ok (w_store (s_world sys)) → view (s_world sys) !! ID s = Some s → identified s →
  let n := length (s_threads sys) in
  (∀ ers er, Forall (targets s) (ers ++ [er]) → ∃ sys', together sys (ers ++ [er]) sys' ∧
     (∀ j e, (ers ++ [er]) !! j = Some e → response sys' (n + j) = (alone (s_world sys) e).1) ∧
     view (s_world sys') = view (alone (s_world sys) er).2) ∧
  (∀ i rs, SState s = StateApproved → Consumed s = false → SIdentity s = Some i →
     Forall (collects s) rs → ∃ sys', together sys (map (pair PollEndpoint) rs) sys' ∧
     ∀ j, (j < length rs)%nat → ∃ rw, response sys' (n + j) = Some rw ∧
       artifact_in rw = Some (artifact_of i s (ArtifactTTL cfg))) ∧
  (live s StateAwaitingApproval (w_clock (s_world sys)) →
   (∀ rs, rs ≠ [] → 0 ≤ ApproveAttempts s < maxApproveAttempts - 1 → Forall (approves s false) rs →
      ∃ sys', together sys (map (pair ApproveForm) rs) sys' ∧
      (∀ j, (j < length rs)%nat → ∃ rw, response sys' (n + j) = Some rw ∧
         csrf_shown rw = Some (CSRFToken s)) ∧
      view (s_world sys') !! ID s = Some (set_ApproveAttempts (ApproveAttempts s + 1) s)) ∧
   (∀ r1 r2, denies s r1 → approves s true r2 →
      ∃ sys', together sys [(ApproveForm, r1); (ApproveForm, r2)] sys' ∧
      (response sys' n ≫= rw_body) = Some (PageResult (mkResultPage "Denied" "Sign-in denied.")) ∧
      view (s_world sys') !! ID s = Some (set_State StateApproved s))).
Proof.
  intros Hok Hs Hi n. split; [intros ers er Ht; by apply (served_from_one_reading sys s)|].
  split; [by intros; apply polls_race|]. intros Hl. split; intros.
  - by apply guesses_race.
  - by apply denial_race.
Qed.

End Races.

(** ** A store that refuses writes *)
Section Refused.
Context {St I : Type} `{StoreLaws St} `{RateLimiter} `{IdentityProviderLaws I}.
Context `{UnicodeCase} `{Location}.
Variable cfg : Config.
Notation W := (World St I).
Notation view w := (store_view (w_store w)).

(** [refuses]: the states of a store that still reads but answers every write
    with an error of its own, leaving everything as it is (a Redis whose memory
    is full, or a read-only replica). *)
Variable refuses : St → Prop.
Hypothesis refuses_ok : ∀ st, refuses st → store_ok st.
Hypothesis refuses_Create : ∀ now s st, refuses st →
  ∃ msg st', store_Create now s st = (Some (ErrStore msg), st') ∧ refuses st' ∧ store_view st' = store_view st.
Hypothesis refuses_Update : ∀ now s st, refuses st →
  ∃ msg st', store_Update now s st = (Some (ErrStore msg), st') ∧ refuses st' ∧ store_view st' = store_view st.
Hypothesis refuses_Get : ∀ now id st, refuses st →
  refuses (store_Get now id st).2 ∧ (store_Get now id st).1
    = match store_view st !! id with Some s => Ok s | None => Err ErrNotFound end.

Definition refusing (V : sessions_map) (w : W) : Prop := refuses (w_store w) ∧ view w = V.

Lemma refused_interp R (e : event R) V (w : W) : refusing V w → refusing V (interp e w).2.
Proof.
  intros [Hr Hv]. destruct e; cbn; try (by repeat case_match; split).
  - destruct (refuses_Create (w_clock w) s _ Hr) as (msg & st & -> & Hst & Hv'). split; cbn; congruence.
  - destruct (refuses_Get (w_clock w) id _ Hr) as [Hr' _].
    destruct (store_Get _ _ _) as [x st] eqn:E. cbn in Hr'. split; [done|]. cbn.
    apply Get_law in E as (_ & Hv' & _); [congruence|by apply refuses_ok].
  - destruct (refuses_Update (w_clock w) s _ Hr) as (msg & st & -> & Hst & Hv'). split; cbn; congruence.
Qed.

Lemma refused_run {A} (p : prog A) V : ∀ w : W, refusing V w → refusing V (run p w).2.
Proof.
  induction p as [a| |R e k IH]; intros w Hw; [done..|]. cbn.
  pose proof (refused_interp _ e V w Hw) as Hw'. destruct (interp e w) as [x w1]. by apply IH.
Qed.

Lemma refused_poll V (w : W) s i r : refusing V w → V !! ID s = Some s →
  SState s = StateApproved → Consumed s = false → SIdentity s = Some i → collects s r →
  ∃ rw, (run (serve cfg PollEndpoint r) w).1 = Some rw ∧
    artifact_in rw = Some (artifact_of i s (ArtifactTTL cfg)).
Proof.
  intros [Hr Hv] Hs Hst Hc Hi (req & Hd & Hid & Hne & Hver).
  unfold serve, Router, auth_middlewares, noStoreMiddleware, cspMiddleware, handlePoll.
  rewrite Hd, Hid. apply is_empty_false in Hne as ->. cbn [pbind trigger run interp].
  destruct (refuses_Get (w_clock w) (ID s) _ Hr) as [_ Hg]. rewrite Hv, Hs in Hg.
  destruct (store_Get _ _ _) as [x st] eqn:E. cbn in Hg. subst x. cbn [pbind trigger run interp].
  rewrite (poll_complete _ _ _ _ _ _ (poll_release s _ _ _ i Hst Hc Hver Hi)).
  rewrite Hc. cbn [released pbind trigger run andb].
  destruct (interp (StUpdate _) _) as [y w1].
  unfold poll_response. cbn [pbind trigger run logTransition pr_Status pr_Artifact interp fst].
  eexists. by split.
Qed.


End Refused.
