(* ===== verification/Scenario.v ===== *)
(** A concrete broker: the in-memory store, a token bucket and a small
    identity provider, serving one complete login over HTTP.  The witnesses of
    the system theorems are runs of it, and so are those of [Races], which
    shows what the handlers' separate [Get] and [Update] do not guarantee. *)

From S2P Require Import Prelude GoStrings GoTime GoJson GoCrypto GoFormat UserCode Pkce Session Fsm.
From S2P Require Import FsmSpec FsmTrace Store Wire Http ClientIP ClientAuth Detect RateLimit Prog.
From S2P Require Import Broker Handlers System Justify Safety Sequential Progress Races.

Local Open Scope list_scope.

#[export] Existing Instance Memory.Memory_Store.
#[export] Existing Instance Memory.Memory_Laws.
#[export] Existing Instance Memory.Memory_Reliable.

Definition alice : Identity := mkIdentity "sub-1" "alice@example.com" ∅.

(** Accepts the code "code-alice" with the state stored in the session. *)
#[export] Instance demo_idp : IdentityProvider unit := {
  BeginLogin := λ _ s t i,
    (Ok "https://idp.example/authorize?state=state-1",
     set_Protocol "oidc" (set_SAMLRequestID (SAMLRequestID s)
       (set_IdPOIDC "state-1" "nonce-1" "idp-verifier" s)), t, i);
  CompleteLogin := λ _ r s i,
    (if seqb (Query_Get r "state") (IdPState s) && seqb (Query_Get r "code") "code-alice"
     then Ok alice else Err "rejected", i);
}.

#[export] Instance demo_idp_laws : IdentityProviderLaws unit.
Proof. constructor. simpl. intros. by simplify_eq. Qed.

#[export] Instance demo_case : UnicodeCase := ascii_case.
#[export] Instance demo_zone : Location := UTC.
#[export] Instance demo_bucket : RateLimiter := token_bucket.

Definition demo_config : Config :=
  mkConfig "https://xdauth.example" 0 0 (0 : @Limit token_bucket) 0 0 None "" None [] [].

Definition tape : entropy := string_of_bytes (seqZ 1 250).
Definition t0 : Time := 1000000 * Second.

Definition broker : Config * World Memory.Memory unit :=
  New demo_config t0 tape Memory.NewMemory tt.
Definition cfg : Config := broker.1.
Definition world : World Memory.Memory unit := broker.2.

Notation runs acts := (exec cfg acts (init world)).

(** A JSON object of strings, as a client writes it. *)
Definition json_text (l : list (string * string)) : string :=
  print (JObj (map (λ kv, (quote kv.1, JStr (quote kv.2))) l)).

(** A request on a fresh connection from one address. *)
Definition request (cookies : list (string * string)) (body : string)
    (form query : list (string * string)) : Request :=
  mkRequest "10.0.0.9:4711" [] None cookies body (Some (form ++ query)) form query.

(** Run thread [i] to its end: no handler performs more than twenty events. *)
Definition finish (i : nat) : list action := replicate 20 (Step i).

(** The client's own entropy and PKCE verifier. *)
Definition client_entropy : entropy := string_of_bytes (seqZ 100 40).
Definition verifier : string :=
  match (newPKCEPair client_entropy).1 with Ok (v, _) => v | Err _ => "" end.

(** ** One login *)
Definition start_request : Request :=
  request [] (json_text [("login_hint", "Alice@Example.com");
    ("code_challenge", (s256 verifier)); ("code_challenge_method", "S256"); ("client_kind", "ssh");
    ("client_host", "host-42")]) [] [].

Definition acts_start : list action := Arrive Start start_request :: finish 0.

Definition started_as : option startResponse :=
  match response (runs acts_start) 0 ≫= rw_body with Some (JSONStart v) => Some v | _ => None end.
Definition sid : string := match started_as with Some v => sr_SessionID v | None => "" end.
Definition code : string := match started_as with Some v => sr_UserCode v | None => "" end.

Definition acts_verify : list action :=
  acts_start ++ Tick (2 * Second) :: Arrive (Verify sid) (request [] "" [] []) :: finish 1.

Definition callback_request : Request :=
  request [(sessionCookieName, sid)] "" [] [("state", "state-1"); ("code", "code-alice")].

Definition acts_login : list action :=
  acts_verify ++ Tick (8 * Second) :: Arrive Callback callback_request :: finish 2.

Definition login_response : ResponseWriter := default new_writer (response (runs acts_login) 2).
Definition secret : string := default "" (head (approval_cookies login_response)).
Definition csrf : string := default "" (csrf_shown login_response).

Definition approve_request (user_code decision : string) : Request :=
  request [(sessionCookieName, sid); (approvalCookieName, secret)] ""
    [("user_code", user_code); ("csrf_token", csrf); ("decision", decision)] [].

Definition acts_approve : list action :=
  acts_login ++ Tick (10 * Second) :: Arrive ApproveForm (approve_request code "approve") :: finish 3.

Definition poll_request : Request :=
  request [] (json_text [("session_id", sid); ("code_verifier", verifier)]) [] [].

Definition acts_poll : list action :=
  acts_approve ++ Tick (1 * Second) :: Arrive PollEndpoint poll_request :: finish 4.

Definition alice_artifact : Artifact :=
  mkArtifact "sub-1" "alice@example.com" ∅ (t0 + 10 * Second) (t0 + 130 * Second).

Definition final_response : ResponseWriter := default new_writer (response (runs acts_poll) 4).

Lemma login_completes :
  response (runs acts_poll) 4 = Some final_response ∧ artifact_in final_response = Some alice_artifact.
Proof. vm_compute. by split. Qed.

Lemma fresh : store_ok (w_store world) ∧ store_view (w_store world) = ∅.
Proof. split; [exact Memory.NewMemory_ok|reflexivity]. Qed.

(** ** Witnesses of the system theorems *)
Lemma artifact_needs_all_checks_witness :
  ∃ s ident sec, started cfg (hist (runs acts_poll)) s
    ∧ logged_in cfg (hist (runs acts_poll)) s ident sec
    ∧ approved_by (hist (runs acts_poll)) s
    ∧ alice_artifact = artifact_of ident s (ArtifactTTL cfg).
Proof.
  destruct (artifact_needs_all_checks cfg world fresh acts_poll 4 final_response alice_artifact
    (proj1 login_completes) (proj2 login_completes))
    as (r & req & s & ident & sec & _ & _ & _ & _ & _ & Hs & Hl & Ha & He).
  exists s, ident, sec. split; [exact Hs|]. split; [exact Hl|]. split; [exact Ha|exact He].
Defined.

Lemma handlers_never_panic_witness : s_threads (runs acts_poll) !! 4%nat ≠ Some Panic.
Proof. exact (handlers_never_panic cfg world fresh acts_poll 4). Defined.

Lemma login_shows_csrf : response (runs acts_login) 2 = Some login_response ∧
  csrf_shown login_response = Some csrf ∧ secret ∈ approval_cookies login_response.
Proof.
  split; [vm_compute; reflexivity|]. split; [vm_compute; reflexivity|].
  vm_compute. left.
Qed.

Lemma responses_are_safe_witness :
  ∃ e r, serves (hist (runs acts_login)) 2 e r ∧
    may_see_csrf cfg (hist (runs acts_login)) 2 e r csrf ∧
    minted_by (hist (runs acts_login)) 2 e r secret ∧
    Forall safe_cookie (rw_cookies login_response).
Proof.
  destruct (responses_are_safe cfg world fresh acts_login 2 login_response
    (proj1 login_shows_csrf)) as (e & r & Hs & Hcsrf & Hmint & _ & Hck).
  exists e, r. split; [exact Hs|]. split; [|split; [|exact Hck]].
  - exact (Hcsrf csrf (proj1 (proj2 login_shows_csrf))).
  - exact (Hmint secret (proj2 (proj2 login_shows_csrf))).
Defined.

(** ** Two clients at once

    Two logins are started together, their turns alternating. *)
Definition acts_alternating : list action := flat_map (λ _, [Step 0; Step 1]) (seq 0 14).

Lemma requests_are_answered_witness :
  is_Some (response (runs ([Arrive Start start_request] ++ Arrive Start start_request :: acts_alternating)) 1).
Proof.
  destruct (requests_are_answered cfg world fresh [Arrive Start start_request] Start start_request
    acts_alternating) as (_ & _ & Hans).
  apply Hans. vm_compute. lia.
Defined.

(** ** Interleavings of [Get] and [Update] *)

(** What the store holds for the session. *)
Definition stored (sys : Sys (St := Memory.Memory) (I := unit)) : option Session :=
  Memory.view (w_store (s_world sys)) !! sid.

Definition session_in (sys : Sys (St := Memory.Memory) (I := unit)) : Session :=
  default Demo.default_session (stored sys).

(** Submitting the form of an already approved session, whatever its
    code, is observed as a wrong code (so three reloads raise an alarm) and
    answered with the approval page. *)
Theorem resubmitted_approval_counts_as_wrong_code (c : Config) s code dec now b w r :
  SState s = StateApproved →
  approve s code dec now b = (Some ErrWrongState, s) ∧
  approve_response c (Some ErrWrongState) s now w r =
    pbind (Observe c EventWrongCode (resolveClientIP r (TrustedProxies c)) (ID s) now)
      (λ _, Ret (renderApprove s (BaseURL c) w)).
Proof.
  intros Hs. split.
  - apply approve_complete, approve_wrong_state; rewrite ?Hs; try done.
    split; [done|]. by intros [|].
  - unfold approve_response. rewrite Hs. reflexivity.
Qed.

Definition acts_resubmit : list action :=
  acts_approve ++ flat_map (λ i, Arrive ApproveForm (approve_request code "approve") :: finish i)
    (seq 4 3).

Definition approved_session : Session := session_in (runs acts_approve).

Lemma resubmitted_approval_counts_as_wrong_code_witness :
  approve approved_session code true (t0 + 20 * Second) secret
    = (Some ErrWrongState, approved_session) ∧
    length (filter (λ l, l_event l = EventSuspectedAbuse)
      (w_log (s_world (runs acts_resubmit)))) = 1%nat.
Proof.
  assert (Hs : SState approved_session = StateApproved) by (vm_compute; reflexivity).
  split.
  - exact (proj1 (resubmitted_approval_counts_as_wrong_code cfg approved_session code true
      (t0 + 20 * Second) secret new_writer start_request Hs)).
  - vm_compute. reflexivity.
Defined.

(** ** Witnesses of the sequential theorems *)
Definition world_approved : World Memory.Memory unit := s_world (runs acts_approve).

Lemma world_ok : ∀ acts, store_ok (w_store (s_world (runs acts))).
Proof.
  intros acts. exact (inv_store _ _ _ (exec_inv cfg (just cfg) (just_stable cfg) (claim cfg)
    (claim_stable cfg) (serve_thread cfg) acts _
    (init_inv (just cfg) (claim cfg) world (proj1 fresh) (proj2 fresh)))).
Qed.

Lemma serve_refines_fsm_witness :
  ∃ l, performs cfg PollEndpoint poll_request l ∧
    label_artifacts l (store_view (w_store world_approved)) = [alice_artifact].
Proof.
  pose proof (serve_refines_fsm cfg PollEndpoint poll_request world_approved
    (world_ok acts_approve)) as Hr.
  assert (Ha : option_list ((run (serve cfg PollEndpoint poll_request) world_approved).1
    ≫= artifact_in) = [alice_artifact]) by (vm_compute; reflexivity).
  destruct (run (serve cfg PollEndpoint poll_request) world_approved) as [res w'].
  destruct Hr as (_ & l & Hp & _ & Hl). exists l. split; [exact Hp|].
  rewrite <-Hl. exact Ha.
Defined.

Definition turns : list turn :=
  [Serve Start start_request; Wait (2 * Second); Serve (Verify sid) (request [] "" [] []);
   Wait (8 * Second); Serve Callback callback_request; Wait (10 * Second);
   Serve ApproveForm (approve_request code "approve"); Sweep;
   Serve PollEndpoint poll_request; Serve PollEndpoint poll_request].

Lemma sequential_single_use_witness :
  (total (handed_out sid) (serve_all cfg turns world).1
     ≤ total (created sid) (serve_all cfg turns world).1)%nat ∧
  total (handed_out sid) (serve_all cfg turns world).1 = 1%nat ∧
  total (created sid) (serve_all cfg turns world).1 = 1%nat.
Proof.
  split; [exact (sequential_single_use cfg turns world sid (proj1 fresh) eq_refl)|].
  vm_compute. split; reflexivity.
Defined.

Lemma poll_does_not_distinguish_witness :
  (run (handlePoll cfg new_writer poll_request) world).1
  = Some (writeJSON StatusOK (JSONPoll (mkPollResponse "expired" None "")) new_writer).
Proof.
  refine (poll_does_not_distinguish cfg poll_request (mkPollRequest sid verifier) world
    (proj1 fresh) _ _ _ new_writer).
  - vm_compute. reflexivity.
  - vm_compute. discriminate.
  - intros s Hs. vm_compute in Hs. discriminate.
Defined.

Definition waiting_session : Session := session_in (runs acts_login).

Definition guesses : list Request :=
  map (λ c, approve_request c "approve")
    ["AAAA-AAAA"; "BBBB-BBBB"; "CCCC-CCCC"; "DDDD-DDDD"; "FFFF-FFFF"; "GGGG-GGGG"; "HHHH-HHHH"; "JJJJ-JJJJ"].

(** The premises on forms, as tests. *)
Definition form_test (s : Session) (r : Request) : bool :=
  bool_decide (readSessionCookie r = Some (ID s)) && bool_decide (is_Some (Form r)) &&
  constantTimeStringEqual (FormValue r "csrf_token") (CSRFToken s) &&
  negb (is_empty (ApprovalBindingHash s)) &&
  bool_decide (hashBinding (default "" (readApprovalCookie r)) = ApprovalBindingHash s).

Definition approves_test (s : Session) (good : bool) (r : Request) : bool :=
  form_test s r && bool_decide (FormValue r "decision" = "approve") &&
  Bool.eqb (codesEqual (FormValue r "user_code") (UserCode s)) good.

Lemma form_tested s r : form_test s r = true → form_of s r.
Proof.
  unfold form_test. rewrite !andb_true_iff, !bool_decide_eq_true, negb_true_iff, is_empty_false.
  by intros ((((? & ?) & ?) & ?) & ?).
Qed.

Lemma approves_tested s good r : approves_test s good r = true → approves s good r.
Proof.
  unfold approves_test. rewrite !andb_true_iff, bool_decide_eq_true.
  intros [[Hf Hd] Hc%Bool.eqb_prop]. by split; [apply form_tested|].
Qed.

Lemma all_approve s good rs : forallb (approves_test s good) rs = true → Forall (approves s good) rs.
Proof.
  intros Hall%Is_true_eq_left%forallb_True. eapply list.Forall_impl; [exact Hall|].
  intros r Hr. by apply approves_tested, Is_true_eq_true.
Qed.

(** Two polls of the approved session; eight codes tried on the session that
    awaits approval; its denial and its approval. *)
Lemma concurrent_requests_race_witness :
  (∃ sys', together cfg (runs acts_approve) [(PollEndpoint, poll_request); (PollEndpoint, poll_request)] sys' ∧
     (response sys' 4 ≫= artifact_in) = Some alice_artifact ∧
     (response sys' 5 ≫= artifact_in) = Some alice_artifact) ∧
  (∃ sys', together cfg (runs acts_login) (map (pair ApproveForm) guesses) sys' ∧
     (ApproveAttempts <$> stored sys') = Some 1 ∧ (SState <$> stored sys') = Some StateAwaitingApproval) ∧
  (∃ sys', together cfg (runs acts_login)
       [(ApproveForm, approve_request "" "deny"); (ApproveForm, approve_request code "approve")] sys' ∧
     (response sys' 3 ≫= rw_body) = Some (PageResult (mkResultPage "Denied" "Sign-in denied.")) ∧
     (SState <$> stored sys') = Some StateApproved).
Proof.
  assert (Ha : store_view (w_store (s_world (runs acts_approve))) !! ID approved_session
    = Some approved_session) by (vm_compute; reflexivity).
  assert (Hw : store_view (w_store (s_world (runs acts_login))) !! ID waiting_session
    = Some waiting_session) by (vm_compute; reflexivity).
  destruct (concurrent_requests_race cfg (runs acts_approve) approved_session (world_ok acts_approve) Ha)
    as (_ & Hpolls & _); [intros _; vm_compute; discriminate|].
  destruct (concurrent_requests_race cfg (runs acts_login) waiting_session (world_ok acts_login) Hw)
    as (_ & _ & Hforms); [vm_compute; discriminate|].
  destruct Hforms as [Hguesses Hdenial]; [vm_compute; split; [reflexivity|discriminate]|].
  assert (Hid : sid = ID waiting_session) by (vm_compute; reflexivity).
  split; [|split].
  - destruct (Hpolls alice [poll_request; poll_request]) as (sys' & Ht & Hall); [vm_compute; reflexivity..| |].
    { repeat constructor; exists (mkPollRequest sid verifier);
        (split; [vm_compute; reflexivity|]; split; [vm_compute; reflexivity|]; split;
         [vm_compute; discriminate|vm_compute; reflexivity]). }
    exists sys'. split; [exact Ht|].
    assert (Hn : length (s_threads (runs acts_approve)) = 4%nat) by (vm_compute; reflexivity).
    assert (He : artifact_of alice approved_session (ArtifactTTL cfg) = alice_artifact)
      by (vm_compute; reflexivity).
    rewrite Hn, He in Hall. split.
    + destruct (Hall 0%nat) as (rw & Hrw & Hrel); [cbn; lia|]. cbn [Nat.add] in Hrw. rewrite Hrw. exact Hrel.
    + destruct (Hall 1%nat) as (rw & Hrw & Hrel); [cbn; lia|]. cbn [Nat.add] in Hrw. rewrite Hrw. exact Hrel.
  - destruct (Hguesses guesses) as (sys' & Ht & _ & Hv); [discriminate|vm_compute; split; [discriminate|reflexivity]| |].
    { apply all_approve. vm_compute. reflexivity. }
    exists sys'. split; [exact Ht|]. unfold stored. rewrite Hid.
    change (Memory.view (w_store (s_world sys'))) with (store_view (w_store (s_world sys'))). rewrite Hv.
    vm_compute. split; reflexivity.
  - destruct (Hdenial (approve_request "" "deny") (approve_request code "approve")) as (sys' & Ht & Hr & Hv).
    { split; [apply form_tested; vm_compute; reflexivity|vm_compute; discriminate]. }
    { apply approves_tested. vm_compute. reflexivity. }
    exists sys'. split; [exact Ht|].
    assert (Hn : length (s_threads (runs acts_login)) = 3%nat) by (vm_compute; reflexivity).
    rewrite Hn in Hr. split; [exact Hr|]. unfold stored. rewrite Hid.
    change (Memory.view (w_store (s_world sys'))) with (store_view (w_store (s_world sys'))). rewrite Hv.
    vm_compute. reflexivity.
Defined.

(** ** A store whose writes fail *)
Module ReadOnly.

(** [Memory] that answers every write with an error, like a Redis that has
    become a read-only replica. *)
Record ReadOnly := mkReadOnly { contents : Memory.Memory }.

Definition refused (st : ReadOnly) : option store_error * ReadOnly :=
  (Some (ErrStore "store/redis: READONLY"), st).

Definition read (now : Time) (id : string) (st : ReadOnly) : result Session store_error * ReadOnly :=
  let (r, m) := store_Get now id (contents st) in (r, mkReadOnly m).

#[export] Instance ReadOnly_Store : Store ReadOnly := {
  store_Create _ _ := refused;
  store_Get := read;
  store_Update _ _ := refused;
  store_evict now st := mkReadOnly (store_evict now (contents st));
}.

#[export] Program Instance ReadOnly_Laws : StoreLaws ReadOnly := {
  store_view st := store_view (contents st);
  store_ok st := store_ok (contents st);
}.
Next Obligation. intros st id s Hok Hs. by eapply (store_key (contents st)). Qed.
Next Obligation. intros now s st e st' Hok [= <- <-]. split; [done|by left]. Qed.
Next Obligation.
  intros now id [m] r st' Hok. unfold store_Get, ReadOnly_Store, read. cbn [contents].
  destruct (store_Get now id m) as [r1 m1] eqn:E. intros [= <- <-].
  exact (Get_law now _ _ _ _ Hok E).
Qed.
Next Obligation. intros now s st e st' Hok [= <- <-]. split; [done|by left]. Qed.
Next Obligation. intros now st Hok. exact (evict_law now (contents st) Hok). Qed.

Definition refuses (st : ReadOnly) : Prop := store_ok (contents st).

Lemma refuses_write (now : Time) (s : Session) st : refuses st →
  ∃ msg st', refused st = (Some (ErrStore msg), st') ∧ refuses st' ∧ store_view st' = store_view st.
Proof. intros Hr. by exists "store/redis: READONLY", st. Qed.

Lemma refuses_read now id st : refuses st →
  refuses (store_Get now id st).2 ∧ (store_Get now id st).1
    = match store_view st !! id with Some s => Ok s | None => Err ErrNotFound end.
Proof.
  destruct st as [m]. unfold refuses, store_Get, ReadOnly_Store, read. cbn [contents]. intros Hok.
  pose proof (Get_reliable now id m Hok) as Hr. destruct (store_Get now id m) as [r m'] eqn:E.
  apply Get_law in E as [Hok' _]; [|done]. by split.
Qed.

(** The broker of the scenario over such a store. *)
Definition over (w : World Memory.Memory unit) : World ReadOnly unit :=
  mkWorld (w_clock w) (w_entropy w) (mkReadOnly (w_store w)) (w_ipLimiter w) (w_hintLimiter w)
    (w_detector w) (w_idp w) (w_log w) (w_webhook w).

End ReadOnly.

Import ReadOnly.

(** Polls of the approved session, with other requests and waits between them. *)
Definition polling_turns : list turn :=
  [Serve PollEndpoint poll_request; Serve PollEndpoint poll_request; Wait (60 * Second);
   Serve Start start_request; Serve PollEndpoint poll_request].

Lemma no_Sweep ts : forallb (λ t, match t with Sweep => false | _ => true end) ts = true → Sweep ∉ ts.
Proof. intros Hall%Is_true_eq_left%forallb_True Hin. rewrite list.Forall_forall in Hall. exact (Hall _ Hin). Qed.

