(* ===== verification/Faithful.v ===== *)
(** Sessions that survive a shared store.  [faithful s] says that the JSON
    text of [s] reads back as [s] itself; the operations of [Fsm] keep it, and
    so does every handler, if what enters the broker from outside is text. *)

From S2P Require Import Prelude GoStrings GoUtf8 GoTime GoJson GoFormat Rfc3339 GoMarshal GoCrypto.
From S2P Require Import UserCode Pkce Session SessionJson Fsm Wire.

Local Open Scope list_scope.

(** ** What is read from JSON is text *)
Lemma encode_rune_valid r rest : ValidString (encode_rune r +:+ rest) = ValidString rest.
Proof.
  assert (Hv : ∀ r, is_rune r → ValidString (encode_rune r +:+ rest) = ValidString rest).
  { intros q Hq. unfold ValidString. rewrite chunks_encode by exact Hq. cbn [forallb].
    by rewrite (valid_encode q Hq). }
  destruct ((r <? 0) || (1114111 <? r) || ((55296 <=? r) && (r <=? 57343))) eqn:E.
  - assert (encode_rune r = encode_rune RuneError) as ->; [|by apply Hv; split; unfold RuneError; lia].
    unfold encode_rune. by rewrite E.
  - apply Hv. unfold is_rune. lia.
Qed.

Lemma emit_valid r o s : (∀ t, o = Some t → ValidString t = true) →
  emit r o = Some s → ValidString s = true.
Proof. intros Ho (t & -> & ->)%fmap_Some. rewrite encode_rune_valid. by apply Ho. Qed.

Lemma unq_valid rs : ∀ s, unq rs = Some s → ValidString s = true.
Proof.
  induction rs as [rs IH] using (induction_ltof1 _ (@length Z)). intros s.
  assert (He : ∀ r rs' s, (length rs' < length rs)%nat → emit r (unq rs') = Some s →
    ValidString s = true).
  { intros r rs' t Hl. apply emit_valid. by apply IH. }
  destruct rs as [|r rs1]; [by intros [= <-]|]. cbn [unq].
  destruct (r =? 92).
  - destruct rs1 as [|e rs2]; [done|]. destruct (e =? 117).
    + destruct rs2 as [|a [|b [|c [|d rs3]]]]; try done. destruct (hex4 a b c d) as [rr|]; [|done].
      destruct (negb _); [apply He; simpl; lia|]. cbv zeta.
      destruct (_ =? RuneError); [apply He; simpl; lia|].
      do 6 (destruct rs3 as [|? rs3]; [done|]). apply He. simpl. lia.
    + destruct (escape_rune e); [|done]. apply He. simpl. lia.
  - destruct (_ || _); [done|]. apply He. simpl. lia.
Qed.

Lemma unquote_valid raw s : unquote raw = Some s → ValidString s = true.
Proof. apply unq_valid. Qed.

Lemma string_unmarshal_valid j old s : ValidString old = true →
  unmarshal (GoJson := string_json) j old = Some s → ValidString s = true.
Proof.
  intros Ho. destruct j; cbn; try done; [by intros [= <-]|]. apply unquote_valid.
Qed.

(** A property of a struct that holds of the old value and survives reading
    each of its fields. *)
Lemma unmarshal_struct_inv {S} (fs : list (field S)) (P : S → Prop) j s s' :
  (∀ f j' a v, f ∈ fs → P a → unmarshal j' (f_get f a) = Some v → P (f_set f v a)) →
  P s → unmarshal_struct fs j s = Some s' → P s'.
Proof.
  intros Hf. assert (Hfind : ∀ key (fs' : list (field S)) f, find_field key fs' = Some f → f ∈ fs').
  { intros key fs'. induction fs' as [|g fs' IH]; intros f; cbn [find_field]; [done|].
    case_match; [intros [= <-]; by left|]. intros Hg. right. by apply IH. }
  intros Hs. destruct j; cbn [unmarshal_struct]; try done; [by intros [= <-]|].
  revert s Hs. induction l as [|kv l IH]; intros s Hs; cbn [unmarshal_members]; [by intros [= <-]|].
  intros (s1 & H1 & H2)%bind_Some. apply (IH s1); [|done].
  unfold unmarshal_member in H1. destruct (unquote kv.1) as [key|]; [|done].
  destruct (find_field key fs) as [f|] eqn:Ef; [|by injection H1 as <-].
  apply fmap_Some in H1 as (v & Hv & ->). eapply Hf; [by eapply Hfind|done|exact Hv].
Qed.

(** The texts of a start request. *)
Definition valid_start (q : startRequest) : Prop :=
  Forall (λ t, ValidString t = true) [sq_LoginHint q; sq_CodeChallenge q; sq_CodeChallengeMethod q;
    sq_ClientKind q; sq_ClientHost q].

Lemma read_startRequest_valid body q : read_startRequest body = Some q → valid_start q.
Proof.
  intros ([j rest] & _ & Hj)%bind_Some. cbn in Hj.
  refine (unmarshal_struct_inv startRequest_fields valid_start j zero_startRequest q _ _ Hj);
    [|by repeat constructor].
  intros f j' a v Hf Ha Hv. unfold valid_start in *. rewrite !list.Forall_cons in Ha.
  destruct Ha as (? & ? & ? & ? & ? & _). rewrite !list.Forall_cons.
  repeat (apply elem_of_cons in Hf as [->|Hf];
    [cbn in *; apply string_unmarshal_valid in Hv; [by split_and!|done]|]).
  by apply elem_of_nil in Hf.
Qed.

(** ** Faithful sessions *)
Definition texts (s : Session) : list string :=
  [ID s; LoginHint s; CodeChallenge s; ClientKind s; ClientHost s; ClientIP s; VerifiedClient s;
   UserCode s; Protocol s; IdPState s; IdPNonce s; IdPPKCEVerifier s; SAMLRequestID s;
   CSRFToken s; ApprovalBindingHash s].

Definition valid_texts (l : list string) : Prop := Forall (λ t, ValidString t = true) l.

Record faithful_identity (i : Identity) : Prop := {
  fi_texts : valid_texts [Subject i; Value i];
  fi_claims : exact_claims (Claims i);
  fi_numbers : claims_printable (Claims i);
  fi_nesting : Z.of_nat (@nesting _ _ claims_laws (Claims i)) + 2 ≤ maxNestingDepth;
}.

(** The times of a session: zero, readings of the clock, and a reading plus
    the lifetime of a session. *)
Definition times (s : Session) : list Time := [CreatedAt s; ExpiresAt s; IdentityAt s; LastPollAt s].

Section faithful.
Context `{loc : Location}.

Definition printable_times (l : list Time) : Prop := Forall time_printable l.

(** An instant whose time has an exact text, now and at the end of a session
    started then: the zone's offset is whole minutes. *)
Definition current (ttl : Duration) (t : Time) : Prop :=
  time_printable t ∧ time_printable (Add t ttl).

Record faithful (s : Session) : Prop := {
  ft_texts : valid_texts (texts s);
  ft_times : printable_times (times s);
  ft_Interval : is_int64 (Interval s);
  ft_Attempts : is_int64 (ApproveAttempts s);
  ft_identity : ∀ i, SIdentity s = Some i → faithful_identity i;
}.

Lemma faithful_printable s : faithful s → session_printable s.
Proof.
  intros [Ht Htm Hi Ha Hid]. unfold printable_times, times in Htm. rewrite !list.Forall_cons in Htm.
  destruct Htm as (? & ? & ? & ? & _). constructor; try done.
  - intros i Hs. apply (Hid i Hs).
  - assert (Hn : @nesting _ _ session_laws s = S (max 0 (match SIdentity s with
      | Some i => S (max 0 (max 0 (max (@nesting _ _ claims_laws (Claims i)) 0))) | None => 0 end)))
      by (destruct s as [? ? ? ? ? ? ? ? ? ? ? ? ? ? ? ? [i|]]; cbn; lia).
    rewrite Hn. destruct (SIdentity s) as [i|]; [|by vm_compute].
    pose proof (fi_nesting i (Hid i eq_refl)). lia.
Qed.

Lemma faithful_exact s : faithful s → exact_session s.
Proof.
  intros [Ht _ _ _ Hid]. split; [exact Ht|]. intros i Hs. destruct (Hid i Hs) as [Hi Hc _ _].
  unfold valid_texts in Hi. rewrite !list.Forall_cons in Hi. by destruct Hi as (? & ? & _).
Qed.

(** What was written is what is read. *)
Lemma faithful_decode s raw : faithful s → encode_session s = Some raw → decode_session raw = Some s.
Proof.
  intros Hf He. rewrite (session_json_decode s raw (faithful_printable s Hf) He).
  by rewrite (norm_session_exact s (faithful_exact s Hf)).
Qed.

(** *** Operations *)
Lemma printable_0 : time_printable 0.
Proof. by left. Qed.

Ltac split_texts H := unfold valid_texts in H; rewrite !list.Forall_cons in H.
Ltac split_times H := unfold printable_times, times in H; rewrite !list.Forall_cons in H.
Ltac times_hold := unfold printable_times, times in *; cbn in *; rewrite !list.Forall_cons in *;
  destruct_and?; split_and!; first [done | by apply printable_0].

Lemma faithful_expire s now b s' : faithful s → expireIfNeeded s now = (b, s') → faithful s'.
Proof.
  intros Hf. unfold expireIfNeeded. destruct Hf. repeat case_match; intros [= _ <-]; by constructor.
Qed.

Lemma rand_hex_valid n w t x t' : rand_hex n w t = (Ok x, t') → ValidString x = true.
Proof.
  unfold rand_hex. destruct (rand_Read n t) as [[b|] t1]; [|done]. intros [= <- _].
  apply ascii_valid, hex_ascii.
Qed.

Lemma hashBinding_valid x : ValidString (hashBinding x) = true.
Proof. apply ascii_valid, hex_ascii. Qed.

Lemma faithful_new p ttl interval now t s t' :
  valid_texts [p_LoginHint p; p_CodeChallenge p; p_ClientKind p; p_ClientHost p; p_ClientIP p;
    p_VerifiedClient p] → is_int64 interval → current ttl now →
  newSession p ttl interval now t = (Ok s, t') → faithful s.
Proof.
  intros Hp Hi [Hn He]. unfold newSession. destruct (newSessionID t) as [[id|] t1] eqn:Eid; [|done].
  destruct (GenerateUserCode t1) as [[code|] t2] eqn:Ec; [|done]. intros [= <- _].
  apply rand_hex_valid in Eid. apply GenerateUserCode_wf, well_formed_ascii, ascii_valid in Ec.
  split_texts Hp. destruct_and?. constructor; cbn; [| |done|done|done].
  - unfold valid_texts, texts; cbn. rewrite !list.Forall_cons. by split_and!.
  - times_hold.
Qed.

Lemma faithful_idp s s' : same_but_idp s s' →
  valid_texts [Protocol s'; IdPState s'; IdPNonce s'; IdPPKCEVerifier s'; SAMLRequestID s'] →
  faithful s → faithful s'.
Proof.
  intros -> Hv [Ht Htm Hi Ha Hid]. constructor; try done. revert Ht Hv. unfold valid_texts, texts.
  cbn. rewrite !list.Forall_cons. intros ? ?. destruct_and?. by split_and!.
Qed.

Lemma faithful_bind `{UnicodeCase} s i n now secret t e s' t' :
  faithful s → faithful_identity i → time_printable now →
  bindIdentity s i n now (hashBinding secret) t = (e, s', t') → faithful s'.
Proof.
  intros Hf Hi Hnow. unfold bindIdentity. destruct (expireIfNeeded s now) as [b s1] eqn:He.
  pose proof (faithful_expire _ _ _ _ Hf He) as [Ht Htm Hin Ha Hid].
  pose proof (hashBinding_valid secret) as Hh.
  destruct b; [by intros [= _ <- _]|]. destruct (negb _); [by intros [= _ <- _]|].
  assert (Hset : faithful (set_Identity i now s1)).
  { constructor; try done; [times_hold|]. by intros j [= <-]. }
  destruct (negb _).
  { intros [= _ <- _]. by destruct Hset. }
  destruct (newCSRFToken t) as [[tok|] t1] eqn:Ec; [|by intros [= _ <- _]].
  apply rand_hex_valid in Ec. destruct Hset. intros [= _ <- _]. constructor; try done.
  revert Ht. unfold valid_texts, texts. cbn. rewrite !list.Forall_cons. intros. destruct_and?. by split_and!.
Qed.

Lemma faithful_approve `{UnicodeCase} s code d now b e s' :
  faithful s → approve s code d now b = (e, s') → faithful s'.
Proof.
  intros Hf. unfold approve. destruct (expireIfNeeded s now) as [x s1] eqn:He.
  pose proof (faithful_expire _ _ _ _ Hf He) as [Ht Htm Hin Ha Hid].
  repeat case_match; intros [= _ <-]; constructor; try done; apply wrap64_range.
Qed.

Lemma faithful_poll s v now ttl o s' : faithful s → time_printable now →
  poll s v now ttl = (o, s') → faithful s'.
Proof.
  intros Hf Hnow. unfold poll. destruct (expireIfNeeded s now) as [x s1] eqn:He.
  pose proof (faithful_expire _ _ _ _ Hf He) as [Ht Htm Hin Ha Hid].
  assert (Hlast : printable_times (times (set_LastPollAt now s1))) by times_hold.
  repeat case_match; intros [= _ <-]; by constructor.
Qed.

End faithful.
