(* ===== verification/Shared.v ===== *)
(** What the handlers write to a shared store.  Every session a handler
    passes to [Create] or [Update] is faithful, as long as the sessions and
    identities it is given are, and the requests come from addresses that are
    text. *)

From S2P Require Import Prelude GoStrings GoUtf8 GoTime GoFormat GoMarshal GoCrypto Session.
From S2P Require Import SessionJson Fsm Wire Store Http ClientIP ClientAuth Detect RateLimit Prog.
From S2P Require Import Broker Handlers Faithful.

Local Open Scope list_scope.

(** What is asked of an identity provider: the correlation fields it assigns
    are text, and the identities it asserts have a faithful JSON text. *)
Class FaithfulIdP (I : Type) `{IdentityProvider I} `{Location} := {
  BeginLogin_texts : ∀ now s t i r s' t' i', faithful s →
    BeginLogin now s t i = (r, s', t', i') →
    valid_texts [Protocol s'; IdPState s'; IdPNonce s'; IdPPKCEVerifier s'; SAMLRequestID s'];
  CompleteLogin_faithful : ∀ now r s i ident i',
    CompleteLogin now r s i = (Ok ident, i') → faithful_identity ident;
}.

(** The obligation of an event, and what its answer brings: clock readings
    have an exact text, as do the ends of sessions started then. *)
Definition writes_faithful `{Location} (R : Type) (e : event R) : Prop :=
  match e with
  | StCreate s | StUpdate s | IdPBegin s => faithful s
  | _ => True
  end.

Definition reads_faithful `{Location} (ttl : Duration) (R : Type) (e : event R) (x : R) : Prop :=
  match e in event R return R → Prop with
  | Now => current ttl
  | StGet id => λ r, ∀ s, r = Ok s → faithful s
  | Draw f => λ a, ∃ t, (f t).1 = a
  | IdPBegin s => λ rs, faithful rs.2
  | IdPComplete r s => λ res, ∀ ident, res = Ok ident → faithful_identity ident
  | _ => λ _, True
  end x.

Section Shared.
Context `{UnicodeCase} `{Location} `{RateLimiter}.
Variable cfg : Config.
Hypothesis poll_interval : is_int64 (PollInterval cfg).
Hypothesis client_names : ∀ r vc, authenticate_client cfg r = Ok vc → ValidString vc = true.

Notation obeys := (obeys writes_faithful (reads_faithful (SessionTTL cfg))).

(** A request for a session comes from an address that is text. *)
Definition text_address (e : endpoint) (r : Request) : Prop :=
  e = Start → ValidString (resolveClientIP r (TrustedProxies cfg)) = true.

Lemma obeys_vis {A R} (e : event R) (k : R → prog A) :
  writes_faithful R e → (∀ x, reads_faithful (SessionTTL cfg) R e x → obeys (k x)) → obeys (Vis e k).
Proof. by split. Qed.

Lemma obeys_log sid ev attrs : obeys (logTransition sid ev attrs).
Proof. by split. Qed.

Lemma obeys_event evt : obeys (onSecurityEvent cfg evt).
Proof.
  apply obeys_bind; [apply obeys_log|]. intros _. by destruct (_ && _); split.
Qed.

Lemma obeys_Observe kind key sid now : obeys (Observe cfg kind key sid now).
Proof.
  apply obeys_bind; [apply obeys_event|]. intros _. cbn zeta. case_match; [done|].
  apply obeys_vis; [done|]. intros [|] _; [apply obeys_event|done].
Qed.

(** Perform the next event, or a part that only logs or counts. *)
Tactic Notation "event" simple_intropattern(x) "as" simple_intropattern(Hx) :=
  cbn [pbind trigger]; apply obeys_vis;
  [try done|let Hq := fresh "Hq" in intros x Hq; simpl in Hq; revert Hq; intros Hx].
Tactic Notation "event" simple_intropattern(x) := event x as _.
Ltac logs := cbn [pbind trigger]; apply obeys_bind; [apply obeys_log || apply obeys_Observe|intros _].
Ltac leaf := repeat logs; done.

Lemma shared_handleStart w r : text_address Start r → obeys (handleStart cfg w r).
Proof.
  intros Ha. unfold handleStart. destruct (authenticate_client cfg r) as [vc|] eqn:Hau; [|leaf].
  destruct (decode_startRequest r) as [req|] eqn:Hd; [|leaf].
  destruct (is_empty (sq_LoginHint req) || _); [leaf|].
  destruct (negb (is_empty _) && _); [leaf|]. event now0. logs.
  destruct (isAllowedClient _ _); cbn [negb]; [|leaf].
  unfold rate_limited. event a. destruct a; cbn [negb pbind]; [|leaf].
  event b. destruct b; cbn [negb pbind]; [|leaf].
  unfold create_session. event now as Hnow. event created as [t Ht].
  destruct created as [sess|]; [|leaf].
  destruct (newSession _ _ _ _ _) as [? t'] eqn:Hn in Ht. simpl in Ht. subst.
  event err; [|by destruct err; leaf].
  refine (faithful_new _ _ _ _ _ _ _ _ poll_interval Hnow Hn).
  apply read_startRequest_valid in Hd. unfold valid_start in Hd. rewrite !list.Forall_cons in Hd.
  destruct Hd as (? & ? & ? & ? & ? & _). repeat constructor; try done; [by apply Ha|by eapply client_names].
Qed.

Lemma shared_handleVerify id w r : obeys (handleVerify cfg id w r).
Proof.
  unfold handleVerify. event got as Hgot. destruct got as [sess|]; [|leaf].
  specialize (Hgot sess eq_refl). event now.
  destruct (expireIfNeeded sess now) as [expired s1] eqn:He.
  apply (faithful_expire _ _ _ _ Hgot) in He. destruct expired; [by event u|].
  destruct (SState s1); try leaf; [|by destruct (negb _); leaf].
  unfold begin_idp_leg. event res as Hres. destruct res as [[url|] s2]; [|leaf].
  event u. by destruct u; leaf.
Qed.

Lemma shared_handleIdPResponse w r : obeys (handleIdPResponse cfg w r).
Proof.
  unfold handleIdPResponse. destruct (readSessionCookie r) as [sid|]; [|leaf].
  event got as Hgot. destruct got as [sess|]; [|leaf]. specialize (Hgot sess eq_refl). event now as [Hnow _].
  destruct (expireIfNeeded sess now) as [expired s1] eqn:He.
  apply (faithful_expire _ _ _ _ Hgot) in He. destruct expired; [by event u|].
  destruct (negb _); [leaf|]. event res as Hres. destruct res as [ident|]; [|leaf].
  specialize (Hres ident eq_refl). event minted. destruct minted as [secret|]; [|leaf].
  unfold bind_identity. event bound as [t Ht]. destruct bound as [bindErr s2].
  destruct (bindIdentity _ _ _ _ _ _) as [[e1 s3] t'] eqn:Hb in Ht. simpl in Ht. simplify_eq.
  apply (faithful_bind _ _ _ _ _ _ _ _ _ He Hres Hnow) in Hb.
  event u. destruct bindErr as [[]|]; leaf.
Qed.

Lemma shared_handleApprove w r : obeys (handleApprove cfg w r).
Proof.
  unfold handleApprove. destruct (readSessionCookie r) as [sid|]; [|leaf].
  destruct (Form r); [|leaf]. cbn zeta. event got as Hgot. destruct got as [sess|]; [|leaf].
  specialize (Hgot sess eq_refl). destruct (negb _); [leaf|]. event now.
  destruct (approve _ _ _ _ _) as [appErr s1] eqn:Ha. apply (faithful_approve _ _ _ _ _ _ _ Hgot) in Ha.
  event u. unfold approve_response. destruct (_ && _); [leaf|]. case_bool_decide; [leaf|].
  destruct appErr as [[]|]; leaf.
Qed.

Lemma shared_handlePoll w r : obeys (handlePoll cfg w r).
Proof.
  unfold handlePoll. cbn zeta. destruct (decode_pollRequest r) as [req|]; [|leaf].
  destruct (is_empty _); [leaf|]. event got as Hgot. destruct got as [sess|]; [|leaf].
  specialize (Hgot sess eq_refl). event now as [Hnow _]. destruct (poll _ _ _ _) as [outcome s1] eqn:Hp.
  apply (faithful_poll _ _ _ _ _ _ Hgot Hnow) in Hp.
  assert (Hr : ∀ o, obeys (poll_response o s1 w)).
  { intros [res|e|]; [| |done]; unfold poll_response.
    - destruct (pr_Status res); try leaf. destruct (pr_Artifact res); leaf.
    - destruct e; leaf. }
  destruct outcome as [res|e|]; [| |done]; event u;
    (apply obeys_bind; [|intros _; apply Hr]); (destruct (_ && _); [|done]); event now2;
    apply obeys_Observe.
Qed.

Lemma serve_obeys e r : text_address e r → obeys (serve cfg e r).
Proof.
  intros Ha. unfold serve, Router, auth_middlewares, noStoreMiddleware, cspMiddleware.
  destruct e; [done|by apply shared_handleStart|apply shared_handleVerify
    |apply shared_handleIdPResponse..|apply shared_handleApprove|apply shared_handlePoll].
Qed.

End Shared.
