(* ===== verification/RedisBroker.v ===== *)
(** The concurrent broker over the Redis store, one command at a time.  In
    [System] a call of the store is one event; here it is the script of
    [Redis], and between two commands of one handler any number of commands of
    other handlers (or of other replicas on the same Redis) may run and the
    clock may move.  The claims of [Safety] hold of every response all the
    same. *)

From S2P Require Import Prelude GoStrings GoUtf8 GoTime GoFormat GoMarshal GoCrypto UserCode Pkce.
From S2P Require Import Session SessionJson Fsm FsmSpec FsmTrace Store Redis Wire Http ClientIP.
From S2P Require Import ClientAuth Detect RateLimit Prog Broker Handlers System Justify Safety.
From S2P Require Import Faithful Shared.

Local Open Scope list_scope.

(** The store as the interface has it, for a call nothing interrupts. *)
Definition Redis_Store `{loc : Location} (keyPrefix : string) {R} `{RedisServer R} : Store R := {|
  store_Create now s r := run_at now (Redis.Create keyPrefix s) r;
  store_Get now id r := run_at now (Redis.Get keyPrefix id) r;
  store_Update now s r := run_at now (Redis.Update keyPrefix s) r;
  store_evict _ r := r;
|}.

(** A handler, and a handler that is waiting in a call of the store. *)
Inductive thread : Type :=
  | Serves (p : prog ResponseWriter)
  | Calls (X : Type) (e : event X) (sc : script X) (k : X → prog ResponseWriter).
Arguments Calls {X} e sc k.

Section RedisBroker.
Context {R I : Type} `{RedisLaws R} `{RateLimiter} `{IdentityProviderLaws I}.
Context `{UnicodeCase} `{Location}.
Variable cfg : Config.
Variable keyPrefix : string.

#[local] Instance store : Store R := Redis_Store keyPrefix.

(** The calls of the store. *)
Definition script_of {X} (e : event X) : option (script X) :=
  match e in event X return option (script X) with
  | StCreate s => Some (Redis.Create keyPrefix s)
  | StGet id => Some (Redis.Get keyPrefix id)
  | StUpdate s => Some (Redis.Update keyPrefix s)
  | _ => None
  end.

Record RSys := mkRSys {
  r_world : World R I;
  r_reqs : list (endpoint * Request);
  r_threads : list thread;
  r_trace : list tev;
}.

Definition r_hist (sys : RSys) : history := (r_reqs sys, r_trace sys).

Definition r_step (a : action) (sys : RSys) : RSys :=
  let '(mkRSys w reqs ts tr) := sys in
  match a with
  | Arrive e r => mkRSys w (reqs ++ [(e, r)]) (ts ++ [Serves (serve cfg e r)]) tr
  | Step i =>
      match ts !! i with
      | Some (Serves (Vis e k)) =>
          match script_of e with
          | Some sc => mkRSys w reqs (<[i := Calls e sc k]> ts) tr
          | None =>
              let (x, w) := interp e w in
              mkRSys w reqs (<[i := Serves (k x)]> ts) (tr ++ [did i e x])
          end
      | Some (Calls e (Cmd c f) k) =>
          let (x, r) := do_command (w_clock w) c (w_store w) in
          mkRSys (with_store r w) reqs (<[i := Calls e (f x) k]> ts) tr
      | Some (Calls e (Done x) k) => mkRSys w reqs (<[i := Serves (k x)]> ts) (tr ++ [did i e x])
      | _ => sys
      end
  | Tick d => mkRSys (with_clock (w_clock w + d) w) reqs ts tr
  | Evict => sys
  end.

Definition r_exec (acts : list action) (sys : RSys) : RSys := foldl (λ s a, r_step a s) sys acts.

Definition r_init (w : World R I) : RSys := mkRSys w [] [] [].

Definition r_response (sys : RSys) (i : nat) : option ResponseWriter :=
  match r_threads sys !! i with Some (Serves (Ret rw)) => Some rw | _ => None end.

(** ** The sessions in the database *)

(** Justified by the past, and read as they were written. *)
Definition good (h : history) (s : Session) : Prop := just cfg h s ∧ faithful s.

Lemma good_stable h h' s : le h h' → good h s → good h' s.
Proof. intros Hle [Hj Hf]. split; [by eapply just_stable|done]. Qed.

(** Every value under the prefix, expired or not, is a good session filed
    under its id. *)
Definition db_good (h : history) (d : database) : Prop :=
  ∀ id v t, d !! key keyPrefix id = Some (v, t) →
    ∃ s, decode_session v = Some s ∧ ID s = id ∧ good h s.

Lemma db_good_le h h' d : le h h' → db_good h d → db_good h' d.
Proof.
  intros Hle Hd id v t Hv. destruct (Hd id v t Hv) as (s & ? & ? & ?).
  exists s. split; [done|]. split; [done|]. by eapply good_stable.
Qed.

Lemma db_good_same now h d d' : same_from now d d' → db_good h d' → db_good h d.
Proof. intros [Hsub _] Hd id v t Hv. apply (Hd id v t). by eapply lookup_weaken. Qed.

Lemma db_good_set h s raw t d : decode_session raw = Some s → good h s →
  db_good h d → db_good h (<[key keyPrefix (ID s) := (raw, t)]> d).
Proof.
  intros Hraw Hg Hd id v t' [[Hk Hv]|[_ Hv]]%lookup_insert_Some; [|by eapply Hd].
  apply key_inj in Hk. simplify_eq. by exists s.
Qed.

(** *** Commands *)
Definition cmd_pre {X} (c : command X) (h : history) : Prop :=
  match c with
  | CmdSet k v ttl => 0 < ttl ∧ ∃ s, k = key keyPrefix (ID s) ∧ decode_session v = Some s ∧ good h s
  | _ => True
  end.

Definition cmd_post {X} (c : command X) (x : X) (h : history) : Prop :=
  match c in command X return X → Prop with
  | CmdGet k => λ got, ∀ v id, got = Ok (Some v) → k = key keyPrefix id →
      ∃ s, decode_session v = Some s ∧ ID s = id ∧ good h s
  | _ => λ _, True
  end x.

Lemma live_lookup now (d : database) k v : live now d !! k = Some v → ∃ t, d !! k = Some (v, t).
Proof.
  unfold live. rewrite lookup_omap. intros ([v' t] & Hd & Ha)%bind_Some. unfold alive in Ha.
  cbn in Ha. case_match; simplify_eq. by exists t.
Qed.

Lemma do_command_sound {X} (c : command X) now (r : R) x r' h : db_good h (db r) → cmd_pre c h →
  do_command now c r = (x, r') → db_good h (db r') ∧ cmd_post c x h.
Proof.
  intros Hd Hp Hc. destruct c as [k|k|k v ttl|]; cbn [do_command cmd_pre cmd_post] in *.
  - destruct (get_law _ _ _ _ _ Hc) as [Hs Hx]. split; [by eapply db_good_same|].
    intros v id -> ->. symmetry in Hx. apply live_lookup in Hx as [t Ht]. by eapply Hd.
  - destruct (exists_law _ _ _ _ _ Hc) as [Hs _]. split; [by eapply db_good_same|done].
  - destruct Hp as [Httl (s & -> & Hdec & Hg)]. split; [|done].
    pose proof (set_law _ _ _ _ _ _ _ Httl Hc) as Hset.
    assert (Hnew : db_good h (<[key keyPrefix (ID s) := (v, now + redis_ttl ttl)]> (db r)))
      by (by apply db_good_set).
    destruct x as [msg|]; [destruct Hset as [Hset|Hset]|]; by eapply db_good_same.
  - by injection Hc as <- <-.
Qed.

(** *** Scripts under interference *)
Fixpoint script_wp {X} (Q : history → X → Prop) (sc : script X) (h : history) : Prop :=
  match sc with
  | Done x => Q h x
  | Cmd c k => ∀ h', le h h' → cmd_pre c h' ∧
      ∀ x h'', le h' h'' → cmd_post c x h'' → script_wp Q (k x) h''
  end.

Lemma script_wp_mono {X} (Q : history → X → Prop) sc h h' :
  (∀ h h' x, le h h' → Q h x → Q h' x) → le h h' → script_wp Q sc h → script_wp Q sc h'.
Proof.
  intros HQ Hle. destruct sc as [x|Y c k]; cbn; [by apply HQ|]. intros Hs h1 Hle1. apply Hs. by etrans.
Qed.

(** What a call of the store answers. *)
Definition result_ok {X} (e : event X) (h : history) (x : X) : Prop :=
  match e in event X return X → Prop with
  | StGet id => λ got, ∀ s, got = Ok s → ID s = id ∧ good h s
  | _ => λ _, True
  end x.

Lemma result_ok_stable {X} (e : event X) h h' x : le h h' → result_ok e h x → result_ok e h' x.
Proof.
  intros Hle. destruct e; cbn; try done. intros Hx s Hs. destruct (Hx s Hs).
  split; [done|]. by eapply good_stable.
Qed.

(** ** Who answered *)

(** An answered event of the provider was answered by the provider, and only
    calls of the store are run as scripts. *)
Definition provided (x : tev) : Prop :=
  match x with
  | (_, existT _ (e, a)) => script_of e = None → ∃ w w' : World R I, interp e w = (a, w')
  end.

Definition calls_store (t : thread) : Prop :=
  match t with Calls e _ _ => is_Some (script_of e) | Serves _ => True end.

Lemma r_step_provided a sys : Forall provided (r_trace sys) ∧ Forall calls_store (r_threads sys) →
  Forall provided (r_trace (r_step a sys)) ∧ Forall calls_store (r_threads (r_step a sys)).
Proof.
  destruct sys as [w reqs ts tr]. cbn [r_trace r_threads]. intros [Htr Hts].
  destruct a as [e r|i|d|]; cbn [r_step]; [|destruct (ts !! i) as [t|] eqn:Hi; [|done]|done|done].
  { cbn. rewrite Forall_app. split; [done|]. split; [done|by constructor]. }
  assert (Hput : ∀ t', calls_store t' → Forall calls_store (<[i := t']> ts))
    by (intros; by apply Forall_insert).
  pose proof (proj1 (list.Forall_lookup _ _) Hts i t Hi) as Ht.
  destruct t as [[rw| |X e k]|X e [x|Y c f] k]; try done.
  - destruct (script_of e) as [sc|] eqn:Hs; [split; [done|apply Hput; by eexists]|].
    destruct (interp e w) as [x w'] eqn:Hx. cbn. rewrite Forall_app. split; [|by apply Hput].
    split; [done|]. constructor; [|done]. intros _. by exists w, w'.
  - cbn. rewrite Forall_app. split; [|by apply Hput]. split; [done|]. constructor; [|done].
    intros Hn. cbn in Ht. rewrite Hn in Ht. by destruct Ht.
  - destruct (do_command _ _ _). split; [done|]. by apply Hput.
Qed.

Lemma r_performed_IdPComplete acts (w : World R I) i r s x :
  performed (r_hist (r_exec acts (r_init w))) i (IdPComplete r s) x →
  ∃ now n n', CompleteLogin now r s n = (x, n').
Proof.
  intros Hp. assert (Hall : Forall provided (r_trace (r_exec acts (r_init w)))).
  { clear Hp. assert (Hinit : Forall provided (r_trace (r_init w)) ∧ Forall calls_store (r_threads (r_init w)))
      by (by split).
    revert Hinit. generalize (r_init w). induction acts as [|a acts IH]; intros sys Hinit; [by destruct Hinit|].
    cbn [r_exec foldl]. by apply IH, r_step_provided. }
  rewrite list.Forall_forall in Hall. destruct (Hall _ Hp eq_refl) as (w1 & w2 & He). cbn in He.
  destruct (CompleteLogin (w_clock w1) r s (w_idp w1)) as [y n'] eqn:E. simplify_eq. eauto.
Qed.

Section Sound.
Context `{!FaithfulIdP I}.
Hypothesis poll_interval : is_int64 (PollInterval cfg).
Hypothesis client_names : ∀ r vc, authenticate_client cfg r = Ok vc → ValidString vc = true.

Lemma write_wp Q s h : good h s → (∀ e h', le h h' → Q h' e) →
  script_wp Q (Redis.write keyPrefix s) h.
Proof.
  intros Hg HQ. unfold Redis.write. destruct (encode_session s) as [raw|] eqn:E; [|by apply HQ].
  cbn. intros h1 Hle1. split; [done|]. intros now h2 Hle2 _ h3 Hle3. split.
  - split; [apply write_ttl_pos|]. exists s. split; [done|].
    split; [by apply (faithful_decode s raw (proj2 Hg))|]. eapply good_stable, Hg. by do 2 etrans.
  - intros err h4 Hle4 _. destruct err; apply HQ; by do 3 etrans.
Qed.

(** The obligation of the event is enough for its script. *)
Lemma script_sound {X} (e : event X) sc h : script_of e = Some sc →
  pre (just cfg) X e h → writes_faithful X e → script_wp (result_ok e) sc h.
Proof.
  intros Hs Hp Hw. destruct e; try done; injection Hs as <-; cbn in Hp, Hw.
  - by apply write_wp.
  - cbn. intros h1 Hle1. split; [done|]. intros got h2 Hle2 Hgot s.
    destruct got as [[raw|]|msg]; [|done..]. destruct (Hgot raw id eq_refl eq_refl) as (s' & Hd & Hid & Hg).
    rewrite Hd. by intros [= <-].
  - cbn. intros h1 Hle1. split; [done|]. intros got h2 Hle2 _. destruct got as [n|msg]; [|done].
    destruct (n =? 0); [done|]. apply write_wp; [|done]. eapply good_stable; [|by split]. by etrans.
Qed.

Notation WP i := (wp (le := le) (λ R e h, pre (just cfg) R e h ∧ writes_faithful R e)
  (λ R e x h, post (just cfg) i R e x h ∧ reads_faithful (SessionTTL cfg) R e x) (claim cfg i)).

Definition answered i {X} (e : event X) (x : X) (h : history) : Prop :=
  post (just cfg) i X e x h ∧ reads_faithful (SessionTTL cfg) X e x.

Lemma result_answered i {X} (e : event X) x h : is_Some (script_of e) →
  result_ok e h x → did i e x ∈ h.2 → answered i e x h.
Proof.
  intros [sc Hs] Hr Hd. unfold answered, post. destruct e; try done; cbn in Hr |- *.
  destruct x as [s|]; [|done]. destruct (Hr s eq_refl) as [Hid [Hj Hf]].
  split; [by split|]. by intros s' [= <-].
Qed.

(** The other events, as in [System]. *)
Lemma interp_answered i {X} (e : event X) (w : World R I) x w' h : script_of e = None →
  writes_faithful X e → current (SessionTTL cfg) (w_clock w) →
  interp e w = (x, w') → did i e x ∈ h.2 →
  w_store w' = w_store w ∧ answered i e x h.
Proof.
  intros Hs Hf Hnow Hi Hd. unfold answered, post. destruct e; try done; cbn in *; split_cases_in Hi; simplify_eq/=;
    try (by split_and!).
  - match goal with E : _ = (_, _) |- _ => rename E into Hb end.
    split; [done|]. split; [split; [done|]|]; eexists; by rewrite Hb.
  - match goal with E : BeginLogin _ _ _ _ = _ |- _ => rename E into Hb end.
    pose proof (BeginLogin_frame _ _ _ _ _ _ _ _ Hb) as Hsame.
    split; [done|]. split; [done|]. eapply faithful_idp; [exact Hsame| |done]. by eapply BeginLogin_texts.
  - match goal with E : CompleteLogin _ _ _ _ = _ |- _ => rename E into Hb end.
    split; [done|]. split; [done|]. intros ident ->. by eapply CompleteLogin_faithful.
Qed.

Definition thread_ok (i : nat) (h : history) (t : thread) : Prop :=
  match t with
  | Serves p => WP i p h
  | Calls e sc k => is_Some (script_of e) ∧ script_wp (result_ok e) sc h ∧
      ∀ x h', le h h' → answered i e x h' → WP i (k x) h'
  end.

Lemma thread_ok_mono i h h' t : le h h' → thread_ok i h t → thread_ok i h' t.
Proof.
  intros Hle. destruct t as [p|X e sc k]; cbn.
  - intros Hp. eapply wp_mono; [apply claim_stable|exact Hle|exact Hp].
  - intros (He & Hs & Hk). split; [done|]. split.
    + eapply script_wp_mono; [|exact Hle|exact Hs]. intros. by eapply result_ok_stable.
    + intros x h1 Hle1. apply Hk. by etrans.
Qed.

(** ** The invariant *)
Record r_inv (sys : RSys) : Prop := {
  ri_db : db_good (r_hist sys) (db (w_store (r_world sys)));
  ri_threads : ∀ i t, r_threads sys !! i = Some t → thread_ok i (r_hist sys) t;
  ri_length : length (r_threads sys) = length (r_reqs sys);
}.

(** A step of thread [i]: it is replaced, the trace may grow. *)
Lemma thread_inv w reqs ts tr i t w' t' tr' : r_inv (mkRSys w reqs ts tr) → ts !! i = Some t →
  tr `prefix_of` tr' → db_good (reqs, tr') (db (w_store w')) → thread_ok i (reqs, tr') t' →
  r_inv (mkRSys w' reqs (<[i := t']> ts) tr').
Proof.
  intros [Hdb Hts Hlen] Hi Htr Hdb' Ht'. constructor; cbn in *; [done| |by rewrite length_insert].
  intros j u [(<- & <- & _)|[Hne Hj]]%list_lookup_insert_Some; [done|].
  eapply thread_ok_mono; [|by apply Hts]. by split.
Qed.

Lemma r_step_inv a sys : r_inv sys → current (SessionTTL cfg) (w_clock (r_world sys)) →
  (∀ e r, a = Arrive e r → text_address cfg e r) → r_inv (r_step a sys).
Proof.
  intros Hinv Hnow Ha. pose proof Hinv as [Hdb Hts Hlen]. destruct sys as [w reqs ts tr]. cbn in Hdb, Hts, Hlen.
  destruct a as [e r|i|d|]; cbn [r_step].
  - assert (Hle : le (reqs, tr) (reqs ++ [(e, r)], tr)) by (split; cbn; [by apply prefix_app_r|done]).
    constructor; cbn; [by eapply db_good_le| |rewrite !length_app; cbn; lia].
    intros i t [Hi|[Hge Hi]]%lookup_app_Some; [by eapply thread_ok_mono, Hts|].
    apply list_lookup_singleton_Some in Hi as [Heq <-]. cbn. apply wp_obeys.
    + apply serve_sound. unfold serves. cbn. replace i with (length reqs) by lia.
      by rewrite lookup_app_r, Nat.sub_diag.
    + by apply serve_obeys, Ha.
  - destruct (ts !! i) as [[[rw| |X e k]|X e [x|Y c f] k]|] eqn:Hi; try done.
    + pose proof (Hts i _ Hi) as Hw. cbn in Hw. destruct (Hw (reqs, tr) ltac:(done)) as [[Hpre Hf] Hk].
      destruct (script_of e) as [sc|] eqn:Hs.
      * eapply thread_inv; [exact Hinv|exact Hi|done|done|]. cbn. split; [by eexists|].
        split; [by eapply script_sound|]. exact Hk.
      * destruct (interp e w) as [x w'] eqn:Hx.
        destruct (interp_answered i e w x w' (reqs, tr ++ [did i e x]) Hs Hf Hnow Hx) as [Hst Hans].
        { cbn. apply elem_of_app. right. by apply list_elem_of_singleton. }
        assert (Hle : le (reqs, tr) (reqs, tr ++ [did i e x])) by (split; cbn; [done|by apply prefix_app_r]).
        eapply thread_inv; [exact Hinv|exact Hi|by apply prefix_app_r| |by apply Hk].
        rewrite Hst. by eapply db_good_le.
    + destruct (Hts i _ Hi) as (He & Hs & Hk). cbn in Hs.
      assert (Hle : le (reqs, tr) (reqs, tr ++ [did i e x])) by (split; cbn; [done|by apply prefix_app_r]).
      eapply thread_inv; [exact Hinv|exact Hi|by apply prefix_app_r|by eapply db_good_le|].
      apply Hk; [done|]. apply result_answered; [done|by eapply result_ok_stable|].
      cbn. apply elem_of_app. right. by apply list_elem_of_singleton.
    + destruct (Hts i _ Hi) as (He & Hs & Hk). cbn in Hs.
      destruct (Hs (reqs, tr) ltac:(done)) as [Hpre Hnext].
      destruct (do_command (w_clock w) c (w_store w)) as [x r'] eqn:Hc.
      destruct (do_command_sound c _ _ _ _ _ Hdb Hpre Hc) as [Hdb' Hpost].
      eapply thread_inv; [exact Hinv|exact Hi|done|done|]. cbn. split; [done|]. split; [|done].
      by apply Hnext.
  - by constructor.
  - done.
Qed.

(** The clock of the run only shows instants whose times have exact texts. *)
Definition current_clock (acts : list action) (sys : RSys) : Prop :=
  ∀ before, before `prefix_of` acts → current (SessionTTL cfg) (w_clock (r_world (r_exec before sys))).

Lemma r_exec_inv acts sys : r_inv sys → current_clock acts sys →
  (∀ e r, Arrive e r ∈ acts → text_address cfg e r) → r_inv (r_exec acts sys).
Proof.
  induction acts as [|a acts IH] using rev_ind; intros Hi Hc Ht; [done|].
  unfold r_exec. rewrite foldl_app. cbn [foldl]. apply r_step_inv.
  - apply IH; [done| |intros e r He; apply Ht, elem_of_app; by left].
    intros before Hb. apply Hc. by apply prefix_app_r.
  - apply (Hc acts). by apply prefix_app_r.
  - intros e r ->. apply Ht, elem_of_app. right. by left.
Qed.

(** ** Theorems *)
Section Theorems.
Variable w : World R I.
Hypothesis fresh_prefix : ∀ id, db (w_store w) !! key keyPrefix id = None.
Variable acts : list action.
Hypothesis addresses : ∀ e r, Arrive e r ∈ acts → text_address cfg e r.
Hypothesis clock : current_clock acts (r_init w).
Notation final := (r_exec acts (r_init w)).

Lemma final_inv : r_inv final.
Proof.
  apply r_exec_inv; [|done..]. constructor; cbn; [|done|done].
  intros id v t Hv. by rewrite fresh_prefix in Hv.
Qed.

(** C4: over a Redis shared by any number of handlers, with their commands
    interleaved in any order and keys expiring in between: no handler panics;
    an artifact is only handed out after all the checks of the concurrent
    broker, to a poll with the session's verifier; CSRF tokens are only shown
    and approval cookies only set where they are with a store whose calls are
    atomic; and every response is hardened. *)
Theorem redis_broker_is_safe i :
  r_threads final !! i ≠ Some (Serves Panic) ∧
  ∀ rw, r_response final i = Some rw →
    (∀ a, artifact_in rw = Some a → checked cfg (r_hist final) i a) ∧
    ∃ e r, serves (r_hist final) i e r ∧
      (∀ tok, csrf_shown rw = Some tok → may_see_csrf cfg (r_hist final) i e r tok) ∧
      (∀ secret, secret ∈ approval_cookies rw → minted_by (r_hist final) i e r secret) ∧
      (e ≠ Healthz → secure_headers rw) ∧ Forall safe_cookie (rw_cookies rw).
Proof.
  pose proof final_inv as [_ Hts _]. split.
  { intros Hp. exact (Hts i _ Hp). }
  intros rw Hr. unfold r_response in Hr. destruct (r_threads final !! i) as [[[rw'| |]|]|] eqn:Ht;
    try done. injection Hr as ->. pose proof (Hts i _ Ht) as Hc. cbn in Hc.
  split; [intros a; by apply claim_checked|]. destruct Hc as (e & r & Hs & Hc).
  exists e, r. split; [done|]. split_and!; apply Hc.
Qed.

End Theorems.
End Sound.

End RedisBroker.
