(* ===== verification/RedisDemo.v ===== *)
(** A broker over Redis at work: the login of [Scenario] served command by
    command, with a second client's start request running between the commands
    of the poll. *)

From S2P Require Import Prelude GoStrings GoUtf8 GoTime GoFormat GoMarshal GoCrypto UserCode Pkce.
From S2P Require Import Session SessionJson Fsm FsmSpec FsmTrace Store Redis Wire Http ClientIP.
From S2P Require Import ClientAuth Detect RateLimit Prog Broker Handlers System Justify Safety.
From S2P Require Import Scenario Faithful Shared RedisBroker.

Local Open Scope list_scope.

#[export] Instance demo_idp_faithful : FaithfulIdP unit.
Proof.
  constructor.
  - intros now s t i r s' t' i' Hs Hb. cbn in Hb. simplify_eq/=.
    pose proof (ft_texts s Hs) as Ht. unfold valid_texts, texts in *. rewrite !list.Forall_cons in *.
    destruct_and?. by split_and!.
  - intros now r s i ident i' Hc. cbn in Hc. case_match; simplify_eq.
    constructor; [by repeat constructor|by intros k v ?..|vm_compute; congruence].
Qed.

Definition redis_world : World Server unit := (New demo_config t0 tape empty_server tt).2.

Notation r_runs acts := (r_exec cfg default_prefix acts (r_init redis_world)).

(** Every step of a schedule three times: a call of the store takes up to
    five steps where [System] takes one. *)
Definition by_command (acts : list action) : list action :=
  flat_map (λ a, match a with Step i => [Step i; Step i; Step i] | _ => [a] end) acts.

(** The poll's commands alternate with those of another start request. *)
Definition acts_redis : list action :=
  by_command acts_approve ++ Tick (1 * Second) :: Arrive PollEndpoint poll_request
    :: Arrive Start start_request :: flat_map (λ _, [Step 4%nat; Step 5%nat]) (seq 0 60).

Definition redis_response : ResponseWriter := default new_writer (r_response (r_runs acts_redis) 4).

Lemma redis_login_completes :
  r_response (r_runs acts_redis) 4 = Some redis_response ∧
  artifact_in redis_response = Some alice_artifact ∧
  is_Some (r_response (r_runs acts_redis) 5).
Proof. vm_compute. split_and!; try done. by eexists. Qed.

(** *** What the theorem asks of the run *)
Lemma utc_current ttl t : @current UTC ttl t.
Proof. by split; right. Qed.

Definition from_text (a : action) : bool :=
  match a with
  | Arrive _ r => ValidString (resolveClientIP r (TrustedProxies cfg))
  | _ => true
  end.

Lemma redis_addresses e r : Arrive e r ∈ acts_redis → text_address cfg e r.
Proof.
  assert (H : forallb from_text acts_redis = true) by (vm_compute; reflexivity).
  intros Hin _. rewrite forallb_forall in H. apply list_elem_of_In in Hin. exact (H _ Hin).
Qed.

Lemma redis_fresh id : db (w_store redis_world) !! key default_prefix id = None.
Proof. exact (lookup_empty (M := gmap string) (key default_prefix id)). Qed.

Lemma redis_poll_interval : is_int64 (PollInterval cfg).
Proof. vm_compute. split; congruence. Qed.

Lemma redis_client_names r vc : authenticate_client cfg r = Ok vc → ValidString vc = true.
Proof. intros H. assert (vc = "") as -> by (vm_compute in H; congruence). reflexivity. Qed.

Lemma redis_broker_is_safe_witness :
  checked cfg (r_hist (r_runs acts_redis)) 4 alice_artifact.
Proof.
  refine (proj1 (proj2 (redis_broker_is_safe cfg default_prefix redis_poll_interval redis_client_names
    redis_world redis_fresh acts_redis redis_addresses (λ _ _, utc_current _ _) 4) redis_response
    (proj1 redis_login_completes)) alice_artifact (proj1 (proj2 redis_login_completes))).
Defined.
