(* ===== verification/Client.v ===== *)
(** The client library: [pkg/client/client.go].  The HTTP transport is an
    argument: what a request is answered, status code and bytes; both JSON
    directions are computed.  The timer and the context of [Poll] are the
    sequence of outcomes of its [select]. *)

From Stdlib Require Import Sorted.
From S2P Require Import Prelude GoStrings GoUtf8 GoTime GoJson GoFormat GoMarshal SessionJson GoCrypto.
From S2P Require Import GoUrl HttpClient Pkce Session Fsm Wire Http.

Local Open Scope list_scope.

Inductive client_error :=
  | ErrRequired
  | ErrPKCE (msg : string)
  | ErrEncode
  | ErrBuild
  | ErrTransport
  | ErrDecode
  | ErrFailed (msg : string)
  | ErrUnexpectedStatus (status : string)
  | ErrContext.

Record StartRequest := mkStartReq {
  BrokerURL : string;
  c_LoginHint : string;
  c_ClientKind : string;
  c_ClientHost : string;
}.

Record ClientSession := mkClientSession {
  cs_ID : string;
  VerificationURI : string;
  cs_UserCode : string;
  ExpiresIn : Duration;
  cs_Interval : Duration;
  brokerURL : string;
  cs_verifier : string;
}.

Record startWireRequest := mkStartWireRequest {
  swq_LoginHint : string;
  swq_CodeChallenge : string;
  swq_CodeChallengeMethod : string;
  swq_ClientKind : string;
  swq_ClientHost : string;
}.

Definition startWireRequest_fields : list (field startWireRequest) :=
  [mkField "login_hint" string_laws never swq_LoginHint (λ v q, mkStartWireRequest v
     (swq_CodeChallenge q) (swq_CodeChallengeMethod q) (swq_ClientKind q) (swq_ClientHost q));
   mkField "code_challenge" string_laws never swq_CodeChallenge (λ v q, mkStartWireRequest
     (swq_LoginHint q) v (swq_CodeChallengeMethod q) (swq_ClientKind q) (swq_ClientHost q));
   mkField "code_challenge_method" string_laws never swq_CodeChallengeMethod (λ v q,
     mkStartWireRequest (swq_LoginHint q) (swq_CodeChallenge q) v (swq_ClientKind q) (swq_ClientHost q));
   mkField "client_kind" string_laws never swq_ClientKind (λ v q, mkStartWireRequest
     (swq_LoginHint q) (swq_CodeChallenge q) (swq_CodeChallengeMethod q) v (swq_ClientHost q));
   mkField "client_host" string_laws never swq_ClientHost (λ v q, mkStartWireRequest
     (swq_LoginHint q) (swq_CodeChallenge q) (swq_CodeChallengeMethod q) (swq_ClientKind q) v)].

Record startWireResponse := mkStartWireResponse {
  swr_SessionID : string;
  swr_VerificationURI : string;
  swr_UserCode : string;
  swr_ExpiresIn : Z;
  swr_Interval : Z;
  swr_Error : string;
}.

Definition startWireResponse_fields : list (field startWireResponse) :=
  [mkField "session_id" string_laws never swr_SessionID (λ v r, mkStartWireResponse v
     (swr_VerificationURI r) (swr_UserCode r) (swr_ExpiresIn r) (swr_Interval r) (swr_Error r));
   mkField "verification_uri" string_laws never swr_VerificationURI (λ v r, mkStartWireResponse
     (swr_SessionID r) v (swr_UserCode r) (swr_ExpiresIn r) (swr_Interval r) (swr_Error r));
   mkField "user_code" string_laws never swr_UserCode (λ v r, mkStartWireResponse
     (swr_SessionID r) (swr_VerificationURI r) v (swr_ExpiresIn r) (swr_Interval r) (swr_Error r));
   mkField "expires_in" int_laws never swr_ExpiresIn (λ v r, mkStartWireResponse
     (swr_SessionID r) (swr_VerificationURI r) (swr_UserCode r) v (swr_Interval r) (swr_Error r));
   mkField "interval" int_laws never swr_Interval (λ v r, mkStartWireResponse
     (swr_SessionID r) (swr_VerificationURI r) (swr_UserCode r) (swr_ExpiresIn r) v (swr_Error r));
   mkField "error" string_laws never swr_Error (λ v r, mkStartWireResponse
     (swr_SessionID r) (swr_VerificationURI r) (swr_UserCode r) (swr_ExpiresIn r) (swr_Interval r) v)].

Definition read_startWireResponse (body : string) : option startWireResponse :=
  Decode (struct_json startWireResponse_fields) body (mkStartWireResponse "" "" "" 0 0 "").

Record pollWireRequest := mkPollWireRequest {
  pwq_SessionID : string;
  pwq_CodeVerifier : string;
}.

Definition pollWireRequest_fields : list (field pollWireRequest) :=
  [mkField "session_id" string_laws never pwq_SessionID
     (λ v q, mkPollWireRequest v (pwq_CodeVerifier q));
   mkField "code_verifier" string_laws never pwq_CodeVerifier
     (λ v q, mkPollWireRequest (pwq_SessionID q) v)].

Record pollWireResponse := mkPollWireResponse {
  pwr_Status : string;
  pwr_Artifact : option Artifact;
  pwr_Error : string;
}.

(** The client's [Artifact] has the fields and tags of the broker's; reading
    an instant does not depend on the zone of the process. *)
Definition Artifact_fields : list (field Artifact) := @artifactJSON_fields UTC.

Definition pollWireResponse_fields : list (field pollWireResponse) :=
  [mkField "status" string_laws never pwr_Status
     (λ v r, mkPollWireResponse v (pwr_Artifact r) (pwr_Error r));
   mkField "artifact" (@artifact_pointer_laws UTC) never pwr_Artifact
     (λ v r, mkPollWireResponse (pwr_Status r) v (pwr_Error r));
   mkField "error" string_laws never pwr_Error
     (λ v r, mkPollWireResponse (pwr_Status r) (pwr_Artifact r) v)].

Definition read_pollWireResponse (body : string) : option pollWireResponse :=
  Decode (struct_json pollWireResponse_fields) body (mkPollWireResponse "" None "").

(** The common part of both requests: encoding, building, sending. *)
Definition post {A} (c : GoJson A) (url : string) (v : A) (Do : httpRequest → answer)
    : result (Z * string) client_error :=
  match Marshal c v with
  | None => Err ErrEncode
  | Some body =>
      match NewRequest "POST" url body with
      | None => Err ErrBuild
      | Some req =>
          match Do (with_json req) with
          | TransportError => Err ErrTransport
          | Answer status body => Ok (status, body)
          end
      end
  end.

(** And decoding, then looking at the status code. *)
Definition read_response {A} (decode : string → option A) (error_of : A → string)
    (resp : Z * string) : result A client_error :=
  match decode resp.2 with
  | None => Err ErrDecode
  | Some v => if negb (resp.1 =? StatusOK) then Err (ErrFailed (error_of v)) else Ok v
  end.

(** ** Start *)
Definition Start (req : StartRequest) (t : entropy) (Do : httpRequest → answer)
    : result ClientSession client_error * entropy :=
  if is_empty (BrokerURL req) || is_empty (c_LoginHint req) then (Err ErrRequired, t) else
  match newPKCEPair t with
  | (Err e, t) => (Err (ErrPKCE e), t)
  | (Ok (verifier, challenge), t) =>
      let wire := mkStartWireRequest (c_LoginHint req) challenge "S256"
                    (c_ClientKind req) (c_ClientHost req) in
      let base := TrimRight (BrokerURL req) "/" in
      match post (struct_json startWireRequest_fields) (base +:+ "/auth/start") wire Do with
      | Err e => (Err e, t)
      | Ok resp =>
      match read_response read_startWireResponse swr_Error resp with
      | Err e => (Err e, t)
      | Ok v =>
          (Ok {| cs_ID := swr_SessionID v;
                 VerificationURI := swr_VerificationURI v;
                 cs_UserCode := swr_UserCode v;
                 ExpiresIn := Duration_mul (swr_ExpiresIn v) Second;
                 cs_Interval := Duration_mul (swr_Interval v) Second;
                 brokerURL := base;
                 cs_verifier := verifier |}, t)
      end end
  end.

(** ** Poll *)
Record Result := mkResult { r_Status : string; r_Artifact : option Artifact }.

(** One poll, answered [w]. *)
Definition pollOnce (s : ClientSession) (w : answer) : result (string * option Artifact) client_error :=
  match post (struct_json pollWireRequest_fields) (brokerURL s +:+ "/auth/poll")
          (mkPollWireRequest (cs_ID s) (cs_verifier s)) (λ _, w) with
  | Err e => Err e
  | Ok resp =>
      match read_response read_pollWireResponse pwr_Error resp with
      | Err e => Err e
      | Ok v => Ok (pwr_Status v, pwr_Artifact v)
      end
  end.

(** One [select]: the context is done, or the timer fires and the poll sent
    then is answered. *)
Inductive round :=
  | CtxDone
  | Fires (w : answer).

(** [interval += interval / 2]. *)
Definition grow (interval : Duration) : Duration := Duration_add interval (Z.quot interval 2).

(** The loop: what it returns ([None]: still waiting) and the durations the
    timer was reset to. *)
Fixpoint poll_loop (s : ClientSession) (interval : Duration) (rounds : list round)
    : option (result Result client_error) * list Duration :=
  match rounds with
  | [] => (None, [])
  | CtxDone :: _ => (Some (Err ErrContext), [])
  | Fires w :: rest =>
      match pollOnce s w with
      | Err e => (Some (Err e), [])
      | Ok (status, artifact) =>
          if seqb status "pending" then
            let (r, ws) := poll_loop s interval rest in (r, interval :: ws)
          else if seqb status "slow_down" then
            let interval := grow interval in
            let (r, ws) := poll_loop s interval rest in (r, interval :: ws)
          else if seqb status "approved" || seqb status "denied" || seqb status "expired" then
            (Some (Ok (mkResult status artifact)), [])
          else (Some (Err (ErrUnexpectedStatus status)), [])
      end
  end.

Definition start_interval (s : ClientSession) : Duration :=
  if cs_Interval s <=? 0 then 3 * Second else cs_Interval s.

Definition Poll (s : ClientSession) (rounds : list round)
    : option (result Result client_error) * list Duration :=
  poll_loop s (start_interval s) rounds.

(** ** Correctness *)

(** A poll of [s] that was built and answered 200 with a body that decodes. *)
Definition answered (s : ClientSession) (x : round) (v : pollWireResponse) : Prop :=
  is_Some (Parse (brokerURL s +:+ "/auth/poll")) ∧
  ∃ body, x = Fires (Answer StatusOK body) ∧ read_pollWireResponse body = Some v.

(** The answers after which the client keeps polling. *)
Definition keeps_polling (s : ClientSession) (x : round) : Prop :=
  ∃ v, answered s x v ∧ (pwr_Status v = "pending" ∨ pwr_Status v = "slow_down").

Definition final_status (st : string) : Prop := st = "approved" ∨ st = "denied" ∨ st = "expired".

Definition is_slow_down (s : ClientSession) (x : round) : bool :=
  match x with
  | Fires w => match pollOnce s w with Ok (st, _) => seqb st "slow_down" | Err _ => false end
  | CtxDone => false
  end.

Lemma read_response_Ok {A} (d : string → option A) f resp v :
  read_response d f resp = Ok v ↔ resp.1 = StatusOK ∧ d resp.2 = Some v.
Proof.
  unfold read_response. destruct (d resp.2) as [v'|]; [|naive_solver].
  destruct (resp.1 =? StatusOK) eqn:E; reflect_bool; naive_solver.
Qed.

Lemma post_Ok {A} (c : GoJson A) url v Do status body :
  post c url v Do = Ok (status, body) ↔ ∃ text u, Marshal c v = Some text ∧ Parse url = Some u ∧
    Do (with_json (mkHttpRequest "POST" (without_empty_port u) [] text)) = Answer status body.
Proof.
  unfold post, NewRequest. split.
  - destruct (Marshal c v) as [text|]; [|done]. destruct (Parse url) as [u|]; [|done]. cbn.
    destruct (Do _) as [|st b] eqn:E; [done|]. intros [= <- <-]. by exists text, u.
  - intros (text & u & -> & -> & Hd). cbn. cbn in Hd. by rewrite Hd.
Qed.

Lemma pollWireRequest_encodes q : is_Some (Marshal (struct_json pollWireRequest_fields) q).
Proof. by eexists. Qed.

Lemma pollOnce_Ok s w st a : pollOnce s w = Ok (st, a) ↔
  ∃ v, answered s (Fires w) v ∧ pwr_Status v = st ∧ pwr_Artifact v = a.
Proof.
  unfold pollOnce, answered. split.
  - destruct (post _ _ _ _) as [[status body]|] eqn:Ep; [|done].
    apply post_Ok in Ep as (text & u & _ & Hu & ->).
    destruct (read_response _ _ _) as [v|] eqn:E; [|done].
    apply read_response_Ok in E as [E1 E2]. cbn in E1, E2. subst status. intros [= <- <-].
    exists v. split; [|done]. split; [by eexists|]. by exists body.
  - intros (v & [[u Hu] (body & Hw & Hr)] & <- & <-). injection Hw as ->.
    destruct (pollWireRequest_encodes (mkPollWireRequest (cs_ID s) (cs_verifier s))) as [text Ht].
    rewrite (proj2 (post_Ok _ _ _ (λ _, Answer StatusOK body) StatusOK body)) by (by exists text, u).
    by rewrite (proj2 (read_response_Ok read_pollWireResponse pwr_Error (StatusOK, body) v)).
Qed.

Lemma poll_loop_keeps s i x rest : keeps_polling s x →
  poll_loop s i (x :: rest) =
    let i' := if is_slow_down s x then grow i else i in
    ((poll_loop s i' rest).1, i' :: (poll_loop s i' rest).2).
Proof.
  intros (v & Hv & Hst). pose proof Hv as (_ & body & -> & _). cbn [poll_loop is_slow_down].
  rewrite (proj2 (pollOnce_Ok s (Answer StatusOK body) _ _)) by (by exists v).
  destruct Hst as [-> | ->]; simpl; by destruct (poll_loop _ _ rest).
Qed.

Lemma poll_loop_stops s i x o : (poll_loop s i [x]).1 = Some o →
  ∀ j rest, poll_loop s j (x :: rest) = (Some o, []).
Proof.
  simpl. intros Ho j rest. destruct x as [|w]; [by simplify_eq/=|].
  destruct (pollOnce s w) as [[st a]|e]; [|by simplify_eq/=].
  destruct (seqb st "pending"); [done|]. destruct (seqb st "slow_down"); [done|].
  destruct (_ || _); by simplify_eq/=.
Qed.

(** The loop stops for good at the first round that does not keep polling. *)
Lemma poll_loop_split s i rounds :
  (Forall (keeps_polling s) rounds ∧ (poll_loop s i rounds).1 = None ∧
     length (poll_loop s i rounds).2 = length rounds) ∨
  (∃ pre x post o, rounds = pre ++ x :: post ∧ Forall (keeps_polling s) pre ∧
     (poll_loop s i rounds).1 = Some o ∧ length (poll_loop s i rounds).2 = length pre ∧
     ∀ j, (poll_loop s j [x]).1 = Some o).
Proof.
  revert i. induction rounds as [|x rounds IH]; intros i; [by left|].
  destruct (poll_loop s i [x]).1 as [o|] eqn:Ho.
  - right. exists [], x, rounds, o. pose proof (poll_loop_stops s i x o Ho) as Hs.
    rewrite Hs. split_and!; try done. intros j. by rewrite Hs.
  - assert (Hx : keeps_polling s x).
    { simpl in Ho. destruct x as [|w]; [done|]. destruct (pollOnce s w) as [[st a]|e] eqn:Hw; [|done].
      apply pollOnce_Ok in Hw as (v & Hv & <- & <-). exists v. split; [done|].
      destruct (seqb (pwr_Status v) "pending") eqn:E1; [left; by apply seqb_true|].
      destruct (seqb (pwr_Status v) "slow_down") eqn:E2; [right; by apply seqb_true|].
      by destruct (_ || _). }
    rewrite (poll_loop_keeps s i x rounds Hx). set (i' := if is_slow_down s x then grow i else i).
    destruct (IH i') as [(Hf & Hr & Hl)|(pre & y & post & o & -> & Hf & Hr & Hl & Hy)]; [left|right].
    + simpl. rewrite Hr, Hl. split; [by constructor|done].
    + exists (x :: pre), y, post, o. simpl. rewrite Hr, Hl. split; [done|].
      split; [by constructor|done].
Qed.

Lemma poll_loop_Ok s i x res : (poll_loop s i [x]).1 = Some (Ok res) ↔
  ∃ v, answered s x v ∧ final_status (pwr_Status v) ∧
    res = mkResult (pwr_Status v) (pwr_Artifact v).
Proof.
  split.
  - simpl. destruct x as [|w]; [done|]. destruct (pollOnce s w) as [[st a]|e] eqn:Hw; [|done].
    apply pollOnce_Ok in Hw as (v & Hv & <- & <-).
    destruct (seqb _ "pending"); [done|]. destruct (seqb _ "slow_down"); [done|].
    destruct (_ || _) eqn:Hf; [|done]. intros [= <-]. exists v. split; [done|]. split; [|done].
    rewrite !orb_true_iff, !seqb_true in Hf. unfold final_status. naive_solver.
  - intros (v & Hv & Hf & ->). pose proof Hv as (_ & body & -> & _). cbn [poll_loop].
    rewrite (proj2 (pollOnce_Ok s (Answer StatusOK body) _ _)) by (by exists v).
    by destruct Hf as [-> |[-> | ->]].
Qed.

Lemma answered_unique s x v v' : answered s x v → answered s x v' → v = v'.
Proof. intros (_ & b & -> & H) (_ & b' & Hx & H'). simplify_eq. congruence. Qed.

Lemma first_stop_unique s pre1 x1 post1 pre2 x2 post2 :
  pre1 ++ x1 :: post1 = pre2 ++ x2 :: post2 →
  Forall (keeps_polling s) pre1 → Forall (keeps_polling s) pre2 →
  ¬ keeps_polling s x1 → ¬ keeps_polling s x2 → x1 = x2.
Proof.
  revert pre2. induction pre1 as [|y pre1 IH]; intros [|y2 pre2] Heq H1 H2 Hn1 Hn2;
    simplify_eq/=; [done|by inversion H2|by inversion H1|].
  inversion H1; inversion H2; subst. by eapply IH.
Qed.

(** C18: [Poll] returns a result exactly when, after rounds answered 200 with
    "pending" or "slow_down" only, a round is answered 200 with a final
    status; the result is that answer's status and artifact.  Anything else
    (cancellation, transport, decoding, another status code or status) ends
    it with an error, and until then it has waited once per answer. *)
Theorem Poll_returns_final_answer s rounds :
  (∀ res, (Poll s rounds).1 = Some (Ok res) ↔
     ∃ pre x v post, rounds = pre ++ x :: post ∧ answered s x v ∧
       Forall (keeps_polling s) pre ∧ final_status (pwr_Status v) ∧
       res = mkResult (pwr_Status v) (pwr_Artifact v)) ∧
  ((Poll s rounds).1 = None ↔ Forall (keeps_polling s) rounds) ∧
  (length (Poll s rounds).2 ≤ length rounds)%nat.
Proof.
  unfold Poll. generalize (start_interval s) as i. intros i.
  assert (Hnk : ∀ x o, (∀ j, (poll_loop s j [x]).1 = Some o) → ¬ keeps_polling s x).
  { intros x o Hx Hk. specialize (Hx i). by rewrite (poll_loop_keeps s i x [] Hk) in Hx. }
  destruct (poll_loop_split s i rounds) as [(Hf & Hr & Hl)|(pre & x & post & o & -> & Hf & Hr & Hl & Hx)].
  - rewrite Hr, Hl. split_and!; [|done|done]. intros res. split; [done|].
    intros (pre & x & v & post & -> & Hx & _ & Hfin & _). apply Forall_app in Hf as [_ Hf].
    inversion Hf as [|? ? (v' & Hx' & Hv) _]; subst. rewrite (answered_unique s x v v') in Hfin by done.
    destruct Hfin as [?|[?|?]], Hv; congruence.
  - rewrite Hr, Hl, length_app. split_and!; [|split; [done|]|lia].
    + intros res. split.
      * intros [= ->]. specialize (Hx i). apply poll_loop_Ok in Hx as (v & Hx & Hv & ->).
        by exists pre, x, v, post.
      * intros (pre' & y & v & post' & Heq & Hans & Hf' & Hv & ->).
        assert (Hy : ∀ j, (poll_loop s j [y]).1 = Some (Ok (mkResult (pwr_Status v) (pwr_Artifact v))))
          by (intros j; apply poll_loop_Ok; by exists v).
        assert (x = y) as -> by (eapply (first_stop_unique s pre x post pre' y post'); eauto).
        specialize (Hx i). rewrite (Hy i) in Hx. by simplify_eq.
    + intros Hall. apply Forall_app in Hall as [_ Hall]. inversion Hall; subst.
      by destruct (Hnk x o Hx).
Qed.

(** ** Back-off *)
Definition slow_downs (s : ClientSession) (rounds : list round) : nat := length (filter (λ x, is_slow_down s x = true) rounds).

Lemma grow_bounds i : 0 < i → i * 2 ≤ max_int64 → i ≤ grow i ≤ i * 2.
Proof.
  unfold max_int64. intros Hi Hm. pose proof (Z.quot_pos i 2 ltac:(lia) ltac:(lia)).
  assert (Z.quot i 2 ≤ i) by (apply Z.quot_le_upper_bound; lia).
  unfold grow, Duration_add. rewrite wrap64_id; [lia|].
  unfold is_int64, min_int64, max_int64. lia.
Qed.

Lemma poll_loop_waits s i rounds : 0 < i → i * 2 ^ Z.of_nat (slow_downs s rounds) ≤ max_int64 →
  Forall (λ w, i ≤ w) (poll_loop s i rounds).2 ∧ Sorted Z.le (poll_loop s i rounds).2.
Proof.
  revert i. induction rounds as [|x rounds IH]; intros i Hi Hm; [by split; constructor|].
  destruct (poll_loop s i [x]).1 as [o|] eqn:Ho.
  { rewrite (poll_loop_stops s i x o Ho). by split; constructor. }
  assert (Hx : keeps_polling s x).
  { destruct (poll_loop_split s i [x]) as [(Hf & _)|(? & ? & ? & o & _ & _ & Hr & _)];
      [by inversion Hf|congruence]. }
  rewrite (poll_loop_keeps s i x rounds Hx). cbn zeta.
  unfold slow_downs in Hm. rewrite filter_cons in Hm. fold (slow_downs s rounds) in Hm.
  assert (Hp : 1 ≤ 2 ^ Z.of_nat (slow_downs s rounds)) by (pose proof (Z.pow_pos_nonneg 2 (Z.of_nat (slow_downs s rounds))); lia).
  set (i' := if is_slow_down s x then grow i else i).
  assert (Hi' : i ≤ i' ∧ i' * 2 ^ Z.of_nat (slow_downs s rounds) ≤ max_int64).
  { subst i'. destruct (is_slow_down s x) eqn:Es.
    - rewrite decide_True in Hm by done. cbn [length] in Hm.
      fold (slow_downs s rounds) in Hm. rewrite Nat2Z.inj_succ, Z.pow_succ_r in Hm by lia.
      pose proof (grow_bounds i Hi). nia.
    - rewrite decide_False in Hm by done. split; [lia|exact Hm]. }
  destruct Hi' as [Hle Hm']. destruct (IH i' ltac:(lia) Hm') as [Hf Hs]. split.
  - constructor; [done|]. eapply list.Forall_impl; [exact Hf|]. simpl. lia.
  - constructor; [done|]. by destruct Hf; constructor.
Qed.

Lemma start_interval_pos s : 0 < start_interval s.
Proof. unfold start_interval, Second. case_match; reflect_bool; lia. Qed.

(** Whatever answers, as long as the interval cannot overflow, the waits never
    fall below the interval the broker announced (three seconds if it announced none),
    never shrink, and are strictly positive, so the loop never spins. *)
Theorem Poll_backs_off s rounds :
  start_interval s * 2 ^ Z.of_nat (slow_downs s rounds) ≤ max_int64 →
  0 < start_interval s ∧
  Forall (λ w, start_interval s ≤ w) (Poll s rounds).2 ∧ Sorted Z.le (Poll s rounds).2.
Proof.
  intros Hm. split; [apply start_interval_pos|]. apply poll_loop_waits, Hm. apply start_interval_pos.
Qed.

(** ** Start *)
Lemma newPKCEPair_Ok t v c t' : newPKCEPair t = (Ok (v, c), t') →
  c = s256 v ∧ v ≠ "" ∧ ValidString v = true.
Proof.
  unfold newPKCEPair. destruct (rand_Read 32 t) as [[raw|] t2] eqn:Erd; [|done].
  intros [= <- <- _]. split; [done|]. split; [|apply ascii_valid, RawURL_ascii].
  intros ->%RawURL_empty. by apply rand_Read_Some in Erd.
Qed.

Lemma Start_verifier req t Do s t' :
  Start req t Do = (Ok s, t') → ValidString (cs_verifier s) = true.
Proof.
  unfold Start. destruct (_ || _); [done|].
  destruct (newPKCEPair t) as [[[v c]|e] t1] eqn:Ep; [|done].
  apply newPKCEPair_Ok in Ep as (_ & _ & Hv). destruct (post _ _ _ Do) as [resp|]; [|done].
  destruct (read_response _ _ _); [|done]. by intros [= <- _].
Qed.

(** A session [Start] returns was asked for in one POST to the broker's
    /auth/start with the hint, kind and host it was given and the S256
    challenge of the verifier it keeps, so that the broker's check 1 accepts
    its polls; its fields are those of the answer. *)
Theorem Start_sends_its_challenge req t Do s t' :
  Start req t Do = (Ok s, t') →
  ∃ hreq body v, Do hreq = Answer StatusOK body ∧ read_startWireResponse body = Some v ∧
    hr_Method hreq = "POST" ∧
    Some (hr_URL hreq) = without_empty_port <$> Parse (TrimRight (BrokerURL req) "/" +:+ "/auth/start") ∧
    Marshal (struct_json startWireRequest_fields) (mkStartWireRequest (c_LoginHint req)
      (s256 (cs_verifier s)) "S256" (c_ClientKind req) (c_ClientHost req)) = Some (hr_Body hreq) ∧
    c_LoginHint req ≠ "" ∧ cs_ID s = swr_SessionID v ∧ cs_UserCode s = swr_UserCode v ∧
    verifyClientPKCE (cs_verifier s) (s256 (cs_verifier s)) = true ∧
    ValidString (cs_verifier s) = true.
Proof.
  unfold Start. destruct (_ || _) eqn:He; [done|]. apply orb_false_iff in He as [_ Hh].
  apply is_empty_false in Hh.
  destruct (newPKCEPair t) as [[[verifier challenge]|e] t1] eqn:Ep; [|done].
  destruct (post _ _ _ Do) as [[status body]|] eqn:Epo; [|done].
  apply post_Ok in Epo as (text & u & Ht & Hu & Hd).
  destruct (read_response _ _ _) as [v|] eqn:Er; [|done]. intros [= <- <-].
  apply read_response_Ok in Er as [Er1 Er2]. cbn in Er1, Er2. subst status.
  apply newPKCEPair_Ok in Ep as (-> & Hne & Hva).
  eexists _, body, v. split; [exact Hd|]. cbn [cs_verifier cs_ID cs_UserCode hr_Method hr_URL hr_Body with_json].
  rewrite Hu. split_and!; try done.
  by apply verifyClientPKCE_spec.
Qed.

(** ** Witnesses *)
Definition demo_client : ClientSession :=
  mkClientSession "s1" "" "" 0 (2 * Second) "https://xdauth.example" "v".

Definition answer_of (status : string) : round :=
  Fires (Answer StatusOK (print (JObj [(quote "status", JStr (quote status))]))).

Lemma Poll_backs_off_witness :
  Sorted Z.le (Poll demo_client [answer_of "slow_down"; answer_of "pending"; answer_of "denied"]).2 ∧
  (Poll demo_client [answer_of "slow_down"; answer_of "pending"; answer_of "denied"]).2
    = [3 * Second; 3 * Second].
Proof.
  split; [|vm_compute; reflexivity].
  refine (proj2 (proj2 (Poll_backs_off demo_client
    [answer_of "slow_down"; answer_of "pending"; answer_of "denied"] _))).
  vm_compute. discriminate.
Defined.
