(* ===== verification/WireTrip.v ===== *)
(** Both ends of the wire: what the client writes the broker reads, and what
    the broker writes the client reads.  The two sides declare their structs
    separately ([internal/broker/handlers.go], [pkg/client/client.go]); these
    lemmas are where the tags have to agree. *)

From S2P Require Import Prelude GoStrings GoUtf8 GoTime GoJson GoFormat Rfc3339 Session GoMarshal.
From S2P Require Import SessionJson Fsm Wire Http Client.

Local Open Scope list_scope.

(** One field of each basic type, into any variable. *)
Lemma string_reads (s : string) j old :
  marshal (GoJson := string_json) s = Some j → unmarshal (GoJson := string_json) j old = Some (to_valid s).
Proof. by apply (@unmarshal_marshal _ _ string_laws s j old). Qed.

Lemma int_reads (z : Z) j old : is_int64 z →
  marshal (GoJson := int_json) z = Some j → unmarshal (GoJson := int_json) j old = Some z.
Proof. intros Hz. by apply (@unmarshal_marshal _ _ int_laws z j old). Qed.

(** The next member goes to the field of the same name. *)
Ltac read_string := eapply reads_field; [done|reflexivity|reflexivity|intros ?; apply string_reads|]; cbn.
Ltac read_int := eapply reads_field; [done|reflexivity|reflexivity|intros ?; by apply int_reads|]; cbn.

Lemma delim_newline : delim (String (ascii_of 10) "").
Proof. done. Qed.

Lemma Encode_text {A} (c : GoJson A) a text :
  Marshal c a = Some text → Encode c a = text +:+ String (ascii_of 10) "".
Proof. unfold Encode. by intros ->. Qed.

(** ** Requests *)
Lemma startWireRequest_names : names_ok startWireRequest_fields startWireRequest_fields.
Proof. repeat (constructor; [split; reflexivity|]). constructor. Qed.

Lemma startWireRequest_fresh q :
  fresh_fields startWireRequest_fields q (mkStartWireRequest "" "" "" "" "").
Proof. by repeat split. Qed.

Definition startWireRequest_laws : @GoJsonLaws startWireRequest (struct_json startWireRequest_fields) :=
  struct_laws _ startWireRequest_fields startWireRequest_names startWireRequest_fresh.

Lemma pollWireRequest_names : names_ok pollWireRequest_fields pollWireRequest_fields.
Proof. repeat (constructor; [split; reflexivity|]). constructor. Qed.

Lemma pollWireRequest_fresh q : fresh_fields pollWireRequest_fields q (mkPollWireRequest "" "").
Proof. by repeat split. Qed.

Definition pollWireRequest_laws : @GoJsonLaws pollWireRequest (struct_json pollWireRequest_fields) :=
  struct_laws _ pollWireRequest_fields pollWireRequest_names pollWireRequest_fresh.

Lemma start_request_read q text :
  Marshal (struct_json startWireRequest_fields) q = Some text →
  read_startRequest text = Some (mkStartRequest (to_valid (swq_LoginHint q))
    (to_valid (swq_CodeChallenge q)) (to_valid (swq_CodeChallengeMethod q))
    (to_valid (swq_ClientKind q)) (to_valid (swq_ClientHost q))).
Proof.
  intros Ht. unfold read_startRequest. rewrite <-(string_app_nil_r text).
  refine (Decode_reads _ q startWireRequest_fields startWireRequest_laws _ _ text "" _ _ _ _ Ht).
  - by split_and!.
  - by vm_compute.
  - done.
  - do 5 read_string. constructor.
Qed.

Lemma poll_request_read q text :
  Marshal (struct_json pollWireRequest_fields) q = Some text →
  read_pollRequest text = Some (mkPollRequest (to_valid (pwq_SessionID q)) (to_valid (pwq_CodeVerifier q))).
Proof.
  intros Ht. unfold read_pollRequest. rewrite <-(string_app_nil_r text).
  refine (Decode_reads _ q pollWireRequest_fields pollWireRequest_laws _ _ text "" _ _ _ _ Ht).
  - by split_and!.
  - by vm_compute.
  - done.
  - do 2 read_string. constructor.
Qed.

(** ** Responses *)
Lemma start_response_read v : is_int64 (sr_ExpiresIn v) → is_int64 (sr_Interval v) →
  read_startWireResponse (encode_startResponse v) = Some (mkStartWireResponse
    (to_valid (sr_SessionID v)) (to_valid (sr_VerificationURI v)) (to_valid (sr_UserCode v))
    (sr_ExpiresIn v) (sr_Interval v) "").
Proof.
  intros He Hi. unfold read_startWireResponse, encode_startResponse.
  destruct (Marshal (struct_json startResponse_fields) v) as [text|] eqn:Ht; [|done].
  rewrite (Encode_text _ _ _ Ht).
  refine (Decode_reads _ v startResponse_fields startResponse_laws _ _ text _ _ _ _ _ Ht).
  - by split_and!.
  - by vm_compute.
  - apply delim_newline.
  - do 3 read_string. do 2 read_int. constructor.
Qed.

Section poll.
Context {loc : Location}.

(** The reader's zone does not matter. *)
Lemma time_reads (t : Time) j (old : Time) : time_printable t →
  marshal (GoJson := time_json) t = Some j → unmarshal (GoJson := @time_json UTC) j old = Some t.
Proof.
  intros Ht Hm. pose proof (@unmarshal_marshal _ _ time_laws t j old Ht I Hm) as H. exact H.
Qed.

Lemma artifact_reads (a : Artifact) j : artifact_printable a →
  marshal (GoJson := struct_json artifactJSON_fields) a = Some j →
  unmarshal (GoJson := struct_json Artifact_fields) j zero_Artifact = Some (norm_artifact a).
Proof.
  intros [Hc Ht1 Ht2 _] Hm. cbn in Hm. unfold marshal_struct in Hm.
  destruct (traverse (marshal_field a) artifactJSON_fields) as [l|] eqn:El; [|done]. injection Hm as <-.
  cbn [unmarshal struct_json unmarshal_struct].
  apply (reads_members Artifact_fields a artifactJSON_fields); [|exact El].
  do 2 read_string.
  eapply reads_field; [done|reflexivity|reflexivity| |].
  { intros j Hj. by apply (@unmarshal_marshal _ _ claims_laws (a_Claims a) j ∅). }
  cbn. eapply reads_field; [done|reflexivity|reflexivity|intros ?; by apply time_reads|]. cbn.
  eapply reads_field; [done|reflexivity|reflexivity|intros ?; by apply time_reads|]. cbn.
  constructor.
Qed.

(** A response without an artifact always encodes; one with an artifact does
    if its claims and times do. *)
Lemma pollResponse_printable v : (∀ a, po_Artifact v = Some a → artifact_printable a) →
  @printable _ _ pollResponse_laws v ∧
  Z.of_nat (@nesting _ _ pollResponse_laws v) ≤ maxNestingDepth.
Proof.
  intros Ha. split.
  - unfold printable, pollResponse_laws, struct_laws, fields_printable. cbn [map foldr pollResponse_fields].
    split_and!; try done. intros _ a Hv. apply artifact_fields_printable, Ha, Hv.
  - assert (Hn : @nesting _ _ pollResponse_laws v = S (max 0 (max (match po_Artifact v with
      | Some a => S (max 0 (max 0 (max (@nesting _ _ claims_laws (a_Claims a)) 0))) | None => 0 end) 0)))
      by (destruct v as [st [a|] e]; reflexivity).
    rewrite Hn. destruct (po_Artifact v) as [a|]; [|by vm_compute].
    destruct (Ha a eq_refl) as [_ _ _ Hna]. lia.
Qed.

Lemma poll_response_read v text : (∀ a, po_Artifact v = Some a → artifact_printable a) →
  Marshal (struct_json pollResponse_fields) v = Some text →
  read_pollWireResponse (encode_pollResponse v) = Some (mkPollWireResponse (to_valid (po_Status v))
    (norm_artifact <$> po_Artifact v) (to_valid (po_Error v))).
Proof.
  intros Ha Ht. unfold read_pollWireResponse, encode_pollResponse. rewrite (Encode_text _ _ _ Ht).
  destruct (pollResponse_printable v Ha) as [Hp Hn].
  refine (Decode_reads _ v pollResponse_fields pollResponse_laws _ _ text _ Hp Hn delim_newline _ Ht).
  read_string. destruct (po_Artifact v) as [a|] eqn:E.
  - eapply (reads_field _ _ _ (mkField "artifact" (@artifact_pointer_laws UTC) never pwr_Artifact
      (λ v r, mkPollWireResponse (pwr_Status r) v (pwr_Error r))) (Some (norm_artifact a))); [by cbn; rewrite E|reflexivity|reflexivity| |].
    + intros j Hj. cbn in Hj. rewrite E in Hj.
      pose proof (artifact_reads a j (Ha a eq_refl) Hj) as Hu.
      change ((pointer_json zero_Artifact (struct_json Artifact_fields)).(unmarshal) j None
        = Some (Some (norm_artifact a))).
      assert (Hj0 : j ≠ JNull) by (intros ->; by apply (artifact_not_null a)).
      unfold pointer_json. cbn [unmarshal default]. destruct j; [done|by rewrite Hu..].
    + cbn. destruct (is_empty (po_Error v)) eqn:Ee.
      * apply is_empty_true in Ee. apply reads_omitted; [by cbn; rewrite Ee|]. rewrite Ee. constructor.
      * eapply reads_field; [exact Ee|reflexivity|reflexivity|intros ?; apply string_reads|]. constructor.
  - apply reads_omitted; [by cbn; rewrite E|]. cbn. destruct (is_empty (po_Error v)) eqn:Ee.
    * apply is_empty_true in Ee. apply reads_omitted; [by cbn; rewrite Ee|]. rewrite Ee. constructor.
    * eapply reads_field; [exact Ee|reflexivity|reflexivity|intros ?; apply string_reads|]. constructor.
Qed.

(** C19: the two ends agree on the wire: what the client library sends to
    start and to poll is what the handlers decode, and what the handlers answer
    is what the client decodes, every field in its place; only bytes that are
    not UTF-8 are replaced, and the claims come back as generic JSON. *)
Theorem wire_agrees :
  (∀ q text, Marshal (struct_json startWireRequest_fields) q = Some text →
     read_startRequest text = Some (mkStartRequest (to_valid (swq_LoginHint q))
       (to_valid (swq_CodeChallenge q)) (to_valid (swq_CodeChallengeMethod q))
       (to_valid (swq_ClientKind q)) (to_valid (swq_ClientHost q)))) ∧
  (∀ q text, Marshal (struct_json pollWireRequest_fields) q = Some text →
     read_pollRequest text =
       Some (mkPollRequest (to_valid (pwq_SessionID q)) (to_valid (pwq_CodeVerifier q)))) ∧
  (∀ v, is_int64 (sr_ExpiresIn v) → is_int64 (sr_Interval v) →
     read_startWireResponse (encode_startResponse v) = Some (mkStartWireResponse
       (to_valid (sr_SessionID v)) (to_valid (sr_VerificationURI v)) (to_valid (sr_UserCode v))
       (sr_ExpiresIn v) (sr_Interval v) "")) ∧
  (∀ v text, (∀ a, po_Artifact v = Some a → artifact_printable a) →
     Marshal (struct_json pollResponse_fields) v = Some text →
     read_pollWireResponse (encode_pollResponse v) = Some (mkPollWireResponse
       (to_valid (po_Status v)) (norm_artifact <$> po_Artifact v) (to_valid (po_Error v)))).
Proof.
  split_and!; [apply start_request_read|apply poll_request_read|apply start_response_read
    |apply poll_response_read].
Qed.

End poll.

(** ** An answer with an artifact *)
Definition demo_response : pollResponse :=
  mkPollResponse "approved" (Some (mkArtifact "sub" "alice" {["groups" := AnySlice [AnyString "dev"]]}
    (1700000000 * Second) (1700000120 * Second + 1))) "".

Lemma wire_agrees_witness :
  read_pollWireResponse (@encode_pollResponse UTC demo_response) =
    Some (mkPollWireResponse "approved" (po_Artifact demo_response) "").
Proof.
  destruct (@wire_agrees UTC) as (_ & _ & _ & H).
  erewrite (H demo_response).
  - vm_compute. reflexivity.
  - intros a [= <-]. constructor; [|by right; vm_compute; repeat split..|by vm_compute].
    intros k v H1. cbn [a_Claims] in H1. apply lookup_singleton_Some in H1 as [_ <-]. vm_compute. reflexivity.
  - vm_compute. reflexivity.
Defined.
