(* ===== verification/Commands.v ===== *)
(** The programs built on the client library: [cmd/xdauth-pam/main.go],
    [cmd/xdauth-login/main.go], [cmd/xdauth-pam-native/pam_module.go] and the
    authentication callback of [cmd/xdauth-sshd/main.go].  The environment of
    a run is [Net]: what the start request is answered and what each [select]
    of the poll loop yields.  [None] is a run still waiting.  What
    goes to standard error and to the loggers is not modelled. *)

From S2P Require Import Prelude GoStrings GoTime GoCrypto HttpClient Pkce Session Fsm Http Netip Client.

Local Open Scope list_scope.

Record Net := mkNet {
  net_Do : httpRequest → answer;
  net_rounds : list round;
}.

Definition newline : string := String (ascii_of 10) "".

(** [os.Getenv]. *)
Definition Getenv (env : gmap string string) (k : string) : string := default "" (env !! k).

(** ** xdauth-pam *)
Definition pam_prompt (s : ClientSession) : string :=
  "xdauth: to finish signing in, visit:" +:+ newline +:+ newline +:+ "  " +:+ VerificationURI s
    +:+ newline +:+ newline +:+ "and enter the code: " +:+ cs_UserCode s +:+ newline +:+ newline.

Definition pam_brokerURL (args : list string) (env : gmap string string) : string :=
  match args with _ :: url :: _ => url | _ => Getenv env "XDAUTH_BROKER_URL" end.

Definition pam_clientHost (env : gmap string string) (hostname : string) : string :=
  let clientHost := Getenv env "PAM_RHOST" in
  if is_empty clientHost then hostname else clientHost.

(** Exit code and the lines printed. *)
Definition pam_run (args : list string) (env : gmap string string) (hostname : string)
    (net : Net) (t : entropy) : option (Z * list string) :=
  let brokerURL := pam_brokerURL args env in
  let loginHint := Getenv env "PAM_USER" in
  let clientHost := pam_clientHost env hostname in
  if is_empty brokerURL then Some (1, []) else
  if is_empty loginHint then Some (1, []) else
  match Start (mkStartReq brokerURL loginHint "ssh" clientHost) t (net_Do net) with
  | (Err _, _) => Some (1, [])
  | (Ok sess, _) =>
      let out := [pam_prompt sess; "xdauth: waiting for approval..."] in
      match (Poll sess (net_rounds net)).1 with
      | None => None
      | Some (Err _) => Some (1, out)
      | Some (Ok result) =>
          if seqb (r_Status result) "approved" then Some (0, out ++ ["xdauth: approved."])
          else if seqb (r_Status result) "denied" then Some (1, out)
          else if seqb (r_Status result) "expired" then Some (1, out)
          else Some (1, out)
      end
  end.

(** ** xdauth-login *)
Record loginFlags := mkLoginFlags {
  fl_brokerURL : string;
  fl_loginHint : string;
  fl_clientHost : string;
}.

(** Exit code and the artifact printed as JSON (a nil one prints [null]). *)
Definition login_run (f : loginFlags) (net : Net) (t : entropy)
    : option (Z * option (option Artifact)) :=
  if is_empty (fl_brokerURL f) || is_empty (fl_loginHint f) then Some (2, None) else
  match Start (mkStartReq (fl_brokerURL f) (fl_loginHint f) "cli" (fl_clientHost f)) t (net_Do net) with
  | (Err _, _) => Some (1, None)
  | (Ok sess, _) =>
      match (Poll sess (net_rounds net)).1 with
      | None => None
      | Some (Err _) => Some (1, None)
      | Some (Ok result) =>
          if seqb (r_Status result) "approved" then Some (0, Some (r_Artifact result))
          else if seqb (r_Status result) "denied" then Some (1, None)
          else if seqb (r_Status result) "expired" then Some (1, None)
          else Some (0, None)
      end
  end.

(** ** xdauth-pam-native *)
Inductive pam_code := PAM_SUCCESS | PAM_AUTH_ERR.

Definition moduleArg (argv : list string) (i : nat) : string := default "" (argv !! i).

(** [envItem]: [None] is a failed lookup or an unset item. *)
Definition envItem (item : option string) : string := default "" item.

(** [user]: what [pam_get_user] yields; [conv]: whether there is a conversation
    function; [sent]: whether it accepted the message. *)
Definition pam_sm_authenticate (argv : list string) (user : option string) (conv : bool)
    (rhost : option string) (sent : string → bool) (net : Net) (t : entropy) : option pam_code :=
  let brokerURL := moduleArg argv 0 in
  if is_empty brokerURL then Some PAM_AUTH_ERR else
  match user with
  | None => Some PAM_AUTH_ERR
  | Some loginHint =>
  if negb conv then Some PAM_AUTH_ERR else
  match Start (mkStartReq brokerURL loginHint "ssh" (envItem rhost)) t (net_Do net) with
  | (Err _, _) => Some PAM_AUTH_ERR
  | (Ok sess, _) =>
      let msg := "xdauth: to finish signing in, visit " +:+ VerificationURI sess
                   +:+ " and enter the code: " +:+ cs_UserCode sess in
      if negb (sent msg) then Some PAM_AUTH_ERR else
      match (Poll sess (net_rounds net)).1 with
      | None => None
      | Some (Err _) => Some PAM_AUTH_ERR
      | Some (Ok result) =>
          if negb (seqb (r_Status result) "approved") then Some PAM_AUTH_ERR else Some PAM_SUCCESS
      end
  end end.

Definition pam_sm_setcred : pam_code := PAM_SUCCESS.

(** ** xdauth-sshd *)

(** The callback returns permissions carrying an identity, an error, or
    panics on the nil dereference [result.Artifact.Identity]. *)
Inductive ki_outcome :=
  | KIAccept (identity : string)
  | KIReject
  | KIPanic.

Definition ssh_instruction (s : ClientSession) : string :=
  "xdauth: to finish signing in, visit:" +:+ newline +:+ newline +:+ "  " +:+ VerificationURI s
    +:+ newline +:+ newline +:+ "and enter the code: " +:+ cs_UserCode s +:+ newline +:+ newline
    +:+ "waiting for approval..." +:+ newline.

Definition keyboardInteractiveAuth (brokerURL user remoteAddr : string)
    (challenge : string → bool) (net : Net) (t : entropy) : option ki_outcome :=
  let clientHost := match SplitHostPort_host remoteAddr with
                    | Some host => host | None => remoteAddr end in
  match Start (mkStartReq brokerURL user "ssh" clientHost) t (net_Do net) with
  | (Err _, _) => Some KIReject
  | (Ok sess, _) =>
      if negb (challenge (ssh_instruction sess)) then Some KIReject else
      match (Poll sess (net_rounds net)).1 with
      | None => None
      | Some (Err _) => Some KIReject
      | Some (Ok result) =>
          if negb (seqb (r_Status result) "approved") then Some KIReject else
          match r_Artifact result with
          | None => Some KIPanic
          | Some a => Some (KIAccept (a_Identity a))
          end
      end
  end.

(** ** Failing closed *)

(** The broker's last word for a sign-in of [hint] was "approved". *)
Definition approved_by_broker (req : StartRequest) (net : Net) (t : entropy)
    (artifact : option Artifact) : Prop :=
  ∃ s t', Start req t (net_Do net) = (Ok s, t') ∧
    (Poll s (net_rounds net)).1 = Some (Ok (mkResult "approved" artifact)).

Lemma Poll_status s rounds res :
  (Poll s rounds).1 = Some (Ok res) → final_status (r_Status res).
Proof.
  unfold Poll. intros Hr. destruct (poll_loop_split s (start_interval s) rounds)
    as [(_ & Hn & _)|(pre & x & post & o & _ & _ & Ho & _ & Hx)]; [congruence|].
  rewrite Ho in Hr. simplify_eq. specialize (Hx 0). apply poll_loop_Ok in Hx.
  by destruct Hx as (v & _ & Hv & ->).
Qed.

(** The result is one of the answers received. *)
Lemma Poll_answer s rounds res : (Poll s rounds).1 = Some (Ok res) →
  ∃ x v, x ∈ rounds ∧ answered s x v ∧ res = mkResult (pwr_Status v) (pwr_Artifact v).
Proof.
  unfold Poll. intros Hr. destruct (poll_loop_split s (start_interval s) rounds)
    as [(_ & Hn & _)|(pre & x & post & o & -> & _ & Ho & _ & Hx)]; [congruence|].
  rewrite Ho in Hr. simplify_eq. specialize (Hx 0). apply poll_loop_Ok in Hx.
  destruct Hx as (v & Hv & _ & ->). exists x, v. split; [|done].
  apply elem_of_app. right. by left.
Qed.

(** Reading an [if status == "approved"] in the success case. *)
Lemma approved_result res : seqb (r_Status res) "approved" = true →
  res = mkResult "approved" (r_Artifact res).
Proof. intros H%seqb_true. destruct res. simpl in *. by subst. Qed.

Lemma pam_run_success args env hostname net t :
  (∃ out, pam_run args env hostname net t = Some (0, out)) ↔
  pam_brokerURL args env ≠ "" ∧ Getenv env "PAM_USER" ≠ "" ∧
  ∃ art, approved_by_broker (mkStartReq (pam_brokerURL args env) (Getenv env "PAM_USER") "ssh"
           (pam_clientHost env hostname)) net t art.
Proof.
  unfold pam_run, approved_by_broker.
  destruct (is_empty (pam_brokerURL args env)) eqn:Eu.
  { apply is_empty_true in Eu. naive_solver. }
  destruct (is_empty (Getenv env "PAM_USER")) eqn:Eh.
  { apply is_empty_true in Eh. naive_solver. }
  apply is_empty_false in Eu, Eh.
  destruct (Start _ _ _) as [[s|] t'] eqn:Hs; [|naive_solver]. split.
  - intros [out Hr]. split; [done|]. split; [done|].
    destruct ((Poll s (net_rounds net)).1) as [[res|]|] eqn:Hp; [|done..].
    destruct (seqb (r_Status res) "approved") eqn:Ha; [|by repeat case_match].
    apply approved_result in Ha. exists (r_Artifact res), s, t'. by rewrite Hp, <-Ha.
  - intros (_ & _ & art & s1 & t1 & Hs1 & Hp). simplify_eq. rewrite Hp. by eexists.
Qed.

Lemma login_run_success f net t p :
  login_run f net t = Some (0, p) ↔
  fl_brokerURL f ≠ "" ∧ fl_loginHint f ≠ "" ∧
  ∃ art, p = Some art ∧ approved_by_broker
    (mkStartReq (fl_brokerURL f) (fl_loginHint f) "cli" (fl_clientHost f)) net t art.
Proof.
  unfold login_run, approved_by_broker.
  destruct (is_empty (fl_brokerURL f)) eqn:Eu; simpl.
  { apply is_empty_true in Eu. naive_solver. }
  destruct (is_empty (fl_loginHint f)) eqn:Eh.
  { apply is_empty_true in Eh. naive_solver. }
  apply is_empty_false in Eu, Eh.
  destruct (Start _ _ _) as [[s|] t'] eqn:Hs; [|naive_solver]. split.
  - intros Hr. split; [done|]. split; [done|].
    destruct ((Poll s (net_rounds net)).1) as [[res|]|] eqn:Hp; [|done..].
    pose proof (Poll_status _ _ _ Hp) as Hst.
    destruct (seqb (r_Status res) "approved") eqn:Ha.
    + apply approved_result in Ha. exists (r_Artifact res). split; [congruence|].
      exists s, t'. by rewrite Hp, <-Ha.
    + apply seqb_false in Ha. by destruct Hst as [?|[Hx|Hx]]; rewrite ?Hx in Hr.
  - intros (_ & _ & art & -> & s1 & t1 & Hs1 & Hp). simplify_eq. by rewrite Hp.
Qed.

Lemma pam_native_success argv user conv rhost sent net t :
  pam_sm_authenticate argv user conv rhost sent net t = Some PAM_SUCCESS ↔
  moduleArg argv 0 ≠ "" ∧ conv = true ∧ ∃ hint art s t', user = Some hint ∧
    Start (mkStartReq (moduleArg argv 0) hint "ssh" (envItem rhost)) t (net_Do net) = (Ok s, t') ∧
    sent ("xdauth: to finish signing in, visit " +:+ VerificationURI s
            +:+ " and enter the code: " +:+ cs_UserCode s) = true ∧
    (Poll s (net_rounds net)).1 = Some (Ok (mkResult "approved" art)).
Proof.
  unfold pam_sm_authenticate. destruct (is_empty (moduleArg argv 0)) eqn:Eu.
  { apply is_empty_true in Eu. naive_solver. }
  apply is_empty_false in Eu. destruct user as [hint|]; [|naive_solver].
  destruct conv; simpl; [|naive_solver].
  destruct (Start _ _ _) as [[s|] t'] eqn:Hs.
  2:{ split; [done|]. intros (_ & _ & h & art & s1 & t1 & [= <-] & Hs1 & _). congruence. }
  destruct (sent _) eqn:Hm; simpl.
  2:{ split; [done|]. intros (_ & _ & h & art & s1 & t1 & [= <-] & Hs1 & Hm1 & _).
      rewrite Hs in Hs1. simplify_eq. congruence. }
  split.
  - intros Hr. split; [done|]. split; [done|].
    destruct ((Poll s (net_rounds net)).1) as [[res|]|] eqn:Hp; [|done..].
    destruct (seqb (r_Status res) "approved") eqn:Ha; [|done].
    apply approved_result in Ha. exists hint, (r_Artifact res), s, t'.
    by rewrite Hp, <-Ha.
  - intros (_ & _ & h & art & s1 & t1 & [= <-] & Hs1 & _ & Hp).
    rewrite Hs in Hs1. simplify_eq. by rewrite Hp.
Qed.

Lemma sshd_accepts url user addr challenge net t id :
  keyboardInteractiveAuth url user addr challenge net t = Some (KIAccept id) ↔
  ∃ a s t', Start (mkStartReq url user "ssh"
      (match SplitHostPort_host addr with Some h => h | None => addr end)) t (net_Do net) = (Ok s, t') ∧
    challenge (ssh_instruction s) = true ∧
    (Poll s (net_rounds net)).1 = Some (Ok (mkResult "approved" (Some a))) ∧ id = a_Identity a.
Proof.
  unfold keyboardInteractiveAuth.
  destruct (Start _ _ _) as [[s|] t'] eqn:Hs; [|split; [done|]; by intros (?&?&?&?&_)].
  destruct (challenge _) eqn:Hm; simpl.
  2:{ split; [done|]. intros (a & s1 & t1 & Hs1 & Hm1 & _). simplify_eq. congruence. }
  split.
  - intros Hr. destruct ((Poll s (net_rounds net)).1) as [[res|]|] eqn:Hp; [|done..].
    destruct (seqb (r_Status res) "approved") eqn:Ha; [|done].
    apply approved_result in Ha. destruct (r_Artifact res) as [a|] eqn:Hart; [|done].
    simplify_eq/=. exists a, s, t'. by rewrite Hp.
  - intros (a & s1 & t1 & Hs1 & _ & Hp & ->). simplify_eq. by rewrite Hp.
Qed.

(** C16: each program succeeds exactly when it has its parameters, the start
    request succeeded, the prompt was delivered and the broker's final answer
    was "approved"; every error, denial, expiry and cancellation is a
    failure, and the ssh server hands on the artifact's identity. *)
Theorem commands_fail_closed net t :
  (∀ args env hostname, (∃ out, pam_run args env hostname net t = Some (0, out)) ↔
     pam_brokerURL args env ≠ "" ∧ Getenv env "PAM_USER" ≠ "" ∧
     ∃ art, approved_by_broker (mkStartReq (pam_brokerURL args env) (Getenv env "PAM_USER")
              "ssh" (pam_clientHost env hostname)) net t art) ∧
  (∀ f p, login_run f net t = Some (0, p) ↔
     fl_brokerURL f ≠ "" ∧ fl_loginHint f ≠ "" ∧ ∃ art, p = Some art ∧
     approved_by_broker (mkStartReq (fl_brokerURL f) (fl_loginHint f) "cli" (fl_clientHost f))
       net t art) ∧
  (∀ argv user conv rhost sent,
     pam_sm_authenticate argv user conv rhost sent net t = Some PAM_SUCCESS ↔
     moduleArg argv 0 ≠ "" ∧ conv = true ∧ ∃ hint art s t', user = Some hint ∧
       Start (mkStartReq (moduleArg argv 0) hint "ssh" (envItem rhost)) t (net_Do net) = (Ok s, t') ∧
       sent ("xdauth: to finish signing in, visit " +:+ VerificationURI s
               +:+ " and enter the code: " +:+ cs_UserCode s) = true ∧
       (Poll s (net_rounds net)).1 = Some (Ok (mkResult "approved" art))) ∧
  (∀ url user addr challenge id,
     keyboardInteractiveAuth url user addr challenge net t = Some (KIAccept id) ↔
     ∃ a s t', Start (mkStartReq url user "ssh"
         (match SplitHostPort_host addr with Some h => h | None => addr end)) t (net_Do net) = (Ok s, t') ∧
       challenge (ssh_instruction s) = true ∧
       (Poll s (net_rounds net)).1 = Some (Ok (mkResult "approved" (Some a))) ∧ id = a_Identity a).
Proof.
  split_and!; intros; [apply pam_run_success|apply login_run_success
    |apply pam_native_success|apply sshd_accepts].
Qed.
