(* ===== verification/EndToEnd.v ===== *)
(** Client and broker together: what a program that was told "approved" knows
    when the bytes it polled came from the verified broker. *)

From S2P Require Import Prelude GoStrings GoUtf8 GoTime GoFormat GoMarshal GoCrypto GoUrl HttpClient.
From S2P Require Import UserCode Pkce Session SessionJson Fsm Wire FsmSpec FsmTrace Store Http.
From S2P Require Import ClientIP ClientAuth Detect RateLimit Prog Broker Handlers System Justify.
From S2P Require Import Safety Scenario Client WireTrip Commands.

Local Open Scope list_scope.

(** The bytes of a JSON response; pages go through [html/template]. *)
Definition json_bytes `{Location} (rw : ResponseWriter) : option string :=
  match rw_body rw with
  | Some (JSONStart v) => Some (encode_startResponse v)
  | Some (JSONPoll v) => Some (encode_pollResponse v)
  | _ => None
  end.

Section EndToEnd.
Context {St I : Type} `{StoreLaws St} `{RateLimiter} `{IdentityProviderLaws I}.
Context `{UnicodeCase} `{Location}.
Variable sys : Sys (St := St) (I := I).

(** An answer the client of session [s] accepts is the broker's response to
    the very bytes it polls with, and the artifact in it has a faithful JSON
    text; anything else need not come from the broker. *)
Definition from_broker (s : ClientSession) (x : round) : Prop :=
  ∀ v, answered s x v → ∃ i rw r body,
    response sys i = Some rw ∧ serves (hist sys) i PollEndpoint r ∧
    Marshal (struct_json pollWireRequest_fields) (mkPollWireRequest (cs_ID s) (cs_verifier s))
      = Some (Body r) ∧
    json_bytes rw = Some body ∧ x = Fires (Answer (default StatusOK (rw_status rw)) body) ∧
    (∀ a, artifact_in rw = Some a → artifact_printable a).

(** Only the client itself starts sessions with its challenge, and it asks
    for [hint]. *)
Definition own_challenge (hint : string) (s : ClientSession) : Prop := ∀ i r req,
  serves (hist sys) i Handlers.Start r → decode_startRequest r = Some req →
  sq_CodeChallenge req = s256 (cs_verifier s) →
  ∃ q, Marshal (struct_json startWireRequest_fields) q = Some (Body r) ∧ swq_LoginHint q = hint.

(** What the client reads in a broker's answer to a poll. *)
Lemma read_answer s x v rw body :
  (∀ a, artifact_in rw = Some a → artifact_printable a) → json_bytes rw = Some body →
  is_Some (status_in rw) → x = Fires (Answer (default StatusOK (rw_status rw)) body) →
  answered s x v →
  ∃ pv, rw_body rw = Some (JSONPoll pv) ∧ pwr_Status v = to_valid (po_Status pv) ∧
    pwr_Artifact v = norm_artifact <$> po_Artifact pv.
Proof.
  intros Ha Hb [st Hst] -> (_ & body' & Hx & Hr). injection Hx as _ <-.
  unfold json_bytes, status_in in *. destruct (rw_body rw) as [[|pv| | |]|] eqn:E; try done.
  injection Hb as <-. exists pv. split; [done|].
  assert (Hp : ∀ a, po_Artifact pv = Some a → artifact_printable a).
  { intros a Hpa. apply Ha. unfold artifact_in. by rewrite E. }
  destruct (Marshal (struct_json pollResponse_fields) pv) as [text|] eqn:Ht.
  - rewrite (poll_response_read pv text Hp Ht) in Hr. by injection Hr as <-.
  - exfalso. unfold encode_pollResponse, Encode in Hr. by rewrite Ht in Hr.
Qed.

End EndToEnd.

Section Theorem_.
Context {St I : Type} `{StoreLaws St} `{RateLimiter} `{IdentityProviderLaws I}.
Context `{UnicodeCase} `{Location}.
Variable cfg : Config.
Variable w : World St I.
Hypothesis fresh_store : store_ok (w_store w) ∧ store_view (w_store w) = ∅.
Variable acts : list action.
Notation final := (exec cfg acts (init w)).
Notation norm := (IdentityNormalizer cfg).

(** C2: whatever the interleaving at the broker, a program told "approved"
    for a hint (for the commands: one that succeeds) holds an artifact that is
    the broker's, up to the bytes JSON replaces; the identity in it is one the
    identity provider asserted for that session, approved from the browser
    that logged in, and equal to the hint under the configured
    normalisation. *)
Theorem approved_login_is_the_hinted_user req net t art :
  approved_by_broker req net t art →
  (∀ s t', Client.Start req t (net_Do net) = (Ok s, t') →
     Forall (from_broker final s) (net_rounds net) ∧ own_challenge final (c_LoginHint req) s) →
  ∃ a sess ident secret, art = Some a ∧
    logged_in cfg (hist final) sess ident secret ∧ approved_by (hist final) sess ∧
    a = norm_artifact (artifact_of ident sess (ArtifactTTL cfg)) ∧
    normalizer_or_default norm (Value ident) = normalizer_or_default norm (to_valid (c_LoginHint req)).
Proof.
  intros (s & t' & Hs & Hp) Hnet. destruct (Hnet s t' Hs) as [Hall Hown].
  apply Start_verifier in Hs as Hver0.
  apply Poll_answer in Hp as (x & v & Hx & Hans & Hres). injection Hres as Hv1 Hv2.
  rewrite list.Forall_forall in Hall.
  destruct (Hall _ Hx _ Hans) as (i & rw & r & body & Hrw & Hsv & Hd & Hb & Heq & Hpr).
  destruct (response_claim cfg w fresh_store acts i rw Hrw) as (e & r' & Hsv' & Hc).
  unfold serves in Hsv, Hsv'. rewrite Hsv in Hsv'. simplify_eq.
  destruct (cl_poll _ _ _ _ _ _ Hc eq_refl) as (st & Hst & Hva).
  destruct (read_answer s _ v rw body Hpr Hb (mk_is_Some _ _ Hst) eq_refl Hans) as (pv & Hpv & Hs1 & Hs2).
  assert (Happ : status_in rw = Some "approved").
  { unfold status_in in Hst |- *. rewrite Hpv in Hst |- *. injection Hst as <-.
    rewrite to_valid_id in Hs1 by done. congruence. }
  destruct (cl_status _ _ _ _ _ _ Hc Happ) as [a Ha].
  destruct (cl_artifact _ _ _ _ _ _ Hc a Ha)
    as (sess & preq & ident & _ & Hd' & _ & Hj & Hst' & _ & Hi & Hver & ->).
  unfold decode_pollRequest in Hd'. rewrite (poll_request_read _ _ Hd) in Hd'. injection Hd' as <-.
  cbn [pq_CodeVerifier pwq_CodeVerifier] in Hver. rewrite to_valid_id in Hver by done.
  apply verifyClientPKCE_spec in Hver as [_ Hch].
  destruct (just_login _ _ _ Hj) as (ident' & secret & Hl); [by right|].
  pose proof Hl as (?&?&?&?&_&_&_&_&_&_&_&_&Hm&Hi'&_). simplify_eq.
  exists (norm_artifact (artifact_of ident sess (ArtifactTTL cfg))), sess, ident, secret.
  split. { unfold artifact_in in Ha. rewrite Hpv in Ha. rewrite Hs2, Ha. done. }
  split; [done|]. split; [by apply (just_approved _ _ _ Hj)|]. split; [done|].
  destruct (just_started _ _ _ Hj) as (j & rj & reqj & Hsj & Hdj & _ & Hh & _ & Hcj & _).
  destruct (Hown j rj reqj Hsj Hdj) as (q & Hq & <-); [congruence|].
  unfold decode_startRequest in Hdj. rewrite (start_request_read _ _ Hq) in Hdj. injection Hdj as <-.
  cbn [sq_LoginHint] in Hh. by rewrite Hh.
Qed.

End Theorem_.

(** ** A sign-in through xdauth-pam *)
Definition pam_net : Net := {|
  net_Do := λ _, match started_as with
    | Some v => Answer StatusOK (encode_startResponse v)
    | None => TransportError
    end;
  net_rounds := [Fires (Answer StatusOK (default "" (json_bytes final_response)))];
|}.

Definition pam_request : StartRequest :=
  mkStartReq "https://xdauth.example/" "Alice@Example.com" "ssh" "host-42".

Definition pam_session : ClientSession :=
  match (Client.Start pam_request client_entropy (net_Do pam_net)).1 with
  | Ok s => s
  | Err _ => mkClientSession "" "" "" 0 0 "" ""
  end.

Lemma Ok_unique {A E T} {x : result A E * T} {a b t1 t2} :
  x = (Ok a, t1) → x = (Ok b, t2) → a = b.
Proof. congruence. Qed.

Lemma pam_started :
  ∃ t', Client.Start pam_request client_entropy (net_Do pam_net) = (Ok pam_session, t').
Proof.
  unfold pam_session.
  destruct (Client.Start pam_request client_entropy (net_Do pam_net)) as [[s|e] t'] eqn:E;
    [by exists t'|].
  apply (f_equal (is_ok ∘ fst)) in E. vm_compute in E. discriminate.
Qed.

Lemma pam_polled :
  (Poll pam_session (net_rounds pam_net)).1 = Some (Ok (mkResult "approved" (Some alice_artifact))).
Proof. vm_compute. reflexivity. Qed.

Lemma pam_approved : approved_by_broker pam_request pam_net client_entropy (Some alice_artifact).
Proof.
  destruct pam_started as [t' Hs]. exists pam_session, t'. split; [exact Hs|exact pam_polled].
Qed.

Lemma alice_printable a : artifact_in final_response = Some a → artifact_printable a.
Proof.
  rewrite (proj2 login_completes). intros [= <-].
  constructor; [by intros k v ?|by right..|by vm_compute].
Qed.

Lemma pam_from_broker :
  Forall (from_broker (exec cfg acts_poll (init world)) pam_session) (net_rounds pam_net).
Proof.
  constructor; [|constructor]. intros v _.
  eexists 4%nat, final_response, Scenario.poll_request, _.
  split; [exact (proj1 login_completes)|]. split; [reflexivity|].
  split; [vm_compute; reflexivity|]. split; [vm_compute; reflexivity|].
  split; [vm_compute; reflexivity|apply alice_printable].
Qed.

(** Every start request of the run is the one the client sends. *)
Definition sent_by (q : startWireRequest) (er : endpoint * Request) : bool :=
  match er.1 with
  | Handlers.Start => bool_decide (Marshal (struct_json startWireRequest_fields) q = Some (Body er.2))
  | _ => true
  end.

Definition pam_wire : startWireRequest :=
  mkStartWireRequest "Alice@Example.com" (s256 (cs_verifier pam_session)) "S256" "ssh" "host-42".

Lemma run_starts :
  forallb (sent_by pam_wire) (hist (exec cfg acts_poll (init world))).1 = true.
Proof. vm_compute. reflexivity. Qed.

Lemma pam_own_challenge :
  own_challenge (exec cfg acts_poll (init world)) (c_LoginHint pam_request) pam_session.
Proof.
  intros i r req Hs _ _. exists pam_wire. split; [|reflexivity].
  pose proof run_starts as Hall. rewrite forallb_forall in Hall.
  apply list_elem_of_lookup_2, list_elem_of_In, Hall in Hs.
  by apply bool_decide_eq_true in Hs.
Qed.

Lemma pam_answers s t' :
  Client.Start pam_request client_entropy (net_Do pam_net) = (Ok s, t') →
  Forall (from_broker (exec cfg acts_poll (init world)) s) (net_rounds pam_net) ∧
  own_challenge (exec cfg acts_poll (init world)) (c_LoginHint pam_request) s.
Proof.
  destruct pam_started as [t1 H1]. intros Hs.
  assert (s = pam_session) as ->; [|exact (conj pam_from_broker pam_own_challenge)].
  exact (Ok_unique Hs H1).
Qed.

Lemma approved_login_is_the_hinted_user_witness :
  ∃ ident sess, alice_artifact = norm_artifact (artifact_of ident sess (ArtifactTTL cfg)) ∧
    normalizer_or_default (IdentityNormalizer cfg) (Value ident)
    = normalizer_or_default (IdentityNormalizer cfg) (to_valid (c_LoginHint pam_request)).
Proof.
  destruct (approved_login_is_the_hinted_user cfg world fresh acts_poll pam_request pam_net
    client_entropy (Some alice_artifact) pam_approved pam_answers)
    as (a & sess & ident & secret & Ha & _ & _ & He & Hn).
  injection Ha as Ha. exists ident, sess. rewrite Ha. split; [exact He|exact Hn].
Defined.

Lemma Start_sends_its_challenge_witness :
  verifyClientPKCE (cs_verifier pam_session) (s256 (cs_verifier pam_session)) = true.
Proof.
  destruct pam_started as [t' Hs].
  destruct (Start_sends_its_challenge pam_request client_entropy (net_Do pam_net) pam_session t' Hs)
    as (hreq & body & v & _ & _ & _ & _ & _ & _ & _ & _ & Hv & _).
  exact Hv.
Defined.
