(* ===== verification/Pacing.v ===== *)
(** Client and broker pace each other: the polls of [Client.Poll] against the
    session the broker keeps, whatever others do to the session between them.
    The instants are those at which the broker serves the polls. *)

From Stdlib Require Import Sorted.
From S2P Require Import Prelude GoStrings GoUtf8 GoTime GoFormat GoMarshal SessionJson GoCrypto GoUrl.
From S2P Require Import HttpClient UserCode Pkce Session Fsm Wire FsmSpec FsmTrace Store Http.
From S2P Require Import ClientIP ClientAuth Detect RateLimit Prog Broker Handlers System Safety Client WireTrip EndToEnd.

Local Open Scope list_scope.

(** One poll of the client: what happened to the session since the previous
    one, when the broker served the poll, and how the round ended for the
    client. *)
Record exchange := mkExchange {
  ex_others : list op;
  ex_served : Time;
  ex_round : round;
}.

(** What the client decodes, if it decodes anything, is the broker's status. *)
Definition conveys (cs : ClientSession) (x : round) (o : poll_outcome) : Prop :=
  ∀ v, answered cs x v → ∃ st, poll_status o = Some st ∧ pwr_Status v = PollStatus_string st.

(** Each poll but the first is served no sooner than the wait before it. *)
Fixpoint timely (ws : list Duration) (es : list exchange) : Prop :=
  match es with
  | e :: ((e' :: _) as rest) =>
      match ws with
      | [] => False
      | w :: ws => ex_served e + w ≤ ex_served e' ∧ timely ws rest
      end
  | _ => True
  end.

Section Pacing.
Context `{UnicodeCase}.
Variable norm : option Normalizer.
Variable cs : ClientSession.
Variable ttl : Duration.

(** The polls of the client on the session of the broker. *)
Fixpoint dialogue (s : Session) (es : list exchange) : Prop :=
  match es with
  | [] => True
  | e :: rest =>
      let s1 := after norm (ex_others e) s in
      let (o, s2) := poll s1 (cs_verifier cs) (ex_served e) ttl in
      conveys cs (ex_round e) o ∧ dialogue s2 rest
  end.

(** Whoever else polls does not have the verifier. *)
Definition stranger (s : Session) (o : op) : Prop :=
  ∀ v now attl, o = OpPoll v now attl → verifyClientPKCE v (CodeChallenge s) = false.

Definition rounds_of (es : list exchange) : list round := map ex_round es.

(** *** What the handler answers *)

Lemma conveys_decoded x v0 o st : answered cs x v0 →
  poll_status o = Some st → pwr_Status v0 = PollStatus_string st → conveys cs x o.
Proof. intros Hv0 Ho Hs v Hv. exists st. split; [done|]. by rewrite (answered_unique _ _ _ _ Hv Hv0). Qed.

Lemma status_valid st : to_valid (PollStatus_string st) = PollStatus_string st.
Proof. by destruct st. Qed.

(** A response that tells the outcome. *)
Definition tells (o : poll_outcome) (rw : ResponseWriter) : Prop :=
  (∃ c, rw_status rw = Some c ∧ c ≠ StatusOK) ∨
  (∃ st, status_in rw = Some (PollStatus_string st) ∧ poll_status o = Some st).

Lemma tells_conveys `{Location} o rw body : tells o rw → json_bytes rw = Some body →
  (∀ a, artifact_in rw = Some a → artifact_printable a) →
  conveys cs (Fires (Answer (default StatusOK (rw_status rw)) body)) o.
Proof.
  intros Ht Hb Ha v Hv. destruct Ht as [(c & Hc & Hne) | (st & Hst & Ho)].
  - destruct Hv as (_ & b & Hx & _). injection Hx as Hx _. by rewrite Hc in Hx.
  - exists st. split; [done|].
    destruct (read_answer cs _ v rw body Ha Hb ltac:(by eexists) eq_refl Hv) as (pv & Hpv & -> & _).
    unfold status_in in Hst. rewrite Hpv in Hst. injection Hst as ->. apply status_valid.
Qed.

(** [handlePoll] answers an outcome with a response that tells it, possibly
    after a line in the log. *)
Lemma poll_response_tells o sess w : o ≠ PollPanics → rw_status w = None → rw_body w = None →
  ∃ (p : prog unit) rw, poll_response o sess w = pbind p (λ _, Ret rw) ∧ tells o rw.
Proof.
  intros Ho Hws Hwb. unfold poll_response. destruct o as [[st a]|e|]; [| |done].
  - destruct st, a; cbn [pr_Status pr_Artifact];
      (eexists _, _; split; [first [reflexivity|exact (eq_refl (pbind (Ret tt) (λ _, Ret _)))]|];
       right; eexists; split; [|reflexivity]; unfold status_in, writeJSON, Write, WriteHeader; cbn;
       by rewrite ?Hws, ?Hwb).
  - destruct e; (eexists _, _; split; [first [reflexivity|exact (eq_refl (pbind (Ret tt) (λ _, Ret _)))]|];
       left; eexists; cbn; by rewrite Hws).
Qed.

(** *** The broker's clock of the session *)

Lemma origin_stranger s s' o : origin s' = origin s → stranger s o → stranger s' o.
Proof.
  unfold stranger. intros Ho. assert (CodeChallenge s' = CodeChallenge s) as -> by (unfold origin in Ho; congruence).
  done.
Qed.

(** Strangers do not move [LastPollAt]. *)
Lemma stranger_step s o : stranger s o → LastPollAt (after_op norm o s) = LastPollAt s.
Proof.
  intros Ho. pose proof (after_op_effect norm o s) as Heff. revert Heff.
  generalize (after_op norm o s) as s'. intros s' Heff.
  effect_cases Heff; try done; exfalso;
    by match goal with E : verifyClientPKCE _ _ = true |- _ => rewrite (Ho _ _ _ eq_refl) in E end.
Qed.

Lemma strangers_after ops s : Forall (stranger s) ops →
  LastPollAt (after norm ops s) = LastPollAt s.
Proof.
  induction ops as [|o ops IH] using rev_ind; [done|].
  rewrite Forall_app, list.Forall_singleton. intros [Hops Ho].
  rewrite after_snoc, stranger_step; [auto|].
  eapply origin_stranger; [apply after_origin|done].
Qed.

(** A poll leaves [LastPollAt] or sets it to its instant, and is only asked to
    slow down within [Interval] of it. *)
Lemma poll_clock s v now o s' : poll s v now ttl = (o, s') →
  (LastPollAt s' = LastPollAt s ∨ LastPollAt s' = now) ∧ origin s' = origin s ∧
  (poll_status o = Some PollSlowDown → too_soon s now).
Proof.
  intros Hp. apply poll_cases in Hp.
  destruct Hp as [s1 He| | | | | | |]; cbn; try naive_solver.
  inversion He; subst; cbn; naive_solver.
Qed.

(** No poll of the client has been timed yet, or the last one at least [d]
    before [t]. *)
Definition quiet (s : Session) (d : Duration) (t : Time) : Prop :=
  LastPollAt s = 0 ∨ LastPollAt s + d ≤ t.

(** A client that waited [i] is asked to slow down only if [i] is less than
    the session's interval. *)
Lemma slow_down_means_short s i x v now o s' :
  poll s v now ttl = (o, s') → conveys cs x o → is_slow_down cs x = true →
  quiet s i now → min_int64 < Interval s ≤ max_int64 → i < Interval s.
Proof.
  intros Hp Hx Hs Hq Hi. apply poll_clock in Hp as (_ & _ & Hslow).
  unfold is_slow_down in Hs. destruct x as [|w]; [done|].
  destruct (pollOnce cs w) as [[st a]|] eqn:Ew; [|done].
  apply pollOnce_Ok in Ew as (pv & Hv & <- & _). destruct (Hx pv Hv) as (st & Ho & Hst).
  apply seqb_true in Hs. rewrite Hs in Hst. assert (st = PollSlowDown) as -> by (by destruct st).
  destruct (Hslow Ho) as [Hne Hlt]. rewrite <-Z.ltb_lt, Sub_lt, Z.ltb_lt in Hlt by done.
  destruct Hq; [done|lia].
Qed.

(** After an exchange the session is as quiet as the client waits. *)
Lemma quiet_after_poll s v now o s' i w t' : poll s v now ttl = (o, s') →
  quiet s i now → 0 ≤ i → 0 ≤ w → now + w ≤ t' → quiet s' w t'.
Proof.
  unfold quiet. intros Hp Hq Hi Hw Ht. apply poll_clock in Hp as ([-> | ->] & _); lia.
Qed.

(** ** The dialogue *)

Lemma grow_within i int : 0 < i < int → int * 2 ≤ max_int64 →
  i ≤ grow i ≤ int + Z.quot int 2.
Proof.
  intros Hi Hm. destruct (grow_bounds i) as [Hl _]; [lia..|]. split; [done|].
  pose proof (Z.quot_pos i 2). pose proof (Z.quot_le_mono i int 2).
  assert (Z.quot i 2 ≤ i) by (apply Z.quot_le_upper_bound; lia).
  unfold grow, Duration_add. rewrite wrap64_id; [lia|].
  unfold is_int64, min_int64, max_int64 in *. lia.
Qed.

(** One turn of the client's loop. *)
Definition next_wait (i : Duration) (x : round) : Duration := if is_slow_down cs x then grow i else i.

Lemma poll_loop_turn i x rest :
  (poll_loop cs i (x :: rest)).2 = [] ∨
  (poll_loop cs i (x :: rest)).2 = next_wait i x :: (poll_loop cs (next_wait i x) rest).2.
Proof.
  destruct (poll_loop cs i [x]).1 as [o|] eqn:Ho.
  { left. by rewrite (poll_loop_stops cs i x o Ho). }
  right. destruct (poll_loop_split cs i [x]) as [(Hf & _)|(? & ? & ? & o & _ & _ & Hr & _)]; [|congruence].
  inversion Hf as [|? ? Hx _]; subst. by rewrite (poll_loop_keeps cs i x rest Hx).
Qed.

Lemma paced_loop es : ∀ s i, 0 < i → 0 < Interval s → Interval s * 2 ≤ max_int64 →
  dialogue s es → Forall (λ e, Forall (stranger s) (ex_others e)) es →
  (∀ e, head es = Some e → quiet s i (ex_served e)) →
  let ws := (poll_loop cs i (rounds_of es)).2 in timely ws es →
  Forall (λ w, i ≤ w ≤ Z.max i (Interval s + Z.quot (Interval s) 2)) ws ∧ Sorted Z.le ws ∧
  (Interval s ≤ i → Forall (λ e, is_slow_down cs (ex_round e) = false) es ∧ Forall (eq i) ws).
Proof.
  induction es as [|e es IH]; intros s i Hi Hp Hm Hd Hst Hq; [repeat constructor|]. cbn zeta.
  cbn [dialogue] in Hd. set (s1 := after norm (ex_others e) s) in Hd.
  destruct (poll s1 _ _ _) as [o s2] eqn:Epoll. destruct Hd as [Hx Hd].
  apply list.Forall_cons in Hst as [Hot Hst].
  assert (Ho1 : origin s1 = origin s) by apply after_origin.
  assert (Hi1 : Interval s1 = Interval s) by (unfold origin in Ho1; congruence).
  assert (Hq1 : quiet s1 i (ex_served e)).
  { unfold quiet, s1. rewrite (strangers_after _ _ Hot). by apply Hq. }
  pose proof (poll_clock _ _ _ _ _ Epoll) as (_ & Ho2 & _). rewrite Ho1 in Ho2.
  assert (Hi2 : Interval s2 = Interval s) by (unfold origin in Ho2; congruence).
  assert (Hshort : is_slow_down cs (ex_round e) = true → i < Interval s).
  { intros Hs. rewrite <-Hi1. eapply slow_down_means_short; [exact Epoll|exact Hx|exact Hs|exact Hq1|].
    rewrite Hi1. unfold min_int64, max_int64 in *. lia. }
  set (i' := next_wait i (ex_round e)).
  assert (Hi' : i ≤ i' ≤ Z.max i (Interval s + Z.quot (Interval s) 2)).
  { unfold i', next_wait. destruct (is_slow_down _ _); [|lia].
    pose proof (grow_within i (Interval s)). lia. }
  assert (Hslow : Interval s ≤ i → is_slow_down cs (ex_round e) = false ∧ i' = i).
  { intros Hle. unfold i', next_wait. destruct (is_slow_down _ _); [|done]. specialize (Hshort eq_refl). lia. }
  cbn [rounds_of map]. fold (rounds_of es).
  destruct (poll_loop_turn i (ex_round e) (rounds_of es)) as [-> | ->]; intros Ht.
  - destruct es; [|done]. split; [constructor|]. split; [constructor|]. intros Hle.
    split; [|constructor]. constructor; [by apply Hslow|constructor].
  - fold i' in Ht |- *.
    destruct (IH s2 i') as (Hf & Hs & Hn); rewrite ?Hi2; try lia; try done.
    + eapply list.Forall_impl; [exact Hst|]. intros e' He'. eapply list.Forall_impl; [exact He'|].
      intros o'. by apply origin_stranger.
    + intros e' He'. destruct es as [|e'' es]; [done|]. injection He' as <-. destruct Ht as [Ht _].
      eapply quiet_after_poll; [exact Epoll|exact Hq1|lia..].
    + destruct es; [done|]. by destruct Ht.
    + rewrite Hi2 in Hf, Hn. split_and!.
      * constructor; [done|]. eapply list.Forall_impl; [exact Hf|]. cbn. lia.
      * constructor; [done|]. destruct Hf; constructor. lia.
      * intros Hle. destruct (Hslow Hle) as [Hs1 He]. rewrite He in Hn |- *.
        destruct (Hn Hle). split; by constructor.
Qed.

(** From the first poll to the last there is one wait per poll after the first. *)
Lemma timely_span i mid e' : ∀ e ws, timely ws (e :: mid ++ [e']) → Forall (λ w, i ≤ w) ws →
  (Z.of_nat (length mid) + 1) * i ≤ ex_served e' - ex_served e.
Proof.
  induction mid as [|e1 mid IH]; intros e ws Ht Hw.
  - destruct ws as [|w ws]; [done|]. destruct Ht as [Ht _].
    apply list.Forall_cons in Hw as [Hi _]. cbn [length]. lia.
  - cbn [app] in Ht. destruct ws as [|w ws]; [done|]. destruct Ht as [Hw1 Ht].
    apply list.Forall_cons in Hw as [Hi Hw]. specialize (IH e1 ws Ht Hw).
    cbn [length]. rewrite Nat2Z.inj_succ. lia.
Qed.

(** The interval the broker announces is a whole number of seconds. *)
Lemma whole_seconds_announced n : 0 < n ≤ 3600 → int_Seconds (n * Second) = n.
Proof.
  intros Hn. assert (Hall : forallb (λ k, int_Seconds (k * Second) =? k) (seqZ 1 3600) = true)
    by (vm_compute; reflexivity).
  rewrite forallb_forall in Hall. apply Z.eqb_eq, (Hall n), list_elem_of_In, elem_of_seqZ. lia.
Qed.

Lemma announced_start n : 0 < n ≤ 3600 →
  cs_Interval cs = Duration_mul (int_Seconds (n * Second)) Second → start_interval cs = n * Second.
Proof.
  intros Hn. rewrite whole_seconds_announced by done. unfold Duration_mul.
  rewrite wrap64_id by (unfold is_int64, min_int64, max_int64, Second; lia).
  unfold start_interval. intros ->. case_match; [|done]. reflect_bool. unfold Second in *. lia.
Qed.

(** C24: the client paces itself to the broker.  Whatever others without the
    verifier do to the session between its polls, and however late these are
    served, the waits of [Poll] never fall below the interval it started with
    (the announced one, three seconds if none was), never shrink, and never
    exceed the larger of that interval and one and a half times the session's:
    they cannot overflow.  A client
    that starts with at least the session's interval is never told to slow
    down; so is one that uses the interval the broker announced, if that is a
    whole number of seconds up to an hour.  Hence [n] polls take at least [n - 1]
    intervals, which bounds the polls made before any deadline. *)
Theorem polling_is_paced p attl int now t s t' es :
  newSession p attl int now t = (Ok s, t') → 0 < int → int * 2 ≤ max_int64 →
  dialogue s es → Forall (λ e, Forall (stranger s) (ex_others e)) es →
  let i := start_interval cs in let ws := (Poll cs (rounds_of es)).2 in timely ws es →
  Forall (λ w, 0 < i ≤ w ∧ w ≤ Z.max i (int + Z.quot int 2)) ws ∧ Sorted Z.le ws ∧
  (int ≤ i ∨ (∃ n, 0 < n ≤ 3600 ∧ int = n * Second ∧
                cs_Interval cs = Duration_mul (int_Seconds int) Second) →
     Forall (λ e, is_slow_down cs (ex_round e) = false) es ∧ Forall (eq i) ws) ∧
  (∀ e mid e', es = e :: mid ++ [e'] →
     (Z.of_nat (length mid) + 1) * i ≤ ex_served e' - ex_served e).
Proof.
  intros Hn Hp Hm Hd Hst i ws Ht. pose proof (start_interval_pos cs) as Hi.
  assert (Hf : Interval s = int ∧ LastPollAt s = 0).
  { unfold newSession in Hn. by split_cases_in Hn. }
  destruct Hf as [Hint Hlast]. rewrite <-Hint in Hp, Hm |- *.
  destruct (paced_loop es s i Hi Hp Hm Hd Hst ltac:(by left) Ht) as (Hf & Hs & Hslow).
  split_and!.
  - eapply list.Forall_impl; [exact Hf|]. cbn. lia.
  - done.
  - intros Hle. apply Hslow. destruct Hle as [Hle | (n & Hn' & Hn'' & Ha)]; [done|].
    rewrite Hn'' in Ha |- *. unfold i. by rewrite (announced_start n Hn' Ha).
  - intros e mid e' ->. eapply timely_span; [exact Ht|]. eapply list.Forall_impl; [exact Hf|]. cbn. lia.
Qed.

End Pacing.

(** ** A sign-in with three polls *)
Import FsmTrace.Demo.
#[local] Existing Instance case_tables.

Definition paced_client : ClientSession :=
  mkClientSession "s1" "" "" (300 * Second) (3 * Second) "https://xdauth.example" verifier.

(** How the client sees the status [st]. *)
Definition told (st : PollStatus) : round :=
  Fires (Answer StatusOK (@encode_pollResponse UTC (mkPollResponse (PollStatus_string st) None ""))).

Definition paced_exchanges : list exchange :=
  [mkExchange [] (t0 + Second) (told PollPending);
   mkExchange [OpPoll "not-the-verifier" (t0 + 4 * Second) 0; login] (t0 + 20 * Second) (told PollPending);
   mkExchange [approval (20 * Second)] (t0 + 23 * Second) (told PollApproved)].

Lemma told_conveys st o : poll_status o = Some st → conveys paced_client (told st) o.
Proof.
  intros Ho. refine (conveys_decoded _ _ (mkPollWireResponse (PollStatus_string st) None "") _ st _ Ho eq_refl).
  split; [by eexists|]. eexists. split; [reflexivity|]. by destruct st; vm_compute.
Qed.

Lemma told_turn s ops now st es :
  let r := poll (after None ops s) verifier now (120 * Second) in
  poll_status r.1 = Some st → dialogue None paced_client (120 * Second) r.2 es →
  dialogue None paced_client (120 * Second) s (mkExchange ops now (told st) :: es).
Proof.
  cbn [dialogue ex_others ex_served ex_round cs_verifier paced_client].
  destruct (poll _ _ _ _) as [o s2]. split; [by apply told_conveys|done].
Qed.

Lemma paced_dialogue : dialogue None paced_client (120 * Second) session paced_exchanges.
Proof. repeat (apply told_turn; [vm_compute; reflexivity|]). exact I. Qed.

Lemma polling_is_paced_witness :
  Forall (λ e, is_slow_down paced_client (ex_round e) = false) paced_exchanges ∧
  (Poll paced_client (rounds_of paced_exchanges)).2 = [3 * Second; 3 * Second].
Proof.
  split; [|vm_compute; reflexivity].
  refine (proj1 (proj1 (proj2 (proj2 (polling_is_paced None paced_client (120 * Second) params
    (5 * Minute) (3 * Second) t0 tape session tape1 paced_exchanges session_created _ _ paced_dialogue _ _)))
    (or_intror (ex_intro _ 3 _)))).
  - vm_compute. reflexivity.
  - vm_compute. discriminate.
  - repeat constructor; intros v now attl [=]; subst; vm_compute; reflexivity.
  - vm_compute. split; [discriminate|]. split; [discriminate|exact I].
  - split; [vm_compute; split; [reflexivity|discriminate]|]. split; vm_compute; reflexivity.
Defined.
