(* ===== verification/Sshd.v ===== *)
(** The demonstration ssh server: [cmd/xdauth-sshd/main.go], around the
    authentication callback of [Commands].  golang.org/x/crypto/ssh is
    third-party: the class [SshLib] gives what the source calls, and
    [SshLibLaws] what is documented of a handshake.  Goroutines are
    independent here: a connection shares nothing with another one. *)

From S2P Require Import Prelude GoStrings GoTime GoCrypto Pkce Session Fsm Http Netip Client.
From S2P Require Import Commands.
From S2P Require EndToEnd Scenario.

Local Open Scope list_scope.

(** [ssh.Permissions]: its extensions. *)
Notation Permissions := (gmap string string).

(** What one call of the callback is given: [ssh.ConnMetadata], the challenge
    function (does the client take the prompt?), and what its sign-in meets. *)
Record auth_attempt := mkAuthAttempt {
  aa_User : string;
  aa_RemoteAddr : string;
  aa_challenge : string → bool;
  aa_net : Net;
  aa_entropy : entropy;
}.

(** [ssh.ServerConfig]: the ways to authenticate, and the host keys.  A
    callback answers permissions, or [None]: an error, or no answer yet. *)
Record ServerConfig (Signer : Type) := mkServerConfig {
  NoClientAuth : bool;
  PasswordCallback : option (auth_attempt → option Permissions);
  PublicKeyCallback : option (auth_attempt → option Permissions);
  KeyboardInteractiveCallback : option (auth_attempt → option Permissions);
  hostKeys : list Signer;
}.
Arguments mkServerConfig {Signer} _ _ _ _ _.
Arguments NoClientAuth {Signer} _.
Arguments PasswordCallback {Signer} _.
Arguments PublicKeyCallback {Signer} _.
Arguments KeyboardInteractiveCallback {Signer} _.
Arguments hostKeys {Signer} _.

Definition AddHostKey {S} (key : S) (c : ServerConfig S) : ServerConfig S :=
  mkServerConfig (NoClientAuth c) (PasswordCallback c) (PublicKeyCallback c)
    (KeyboardInteractiveCallback c) (hostKeys c ++ [key]).

(** An out-of-band request of a channel, and a channel a client wants opened;
    [nc_Accept] is the sequence of its requests if [Accept] succeeds. *)
Record ssh_request := mkSshRequest { rq_Type : string; rq_WantReply : bool }.
Record new_channel := mkNewChannel {
  nc_ChannelType : string;
  nc_Accept : option (list ssh_request);
}.

(** What a handshake yields: [ssh.ServerConn]. *)
Record ServerConn := mkServerConn {
  sc_User : string;
  sc_RemoteAddr : string;
  sc_Permissions : Permissions;
}.

Class SshLib := {
  Signer : Type;
  Conn : Type;
  ParsePrivateKey : string → result Signer string;
  ed25519_GenerateKey : entropy → result string string * entropy;    (* the private key *)
  NewSignerFromKey : string → result Signer string;
  (* the handshake: the connection and the channels its client opens *)
  NewServerConn : Conn → ServerConfig Signer → result (ServerConn * list new_channel) string;
}.

(** A handshake succeeds without client authentication only if the
    configuration says so; otherwise one of the callbacks accepted one of the
    attempts [attempts conn] that the client of this very connection made, and
    the user, the address and the permissions of the connection are those of
    this attempt. *)
Class SshLibLaws `{SshLib} := {
  attempts : Conn → list auth_attempt;
  NewServerConn_law : ∀ conn cfg sc chans, NewServerConn conn cfg = Ok (sc, chans) →
    NoClientAuth cfg = true ∨
    ∃ cb a, (PasswordCallback cfg = Some cb ∨ PublicKeyCallback cfg = Some cb
             ∨ KeyboardInteractiveCallback cfg = Some cb) ∧
      a ∈ attempts conn ∧ aa_User a = sc_User sc ∧ aa_RemoteAddr a = sc_RemoteAddr sc ∧
      cb a = Some (sc_Permissions sc);
}.

Section Sshd.
Context {SL : SshLib}.

(** [loadOrGenerateHostKey]. *)
Definition loadOrGenerateHostKey (ReadFile : string → result string string) (path : string)
    (t : entropy) : result Signer string :=
  if negb (is_empty path) then
    match ReadFile path with
    | Err e => Err ("read host key file: " +:+ e)
    | Ok keyBytes => ParsePrivateKey keyBytes
    end
  else
    match ed25519_GenerateKey t with
    | (Err e, _) => Err ("generate ephemeral host key: " +:+ e)
    | (Ok priv, _) =>
        match NewSignerFromKey priv with
        | Err e => Err ("wrap ephemeral host key: " +:+ e)
        | Ok signer => Ok signer
        end
    end.

(** The permissions [keyboardInteractiveAuth] returns; an attempt that panics
    or is still waiting has none. *)
Definition auth_permissions (brokerURL : string) (a : auth_attempt) : option Permissions :=
  match keyboardInteractiveAuth brokerURL (aa_User a) (aa_RemoteAddr a) (aa_challenge a)
          (aa_net a) (aa_entropy a) with
  | Some (KIAccept identity) => Some {["xdauth-identity" := identity]}
  | _ => None
  end.

Definition newServerConfig (brokerURL : string) : ServerConfig Signer :=
  mkServerConfig false None None (Some (auth_permissions brokerURL)) [].

(** *** Channels *)

(** What a channel is sent: replies to requests and the text written. *)
Inductive channel_output :=
  | Reply (ok : bool)
  | Text (s : string).

Definition shell_text (shellMessage : string) (perms : Permissions) : string :=
  shellMessage +:+ newline +:+ "logged in as: " +:+ default "" (perms !! "xdauth-identity") +:+ newline.

(** [if req.WantReply { req.Reply(ok, nil) }]. *)
Definition reply (req : ssh_request) (ok : bool) : list channel_output :=
  if rq_WantReply req then [Reply ok] else [].

Fixpoint serveSession (requests : list ssh_request) (shellMessage : string) (perms : Permissions)
    : list channel_output :=
  match requests with
  | [] => []
  | req :: rest =>
      if seqb (rq_Type req) "shell" || seqb (rq_Type req) "exec" then
        reply req true ++ [Text (shell_text shellMessage perms)]
      else if seqb (rq_Type req) "pty-req" then reply req true ++ serveSession rest shellMessage perms
      else reply req false ++ serveSession rest shellMessage perms
  end.

(** What becomes of a channel. *)
Inductive channel_fate :=
  | Rejected
  | NotAccepted
  | Served (out : list channel_output).

(** [handleConn]: the fate of each channel; [None]: the handshake failed. *)
Definition handleConn (conn : Conn) (config : ServerConfig Signer) (shellMessage : string)
    : option (list channel_fate) :=
  match NewServerConn conn config with
  | Err _ => None
  | Ok (sshConn, chans) =>
      Some (map (λ ch,
        if negb (seqb (nc_ChannelType ch) "session") then Rejected else
        match nc_Accept ch with
        | None => NotAccepted
        | Some requests => Served (serveSession requests shellMessage (sc_Permissions sshConn))
        end) chans)
  end.

(** [serve]: connections until [Accept] fails, each handled by itself. *)
Fixpoint serve (accepts : list (result Conn string)) (config : ServerConfig Signer)
    (shellMessage : string) : list (option (list channel_fate)) :=
  match accepts with
  | [] => []
  | Err _ :: _ => []
  | Ok nConn :: rest => handleConn nConn config shellMessage :: serve rest config shellMessage
  end.

(** *** The command *)
Record sshd_process := mkSshdProcess {
  sp_env : gmap string string;
  sp_flags : gmap string string;                       (* the flags given *)
  sp_ReadFile : string → result string string;
  sp_entropy : entropy;
  sp_Listen : string → result (list (result Conn string)) string;  (* its Accepts *)
}.

Definition sshd_envOr (p : sshd_process) (key def : string) : string :=
  let v := Getenv (sp_env p) key in if negb (is_empty v) then v else def.
Definition sshd_flag (p : sshd_process) (name value : string) : string :=
  default value (sp_flags p !! name).

Definition default_shell_message : string :=
  "xdauth-sshd: this is a demo shell, authenticated via keyboard-interactive.".

Definition sshd_brokerURL (p : sshd_process) : string :=
  sshd_flag p "broker-url" (Getenv (sp_env p) "XDAUTH_BROKER_URL").

Definition sshd_listenAddr (p : sshd_process) : string :=
  sshd_flag p "listen" (sshd_envOr p "XDAUTH_SSHD_LISTEN_ADDR" ":2323").
Definition sshd_shellMessage (p : sshd_process) : string :=
  sshd_flag p "shell-message" (sshd_envOr p "XDAUTH_SSHD_SHELL_MESSAGE" default_shell_message).

(** Exit code and what each accepted connection was served. *)
Definition sshd_run (p : sshd_process) : Z * list (option (list channel_fate)) :=
  let listenAddr := sshd_listenAddr p in
  let brokerURL := sshd_brokerURL p in
  let hostKeyFile := sshd_flag p "host-key-file" (Getenv (sp_env p) "XDAUTH_SSHD_HOST_KEY_FILE") in
  let shellMessage := sshd_shellMessage p in
  if is_empty brokerURL then (2, []) else
  match loadOrGenerateHostKey (sp_ReadFile p) hostKeyFile (sp_entropy p) with
  | Err _ => (1, [])
  | Ok hostKey =>
      let config := AddHostKey hostKey (newServerConfig brokerURL) in
      match sp_Listen p listenAddr with
      | Err _ => (1, [])
      | Ok accepts => (0, serve accepts config shellMessage)
      end
  end.

(** ** What a session proves *)
Lemma serveSession_text requests msg perms s :
  Text s ∈ serveSession requests msg perms → s = shell_text msg perms.
Proof.
  assert (Hr : ∀ req ok, Text s ∉ reply req ok).
  { intros req ok. unfold reply. case_match; set_solver. }
  induction requests as [|req rest IH]; cbn [serveSession]; [set_solver|].
  specialize (Hr req). destruct (_ || _); [|destruct (seqb _ _)];
    rewrite elem_of_app; intros [H|H]; try (by destruct (Hr _ H)); [set_solver|by apply IH..].
Qed.

Lemma serve_lookup accepts config msg i c : serve accepts config msg !! i = Some c →
  ∃ conn, accepts !! i = Some (Ok conn) ∧ c = handleConn conn config msg.
Proof.
  revert i. induction accepts as [|[conn|e] accepts IH]; intros i; cbn [serve]; [done| |done].
  destruct i as [|i]; [|by apply IH]. cbn. intros [= <-]. by exists conn.
Qed.

(** What the connection [i] was served follows the handshake of the
    connection accepted as [i]. *)
Lemma sshd_run_conn p i fates : (sshd_run p).2 !! i = Some (Some fates) →
  sshd_brokerURL p ≠ "" ∧ ∃ accepts conn keys sc chans,
    sp_Listen p (sshd_listenAddr p) = Ok accepts ∧ accepts !! i = Some (Ok conn) ∧
    NewServerConn conn (mkServerConfig false None None
      (Some (auth_permissions (sshd_brokerURL p))) keys) = Ok (sc, chans) ∧
    ∀ out s, Served out ∈ fates → Text s ∈ out →
      s = shell_text (sshd_shellMessage p) (sc_Permissions sc).
Proof.
  intros H. unfold sshd_run in H. cbv zeta in H.
  destruct (is_empty (sshd_brokerURL p)) eqn:E; [done|]. apply is_empty_false in E.
  split; [done|]. destruct (loadOrGenerateHostKey _ _ _) as [key|]; [|done].
  destruct (sp_Listen p _) as [accepts|]; [|done]. cbn [snd] in H.
  apply serve_lookup in H as (conn & Hconn & H). unfold handleConn in H. symmetry in H.
  match type of H with context [NewServerConn conn ?c] => destruct (NewServerConn conn c) as [[sc chans]|] eqn:En end;
    [|done]. injection H as <-.
  exists accepts, conn, [key], sc, chans. split; [done|]. split; [done|]. split; [exact En|].
  intros out s (ch & Hf & _)%list_elem_of_fmap Ht.
  destruct (negb _); [done|]. destruct (nc_Accept ch); [|done]. injection Hf as ->.
  by apply serveSession_text in Ht.
Qed.

(** C17: a shell is only shown to a connection that signed in: if the server
    writes text to a channel of the connection it accepted as [i], then the
    client of this connection made an attempt for the connection's own user
    and address, for which a sign-in was started at the configured broker, the
    prompt was shown, and the broker's final answer was "approved"; and the
    text names the identity of that artifact.  With no broker configured
    nothing is served. *)
Theorem sshd_shell_needs_approval `{!SshLibLaws} p i fates out text :
  (sshd_run p).2 !! i = Some (Some fates) → Served out ∈ fates → Text text ∈ out →
  ∃ accepts conn cfg sc chans a art s t',
    sp_Listen p (sshd_listenAddr p) = Ok accepts ∧ accepts !! i = Some (Ok conn) ∧
    NewServerConn conn cfg = Ok (sc, chans) ∧
    a ∈ attempts conn ∧ aa_User a = sc_User sc ∧ aa_RemoteAddr a = sc_RemoteAddr sc ∧
    Start (mkStartReq (sshd_brokerURL p) (sc_User sc) "ssh"
      (match SplitHostPort_host (sc_RemoteAddr sc) with
       | Some h => h | None => sc_RemoteAddr sc end)) (aa_entropy a) (net_Do (aa_net a)) = (Ok s, t') ∧
    aa_challenge a (ssh_instruction s) = true ∧
    (Poll s (net_rounds (aa_net a))).1 = Some (Ok (mkResult "approved" (Some art))) ∧
    text = shell_text (sshd_shellMessage p) {["xdauth-identity" := a_Identity art]}.
Proof.
  intros Hf Hs Ht. destruct (sshd_run_conn p i fates Hf)
    as (_ & accepts & conn & keys & sc & chans & Hl & Hc & Hn & Hall).
  rewrite (Hall out text Hs Ht).
  destruct (NewServerConn_law _ _ _ _ Hn) as [|(cb & a & Hcb & Hin & Hu & Haddr & Ha)]; [done|].
  cbn in Hcb. destruct Hcb as [Hcb|[Hcb|Hcb]]; [done..|]. injection Hcb as <-.
  unfold auth_permissions in Ha.
  destruct (keyboardInteractiveAuth _ _ _ _ _ _) as [[id| |]|] eqn:Ek; [|done..]. injection Ha as Ha.
  apply sshd_accepts in Ek as (art & s & t' & H1 & H2 & H3 & ->).
  eexists accepts, conn, _, sc, chans, a, art, s, t'. rewrite <-Hu, <-Haddr, <-Ha. by split_and!.
Qed.

End Sshd.

(** ** A connection *)
#[export] Instance demo_ssh : SshLib := {|
  Signer := string;
  Conn := auth_attempt;
  ParsePrivateKey := λ b, Ok b;
  ed25519_GenerateKey := λ t, (Ok "key", t);
  NewSignerFromKey := λ k, Ok k;
  NewServerConn := λ conn cfg,
    match KeyboardInteractiveCallback cfg with
    | None => Err "no authentication method"
    | Some cb =>
        match cb conn with
        | None => Err "permission denied"
        | Some perms => Ok (mkServerConn (aa_User conn) (aa_RemoteAddr conn) perms, [mkNewChannel "x11" (Some []); mkNewChannel "session"
            (Some [mkSshRequest "pty-req" true; mkSshRequest "env" true; mkSshRequest "shell" false;
                   mkSshRequest "exec" true])])
        end
    end;
|}.

#[export] Instance demo_ssh_laws : @SshLibLaws demo_ssh.
Proof.
  refine {| attempts := λ conn : @Conn demo_ssh, [conn] |}.
  intros conn cfg sc chans Hn. right. unfold NewServerConn, demo_ssh in Hn.
  repeat case_match; simplify_eq.
  match goal with H : ?cb conn = Some _ |- _ => exists cb, conn end.
  split; [by do 2 right|]. split; [by left|done].
Defined.

Definition demo_attempt : auth_attempt :=
  mkAuthAttempt "Alice@Example.com" "10.0.0.9:50022" (λ _, true) EndToEnd.pam_net
    Scenario.client_entropy.

Definition demo_sshd : sshd_process (SL := demo_ssh) :=
  mkSshdProcess {["XDAUTH_BROKER_URL" := "https://xdauth.example/"]} {["shell-message" := "welcome"]}
    (λ _, Err "no such file") "" (λ _, Ok [Ok demo_attempt; Err "closed"; Ok demo_attempt]).

Definition demo_text : string :=
  "welcome" +:+ newline +:+ "logged in as: alice@example.com" +:+ newline.

Lemma demo_sshd_run : sshd_run demo_sshd =
  (0, [Some [Rejected; Served [Reply true; Reply false; Text demo_text]]]).
Proof. vm_compute. reflexivity. Qed.

Lemma sshd_shell_needs_approval_witness :
  ∃ a art s t', a ∈ [demo_attempt] ∧
    Start (mkStartReq "https://xdauth.example/" "Alice@Example.com" "ssh" "10.0.0.9")
      (aa_entropy a) (net_Do (aa_net a)) = (Ok s, t') ∧
    (Poll s (net_rounds (aa_net a))).1 = Some (Ok (mkResult "approved" (Some art))).
Proof.
  destruct (sshd_shell_needs_approval demo_sshd 0
    [Rejected; Served [Reply true; Reply false; Text demo_text]] [Reply true; Reply false; Text demo_text]
    demo_text) as (accepts & conn & cfg & sc & chans & a & art & s & t' & Hl & Hc & _ & Ha & Hu & Hr & Hst & _ & Hp & _).
  - by rewrite demo_sshd_run.
  - apply list_elem_of_further. by left.
  - do 2 apply list_elem_of_further. by left.
  - injection Hl as <-. injection Hc as <-. exists a, art, s, t'. split; [exact Ha|].
    apply list_elem_of_singleton in Ha. subst a. rewrite <-Hu, <-Hr in Hst.
    split; [exact Hst|exact Hp].
Defined.
