(* ===== verification/Oidc.v ===== *)
(** The OIDC provider: [internal/oidc/oidc.go].  golang.org/x/oauth2 and
    go-oidc are third-party: the class [OAuth] gives what the source calls.
    [Oidc_Provider] implements the [IdentityProvider] interface of [Prog], and
    its laws are proved here. *)

From S2P Require Import Prelude GoStrings GoTime GoCrypto Pkce Session Fsm Store Http Detect Prog.

Local Open Scope list_scope.

(** A verified ID token: the fields read, and its claims ([None]: they do not
    decode into a map). *)
Record IDToken := mkIDToken {
  it_Subject : string;
  it_Nonce : string;
  it_Claims : option claims;
}.

(** [oauth2.Config]. *)
Record oauth2Config (E : Type) := mkOauth2Config {
  o2_ClientID : string;
  o2_ClientSecret : string;
  o2_RedirectURL : string;
  o2_Endpoint : E;
  o2_Scopes : list string;
}.
Arguments mkOauth2Config {E} _ _ _ _ _.
Arguments o2_ClientID {E} _.
Arguments o2_ClientSecret {E} _.
Arguments o2_RedirectURL {E} _.
Arguments o2_Endpoint {E} _.
Arguments o2_Scopes {E} _.

(** The third-party types and calls.  [Net] is the state of the network
    behind them; what discovery answers is an argument of [New]. *)
Class OAuth (Net : Type) := {
  Discovered : Type;                  (* gooidc.Provider *)
  EndpointT : Type;
  IDTokenVerifier : Type;
  Endpoint : Discovered → EndpointT;
  Verifier : Discovered → string → IDTokenVerifier;          (* client id *)
  GenerateVerifier : entropy → string * entropy;
  (* state, nonce, verifier *)
  oauth2_AuthCodeURL : oauth2Config EndpointT → string → string → string → string;
  (* the raw [id_token] of the token response: [Err] if the exchange failed,
     [Ok None] if it is missing or not a string *)
  oauth2_Exchange : oauth2Config EndpointT → Time → string → string → Net →
    result (option string) string * Net;
  verifier_Verify : IDTokenVerifier → Time → string → Net → result IDToken string * Net;
}.

Record OidcConfig := mkOidcConfig {
  IssuerURL : string;
  ClientID : string;
  ClientSecret : string;
  RedirectURL : string;
  Scopes : list string;
  IdentityClaim : string;
  RequiredAMR : list string;
}.

(** The defaults [New] fills in before it discovers the issuer. *)
Definition ScopeOpenID : string := "openid".
Definition with_defaults (cfg : OidcConfig) : OidcConfig :=
  let claim := if is_empty (IdentityClaim cfg) then "preferred_username" else IdentityClaim cfg in
  let hasOpenID := existsb (λ s, seqb s ScopeOpenID) (Scopes cfg) in
  mkOidcConfig (IssuerURL cfg) (ClientID cfg) (ClientSecret cfg) (RedirectURL cfg)
    (if hasOpenID then Scopes cfg else ScopeOpenID :: Scopes cfg) claim (RequiredAMR cfg).

(** [have[want]] over the strings of the claim. *)
Definition amrSatisfies (cl : claims) (required : list string) : bool :=
  match cl !! "amr" with
  | Some (AnySlice l) =>
      let have := list_to_set (omap (λ v, match v with AnyString s => Some s | _ => None end) l)
                    : gset string in
      existsb (λ want, bool_decide (want ∈ have)) required
  | _ => false
  end.

Record PKCEPair := mkPKCEPair { pk_Verifier : string; pk_Challenge : string }.

Section Oidc.
Context {Net : Type} {OA : OAuth Net}.

Record Provider := mkProvider {
  pv_cfg : OidcConfig;
  pv_oauth2 : oauth2Config EndpointT;
  pv_verifier : IDTokenVerifier;
}.

(** [NewProvider issuer] is what the discovery of the issuer answers. *)
Definition New (cfg : OidcConfig) (NewProvider : string → result Discovered string)
    : result Provider string :=
  let cfg := with_defaults cfg in
  match NewProvider (IssuerURL cfg) with
  | Err e => Err ("discover issuer: " +:+ e)
  | Ok p => Ok {|
      pv_cfg := cfg;
      pv_oauth2 := {|
        o2_ClientID := ClientID cfg;
        o2_ClientSecret := ClientSecret cfg;
        o2_RedirectURL := RedirectURL cfg;
        o2_Endpoint := Endpoint p;
        o2_Scopes := Scopes cfg;
      |};
      pv_verifier := Verifier p (ClientID cfg);
    |}
  end.

Variable p : Provider.
Notation cfg := (pv_cfg p).

Definition NewPKCEPair (t : entropy) : PKCEPair * entropy :=
  let (verifier, t) := GenerateVerifier t in
  (mkPKCEPair verifier (RawURL_EncodeToString (Sum256 verifier)), t).

Definition AuthCodeURL (state nonce : string) (pkce : PKCEPair) : string :=
  oauth2_AuthCodeURL (pv_oauth2 p) state nonce (pk_Verifier pkce).

Definition Exchange (now : Time) (code : string) (pkce : PKCEPair) (expectedNonce : string)
    (net : Net) : result Identity string * Net :=
  match oauth2_Exchange (pv_oauth2 p) now code (pk_Verifier pkce) net with
  | (Err e, net) => (Err ("code exchange: " +:+ e), net)
  | (Ok raw, net) =>
  match raw with
  | None | Some "" => (Err "token response carried no id_token", net)
  | Some rawIDToken =>
  match verifier_Verify (pv_verifier p) now rawIDToken net with
  | (Err e, net) => (Err ("id_token verification: " +:+ e), net)
  | (Ok idToken, net) =>
  if negb (seqb (it_Nonce idToken) expectedNonce) then (Err "id_token nonce mismatch", net) else
  match it_Claims idToken with
  | None => (Err "decode claims", net)
  | Some cl =>
  if negb (bool_decide (RequiredAMR cfg = [])) && negb (amrSatisfies cl (RequiredAMR cfg)) then
    (Err "id_token amr claim does not include a required authentication method", net) else
  let value := match cl !! IdentityClaim cfg with Some (AnyString s) => s | _ => "" end in
  if is_empty value then (Err "identity claim missing or empty", net) else
  (Ok (mkIdentity (it_Subject idToken) value cl), net)
  end end end end.

Definition oidc_BeginLogin (sess : Session) (t : entropy)
    : result string string * Session * entropy :=
  let (pkce, t) := NewPKCEPair t in
  let (state, t) := GenerateVerifier t in
  let (nonce, t) := GenerateVerifier t in
  let sess := set_Protocol "oidc" (set_IdPOIDC state nonce (pk_Verifier pkce) sess) in
  (Ok (AuthCodeURL state nonce pkce), sess, t).

Definition oidc_CompleteLogin (now : Time) (r : Request) (sess : Session) (net : Net)
    : result Identity string * Net :=
  let state := Query_Get r "state" in
  if is_empty state || negb (seqb state (IdPState sess)) then (Err "state mismatch", net) else
  let code := Query_Get r "code" in
  if is_empty code then
    (Err "identity provider did not return an authorization code", net) else
  Exchange now code (mkPKCEPair (IdPPKCEVerifier sess) "") (IdPNonce sess) net.

#[export] Instance Oidc_Provider : IdentityProvider Net := {
  BeginLogin := λ _ s t net, let '(r, s', t') := oidc_BeginLogin s t in (r, s', t', net);
  CompleteLogin := oidc_CompleteLogin;
}.

#[export] Instance Oidc_Laws : IdentityProviderLaws Net.
Proof.
  constructor. simpl. intros now s t net r s' t' net' Hb. unfold oidc_BeginLogin in Hb.
  repeat case_match; simplify_eq. done.
Qed.

(** ** Correctness *)
Lemma amrSatisfies_spec cl required : amrSatisfies cl required = true ↔
  ∃ l want, cl !! "amr" = Some (AnySlice l) ∧ want ∈ required ∧ AnyString want ∈ l.
Proof.
  unfold amrSatisfies. split.
  - destruct (cl !! "amr") as [[| | | |l| |]|]; try done. intros He.
    apply existsb_exists in He as (want & Hr & Hw). apply bool_decide_eq_true in Hw.
    apply elem_of_list_to_set, list_elem_of_omap in Hw as (v & Hv & Hs).
    exists l, want. split; [done|]. split; [by apply list_elem_of_In|].
    destruct v; by simplify_eq.
  - intros (l & want & -> & Hr & Hl). apply existsb_exists. exists want.
    split; [by apply list_elem_of_In|]. apply bool_decide_eq_true, elem_of_list_to_set.
    apply list_elem_of_omap. by exists (AnyString want).
Qed.

(** The outcomes of the network an accepted login rests on. *)
Definition accepted (now : Time) (r : Request) (s : Session) (net : Net) (ident : Identity)
    (net' : Net) : Prop :=
  Query_Get r "state" ≠ "" ∧ Query_Get r "state" = IdPState s ∧ Query_Get r "code" ≠ "" ∧
  ∃ raw net1 tok cl,
    oauth2_Exchange (pv_oauth2 p) now (Query_Get r "code") (IdPPKCEVerifier s) net = (Ok (Some raw), net1) ∧
    raw ≠ "" ∧ verifier_Verify (pv_verifier p) now raw net1 = (Ok tok, net') ∧
    it_Nonce tok = IdPNonce s ∧ it_Claims tok = Some cl ∧
    (RequiredAMR cfg = [] ∨ amrSatisfies cl (RequiredAMR cfg) = true) ∧
    Value ident ≠ "" ∧ cl !! IdentityClaim cfg = Some (AnyString (Value ident)) ∧
    Subject ident = it_Subject tok ∧ Claims ident = cl.

Lemma Exchange_Ok now code v nonce net ident net' :
  Exchange now code (mkPKCEPair v "") nonce net = (Ok ident, net') ↔
  ∃ raw net1 tok cl,
    oauth2_Exchange (pv_oauth2 p) now code v net = (Ok (Some raw), net1) ∧
    raw ≠ "" ∧ verifier_Verify (pv_verifier p) now raw net1 = (Ok tok, net') ∧
    it_Nonce tok = nonce ∧ it_Claims tok = Some cl ∧
    (RequiredAMR cfg = [] ∨ amrSatisfies cl (RequiredAMR cfg) = true) ∧
    Value ident ≠ "" ∧ cl !! IdentityClaim cfg = Some (AnyString (Value ident)) ∧
    Subject ident = it_Subject tok ∧ Claims ident = cl.
Proof.
  unfold Exchange. simpl. split.
  - destruct (oauth2_Exchange (pv_oauth2 p) now code v net) as [[[raw|]|e] net1]; try done.
    destruct raw as [|c raw]; [done|].
    destruct (verifier_Verify (pv_verifier p) now (String c raw) net1) as [[tok|e] net2] eqn:Hv; [|done].
    destruct (seqb (it_Nonce tok) nonce) eqn:Hn; [|done]. apply seqb_true in Hn.
    destruct (it_Claims tok) as [cl|] eqn:Hc; [|done]. simpl.
    destruct (negb _ && _) eqn:Ha; [done|].
    destruct (is_empty _) eqn:He; [done|]. intros [= <- <-]. simpl in *.
    apply is_empty_false in He. exists (String c raw), net1, tok, cl.
    split_and!; try done.
    + apply andb_false_iff in Ha as [Ha|Ha]; reflect_bool; [by left|by right].
    + by destruct (cl !! IdentityClaim cfg) as [[]|].
  - intros (raw & net1 & tok & cl & -> & Hraw & Hv & <- & Hc & Ha & Hne & Hl & Hs & Hcl).
    destruct raw as [|c raw]; [done|]. rewrite Hv, seqb_refl, Hc. simpl.
    assert (negb (bool_decide (RequiredAMR cfg = [])) && negb (amrSatisfies cl (RequiredAMR cfg)) = false)
      as ->.
    { destruct Ha as [Ha|Ha]; [by rewrite bool_decide_eq_true_2|]. by rewrite Ha, andb_false_r. }
    rewrite Hl. apply is_empty_false in Hne as ->. destruct ident. simpl in *. by subst.
Qed.

Lemma oidc_accepts now r s net ident net' :
  oidc_CompleteLogin now r s net = (Ok ident, net') ↔ accepted now r s net ident net'.
Proof.
  unfold oidc_CompleteLogin, accepted.
  destruct (is_empty (Query_Get r "state")) eqn:E1; simpl.
  { apply is_empty_true in E1. split; [done|]. by intros []. }
  apply is_empty_false in E1.
  destruct (seqb (Query_Get r "state") (IdPState s)) eqn:E2; simpl.
  2:{ apply seqb_false in E2. split; [done|]. by intros (_ & ? & _). }
  apply seqb_true in E2. destruct (is_empty (Query_Get r "code")) eqn:E3.
  { apply is_empty_true in E3. split; [done|]. by intros (_ & _ & ? & _). }
  apply is_empty_false in E3. rewrite Exchange_Ok. naive_solver.
Qed.

(** C20: a callback is accepted exactly when its state is the non-empty one
    stored for the session, its code was exchanged with the session's PKCE
    verifier for an ID token that verifies, carries the session's nonce and,
    if configured, a required authentication method; the identity is the
    non-empty string claim configured, with the token's subject and claims. *)
Theorem oidc_CompleteLogin_correct now r s net ident net' :
  oidc_CompleteLogin now r s net = (Ok ident, net') ↔ accepted now r s net ident net'.
Proof. apply oidc_accepts. Qed.

End Oidc.
