(* ===== verification/Saml.v ===== *)
(** The SAML provider: [internal/saml/saml.go].  crewjam/saml is third-party:
    the class [SamlSP] gives what the source calls of it, and [Assertion] the
    fields it reads of an assertion that [ParseResponse] accepted.  The class
    [X509] stands for RSA and X.509.  [Saml_Provider] implements the
    [IdentityProvider] interface of [Prog]. *)

From S2P Require Import Prelude GoStrings GoTime GoFormat Rfc3339 GoCrypto GoUrl Session Fsm Store.
From S2P Require Import Http Detect Prog.

Local Open Scope list_scope.

Record Attribute := mkAttribute {
  FriendlyName : string;
  Name : string;
  Values : list string;
}.

Record Assertion := mkAssertion {
  as_ID : string;
  as_NameID : option string;                     (* nil Subject or nil NameID: None *)
  AttributeStatements : list (list Attribute);
}.

(** [crewjamsaml.ServiceProvider], as far as [New] fills it in. *)
Record ServiceProvider (MD HC PK CT : Type) := mkServiceProvider {
  sp_EntityID : string;
  sp_Key : PK;
  sp_Certificate : CT;
  sp_HTTPClient : HC;
  sp_MetadataURL : URL;
  sp_AcsURL : URL;
  sp_IDPMetadata : MD;
}.
Arguments mkServiceProvider {MD HC PK CT} _ _ _ _ _ _ _.
Arguments sp_EntityID {MD HC PK CT} _.
Arguments sp_Key {MD HC PK CT} _.
Arguments sp_Certificate {MD HC PK CT} _.
Arguments sp_HTTPClient {MD HC PK CT} _.
Arguments sp_MetadataURL {MD HC PK CT} _.
Arguments sp_AcsURL {MD HC PK CT} _.
Arguments sp_IDPMetadata {MD HC PK CT} _.

(** [x509.Certificate] as a template. *)
Record certTemplate := mkCertTemplate {
  ct_SerialNumber : Z;
  ct_CommonName : string;
  ct_NotBefore : Time;
  ct_NotAfter : Time;
  ct_KeyUsage : Z;
  ct_BasicConstraintsValid : bool;
}.

(** RSA keys and X.509 certificates: generating a key of so many bits,
    signing a template with its own key, and parsing the result. *)
Class X509 := {
  PrivateKey : Type;
  Certificate : Type;
  rsa_GenerateKey : Z → entropy → result PrivateKey string * entropy;
  CreateCertificate : certTemplate → PrivateKey → entropy → result string string * entropy;
  ParseCertificate : string → result Certificate string;
}.

(** The third-party types and calls: parsing a metadata document; the SSO
    location of the identity provider ("" if none); a fresh AuthnRequest's id,
    its redirect URL with a relay state, and the validation of a response
    against the request ids that may be answered; the provider's own
    metadata. *)
Class SamlSP (Net : Type) `{X509} := {
  IDPMetadataT : Type;
  EntityDescriptor : Type;
  HTTPClientT : Type;
  DefaultClient : HTTPClientT;
  ParseMetadata : string → result IDPMetadataT string;
  GetSSOBindingLocation : ServiceProvider IDPMetadataT HTTPClientT PrivateKey Certificate → string;
  MakeAuthenticationRequest : ServiceProvider IDPMetadataT HTTPClientT PrivateKey Certificate →
    Time → string → entropy → result string string * entropy;
  Redirect_URL : ServiceProvider IDPMetadataT HTTPClientT PrivateKey Certificate →
    string → string → result string string;        (* request id, relay state *)
  ParseResponse : ServiceProvider IDPMetadataT HTTPClientT PrivateKey Certificate →
    Time → Request → list string → Net → result Assertion string * Net;
  sp_Metadata : ServiceProvider IDPMetadataT HTTPClientT PrivateKey Certificate → EntityDescriptor;
}.

(** ** Attributes *)
Definition attribute_name (a : Attribute) : string :=
  if is_empty (FriendlyName a) then Name a else FriendlyName a.

(** [out[name] = append(out[name], v.Value)]. *)
Definition append_value (name : string) (out : gmap string (list string)) (v : string)
    : gmap string (list string) := <[name := default [] (out !! name) ++ [v]]> out.

Definition add_attribute (out : gmap string (list string)) (a : Attribute)
    : gmap string (list string) := foldl (append_value (attribute_name a)) out (Values a).

Definition attributeClaims (assertion : Assertion) : gmap string (list string) :=
  foldl (foldl add_attribute) ∅ (AttributeStatements assertion).

Definition generic_value (vs : list string) : any :=
  match vs with [v] => AnyString v | _ => AnyStrings vs end.

Definition identityFromAssertion (assertion : Assertion) (identityAttribute : string)
    : result Identity string :=
  let claims := attributeClaims assertion in
  let value :=
    if is_empty identityAttribute then
      match as_NameID assertion with
      | None => Err "saml: assertion has no NameID"
      | Some v => Ok v
      end
    else
      match claims !! identityAttribute with
      | Some (v :: _) => if is_empty v then Err "saml: attribute missing or empty" else Ok v
      | _ => Err "saml: attribute missing or empty"
      end in
  match value with
  | Err e => Err e
  | Ok value =>
      let subject := match as_NameID assertion with Some v => v | None => as_ID assertion end in
      Ok (mkIdentity subject value (generic_value <$> claims))
  end.

(** ** The login legs *)
Section Saml.
Context {Net : Type} {XC : X509} {SP : SamlSP Net} {loc : Location}.

Record Config := mkConfig {
  EntityID : string;
  BaseURL : string;
  ACSURL : string;
  IDPMetadataURL : string;
  IDPMetadataXML : string;
  IdentityAttribute : string;
  HTTPClient : option HTTPClientT;
}.

Record Provider := mkProvider {
  sp : ServiceProvider IDPMetadataT HTTPClientT PrivateKey Certificate;
  identityAttribute : string;
}.

(** What one call of [New] meets: the answer of [samlsp.FetchMetadata], the
    randomness it reads, and its two readings of the clock. *)
Record surroundings := mkSurroundings {
  FetchMetadata : HTTPClientT → URL → result IDPMetadataT string;
  sr_entropy : entropy;
  sr_NotBefore_now : Time;
  sr_NotAfter_now : Time;
}.

(** *** [selfSignedCert] *)

(** [rand.Int(rand.Reader, 2^128)]: sixteen bytes, none of which is rejected. *)
Definition rand_Int_128 (t : entropy) : result Z string * entropy :=
  match rand_Read 16 t with
  | (Some bs, t) => (Ok (foldl (λ a b, a * 256 + b) 0 (bytes_of bs)), t)
  | (None, t) => (Err "rand", t)
  end.

Definition KeyUsageDigitalSignature : Z := 1.
Definition KeyUsageKeyEncipherment : Z := 4.
Definition Hour : Duration := 60 * Minute.

Definition selfSignedCert (baseURL : string) (env : surroundings)
    : result (PrivateKey * Certificate) string :=
  match rsa_GenerateKey 2048 (sr_entropy env) with
  | (Err e, _) => Err e
  | (Ok key, t) =>
  match rand_Int_128 t with
  | (Err e, _) => Err e
  | (Ok serial, t) =>
  let template := {|
    ct_SerialNumber := serial;
    ct_CommonName := baseURL;
    ct_NotBefore := Add (sr_NotBefore_now env) (- Hour);
    ct_NotAfter := AddDate_years (sr_NotAfter_now env) 10;
    ct_KeyUsage := Z.lor KeyUsageDigitalSignature KeyUsageKeyEncipherment;
    ct_BasicConstraintsValid := true;
  |} in
  match CreateCertificate template key t with
  | (Err e, _) => Err e
  | (Ok der, _) =>
  match ParseCertificate der with
  | Err e => Err e
  | Ok cert => Ok (key, cert)
  end end end end.

(** *** [New] *)
Definition metadata_source (cfg : Config) (env : surroundings) (httpClient : HTTPClientT)
    : result IDPMetadataT string :=
  if negb (is_empty (IDPMetadataURL cfg)) then
    match Parse (IDPMetadataURL cfg) with
    | None => Err "saml: parse IDPMetadataURL"
    | Some u =>
        match FetchMetadata env httpClient u with
        | Err e => Err ("saml: fetch idp metadata: " +:+ e)
        | Ok md => Ok md
        end
    end
  else
    match ParseMetadata (IDPMetadataXML cfg) with
    | Err e => Err ("saml: parse idp metadata: " +:+ e)
    | Ok md => Ok md
    end.

Definition New (cfg : Config) (env : surroundings) : result Provider string :=
  if is_empty (BaseURL cfg) then Err "saml: BaseURL is required" else
  if Bool.eqb (is_empty (IDPMetadataURL cfg)) (is_empty (IDPMetadataXML cfg)) then
    Err "saml: exactly one of IDPMetadataURL or IDPMetadataXML is required" else
  let httpClient := default DefaultClient (HTTPClient cfg) in
  match metadata_source cfg env httpClient with
  | Err e => Err e
  | Ok idpMetadata =>
  match selfSignedCert (BaseURL cfg) env with
  | Err e => Err ("saml: generate sp signing cert: " +:+ e)
  | Ok (key, cert) =>
  let entityID := if is_empty (EntityID cfg) then BaseURL cfg else EntityID cfg in
  let acsURLStr := if is_empty (ACSURL cfg) then BaseURL cfg +:+ "/auth/saml/acs" else ACSURL cfg in
  match Parse acsURLStr with
  | None => Err "saml: parse ACS URL"
  | Some acsURL =>
  match Parse (BaseURL cfg +:+ "/auth/saml/metadata") with
  | None => Err "saml: parse BaseURL"
  | Some metadataURL =>
    Ok {|
      sp := {|
        sp_EntityID := entityID;
        sp_Key := key;
        sp_Certificate := cert;
        sp_HTTPClient := httpClient;
        sp_MetadataURL := metadataURL;
        sp_AcsURL := acsURL;
        sp_IDPMetadata := idpMetadata;
      |};
      identityAttribute := IdentityAttribute cfg;
    |}
  end end end end.

Variable p : Provider.

Definition Metadata : EntityDescriptor := sp_Metadata (sp p).

Definition saml_BeginLogin (now : Time) (sess : Session) (t : entropy)
    : result string string * Session * entropy :=
  if is_empty (GetSSOBindingLocation (sp p)) then
    (Err "saml: idp metadata has no HTTP-Redirect SSO binding", sess, t) else
  match MakeAuthenticationRequest (sp p) now (GetSSOBindingLocation (sp p)) t with
  | (Err e, t) => (Err ("saml: make authentication request: " +:+ e), sess, t)
  | (Ok reqID, t) =>
      let sess := set_Protocol "saml" (set_SAMLRequestID reqID sess) in
      match Redirect_URL (sp p) reqID (ID sess) with
      | Err e => (Err ("saml: build redirect: " +:+ e), sess, t)
      | Ok url => (Ok url, sess, t)
      end
  end.

Definition saml_CompleteLogin (now : Time) (r : Request) (sess : Session) (net : Net)
    : result Identity string * Net :=
  match Form r with
  | None => (Err "saml: parse form", net)
  | Some _ =>
      let relayState := PostFormValue r "RelayState" in
      if is_empty relayState || negb (seqb relayState (ID sess)) then
        (Err "saml: RelayState mismatch", net)
      else
        match ParseResponse (sp p) now r [SAMLRequestID sess] net with
        | (Err e, net) => (Err ("saml: parse response: " +:+ e), net)
        | (Ok assertion, net) => (identityFromAssertion assertion (identityAttribute p), net)
        end
  end.

#[export] Instance Saml_Provider : IdentityProvider Net := {
  BeginLogin := λ now s t net,
    let '(r, s', t') := saml_BeginLogin now s t in (r, s', t', net);
  CompleteLogin := saml_CompleteLogin;
}.

#[export] Instance Saml_Laws : IdentityProviderLaws Net.
Proof.
  constructor. simpl. intros now s t net r s' t' net' Hb. unfold saml_BeginLogin in Hb.
  repeat case_match; simplify_eq; done || apply same_but_idp_refl.
Qed.

End Saml.

(** ** Correctness of the flattening *)

(** All values an assertion gives to a name, in document order. *)
Definition values_of (name : string) (assertion : Assertion) : list string :=
  concat (AttributeStatements assertion)
    ≫= λ a, if decide (attribute_name a = name) then Values a else [].

Lemma append_values name out vs k :
  default [] (foldl (append_value name) out vs !! k) =
  default [] (out !! k) ++ (if decide (name = k) then vs else []).
Proof.
  revert out. induction vs as [|v vs IH]; intros out; simpl.
  { case_decide; by rewrite app_nil_r. }
  rewrite IH. unfold append_value. case_decide as Hk.
  - subst. rewrite lookup_insert_eq. simpl. by rewrite <-app_assoc.
  - by rewrite lookup_insert_ne.
Qed.

(** No name is mapped to an empty list. *)
Definition nonempty_values (out : gmap string (list string)) : Prop :=
  ∀ k vs, out !! k = Some vs → vs ≠ [].

Lemma append_values_nonempty name out vs :
  nonempty_values out → nonempty_values (foldl (append_value name) out vs).
Proof.
  revert out. induction vs as [|v vs IH]; intros out Hout; simpl; [done|].
  apply IH. intros k ws Hk. unfold append_value in Hk.
  apply lookup_insert_Some in Hk as [[_ <-]|[_ Hk]]; [|by eapply Hout].
  by destruct (default [] (out !! name)).
Qed.

Lemma add_attributes al out k :
  nonempty_values out →
  nonempty_values (foldl add_attribute out al) ∧
  default [] (foldl add_attribute out al !! k) =
  default [] (out !! k) ++ (al ≫= λ a, if decide (attribute_name a = k) then Values a else []).
Proof.
  revert out. induction al as [|a al IH]; intros out Hout; simpl; [by rewrite app_nil_r|].
  destruct (IH (add_attribute out a)) as [H1 H2]; [by apply append_values_nonempty|].
  split; [done|]. rewrite H2. unfold add_attribute. by rewrite append_values, <-app_assoc.
Qed.

Lemma foldl_concat {A B} (f : B → A → B) ls b : foldl (foldl f) b ls = foldl f b (concat ls).
Proof. revert b. induction ls as [|l ls IH]; intros b; simpl; [done|]. by rewrite IH, foldl_app. Qed.

Lemma attributeClaims_lookup assertion k vs :
  attributeClaims assertion !! k = Some vs ↔ vs = values_of k assertion ∧ vs ≠ [].
Proof.
  unfold attributeClaims, values_of. rewrite foldl_concat.
  destruct (add_attributes (concat (AttributeStatements assertion)) ∅ k) as [Hn Hv].
  { intros k' vs'. by rewrite lookup_empty. }
  rewrite lookup_empty in Hv. simpl in Hv. rewrite <-Hv.
  destruct (foldl add_attribute ∅ _ !! k) as [ws|] eqn:E; simpl.
  - split; [intros [= ->]; split; [done|by eapply Hn]|]. by intros [-> _].
  - split; [done|]. by intros [-> ?].
Qed.

(** The identity is the NameID, or if an attribute is configured its first
    value, which must not be empty; every attribute appears in the claims
    under its friendly name (its name if it has none) with all its values in
    document order, a single value as a string; and only such names appear. *)
Theorem identityFromAssertion_correct assertion attr ident :
  identityFromAssertion assertion attr = Ok ident ↔
  (attr = "" ∧ as_NameID assertion = Some (Value ident) ∨
   attr ≠ "" ∧ Value ident ≠ "" ∧ head (values_of attr assertion) = Some (Value ident)) ∧
  Subject ident = default (as_ID assertion) (as_NameID assertion) ∧
  ∀ k, Claims ident !! k = match values_of k assertion with
                           | [] => None
                           | vs => Some (generic_value vs)
                           end.
Proof.
  assert (Hlk : ∀ k, attributeClaims assertion !! k =
    match values_of k assertion with [] => None | vs => Some vs end).
  { intros k. destruct (attributeClaims assertion !! k) as [vs|] eqn:E.
    - apply attributeClaims_lookup in E as [<- Hne]. by destruct vs.
    - destruct (values_of k assertion) as [|v vs] eqn:Ev; [done|].
      rewrite (proj2 (attributeClaims_lookup assertion k (v :: vs))) in E; [done|].
      by rewrite Ev. }
  assert (Hcl : ∀ k, (generic_value <$> attributeClaims assertion) !! k =
    match values_of k assertion with [] => None | vs => Some (generic_value vs) end).
  { intros k. rewrite lookup_fmap, Hlk. by destruct (values_of k assertion). }
  unfold identityFromAssertion. rewrite Hlk. split.
  - destruct (is_empty attr) eqn:Ea.
    + apply is_empty_true in Ea as ->. destruct (as_NameID assertion) as [n|]; [|done].
      intros [= <-]. simpl. split; [by left|]. split; [done|exact Hcl].
    + apply is_empty_false in Ea. destruct (values_of attr assertion) as [|v vs]; [done|].
      destruct (is_empty v) eqn:Ev; [done|]. apply is_empty_false in Ev. intros [= <-]. simpl.
      split; [by right|]. split; [by destruct (as_NameID assertion)|exact Hcl].
  - intros (Hv & Hs & Hc).
    assert (Claims ident = generic_value <$> attributeClaims assertion) as Hci.
    { apply map_eq. intros k. by rewrite Hc, Hcl. }
    destruct ident as [subj val cl]. simpl in *. subst.
    destruct Hv as [[-> Hn]|(Ha & Hne & Hh)].
    + simpl. by rewrite Hn.
    + apply is_empty_false in Ha as ->. destruct (values_of attr assertion) as [|v vs]; [done|].
      simpl in Hh. simplify_eq. apply is_empty_false in Hne as ->.
      by destruct (as_NameID assertion).
Qed.

Lemma saml_accepts {Net} {XC : X509} {SP : SamlSP Net} p now r s (net : Net) ident net' :
  saml_CompleteLogin p now r s net = (Ok ident, net') ↔
  is_Some (Form r) ∧ ID s ≠ "" ∧ PostFormValue r "RelayState" = ID s ∧
  ∃ assertion, ParseResponse (sp p) now r [SAMLRequestID s] net = (Ok assertion, net') ∧
    identityFromAssertion assertion (identityAttribute p) = Ok ident.
Proof.
  unfold saml_CompleteLogin. destruct (Form r) as [f|]; [|by split; [|intros [[? ?] _]]].
  destruct (is_empty (PostFormValue r "RelayState")) eqn:E1; simpl.
  { apply is_empty_true in E1. split; [done|]. intros (_ & Hne & Heq & _). congruence. }
  apply is_empty_false in E1.
  destruct (seqb _ _) eqn:E2; simpl.
  2:{ apply seqb_false in E2. split; [done|]. by intros (_ & _ & ? & _). }
  apply seqb_true in E2. rewrite E2 in E1.
  destruct (ParseResponse (sp p) now r [SAMLRequestID s] net) as [[a|e] n1]; split.
  - intros Hi. simplify_eq. eauto 10.
  - intros (_ & _ & _ & a' & Hp & Hi). simplify_eq. by rewrite Hi.
  - done.
  - by intros (_ & _ & _ & a' & Hp & _).
Qed.

(** C21: a SAML login succeeds exactly when its form parses, its RelayState
    is the session's id, the library validated the response against the request
    id stored for that session and no other, and the assertion yields an
    identity: the NameID or, if an attribute is configured, its first value,
    which must not be empty; the claims then hold every attribute under its
    friendly name (its name if it has none) with all its values in document
    order, a single value as a string, and nothing else. *)
Theorem saml_login_correct {Net} {XC : X509} {SP : SamlSP Net} p now r s (net : Net) ident net' :
  saml_CompleteLogin p now r s net = (Ok ident, net') ↔
  is_Some (Form r) ∧ ID s ≠ "" ∧ PostFormValue r "RelayState" = ID s ∧
  ∃ assertion, ParseResponse (sp p) now r [SAMLRequestID s] net = (Ok assertion, net') ∧
    (identityAttribute p = "" ∧ as_NameID assertion = Some (Value ident) ∨
     identityAttribute p ≠ "" ∧ Value ident ≠ "" ∧
     head (values_of (identityAttribute p) assertion) = Some (Value ident)) ∧
    Subject ident = default (as_ID assertion) (as_NameID assertion) ∧
    ∀ k, Claims ident !! k = match values_of k assertion with
                             | [] => None
                             | vs => Some (generic_value vs)
                             end.
Proof.
  rewrite saml_accepts. split; intros (H1 & H2 & H3 & assertion & H4 & H5);
    (do 3 (split; [done|])); exists assertion; (split; [done|]);
    by apply identityFromAssertion_correct.
Qed.
