(* ===== verification/Main.v ===== *)
(** The broker command's configuration code: [cmd/xdauth-broker/main.go].
    The environment is a map, the discovery function of [retryDiscovery] is
    the sequence of its attempts; flags, signals and the HTTP server itself
    are I/O and are not modelled. *)

From S2P Require Import Prelude GoStrings GoTime GoStrconv Netip Http ClientAuth.

Local Open Scope list_scope.

Definition env := gmap string string.

Definition envOr (e : env) (key def : string) : string :=
  let v := default "" (e !! key) in if negb (is_empty v) then v else def.

Definition splitNonEmpty (raw : string) : list string :=
  if is_empty raw then [] else Split raw ",".

Definition envIntOr (e : env) (key : string) (def : Z) : Z :=
  let v := default "" (e !! key) in
  if negb (is_empty v) then match Atoi v with Some n => n | None => def end else def.

(** ** XDAUTH_CLIENT_AUTH_TOKENS *)

(** [strings.SplitN(entry, "=", 2)] yields two parts exactly when there is a
    separator: the text before the first one and the text after it. *)
Definition split_pair (entry : string) : option (string * string) :=
  match IndexByte entry "=" with
  | Some i => Some (string_take i entry, string_drop (S i) entry)
  | None => None
  end.

Fixpoint parse_tokens (pairs : list string) (tokens : gmap string string)
    : result (gmap string string) string :=
  match pairs with
  | [] => Ok tokens
  | entry :: rest =>
      match split_pair entry with
      | Some (token, id) =>
          if is_empty token || is_empty id
          then Err ("invalid XDAUTH_CLIENT_AUTH_TOKENS entry " +:+ entry)
          else parse_tokens rest (<[token := id]> tokens)
      | None => Err ("invalid XDAUTH_CLIENT_AUTH_TOKENS entry " +:+ entry)
      end
  end.

(** [Ok None] is the nil authenticator: no gating. *)
Definition parseClientAuthTokens (raw : string) : result (option ClientAuthenticator) string :=
  if is_empty raw then Ok None else
  match parse_tokens (Split raw ",") ∅ with
  | Err e => Err e
  | Ok tokens => Ok (Some (StaticTokenClientAuth tokens))
  end.

(** ** CIDR lists *)
Fixpoint parse_prefixes (parts : list string) (out : list Prefix) : result (list Prefix) string :=
  match parts with
  | [] => Ok out
  | part :: rest =>
      match ParsePrefix (TrimSpace part) with
      | Some p => parse_prefixes rest (out ++ [p])
      | None => Err ("invalid CIDR " +:+ part)
      end
  end.

Definition parseCIDRList (raw : string) : result (list Prefix) string :=
  if is_empty raw then Ok [] else parse_prefixes (Split raw ",") [].

(** ** retryDiscovery *)

(** One turn of the loop: what [fn] meets, the clock read after a failure,
    and whether the context was done before the back-off elapsed. *)
Record attempt (X : Type) := mkAttempt {
  at_met : X;
  at_now : Time;
  at_cancelled : bool;
}.
Arguments mkAttempt {X} _ _ _.
Arguments at_met {X} _.
Arguments at_now {X} _.
Arguments at_cancelled {X} _.

(** The outcome ([None]: still retrying) and the back-offs waited. *)
Fixpoint retry_loop {X A} (fn : X → result A string) (deadline : Time) (backoff : Duration)
    (attempts : list (attempt X)) : option (result A string) * list Duration :=
  match attempts with
  | [] => (None, [])
  | a :: rest =>
      match fn (at_met a) with
      | Ok v => (Some (Ok v), [])
      | Err e =>
          if After (at_now a) deadline then (Some (Err e), []) else
          if at_cancelled a then (Some (Err "context done"), [backoff]) else
          let next := if backoff <? 5 * Second then Duration_mul backoff 2 else backoff in
          let (r, ws) := retry_loop fn deadline next rest in (r, backoff :: ws)
      end
  end.

Definition retryDiscovery {X A} (fn : X → result A string) (start : Time)
    (attempts : list (attempt X)) : option (result A string) * list Duration :=
  retry_loop fn (Add start (30 * Second)) (500 * Millisecond) attempts.

(** ** Correctness *)
Lemma parse_tokens_spec pairs tokens :
  (∀ tokens', parse_tokens pairs tokens = Ok tokens' ↔
    (Forall (λ p, ∃ t i, split_pair p = Some (t, i) ∧ t ≠ "" ∧ i ≠ "") pairs ∧
     tokens' = foldl (λ m p, match split_pair p with Some (t, i) => <[t := i]> m | None => m end)
                 tokens pairs)).
Proof.
  revert tokens. induction pairs as [|p pairs IH]; intros tokens tokens'; simpl.
  { split; [by intros [= ->]|by intros [_ ->]]. }
  destruct (split_pair p) as [[t i]|] eqn:E.
  2:{ split; [done|]. intros [Hf _]. inversion Hf as [|? ? (? & ? & ? & _)]. congruence. }
  destruct (is_empty t || is_empty i) eqn:Ee.
  - split; [done|]. intros [Hf _]. inversion Hf as [|? ? (t1 & i1 & He & Ht & Hi)]; subst.
    rewrite E in He. simplify_eq. apply orb_true_iff in Ee as [Ee|Ee];
      apply is_empty_true in Ee; congruence.
  - apply orb_false_iff in Ee as [Ht Hi]. apply is_empty_false in Ht, Hi.
    rewrite IH, list.Forall_cons. split; [intros [Hf ->]|intros [[_ Hf] ->]]; [|done].
    split; [|done]. split; [by exists t, i|done].
Qed.

Lemma parse_prefixes_spec parts out ps :
  parse_prefixes parts out = Ok ps ↔
  ∃ qs, ps = out ++ qs ∧ Forall2 (λ part p, ParsePrefix (TrimSpace part) = Some p) parts qs.
Proof.
  revert out. induction parts as [|p parts IH]; intros out; simpl.
  { split; [intros [= ->]; exists []; by rewrite app_nil_r|].
    intros (qs & -> & Hf). apply Forall2_nil_inv_l in Hf as ->. by rewrite app_nil_r. }
  destruct (ParsePrefix (TrimSpace p)) as [q|] eqn:E.
  - rewrite IH. split.
    + intros (qs & -> & Hf). exists (q :: qs). split; [by rewrite <-app_assoc|by constructor].
    + intros (qs & -> & Hf). inversion Hf as [|? q' ? qs' Hq Hf']; subst.
      exists qs'. split; [|done]. rewrite <-app_assoc. simpl. congruence.
  - split; [done|]. intros (qs & _ & Hf). inversion Hf; congruence.
Qed.

(** C23: configuration fails closed: a non-empty token list gives an
    authenticator only if every entry is token=client_id with both parts
    non-empty, and then the last entry of a token decides; a non-empty CIDR
    list is accepted only if every entry parses, in order; only the empty
    string disables either gate. *)
Theorem configuration_fails_closed raw :
  (∀ auth, parseClientAuthTokens raw = Ok auth ↔
     raw = "" ∧ auth = None ∨
     raw ≠ "" ∧
     Forall (λ p, ∃ t i, split_pair p = Some (t, i) ∧ t ≠ "" ∧ i ≠ "") (Split raw ",") ∧
     auth = Some (StaticTokenClientAuth
       (foldl (λ m p, match split_pair p with Some (t, i) => <[t := i]> m | None => m end)
          ∅ (Split raw ",")))) ∧
  (∀ ps, parseCIDRList raw = Ok ps ↔
     raw = "" ∧ ps = [] ∨
     raw ≠ "" ∧ ps ≠ [] ∧
     Forall2 (λ part p, ParsePrefix (TrimSpace part) = Some p) (Split raw ",") ps).
Proof.
  unfold parseClientAuthTokens, parseCIDRList. destruct (is_empty raw) eqn:E.
  { apply is_empty_true in E as ->. split; intros ?;
      (split; [intros [= <-]; by left|by intros [[_ ->]|[? _]]]). }
  apply is_empty_false in E. split.
  - intros auth. destruct (parse_tokens (Split raw ",") ∅) as [tokens|e] eqn:Ep.
    + apply parse_tokens_spec in Ep as [Hf ->]. split; [intros [= <-]; by right|].
      intros [[? _]|(_ & _ & ->)]; [done|done].
    + split; [done|]. intros [[? _]|(_ & Hf & ->)]; [done|].
      rewrite (proj2 (parse_tokens_spec _ _ _) (conj Hf eq_refl)) in Ep. done.
  - intros ps. rewrite parse_prefixes_spec. simpl. split.
    + intros (qs & -> & Hf). right. split; [done|]. split; [|done].
      intros ->. apply Forall2_nil_inv_r in Hf. by apply (Split_nonempty raw ",").
    + intros [[? _]|(_ & _ & Hf)]; [done|]. by exists ps.
Qed.

(** A failure after which the loop goes on. *)
Definition retries {X A} (fn : X → result A string) (deadline : Time) (a : attempt X) : Prop :=
  is_ok (fn (at_met a)) = false ∧ at_now a ≤ deadline ∧ at_cancelled a = false.

(** The back-offs from the fifth on, and from the start. *)
Lemma retry_loop_waits_8 {X A} (fn : X → result A string) deadline (attempts : list (attempt X)) :
  ∃ n, (retry_loop fn deadline (8 * Second) attempts).2 = replicate n (8 * Second).
Proof.
  induction attempts as [|a rest [n IH]]; cbn [retry_loop]; [by exists 0%nat|].
  destruct (fn (at_met a)); [by exists 0%nat|]. destruct (After _ _); [by exists 0%nat|].
  destruct (at_cancelled a); [by exists 1%nat|]. exists (S n).
  change (if 8 * Second <? 5 * Second then _ else _) with (8 * Second).
  destruct (retry_loop fn deadline (8 * Second) rest) as [r ws]. cbn [snd] in *. by rewrite IH.
Qed.

Lemma retry_loop_waits {X A} (fn : X → result A string) deadline b (attempts : list (attempt X)) :
  (retry_loop fn deadline b attempts).2 = [] ∨
  ∃ rest : list (attempt X), (retry_loop fn deadline b attempts).2 = b ::
    (retry_loop fn deadline (if b <? 5 * Second then Duration_mul b 2 else b) rest).2.
Proof.
  destruct attempts as [|a rest]; cbn [retry_loop]; [by left|].
  destruct (fn (at_met a)); [by left|]. destruct (After _ _); [by left|].
  destruct (at_cancelled a); [right; by exists []|]. right. exists rest.
  by destruct (retry_loop _ _ _ rest).
Qed.

Lemma retry_loop_outcome {X A} (fn : X → result A string) deadline b (attempts : list (attempt X)) :
  (∀ v, (retry_loop fn deadline b attempts).1 = Some (Ok v) ↔
     ∃ pre a post, attempts = pre ++ a :: post ∧ Forall (retries fn deadline) pre ∧
       fn (at_met a) = Ok v) ∧
  ((retry_loop fn deadline b attempts).1 = None ↔ Forall (retries fn deadline) attempts).
Proof.
  revert b. induction attempts as [|a rest IH]; intros b.
  { split; [|by split; [constructor|]]. intros v. split; [done|].
    by intros ([|? ?] & ? & ? & ? & _). }
  assert (Hcons : ∀ v, (∃ pre a' post, a :: rest = pre ++ a' :: post ∧
      Forall (retries fn deadline) pre ∧ fn (at_met a') = Ok v) ↔
    fn (at_met a) = Ok v ∨ retries fn deadline a ∧ ∃ pre a' post, rest = pre ++ a' :: post ∧
      Forall (retries fn deadline) pre ∧ fn (at_met a') = Ok v).
  { intros v. split.
    - intros ([|x pre] & a' & post & Heq & Hf & Hv); simplify_eq/=; [by left|].
      right. inversion Hf; subst. split; [done|]. by exists pre, a', post.
    - intros [Hv|(Ha & pre & a' & post & -> & Hf & Hv)]; [by exists [], a, rest|].
      exists (a :: pre), a', post. split; [done|]. split; [by constructor|done]. }
  setoid_rewrite Hcons. rewrite list.Forall_cons. unfold retries at 1 3. simpl.
  destruct (fn (at_met a)) as [v|e].
  { simpl. split; [intros v'; naive_solver|naive_solver]. }
  simpl. unfold After. destruct (deadline <? at_now a) eqn:Ed; reflect_bool.
  { simpl. split; [intros v'|]; (split; [done|]); [|lia].
    by intros [?|((_ & ? & _) & _)]; [|lia]. }
  destruct (at_cancelled a); simpl.
  { split; [intros v'|]; (split; [done|]); naive_solver. }
  destruct (IH (if b <? 5 * Second then Duration_mul b 2 else b)) as [IH1 IH2].
  destruct (retry_loop _ _ _ rest) as [r ws]. simpl in *. split.
  - intros v. rewrite IH1. split; [by right|]. by intros [?|[_ ?]].
  - rewrite IH2. split; [by split|by intros [_ ?]].
Qed.

(** Evaluate one doubling of the back-off. *)
Ltac next_backoff b b' :=
  change (if b <? 5 * Second then Duration_mul b 2 else b) with b'.

(** Discovery returns the value of the first successful attempt, if every
    earlier one failed by the deadline of thirty seconds and was not
    cancelled; it keeps retrying exactly as long as attempts fail in time; the
    back-offs are 0.5, 1, 2, 4 and then 8 seconds. *)
Theorem retryDiscovery_correct {X A} (fn : X → result A string) start (attempts : list (attempt X)) :
  (∀ v, (retryDiscovery fn start attempts).1 = Some (Ok v) ↔
     ∃ pre a post, attempts = pre ++ a :: post ∧
       Forall (retries fn (Add start (30 * Second))) pre ∧ fn (at_met a) = Ok v) ∧
  ((retryDiscovery fn start attempts).1 = None ↔
     Forall (retries fn (Add start (30 * Second))) attempts) ∧
  (∃ n m, (retryDiscovery fn start attempts).2 =
     take n [500 * Millisecond; 1 * Second; 2 * Second; 4 * Second]
       ++ replicate m (8 * Second)).
Proof.
  unfold retryDiscovery. set (dl := Add start (30 * Second)).
  destruct (retry_loop_outcome fn dl (500 * Millisecond) attempts) as [H1 H2].
  split; [exact H1|]. split; [exact H2|]. clear H1 H2.
  destruct (retry_loop_waits fn dl (500 * Millisecond) attempts) as [-> |[r1 ->]];
    [by exists 0%nat, 0%nat|].
  next_backoff (500 * Millisecond) (1 * Second).
  destruct (retry_loop_waits fn dl (1 * Second) r1) as [-> |[r2 ->]]; [by exists 1%nat, 0%nat|].
  next_backoff (1 * Second) (2 * Second).
  destruct (retry_loop_waits fn dl (2 * Second) r2) as [-> |[r3 ->]]; [by exists 2%nat, 0%nat|].
  next_backoff (2 * Second) (4 * Second).
  destruct (retry_loop_waits fn dl (4 * Second) r3) as [-> |[r4 ->]]; [by exists 3%nat, 0%nat|].
  next_backoff (4 * Second) (8 * Second).
  destruct (retry_loop_waits_8 fn dl r4) as [m ->]. by exists 4%nat, m.
Qed.
