(* ===== verification/Startup.v ===== *)
(** The start of the broker command: [run] of [cmd/xdauth-broker/main.go], from
    the environment and the flags to the server it listens with.  [Main] holds
    the parsers it calls.  Time, files and the network are arguments: the
    process reads the environment [env], the files [ReadFile] gives, and what
    each attempt at discovery meets. *)

From S2P Require Import Prelude GoStrings GoTime GoFormat GoCrypto GoUrl GoStrconv Session Fsm Store.
From S2P Require Import Http Netip ClientAuth Detect RateLimit Prog Main.
From S2P Require Redis Oidc Saml Broker.

Local Open Scope list_scope.

(** The flags given on a command line that [flag.Parse] accepted. *)
Record flags := mkFlags {
  fl_strings : gmap string string;
  fl_ints : gmap string Z;
}.

Definition flag_String (fl : flags) (name value : string) : string :=
  default value (fl_strings fl !! name).
Definition flag_Int (fl : flags) (name : string) (value : Z) : Z :=
  default value (fl_ints fl !! name).

(** [redis.NewClient(&redis.Options{...})], known by its options. *)
Record redisOptions := mkRedisOptions { ro_Addr : string; ro_Password : string }.

Inductive sessionStore :=
  | UseMemory (sweep : Duration)
  | UseRedis (s : Redis.Redis redisOptions).

Definition newSessionStore (e : env) (redisAddr : string) : sessionStore :=
  if is_empty redisAddr then UseMemory (30 * Second) else
  let client := mkRedisOptions redisAddr (default "" (e !! "XDAUTH_REDIS_PASSWORD")) in
  UseRedis (Redis.NewRedis (Redis.mkRedisConfig client "")).

Section Startup.
Context {Net : Type} {RL : RateLimiter} {OA : Oidc.OAuth Net}.
Context {XC : Saml.X509} {SP : Saml.SamlSP Net} {loc : Location}.

(** What the process meets. *)
Record process := mkProcess {
  pr_env : env;
  pr_flags : flags;
  ReadFile : string → result string string;
  pr_start : Time;                             (* [time.Now()] of retryDiscovery *)
  pr_oidc : list (attempt (string → result Oidc.Discovered string));
  pr_saml : list (attempt Saml.surroundings);
}.

Variable pr : process.

(** [os.Getenv]. *)
Definition Getenv (key : string) : string := default "" (pr_env pr !! key).

Inductive provider :=
  | OidcProvider (p : Oidc.Provider)
  | SamlProvider (p : Saml.Provider).

(** A provider, an exit code, or [None]: still discovering. *)
Definition newOIDCProvider (baseURL : string) : option (result Oidc.Provider Z) :=
  let issuerURL := Getenv "XDAUTH_ISSUER_URL" in
  let clientID := Getenv "XDAUTH_CLIENT_ID" in
  let identityClaim := envOr (pr_env pr) "XDAUTH_IDENTITY_CLAIM" "preferred_username" in
  let scopes := envOr (pr_env pr) "XDAUTH_SCOPES" "openid,profile" in
  let requiredAMR := splitNonEmpty (Getenv "XDAUTH_REQUIRE_AMR") in
  let secret :=
    let path := Getenv "XDAUTH_CLIENT_SECRET_FILE" in
    if is_empty path then Ok (Getenv "XDAUTH_CLIENT_SECRET")
    else match ReadFile pr path with Ok b => Ok (TrimSpace b) | Err e => Err e end in
  match secret with
  | Err _ => Some (Err 1)
  | Ok clientSecret =>
  if is_empty issuerURL || is_empty clientID || is_empty clientSecret then Some (Err 2) else
  let cfg := {|
    Oidc.IssuerURL := issuerURL;
    Oidc.ClientID := clientID;
    Oidc.ClientSecret := clientSecret;
    Oidc.RedirectURL := baseURL +:+ "/auth/callback";
    Oidc.Scopes := Split scopes ",";
    Oidc.IdentityClaim := identityClaim;
    Oidc.RequiredAMR := requiredAMR;
  |} in
  match (retryDiscovery (Oidc.New cfg) (pr_start pr) (pr_oidc pr)).1 with
  | None => None
  | Some (Err _) => Some (Err 1)
  | Some (Ok p) => Some (Ok p)
  end end.

Definition newSAMLProvider (baseURL : string) : option (result Saml.Provider Z) :=
  let metadataURL := Getenv "XDAUTH_SAML_IDP_METADATA_URL" in
  let metadataFile := Getenv "XDAUTH_SAML_IDP_METADATA_FILE" in
  let identityAttribute := Getenv "XDAUTH_SAML_IDENTITY_ATTRIBUTE" in
  let entityID := Getenv "XDAUTH_SAML_ENTITY_ID" in
  let acsURL := Getenv "XDAUTH_SAML_ACS_URL" in
  if Bool.eqb (is_empty metadataURL) (is_empty metadataFile) then Some (Err 2) else
  let metadata := if is_empty metadataFile then Ok "" else ReadFile pr metadataFile in
  match metadata with
  | Err _ => Some (Err 1)
  | Ok metadataXML =>
  let cfg := {|
    Saml.EntityID := entityID;
    Saml.BaseURL := baseURL;
    Saml.ACSURL := acsURL;
    Saml.IDPMetadataURL := metadataURL;
    Saml.IDPMetadataXML := metadataXML;
    Saml.IdentityAttribute := identityAttribute;
    Saml.HTTPClient := None;
  |} in
  match (retryDiscovery (Saml.New cfg) (pr_start pr) (pr_saml pr)).1 with
  | None => None
  | Some (Err _) => Some (Err 1)
  | Some (Ok p) => Some (Ok p)
  end end.

(** The values of the flags. *)
Definition listenAddr : string :=
  flag_String (pr_flags pr) "listen" (envOr (pr_env pr) "XDAUTH_LISTEN_ADDR" ":8080").
Definition baseURL : string := flag_String (pr_flags pr) "base-url" (Getenv "XDAUTH_BASE_URL").
Definition protocol : string :=
  flag_String (pr_flags pr) "protocol" (envOr (pr_env pr) "XDAUTH_PROTOCOL" "oidc").
Definition sessionTTL : Z :=
  flag_Int (pr_flags pr) "session-ttl-seconds" (envIntOr (pr_env pr) "XDAUTH_SESSION_TTL_SECONDS" 300).
Definition pollInterval : Z :=
  flag_Int (pr_flags pr) "poll-interval-seconds" (envIntOr (pr_env pr) "XDAUTH_POLL_INTERVAL_SECONDS" 3).
Definition artifactTTL : Z :=
  flag_Int (pr_flags pr) "artifact-ttl-seconds" (envIntOr (pr_env pr) "XDAUTH_ARTIFACT_TTL_SECONDS" 120).
Definition abuseWebhookURL : string :=
  flag_String (pr_flags pr) "abuse-webhook-url" (Getenv "XDAUTH_ABUSE_WEBHOOK_URL").
Definition clientAuthTokens : string :=
  flag_String (pr_flags pr) "client-auth-tokens" (Getenv "XDAUTH_CLIENT_AUTH_TOKENS").
Definition trustedProxies : string :=
  flag_String (pr_flags pr) "trusted-proxies" (Getenv "XDAUTH_TRUSTED_PROXIES").
Definition allowedClientCIDRs : string :=
  flag_String (pr_flags pr) "allowed-client-cidrs" (Getenv "XDAUTH_ALLOWED_CLIENT_CIDRS").
Definition redisAddr : string := flag_String (pr_flags pr) "redis-addr" (Getenv "XDAUTH_REDIS_ADDR").

(** The server: [broker.New] is applied to the configuration, the store and
    the provider; its Router is what is served. *)
Record server := mkServer {
  srv_Addr : string;
  srv_ReadHeaderTimeout : Duration;
  srv_config : Broker.Config;
  srv_store : sessionStore;
  srv_idp : provider;
}.

Inductive startup :=
  | Exit (code : Z)
  | Discovering
  | Serve (s : server).

Definition new_idp (trimmedBaseURL : string) : option (result provider Z) :=
  if seqb protocol "oidc" then
    match newOIDCProvider trimmedBaseURL with
    | None => None | Some (Err code) => Some (Err code) | Some (Ok p) => Some (Ok (OidcProvider p))
    end
  else if seqb protocol "saml" then
    match newSAMLProvider trimmedBaseURL with
    | None => None | Some (Err code) => Some (Err code) | Some (Ok p) => Some (Ok (SamlProvider p))
    end
  else Some (Err 2).

(** [run] up to [ListenAndServe]. *)
Definition start : startup :=
  if is_empty baseURL then Exit 2 else
  let trimmedBaseURL := TrimRight baseURL "/" in
  match new_idp trimmedBaseURL with
  | None => Discovering
  | Some (Err code) => Exit code
  | Some (Ok idp) =>
  match parseClientAuthTokens clientAuthTokens with
  | Err _ => Exit 2
  | Ok clientAuth =>
  match parseCIDRList trustedProxies with
  | Err _ => Exit 2
  | Ok trustedProxyPrefixes =>
  match parseCIDRList allowedClientCIDRs with
  | Err _ => Exit 2
  | Ok allowedClientPrefixes =>
    Serve {|
      srv_Addr := listenAddr;
      srv_ReadHeaderTimeout := 5 * Second;
      srv_config := {|
        Broker.BaseURL := trimmedBaseURL;
        Broker.SessionTTL := Duration_mul sessionTTL Second;
        Broker.PollInterval := Duration_mul pollInterval Second;
        Broker.StartRatePerSec := limit_zero;
        Broker.StartRateBurst := 0;
        Broker.ArtifactTTL := Duration_mul artifactTTL Second;
        Broker.IdentityNormalizer := None;
        Broker.AbuseWebhookURL := abuseWebhookURL;
        Broker.ClientAuthenticator := clientAuth;
        Broker.TrustedProxies := trustedProxyPrefixes;
        Broker.AllowedClientCIDRs := allowedClientPrefixes;
      |};
      srv_store := newSessionStore (pr_env pr) redisAddr;
      srv_idp := idp;
    |}
  end end end end.

(** What [ListenAndServe] returned. *)
Inductive serve_error := ErrServerClosed | ServeError.

(** [run]: the exit code; [None]: still discovering. *)
Definition run (ListenAndServe : server → option serve_error) : option Z :=
  match start with
  | Exit code => Some code
  | Discovering => None
  | Serve srv =>
      match ListenAndServe srv with
      | Some ServeError => Some 1
      | Some ErrServerClosed | None => Some 0
      end
  end.

(** ** What a serving broker was configured with *)

(** An attempt at discovery that succeeded, every earlier one having failed by
    the deadline and been retried. *)
Definition succeeded {X A} (fn : X → result A string) (attempts : list (attempt X)) (a : attempt X)
    (v : A) : Prop :=
  fn (at_met a) = Ok v ∧ ∃ before after, attempts = before ++ a :: after ∧
    Forall (retries fn (Add (pr_start pr) (30 * Second))) before.

(** The client secret, from the file if one is named. *)
Definition client_secret (secret : string) : Prop :=
  let path := Getenv "XDAUTH_CLIENT_SECRET_FILE" in
  path = "" ∧ secret = Getenv "XDAUTH_CLIENT_SECRET" ∨
  path ≠ "" ∧ ∃ b, ReadFile pr path = Ok b ∧ secret = TrimSpace b.

Record oidc_configured (base : string) (p : Oidc.Provider) : Prop := {
  oc_issuer : Oidc.IssuerURL (Oidc.pv_cfg p) = Getenv "XDAUTH_ISSUER_URL" ∧
    Getenv "XDAUTH_ISSUER_URL" ≠ "";
  oc_client : Oidc.o2_ClientID (Oidc.pv_oauth2 p) = Getenv "XDAUTH_CLIENT_ID" ∧
    Getenv "XDAUTH_CLIENT_ID" ≠ "";
  oc_secret : client_secret (Oidc.o2_ClientSecret (Oidc.pv_oauth2 p)) ∧
    Oidc.o2_ClientSecret (Oidc.pv_oauth2 p) ≠ "";
  oc_redirect : Oidc.o2_RedirectURL (Oidc.pv_oauth2 p) = base +:+ "/auth/callback";
  oc_scopes : Oidc.ScopeOpenID ∈ Oidc.o2_Scopes (Oidc.pv_oauth2 p);
  oc_claim : Oidc.IdentityClaim (Oidc.pv_cfg p)
      = envOr (pr_env pr) "XDAUTH_IDENTITY_CLAIM" "preferred_username" ∧
    Oidc.IdentityClaim (Oidc.pv_cfg p) ≠ "";
  oc_amr : Oidc.RequiredAMR (Oidc.pv_cfg p) = splitNonEmpty (Getenv "XDAUTH_REQUIRE_AMR");
  (* endpoints and keys are those the issuer published *)
  oc_discovered : ∃ cfg a d, succeeded (Oidc.New cfg) (pr_oidc pr) a p ∧
    at_met a (Getenv "XDAUTH_ISSUER_URL") = Ok d ∧
    Oidc.o2_Endpoint (Oidc.pv_oauth2 p) = Oidc.Endpoint d ∧
    Oidc.pv_verifier p = Oidc.Verifier d (Getenv "XDAUTH_CLIENT_ID");
}.

(** The identity provider's metadata: from the URL or from the file, never
    from both. *)
Definition metadata_from (p : Saml.Provider) : Prop :=
  let url := Getenv "XDAUTH_SAML_IDP_METADATA_URL" in
  let file := Getenv "XDAUTH_SAML_IDP_METADATA_FILE" in
  let md := Saml.sp_IDPMetadata (Saml.sp p) in
  url ≠ "" ∧ file = "" ∧ (∃ cfg a u, succeeded (Saml.New cfg) (pr_saml pr) a p ∧
     Parse url = Some u ∧ Saml.FetchMetadata (at_met a) Saml.DefaultClient u = Ok md) ∨
  url = "" ∧ file ≠ "" ∧ ∃ xml, ReadFile pr file = Ok xml ∧ xml ≠ "" ∧ Saml.ParseMetadata xml = Ok md.

Record saml_configured (base : string) (p : Saml.Provider) : Prop := {
  sc_base : base ≠ "";
  sc_entity : Saml.sp_EntityID (Saml.sp p) = envOr (pr_env pr) "XDAUTH_SAML_ENTITY_ID" base;
  sc_acs : Parse (envOr (pr_env pr) "XDAUTH_SAML_ACS_URL" (base +:+ "/auth/saml/acs"))
    = Some (Saml.sp_AcsURL (Saml.sp p));
  sc_attribute : Saml.identityAttribute p = Getenv "XDAUTH_SAML_IDENTITY_ATTRIBUTE";
  sc_metadata : metadata_from p;
}.

Record configured (srv : server) : Prop := {
  cf_base : baseURL ≠ "" ∧ Broker.BaseURL (srv_config srv) = TrimRight baseURL "/";
  (* nothing is left of the base URL exactly if it was made of slashes: only
     with OIDC, whose provider does not test it *)
  cf_slashes : (Broker.BaseURL (srv_config srv) = ""
      ↔ string_all (λ c, Ascii.eqb c "/") baseURL = true) ∧
    (protocol = "saml" → Broker.BaseURL (srv_config srv) ≠ "");
  cf_clients : parseClientAuthTokens clientAuthTokens
      = Ok (Broker.ClientAuthenticator (srv_config srv)) ∧
    (Broker.ClientAuthenticator (srv_config srv) = None ↔ clientAuthTokens = "");
  cf_networks : parseCIDRList allowedClientCIDRs = Ok (Broker.AllowedClientCIDRs (srv_config srv)) ∧
    (Broker.AllowedClientCIDRs (srv_config srv) = [] ↔ allowedClientCIDRs = "");
  cf_proxies : parseCIDRList trustedProxies = Ok (Broker.TrustedProxies (srv_config srv)) ∧
    (Broker.TrustedProxies (srv_config srv) = [] ↔ trustedProxies = "");
  cf_lifetimes : let cfg := Broker.applyDefaults (srv_config srv) in
    0 < Broker.SessionTTL cfg ∧ 0 < Broker.PollInterval cfg ∧ 0 < Broker.ArtifactTTL cfg;
  (* the numbers of seconds, which wrap; none or less gives the default *)
  cf_numbers : let cfg := Broker.applyDefaults (srv_config srv) in
    Broker.SessionTTL cfg = Broker.or_default (5 * Minute) (Duration_mul sessionTTL Second) ∧
    Broker.PollInterval cfg = Broker.or_default (3 * Second) (Duration_mul pollInterval Second) ∧
    Broker.ArtifactTTL cfg = Broker.or_default (120 * Second) (Duration_mul artifactTTL Second);
  cf_store : srv_store srv = UseMemory (30 * Second) ↔ redisAddr = "";
  cf_idp : match srv_idp srv with
    | OidcProvider p => protocol = "oidc" ∧ oidc_configured (TrimRight baseURL "/") p
    | SamlProvider p => protocol = "saml" ∧ saml_configured (TrimRight baseURL "/") p
    end;
}.

(** *** Lemmas *)
Lemma or_default_pos d v : 0 < d → 0 < Broker.or_default d v.
Proof. unfold Broker.or_default. case_match eqn:E; reflect_bool; lia. Qed.

Lemma discovery_succeeds {X A} (fn : X → result A string) attempts v :
  (retryDiscovery fn (pr_start pr) attempts).1 = Some (Ok v) → ∃ a, succeeded fn attempts a v.
Proof.
  unfold retryDiscovery. intros H.
  apply (proj1 (retry_loop_outcome fn _ _ attempts)) in H as (before & a & after & -> & Hf & Hv).
  exists a. split; [done|]. by exists before, after.
Qed.

Lemma oidc_New_Ok cfg answers p : Oidc.New cfg answers = Ok p →
  ∃ d, answers (Oidc.IssuerURL cfg) = Ok d ∧ Oidc.pv_cfg p = Oidc.with_defaults cfg ∧
    Oidc.pv_oauth2 p = Oidc.mkOauth2Config (Oidc.ClientID cfg) (Oidc.ClientSecret cfg)
      (Oidc.RedirectURL cfg) (Oidc.Endpoint d) (Oidc.Scopes (Oidc.with_defaults cfg)) ∧
    Oidc.pv_verifier p = Oidc.Verifier d (Oidc.ClientID cfg).
Proof.
  unfold Oidc.New. cbn [Oidc.IssuerURL Oidc.with_defaults].
  destruct (answers (Oidc.IssuerURL cfg)) as [d|e] eqn:E; [|done]. intros [= <-]. by exists d.
Qed.

Lemma openid_requested cfg : Oidc.ScopeOpenID ∈ Oidc.Scopes (Oidc.with_defaults cfg).
Proof.
  cbn. destruct (existsb _ (Oidc.Scopes cfg)) eqn:E; [|by left].
  apply existsb_exists in E as (s & Hs & He). apply seqb_true in He as ->. by apply list_elem_of_In.
Qed.

Lemma envOr_Getenv key def :
  envOr (pr_env pr) key def = if is_empty (Getenv key) then def else Getenv key.
Proof. unfold envOr, Getenv. by destruct (is_empty _). Qed.

Lemma newOIDCProvider_Ok base p :
  newOIDCProvider base = Some (Ok p) → oidc_configured base p.
Proof.
  unfold newOIDCProvider. cbv zeta.
  destruct (if is_empty (Getenv "XDAUTH_CLIENT_SECRET_FILE") then _ else _) as [secret|e] eqn:Es; [|done].
  destruct (is_empty (Getenv "XDAUTH_ISSUER_URL")) eqn:Ei; [done|].
  destruct (is_empty (Getenv "XDAUTH_CLIENT_ID")) eqn:Ec; [done|].
  destruct (is_empty secret) eqn:Ese; [done|]. cbn [orb].
  match goal with |- context [retryDiscovery (Oidc.New ?c) _ _] => set (cfg := c) end.
  destruct (retryDiscovery _ _ _).1 as [[q|]|] eqn:Er; [|done..]. intros [= ->].
  apply discovery_succeeds in Er as [a Ha].
  destruct (oidc_New_Ok cfg (at_met a) p (proj1 Ha)) as (d & Hd & Hc & Ho & Hv).
  apply is_empty_false in Ei, Ec, Ese. constructor.
  - by rewrite Hc.
  - by rewrite Ho.
  - rewrite Ho. split; [|done]. unfold client_secret. cbn [Oidc.o2_ClientSecret Oidc.ClientSecret cfg].
    destruct (is_empty (Getenv "XDAUTH_CLIENT_SECRET_FILE")) eqn:Ef.
    + apply is_empty_true in Ef. injection Es as <-. by left.
    + apply is_empty_false in Ef. destruct (ReadFile _ _) as [b|]; [|done]. injection Es as <-.
      right. split; [done|]. by exists b.
  - by rewrite Ho.
  - rewrite Ho. apply openid_requested.
  - rewrite Hc. cbn [Oidc.IdentityClaim Oidc.with_defaults cfg]. rewrite envOr_Getenv.
    destruct (is_empty (Getenv "XDAUTH_IDENTITY_CLAIM")) eqn:E; [done|]. rewrite E.
    apply is_empty_false in E. done.
  - by rewrite Hc.
  - exists cfg, a, d. rewrite Ho. by split_and!.
Qed.

Lemma saml_New_Ok cfg env p : Saml.New cfg env = Ok p →
  let client := default Saml.DefaultClient (Saml.HTTPClient cfg) in
  Saml.BaseURL cfg ≠ "" ∧
  (Saml.IDPMetadataURL cfg ≠ "" ∧ Saml.IDPMetadataXML cfg = "" ∧
     (∃ u, Parse (Saml.IDPMetadataURL cfg) = Some u ∧
        Saml.FetchMetadata env client u = Ok (Saml.sp_IDPMetadata (Saml.sp p))) ∨
   Saml.IDPMetadataURL cfg = "" ∧ Saml.IDPMetadataXML cfg ≠ "" ∧
     Saml.ParseMetadata (Saml.IDPMetadataXML cfg) = Ok (Saml.sp_IDPMetadata (Saml.sp p))) ∧
  Saml.sp_EntityID (Saml.sp p) =
    (if is_empty (Saml.EntityID cfg) then Saml.BaseURL cfg else Saml.EntityID cfg) ∧
  Parse (if is_empty (Saml.ACSURL cfg) then Saml.BaseURL cfg +:+ "/auth/saml/acs" else Saml.ACSURL cfg)
    = Some (Saml.sp_AcsURL (Saml.sp p)) ∧
  Saml.identityAttribute p = Saml.IdentityAttribute cfg.
Proof.
  unfold Saml.New, Saml.metadata_source. cbv zeta.
  destruct (is_empty (Saml.BaseURL cfg)) eqn:Eb; [done|]. apply is_empty_false in Eb.
  destruct (Bool.eqb _ _) eqn:Eq; [done|].
  destruct (if negb (is_empty (Saml.IDPMetadataURL cfg)) then _ else _) as [md|] eqn:Em; [|done].
  destruct (Saml.selfSignedCert _ _) as [[key cert]|]; [|done].
  destruct (Parse (if is_empty (Saml.ACSURL cfg) then _ else _)) as [acs|] eqn:Ea; [|done].
  destruct (Parse (Saml.BaseURL cfg +:+ _)) as [mu|]; [|done]. intros [= <-].
  cbn [Saml.sp Saml.sp_EntityID Saml.sp_AcsURL Saml.identityAttribute Saml.sp_IDPMetadata].
  split_and!; try done.
  destruct (is_empty (Saml.IDPMetadataURL cfg)) eqn:Eu, (is_empty (Saml.IDPMetadataXML cfg)) eqn:Ex;
    try done; [right|left]; [apply is_empty_true in Eu; apply is_empty_false in Ex
                            |apply is_empty_false in Eu; apply is_empty_true in Ex];
    cbn [negb] in Em; (split; [done|]; split; [done|]).
  - destruct (Saml.ParseMetadata _); [by injection Em as ->|done].
  - destruct (Parse _) as [u|] eqn:Ep; [|done]. exists u. split; [done|].
    destruct (Saml.FetchMetadata _ _ _); [by injection Em as ->|done].
Qed.

Lemma newSAMLProvider_Ok base p :
  newSAMLProvider base = Some (Ok p) → saml_configured base p.
Proof.
  unfold newSAMLProvider. cbv zeta. destruct (Bool.eqb _ _) eqn:Eq; [done|].
  destruct (if is_empty (Getenv "XDAUTH_SAML_IDP_METADATA_FILE") then _ else _) as [xml|e] eqn:Ex; [|done].
  match goal with |- context [retryDiscovery (Saml.New ?c) _ _] => set (cfg := c) end.
  destruct (retryDiscovery _ _ _).1 as [[q|]|] eqn:Er; [|done..]. intros [= ->].
  apply discovery_succeeds in Er as [a Ha].
  destruct (saml_New_Ok cfg (at_met a) p (proj1 Ha)) as (Hb & Hm & He & Hacs & Hat).
  constructor; [exact Hb| | |exact Hat|].
  - by rewrite envOr_Getenv.
  - rewrite envOr_Getenv. exact Hacs.
  - destruct Hm as [(Hu & Hx & u & Hp & Hf)|(Hu & Hx & Hp)];
      cbn [Saml.IDPMetadataURL Saml.IDPMetadataXML Saml.HTTPClient cfg default] in *.
    + left. split; [done|]. apply is_empty_false in Hu. rewrite Hu in Eq.
      destruct (is_empty (Getenv "XDAUTH_SAML_IDP_METADATA_FILE")) eqn:Ef; [|done].
      apply is_empty_true in Ef. split; [done|]. by exists cfg, a, u.
    + right. split; [done|]. apply is_empty_true in Hu. rewrite Hu in Eq.
      destruct (is_empty (Getenv "XDAUTH_SAML_IDP_METADATA_FILE")) eqn:Ef; [done|].
      apply is_empty_false in Ef. split; [done|]. by exists xml.
Qed.

Lemma cidrs_nil raw ps : parseCIDRList raw = Ok ps → (ps = [] ↔ raw = "").
Proof.
  unfold parseCIDRList. destruct (is_empty raw) eqn:E.
  - apply is_empty_true in E. by intros [= <-].
  - apply is_empty_false in E. intros Hp. apply parse_prefixes_spec in Hp as (qs & -> & Hf).
    split; [|done]. cbn [app]. intros ->. apply Forall2_nil_inv_r in Hf. by destruct (Split_nonempty raw ",").
Qed.

Lemma tokens_None raw auth : parseClientAuthTokens raw = Ok auth → (auth = None ↔ raw = "").
Proof.
  unfold parseClientAuthTokens. destruct (is_empty raw) eqn:E.
  - apply is_empty_true in E. by intros [= <-].
  - apply is_empty_false in E. destruct (parse_tokens _ _); [|done]. by intros [= <-].
Qed.

Lemma new_idp_Ok base idp : new_idp base = Some (Ok idp) →
  match idp with
  | OidcProvider p => protocol = "oidc" ∧ oidc_configured base p
  | SamlProvider p => protocol = "saml" ∧ saml_configured base p
  end.
Proof.
  unfold new_idp. destruct (seqb protocol "oidc") eqn:E1.
  - apply seqb_true in E1. destruct (newOIDCProvider base) as [[p|]|] eqn:E; [|done..].
    intros [= <-]. split; [done|by apply newOIDCProvider_Ok].
  - destruct (seqb protocol "saml") eqn:E2; [|done]. apply seqb_true in E2.
    destruct (newSAMLProvider base) as [[p|]|] eqn:E; [|done..].
    intros [= <-]. split; [done|by apply newSAMLProvider_Ok].
Qed.

Lemma new_idp_code base code : new_idp base = Some (Err code) → code = 1 ∨ code = 2.
Proof.
  unfold new_idp, newOIDCProvider, newSAMLProvider. cbv zeta. intros H.
  repeat (case_match; simplify_eq); auto.
Qed.

Lemma TrimRight_empty s c : TrimRight s c = "" ↔ string_all (λ d, Ascii.eqb d c) s = true.
Proof.
  induction s as [|d s IH]; [done|]. cbn [TrimRight string_all]. rewrite andb_true_iff, <-IH.
  destruct (TrimRight s c); [|naive_solver]. destruct (Ascii.eqb d c); naive_solver.
Qed.

Lemma start_configured srv : start = Serve srv → configured srv.
Proof.
  unfold start. destruct (is_empty baseURL) eqn:Eb; [done|]. apply is_empty_false in Eb. cbv zeta.
  destruct (new_idp _) as [[idp|]|] eqn:Ei; [|done..].
  destruct (parseClientAuthTokens _) as [auth|] eqn:Ea; [|done].
  destruct (parseCIDRList trustedProxies) as [tp|] eqn:Et; [|done].
  destruct (parseCIDRList allowedClientCIDRs) as [al|] eqn:El; [|done]. intros [= <-].
  constructor; cbn [srv_config srv_store srv_idp Broker.BaseURL].
  - done.
  - split; [apply TrimRight_empty|]. apply new_idp_Ok in Ei. intros Hp.
    destruct idp as [p|p]; [destruct Ei; congruence|]. by destruct Ei as [_ [? _ _ _ _]].
  - split; [done|]. by apply tokens_None.
  - split; [done|]. by apply cidrs_nil.
  - split; [done|]. by apply cidrs_nil.
  - cbn [Broker.applyDefaults Broker.SessionTTL Broker.PollInterval Broker.ArtifactTTL].
    split_and!; by apply or_default_pos.
  - done.
  - unfold newSessionStore. destruct (is_empty redisAddr) eqn:E.
    + apply is_empty_true in E. done.
    + apply is_empty_false in E. done.
  - by apply new_idp_Ok.
Qed.

Lemma start_interval64 srv : start = Serve srv →
  is_int64 (Broker.PollInterval (Broker.applyDefaults (srv_config srv))).
Proof.
  unfold start. destruct (is_empty baseURL); [done|]. cbv zeta.
  repeat (case_match; try done). intros [= <-]. cbn. unfold Broker.or_default. case_match.
  - vm_compute. split; congruence.
  - apply wrap64_range.
Qed.

Lemma start_prefix srv rd : start = Serve srv → srv_store srv = UseRedis rd →
  Redis.rd_keyPrefix rd = Redis.default_prefix.
Proof.
  unfold start. destruct (is_empty baseURL); [done|]. cbv zeta.
  repeat (case_match; try done). intros [= <-]. cbn. unfold newSessionStore.
  destruct (is_empty redisAddr); [done|]. by intros [= <-].
Qed.


End Startup.
