(* ===== verification/Deployment.v ===== *)
(** The broker as the command deploys it: the server [Startup.start] yields,
    with the in-memory store and the provider that was configured, under any
    schedule of requests.  The safety theorem of [Safety] then reaches down to
    the ID token or the SAML assertion. *)

From S2P Require Import Prelude GoStrings GoTime GoCrypto GoFormat GoUrl UserCode Pkce Session Fsm.
From S2P Require Import FsmSpec FsmTrace Store Wire Http ClientIP ClientAuth Detect RateLimit Prog.
From S2P Require Import Broker Handlers System Justify Safety.
From S2P Require Oidc Saml Main Startup.

Local Open Scope list_scope.

#[export] Existing Instance Memory.Memory_Store.
#[export] Existing Instance Memory.Memory_Laws.
#[export] Existing Instance Memory.Memory_Reliable.

(** ** What the trace says of the provider *)

(** An answered event was answered by the code or the provider behind it. *)
Definition truthful {St I : Type} `{Store St} `{RateLimiter} `{IdentityProvider I} (x : tev) : Prop :=
  match x with (_, existT _ (e, a)) => ∃ w w' : World St I, interp e w = (a, w') end.

Section Truth.
Context {St I : Type} `{StoreLaws St} `{RateLimiter} `{IdentityProviderLaws I}.
Context `{UnicodeCase} `{Location}.
Variable cfg : Config.

Lemma step_truthful a (sys : Sys (St := St) (I := I)) :
  Forall (truthful (St := St) (I := I)) (s_trace sys) →
  Forall (truthful (St := St) (I := I)) (s_trace (step cfg a sys)).
Proof.
  intros Ht. destruct a as [e r|i|d|]; [done| |done|done]. cbn [step].
  destruct (s_threads sys !! i) as [[| |R e k]|]; [done..| |done].
  destruct (interp e (s_world sys)) as [x w] eqn:E. cbn [s_trace].
  apply Forall_app. split; [done|]. constructor; [|done].
  exists (s_world sys), w. exact E.
Qed.

Lemma exec_truthful acts (w : World St I) :
  Forall (truthful (St := St) (I := I)) (s_trace (exec cfg acts (init w))).
Proof.
  unfold exec. assert (H' : Forall (truthful (St := St) (I := I)) (s_trace (init w))) by constructor.
  revert H'. generalize (init w). induction acts as [|a acts IH]; intros sys Hs; [done|].
  cbn [foldl]. by apply IH, step_truthful.
Qed.

(** An identity in the history is one the provider returned. *)
Lemma performed_IdPComplete acts (w : World St I) i r s x :
  performed (hist (exec cfg acts (init w))) i (IdPComplete r s) x →
  ∃ now n n', CompleteLogin now r s n = (x, n').
Proof.
  intros Hp. pose proof (exec_truthful acts w) as Ht. rewrite list.Forall_forall in Ht.
  destruct (Ht _ Hp) as (w1 & w2 & He). cbn in He.
  destruct (CompleteLogin (w_clock w1) r s (w_idp w1)) as [y n'] eqn:E. simplify_eq. eauto.
Qed.
End Truth.

(** ** The configured provider *)
Section Deployment.
Context {Net : Type} {RL : RateLimiter} {OA : Oidc.OAuth Net}.
Context {XC : Saml.X509} {SP : Saml.SamlSP Net} {loc : Location} {UC : UnicodeCase}.

Definition configured_idp (p : Startup.provider) : IdentityProvider Net :=
  match p with
  | Startup.OidcProvider q => Oidc.Oidc_Provider q
  | Startup.SamlProvider q => Saml.Saml_Provider q
  end.

#[export] Instance configured_idp_laws p : @IdentityProviderLaws Net (configured_idp p).
Proof. destruct p; [apply Oidc.Oidc_Laws|apply Saml.Saml_Laws]. Qed.

Variable pr : Startup.process.

(** The login behind a bound session, down to the provider's answer. *)
Definition asserted (p : Startup.provider) (h : history) (s : Session) (ident : Identity) : Prop :=
  ∃ i e r s0 now n n', serves h i e r ∧ (e = Callback ∨ e = SamlACS) ∧
    readSessionCookie r = Some (ID s) ∧ origin s0 = origin s ∧
    match p with
    | Startup.OidcProvider q => Oidc.accepted q now r s0 n ident n'
    | Startup.SamlProvider q =>
        PostFormValue r "RelayState" = ID s ∧
        ∃ assertion, Saml.ParseResponse (Saml.sp q) now r [SAMLRequestID s0] n = (Ok assertion, n') ∧
          Saml.identityFromAssertion assertion
            (Startup.Getenv pr "XDAUTH_SAML_IDENTITY_ATTRIBUTE") = Ok ident
    end.

(** The provider's answer to the session's callback. *)
Lemma answer_asserted srv acts (w : World Memory.Memory Net) cfg s ident secret :
  Startup.start pr = Startup.Serve srv →
  let idp := configured_idp (Startup.srv_idp srv) in
  let laws := configured_idp_laws (Startup.srv_idp srv) in
  let h := hist (exec cfg acts (init w)) in
  logged_in cfg h s ident secret → asserted (Startup.srv_idp srv) h s ident.
Proof.
  intros Hstart idp laws h (i & e & r & s0 & Hs & He & Hck & Hp & Ho & _).
  destruct (performed_IdPComplete cfg acts w i r s0 _ Hp) as (now & n & n' & Hc).
  assert (HID : ID s0 = ID s) by (unfold origin in Ho; congruence).
  exists i, e, r, s0, now, n, n'. split_and!; try done. subst idp. cbn in Hc.
  pose proof (Startup.cf_idp pr srv (Startup.start_configured pr srv Hstart)) as Hcf.
  destruct (Startup.srv_idp srv) as [q|q]; cbn in Hc.
  - by apply Oidc.oidc_accepts.
  - apply Saml.saml_accepts in Hc as (_ & _ & Hr & assertion & Hpr & Hi).
    destruct Hcf as [_ Hcf]. rewrite (Startup.sc_attribute _ _ _ Hcf) in Hi.
    split; [congruence|]. by exists assertion.
Qed.

(** C3: the deployed broker, from its environment to its artifacts: in
    every interleaving of requests to a server the command starts over the
    in-memory store, an artifact is handed only to a poll with the verifier of
    a session that passed the configured gates, was approved from the browser
    that logged in, and whose identity the configured provider asserted: an
    ID token of the configured issuer that verified, with the session's state
    and nonce and a required authentication method if any is configured, or a
    SAML assertion validated for the session's own request. *)
Theorem deployed_artifact_is_asserted srv sweep now t net acts i rw a :
  Startup.start pr = Startup.Serve srv →
  Startup.srv_store srv = Startup.UseMemory sweep →
  let idp := configured_idp (Startup.srv_idp srv) in
  let laws := configured_idp_laws (Startup.srv_idp srv) in
  let b := New (Startup.srv_config srv) now t Memory.NewMemory net in
  let h := hist (exec b.1 acts (init b.2)) in
  response (exec b.1 acts (init b.2)) i = Some rw → artifact_in rw = Some a →
  ∃ r req s ident secret,
    serves h i PollEndpoint r ∧ decode_pollRequest r = Some req ∧ pq_SessionID req = ID s ∧
    CodeChallenge s = s256 (pq_CodeVerifier req) ∧
    started b.1 h s ∧ logged_in b.1 h s ident secret ∧ approved_by h s ∧
    asserted (Startup.srv_idp srv) h s ident ∧
    a = artifact_of ident s (ArtifactTTL b.1) ∧ 0 < SessionTTL b.1.
Proof.
  intros Hstart Hst idp laws b h Hr Ha.
  assert (Hfresh : store_ok (w_store b.2) ∧ store_view (w_store b.2) = ∅)
    by (split; [exact Memory.NewMemory_ok|reflexivity]).
  destruct (release_checked b.1 b.2 Hfresh acts i rw a Hr Ha)
    as (r & req & s & ident & secret & Hs & Hd & Hid & _ & Hv & Hsta & Hl & Hap & ->).
  exists r, req, s, ident, secret. split_and!; try done.
  - by apply (answer_asserted srv acts b.2 b.1 s ident secret Hstart).
  - apply (Startup.cf_lifetimes pr srv (Startup.start_configured pr srv Hstart)).
Qed.

End Deployment.
