(* ===== verification/DeployDemo.v ===== *)
(** A deployed broker at work: the command is started from an environment,
    discovers a small OIDC provider, and serves one login.  The witnesses of
    [Startup] and [Deployment]. *)

From S2P Require Import Prelude GoStrings GoTime GoCrypto GoFormat GoUrl UserCode Pkce Session Fsm.
From S2P Require Import FsmSpec FsmTrace Store Wire Http Netip ClientIP ClientAuth Detect RateLimit Prog.
From S2P Require Import Broker Handlers System Justify Safety.
From S2P Require Oidc Saml Main Startup Scenario.
From S2P Require Import Deployment.

Local Open Scope list_scope.

(** The network of the demonstration holds no state. *)
Inductive network := Network.

(** An ID token is the code it was exchanged for: "alice.", then the nonce. *)
Definition demo_claims : claims :=
  {["preferred_username" := AnyString "alice@example.com"; "amr" := AnySlice [AnyString "hwk"]]}.

#[export] Instance demo_oauth : Oidc.OAuth network := {
  Oidc.Discovered := string;
  Oidc.EndpointT := string;
  Oidc.IDTokenVerifier := string;
  Oidc.Endpoint := λ d, d +:+ "/authorize";
  Oidc.Verifier := λ d clientID, clientID;
  Oidc.GenerateVerifier := λ t,
    match rand_Read 32 t with
    | (Some bs, t) => (RawURL_EncodeToString bs, t)
    | (None, t) => ("", t)
    end;
  Oidc.oauth2_AuthCodeURL := λ cfg state nonce v,
    Oidc.o2_Endpoint cfg +:+ "?state=" +:+ state +:+ "&nonce=" +:+ nonce;
  Oidc.oauth2_Exchange := λ cfg now code v n,
    (if HasPrefix code "alice." then Ok (Some code) else Err "invalid_grant", n);
  Oidc.verifier_Verify := λ v now raw n,
    (Ok (Oidc.mkIDToken "sub-1" (string_drop 6 raw) (Some demo_claims)), n);
}.

#[export] Instance demo_x509 : Saml.X509 := {
  Saml.PrivateKey := unit;
  Saml.Certificate := string;
  Saml.rsa_GenerateKey := λ bits t, (Ok tt, t);
  Saml.CreateCertificate := λ template key t, (Ok (Saml.ct_CommonName template), t);
  Saml.ParseCertificate := λ der, Ok der;
}.

#[export] Instance demo_samlsp : Saml.SamlSP network := {
  Saml.IDPMetadataT := string;
  Saml.EntityDescriptor := string;
  Saml.HTTPClientT := unit;
  Saml.DefaultClient := tt;
  Saml.ParseMetadata := λ xml, Ok xml;
  Saml.GetSSOBindingLocation := Saml.sp_IDPMetadata;
  Saml.MakeAuthenticationRequest := λ sp now url t, (Ok "id-1", t);
  Saml.Redirect_URL := λ sp req relay, Ok (Saml.sp_IDPMetadata sp +:+ "?RelayState=" +:+ relay);
  Saml.ParseResponse := λ sp now r ids n, (Err "not used", n);
  Saml.sp_Metadata := Saml.sp_EntityID;
}.

#[local] Existing Instance Scenario.demo_bucket.
#[local] Existing Instance Scenario.demo_case.
#[local] Existing Instance Scenario.demo_zone.

(** ** The start *)
Definition demo_env : Main.env :=
  {["XDAUTH_BASE_URL" := "https://xdauth.example/"; "XDAUTH_ISSUER_URL" := "https://idp.example";
    "XDAUTH_CLIENT_ID" := "xdauth"; "XDAUTH_CLIENT_SECRET_FILE" := "/run/secret";
    "XDAUTH_REQUIRE_AMR" := "hwk,swk"; "XDAUTH_SESSION_TTL_SECONDS" := "five";
    "XDAUTH_ALLOWED_CLIENT_CIDRS" := "10.0.0.0/8, 192.168.0.0/16"]}.

Definition demo_process : Startup.process (Net := network) := {|
  Startup.pr_env := demo_env;
  Startup.pr_flags := Startup.mkFlags ∅ {["poll-interval-seconds" := 7]};
  Startup.ReadFile := λ path,
    if seqb path "/run/secret" then Ok (" s3cret" +:+ String (ascii_of 10) "") else Err "no such file";
  Startup.pr_start := 0;
  Startup.pr_oidc :=
    [Main.mkAttempt (λ _, Err "connection refused") (1 * Second) false;
     Main.mkAttempt (λ issuer, Ok issuer) (2 * Second) false];
  Startup.pr_saml := [];
|}.

Definition demo_server : Startup.server (Net := network) :=
  match Startup.start demo_process with
  | Startup.Serve srv => srv
  | _ => Startup.mkServer "" 0 (Scenario.demo_config) (Startup.UseMemory 0)
           (Startup.OidcProvider (Oidc.mkProvider (Oidc.mkOidcConfig "" "" "" "" [] "" [])
              (Oidc.mkOauth2Config "" "" "" "" []) ""))
  end.

Definition serves_requests (s : Startup.startup (Net := network)) : bool :=
  match s with Startup.Serve _ => true | _ => false end.
Definition exit_code (s : Startup.startup (Net := network)) : option Z :=
  match s with Startup.Exit code => Some code | _ => None end.

Lemma demo_started : Startup.start demo_process = Startup.Serve demo_server.
Proof.
  assert (H : serves_requests (Startup.start demo_process) = true) by (vm_compute; reflexivity).
  unfold demo_server. by destruct (Startup.start demo_process).
Qed.


(** Without a client secret, or with a network list that does not parse, it
    does not start. *)
Example no_secret_no_start : exit_code (Startup.start (Startup.mkProcess (Net := network)
    (delete "XDAUTH_CLIENT_SECRET_FILE" demo_env) (Startup.mkFlags ∅ ∅) (λ _, Err "") 0
    (Startup.pr_oidc demo_process) [])) = Some 2.
Proof. vm_compute. reflexivity. Qed.
Example bad_network_no_start : exit_code (Startup.start (Startup.mkProcess (Net := network) demo_env
    (Startup.mkFlags {["allowed-client-cidrs" := "10.0.0.0/8,"]} ∅) (Startup.ReadFile demo_process) 0
    (Startup.pr_oidc demo_process) [])) = Some 2.
Proof. vm_compute. reflexivity. Qed.

(** The base URL is tested before its slashes are trimmed: "/" is accepted
    and leaves the broker without one. *)
Example slash_base_url : match Startup.start (Startup.mkProcess (Net := network) demo_env
    (Startup.mkFlags {["base-url" := "/"]} ∅) (Startup.ReadFile demo_process) 0
    (Startup.pr_oidc demo_process) []) with
  | Startup.Serve srv => BaseURL (Startup.srv_config srv) = ""
  | _ => False
  end.
Proof. vm_compute. reflexivity. Qed.

(** ** One login *)
#[local] Instance demo_idp : IdentityProvider network :=
  configured_idp (Startup.srv_idp demo_server).
#[local] Instance demo_laws : IdentityProviderLaws network :=
  configured_idp_laws (Startup.srv_idp demo_server).

Definition demo_tape : entropy := string_of_bytes (seqZ 1 250 ++ seqZ 2 250).

Definition demo_broker : Config * World Memory.Memory network :=
  New (Startup.srv_config demo_server) Scenario.t0 demo_tape Memory.NewMemory Network.

Notation runs acts := (exec demo_broker.1 acts (init demo_broker.2)).

Definition acts_start : list action := Scenario.acts_start.

Definition sid : string :=
  match response (runs acts_start) 0 ≫= rw_body with
  | Some (JSONStart v) => sr_SessionID v | _ => ""
  end.
Definition code : string :=
  match response (runs acts_start) 0 ≫= rw_body with
  | Some (JSONStart v) => sr_UserCode v | _ => ""
  end.

Definition acts_verify : list action :=
  acts_start ++ Arrive (Verify sid) (Scenario.request [] "" [] []) :: Scenario.finish 1.

(** The provider's answer quotes the parameters of the redirect. *)
Definition redirect : string :=
  match response (runs acts_verify) 1 ≫= rw_body with Some (PageRedirect u) => u | _ => "" end.
Definition prefix : string := "https://idp.example/authorize?state=".
Definition idp_state : string := string_take 43 (string_drop (String.length prefix) redirect).
Definition idp_nonce : string := string_drop (String.length prefix + 43 + 7) redirect.

Definition acts_login : list action :=
  acts_verify ++ Tick (5 * Second) :: Arrive Callback
    (Scenario.request [(sessionCookieName, sid)] "" []
       [("state", idp_state); ("code", "alice." +:+ idp_nonce)]) :: Scenario.finish 2.

Definition login_response : ResponseWriter := default new_writer (response (runs acts_login) 2).

Definition acts_approve : list action :=
  acts_login ++ Tick (5 * Second) :: Arrive ApproveForm
    (Scenario.request [(sessionCookieName, sid);
       (approvalCookieName, default "" (head (approval_cookies login_response)))] ""
       [("user_code", code); ("csrf_token", default "" (csrf_shown login_response));
        ("decision", "approve")] []) :: Scenario.finish 3.

Definition acts_poll : list action :=
  acts_approve ++ Tick (1 * Second) :: Arrive PollEndpoint
    (Scenario.request [] (Scenario.json_text [("session_id", sid);
       ("code_verifier", Scenario.verifier)]) [] []) :: Scenario.finish 4.

Definition final_response : ResponseWriter := default new_writer (response (runs acts_poll) 4).

Definition demo_artifact : Artifact :=
  mkArtifact "sub-1" "alice@example.com" demo_claims (Scenario.t0 + 5 * Second)
    (Scenario.t0 + 125 * Second).

Lemma demo_completes :
  response (runs acts_poll) 4 = Some final_response ∧ artifact_in final_response = Some demo_artifact.
Proof. vm_compute. by split. Qed.

Lemma deployed_artifact_is_asserted_witness :
  ∃ s ident, asserted demo_process (Startup.srv_idp demo_server) (hist (runs acts_poll)) s ident ∧
    demo_artifact = artifact_of ident s (ArtifactTTL demo_broker.1).
Proof.
  assert (Hst : Startup.srv_store demo_server = Startup.UseMemory (30 * Second))
    by (vm_compute; reflexivity).
  destruct (deployed_artifact_is_asserted demo_process demo_server (30 * Second) Scenario.t0
    demo_tape Network acts_poll 4 final_response demo_artifact demo_started Hst
    (proj1 demo_completes) (proj2 demo_completes))
    as (r & req & s & ident & secret & _ & _ & _ & _ & _ & _ & _ & Ha & He & _).
  exists s, ident. split; [exact Ha|exact He].
Defined.
