(* ===== verification/RedisDeploy.v ===== *)
(** The broker as the command deploys it with a shared Redis and an OIDC
    provider: the counterpart of [Deployment] for [--redis-addr].  What is
    asked of the libraries is that an ID token's claims are what a JSON
    document decodes to, and that generated verifiers are text. *)

From S2P Require Import Prelude GoStrings GoUtf8 GoTime GoCrypto GoFormat GoJson GoMarshal GoUrl UserCode.
From S2P Require Import Pkce Session SessionJson Fsm FsmSpec FsmTrace Store Redis Wire Http ClientIP.
From S2P Require Import ClientAuth Detect RateLimit Prog Broker Handlers System Justify Safety.
From S2P Require Import Faithful Shared RedisBroker.
From S2P Require Oidc Saml Main Startup Scenario RedisDemo.
From S2P Require Import Deployment DeployDemo.

Local Open Scope list_scope.

(** base64url verifiers; tokens are JSON. *)
Class OAuthText (Net : Type) `{Oidc.OAuth Net} := {
  GenerateVerifier_text : ∀ t, ValidString (Oidc.GenerateVerifier t).1 = true;
  Verify_text : ∀ v now raw n tok n', Oidc.verifier_Verify v now raw n = (Ok tok, n') →
    ValidString (Oidc.it_Subject tok) = true ∧
    ∀ cl, Oidc.it_Claims tok = Some cl → exact_claims cl ∧ claims_printable cl ∧
      Z.of_nat (@nesting _ _ claims_laws cl) + 2 ≤ maxNestingDepth;
}.

(** The OIDC provider hands the store nothing that JSON would change. *)
Definition Oidc_faithful {Net : Type} {loc : Location} {OA : Oidc.OAuth Net} {OT : OAuthText Net}
    (q : Oidc.Provider) :
  @FaithfulIdP Net (Oidc.Oidc_Provider q) loc.
Proof.
  constructor.
  - intros now s t n r s' t' n' Hs Hb. cbn in Hb. unfold Oidc.oidc_BeginLogin, Oidc.NewPKCEPair in Hb.
    pose proof (GenerateVerifier_text t) as H1. destruct (Oidc.GenerateVerifier t) as [v1 t1].
    pose proof (GenerateVerifier_text t1) as H2. destruct (Oidc.GenerateVerifier t1) as [v2 t2].
    pose proof (GenerateVerifier_text t2) as H3. destruct (Oidc.GenerateVerifier t2) as [v3 t3].
    simplify_eq/=. pose proof (ft_texts s Hs) as Ht. unfold valid_texts, texts in *.
    rewrite !list.Forall_cons in *. destruct_and?. by split_and!.
  - intros now r s n ident n' Hc. apply Oidc.oidc_accepts in Hc
      as (_ & _ & _ & raw & n1 & tok & cl & _ & _ & Hv & _ & Hcl & _ & _ & Hid & Hsub & Hcls).
    destruct (Verify_text _ _ _ _ _ _ Hv) as [Hst Hct]. destruct (Hct cl Hcl) as (Hx & Hp & Hn).
    constructor; rewrite ?Hcls; [|done..]. unfold valid_texts. rewrite !list.Forall_cons, Hsub.
    split; [done|]. split; [|done]. destruct (Hx _ _ Hid) as [_ Hval]. injection Hval as Hval.
    by apply ValidString_to_valid.
Defined.

Section RedisDeploy.
Context {Net R : Type} {RL : RateLimiter} {OA : Oidc.OAuth Net} {OT : OAuthText Net}.
Context {XC : Saml.X509} {SP : Saml.SamlSP Net} {loc : Location} {UC : UnicodeCase}.
Context `{RedisLaws R}.
Variable pr : Startup.process.

(** C5: the broker the command starts with Redis and an OIDC provider: in
    every interleaving of the store's commands, an artifact is handed only to
    a poll with the verifier of a session that passed the configured gates,
    was approved from the browser that logged in, and whose identity an ID
    token of the configured issuer asserted, with the session's state and
    nonce. *)
Theorem deployed_redis_artifact_is_asserted srv rd q now t net (r0 : R) acts i rw a :
  Startup.start pr = Startup.Serve srv →
  Startup.srv_store srv = Startup.UseRedis rd → Startup.srv_idp srv = Startup.OidcProvider q →
  let store := Redis_Store (rd_keyPrefix rd) in
  let idp := Oidc.Oidc_Provider q in
  let laws := Oidc.Oidc_Laws q in
  let b := New (Startup.srv_config srv) now t r0 net in
  let final := r_exec b.1 (rd_keyPrefix rd) acts (r_init b.2) in
  current_clock b.1 (rd_keyPrefix rd) acts (r_init b.2) →
  (∀ r vc, authenticate_client b.1 r = Ok vc → ValidString vc = true) →
  (∀ e r, Arrive e r ∈ acts → text_address b.1 e r) →
  (∀ id, db r0 !! key (rd_keyPrefix rd) id = None) →
  r_response final i = Some rw → artifact_in rw = Some a →
  rd_keyPrefix rd = "xdauth:session:" ∧
  ∃ r req s ident secret,
    serves (r_hist final) i PollEndpoint r ∧ decode_pollRequest r = Some req ∧
    pq_SessionID req = ID s ∧ CodeChallenge s = s256 (pq_CodeVerifier req) ∧
    started b.1 (r_hist final) s ∧ logged_in b.1 (r_hist final) s ident secret ∧
    approved_by (r_hist final) s ∧
    asserted pr (Startup.OidcProvider q) (r_hist final) s ident ∧
    a = artifact_of ident s (ArtifactTTL b.1).
Proof.
  intros Hstart Hst Hidp store idp laws b final Hz Hn Ha Hf Hr Hart.
  pose proof (Oidc_faithful q) as Hfaith.
  assert (Hint : is_int64 (PollInterval b.1)) by (by eapply Startup.start_interval64).
  pose proof (final_inv b.1 (rd_keyPrefix rd) Hint Hn b.2 Hf acts Ha Hz) as [_ Hts _].
  assert (Hc : claim b.1 i (r_hist final) rw).
  { unfold r_response in Hr. destruct (r_threads final !! i) as [[[rw'| |]|]|] eqn:Ht; try done.
    injection Hr as ->. exact (Hts i _ Ht). }
  destruct (claim_checked b.1 i _ rw a Hc Hart)
    as (r & req & s & ident & secret & Hs & Hd & Hid & _ & Hv & Hsta & Hl & Hap & ->).
  split; [by eapply Startup.start_prefix|].
  exists r, req, s, ident, secret. split_and!; try done.
  destruct Hl as (j & e & r' & s0 & Hs0 & He & Hck & Hp & Ho & _).
  destruct (r_performed_IdPComplete b.1 (rd_keyPrefix rd) acts b.2 j r' s0 _ Hp) as (u & n & n' & Hcl).
  exists j, e, r', s0, u, n, n'. split_and!; try done. by apply Oidc.oidc_accepts.
Qed.

End RedisDeploy.

(** ** The login of [DeployDemo], over Redis *)
#[local] Existing Instance Scenario.demo_bucket.
#[local] Existing Instance Scenario.demo_case.
#[local] Existing Instance Scenario.demo_zone.

#[local] Instance demo_text : OAuthText network.
Proof.
  constructor.
  - intros t. cbn. destruct (rand_Read 32 t) as [[bs|] t']; [|done]. apply ascii_valid, RawURL_ascii.
  - intros v now raw n tok n' Hv. cbn in Hv. simplify_eq/=. split; [done|]. intros cl Hcl.
    simplify_eq/=.
    split; [|split; [|vm_compute; congruence]];
      intros k x Hk; unfold demo_claims in Hk;
      apply lookup_insert_Some in Hk as [[<- <-]|[_ Hk]]; try by split.
    + apply lookup_singleton_Some in Hk as [<- <-]. by split.
    + apply lookup_singleton_Some in Hk as [<- <-]. done.
Qed.

Definition redis_process : Startup.process (Net := network) := {|
  Startup.pr_env := Startup.pr_env demo_process;
  Startup.pr_flags := Startup.mkFlags {["redis-addr" := "redis:6379"]} ∅;
  Startup.ReadFile := Startup.ReadFile demo_process;
  Startup.pr_start := Startup.pr_start demo_process;
  Startup.pr_oidc := Startup.pr_oidc demo_process;
  Startup.pr_saml := [];
|}.

Definition redis_server : Startup.server (Net := network) :=
  match Startup.start redis_process with Startup.Serve srv => srv | _ => demo_server end.

Lemma redis_started : Startup.start redis_process = Startup.Serve redis_server.
Proof.
  assert (H : serves_requests (Startup.start redis_process) = true) by (vm_compute; reflexivity).
  unfold redis_server. by destruct (Startup.start redis_process).
Qed.

Definition redis_store : Redis.Redis Startup.redisOptions :=
  NewRedis (mkRedisConfig (Startup.mkRedisOptions "redis:6379" "") "").

Definition redis_provider : Oidc.Provider (Net := network) :=
  match Startup.srv_idp redis_server with
  | Startup.OidcProvider q => q
  | Startup.SamlProvider _ => Oidc.mkProvider (Oidc.mkOidcConfig "" "" "" "" [] "" [])
      (Oidc.mkOauth2Config "" "" "" "" []) ""
  end.

#[local] Instance redis_idp : IdentityProvider network := Oidc.Oidc_Provider redis_provider.
#[local] Instance redis_calls : Store Server := Redis_Store (rd_keyPrefix redis_store).

Definition redis_broker : Config * World Server network :=
  New (Startup.srv_config redis_server) Scenario.t0 demo_tape empty_server Network.

Definition acts_redis : list action := RedisDemo.by_command acts_poll.

Notation redis_final := (r_exec redis_broker.1 (rd_keyPrefix redis_store) acts_redis (r_init redis_broker.2)).

Definition redis_response : ResponseWriter := default new_writer (r_response redis_final 4).

Lemma redis_completes :
  r_response redis_final 4 = Some redis_response ∧ artifact_in redis_response = Some demo_artifact.
Proof. vm_compute. by split. Qed.

Lemma deploy_addresses e r : Arrive e r ∈ acts_redis → text_address redis_broker.1 e r.
Proof.
  assert (H : forallb (λ a, match a with
      | Arrive _ r => ValidString (resolveClientIP r (TrustedProxies redis_broker.1))
      | _ => true end) acts_redis = true) by (vm_compute; reflexivity).
  intros Hin _. rewrite forallb_forall in H. apply list_elem_of_In in Hin. exact (H _ Hin).
Qed.

Lemma redis_names r vc : authenticate_client redis_broker.1 r = Ok vc → ValidString vc = true.
Proof. intros H. assert (vc = "") as -> by (vm_compute in H; congruence). reflexivity. Qed.

Lemma deployed_redis_artifact_is_asserted_witness :
  ∃ s ident, asserted redis_process (Startup.OidcProvider redis_provider) (r_hist redis_final) s ident ∧
    demo_artifact = artifact_of ident s (ArtifactTTL redis_broker.1).
Proof.
  assert (Hst : Startup.srv_store redis_server = Startup.UseRedis redis_store)
    by (vm_compute; reflexivity).
  assert (Hidp : Startup.srv_idp redis_server = Startup.OidcProvider redis_provider)
    by (unfold redis_provider; vm_compute; reflexivity).
  destruct (deployed_redis_artifact_is_asserted redis_process redis_server redis_store redis_provider
    Scenario.t0 demo_tape Network empty_server acts_redis 4 redis_response demo_artifact redis_started
    Hst Hidp (λ _ _, RedisDemo.utc_current _ _) redis_names deploy_addresses (RedisDemo.redis_fresh)
    (proj1 redis_completes) (proj2 redis_completes))
    as (_ & r & req & s & ident & secret & _ & _ & _ & _ & _ & _ & _ & Ha & He).
  exists s, ident. split; [exact Ha|exact He].
Defined.
